(* ===== verification/_CoqProject ===== *)
-Q . S2P
Prelude.v
CBase.v
Frame.v
Fleet.v
HttpConn.v
HttpParse.v
HttpSpec.v
HttpReply.v
ThreadPool.v
Proactor.v
ServerLoop.v
WebBench.v
WebBenchRun.v
WebBenchServer.v
WebBenchSocket.v
MsgNode.v
SendQueue.v
SendThreads.v
PoolServer.v
Singleton.v
IOPool.v
PoolProgram.v
Logic.v
Callback.v
JsonClient.v
EchoServer.v
EchoSystem.v
CoroServer.v
Receiver.v
SessionSystem.v
ClientSystem.v
HttpBeast.v
HttpSystem.v
WebSocket.v
WsSystem.v
DemoSession.v
SyncDemo.v
ApiExample.v
