(* ===== verification/Prelude.v ===== *)
(** * Backend-lab: a verification library for the server programs

    The repository holds six small server programs under [src/], numbered from
    [1. Proactor] to [6. WebSocketServer], and the libraries they use under
    [src/thirdparty].  Each program is modelled on its own; what they share (the C
    base, frames, nodes, send queues) is a file of its own, and what one part
    promises to another is a class its client is proved against.

    ** The parts and the files

    - [Prelude]: results of C++ code ([res]), lists written in place ([blit]),
      sums over threads, locks, tactics, hints.
    - [CBase]: machine integers, [<string.h>] on arrays, decimals.

    [1. Proactor]: one thread runs the epoll loop and reads and writes the
    sockets; worker threads parse the requests.
    - [HttpConn] ([http_conn.h], [http_conn.cpp]): the object, its layout, [init],
      [closeconn], [read].
    - [HttpParse]: [parse_line] to [process_read] and [do_request];
      [HttpSpec]: what they do.
    - [HttpReply]: [add_response] to [process_write], [write], [process].
    - [ThreadPool] ([threadpool.h], [locker.h]): workers, callers and destructor as
      a step relation [step], one step per statement on the shared state.
    - [Proactor] ([main.cpp]): one event ([handle]) and a batch of them, composing
      all of the above; [ServerLoop]: events and workers in any order,
      and [main] before and around its loop.
    - [WebBench] ([webbench-1.5/webbench.c], the benchmark client beside it): the
      command line, the request, the loop of a child, the parent's sums;
      [WebBenchRun]: [bench] and [main]; [WebBenchServer]: its requests at the
      server; [WebBenchSocket] ([socket.c]): how a child connects, and the descriptors
      it leaves open.

    [2. AsyncServer]:
    - [EchoServer] ([inc/AsyncServer.h], [src/AsyncServer.cpp]): the echo session and
      its server, driven by events in any order; [EchoSystem]: [main] with all its
      sessions.
    - [DemoSession] ([inc/Session.h], [src/Session.cpp]): three ways to write, two
      to read, and a socket that splits writes and fails.
    - [SyncDemo] ([src/syncserver.cpp], [src/syncclient.cpp]), [ApiExample]
      ([src/apiexample.cpp], [src/main.cpp]): blocking code on the list of its answers.

    [3. AsyncServerIOservicepool] and [4. CoroutineAsyncServer]:
    - [PoolServer] (3, [Session.cpp]) and [CoroServer] (4, [Session.cpp]): the
      session with callbacks and with a coroutine.
    - [Singleton] ([Singleton.h], the same in both): [GetInstance] by any number
      of threads.
    - [IOPool]: the pools of both, and [Server.cpp], the same in both;
      [PoolProgram]: [main] of both.
    - [Logic], [Callback] ([logicsystem.cpp], the same in both): the queue and its
      threads; the callback that answers a message.
    - [JsonClient] ([JsonClient.cpp], the same in both): the client, composed with
      the session and the logic system.
    - [Receiver]: what a session promises of its reading, and that both do;
      [SessionSystem]: the whole server, any number of sessions with the queue they
      share, proved against the promise; [ClientSystem]: JSON clients at that server.

    [HttpBeast], [HttpSystem]: [5. HTTPserver/src/beast_http.cpp], its connections and
    the server that accepts them.  [WebSocket]:
    [6. WebSocketServer], [Connection.cpp], [ConnectionMgr.cpp], [Server.cpp];
    [WsSystem]: [main] with all its connections.

    Shared: [Frame] (byte order; [FrameFormat], what a frame format promises, and
    [cut], the messages in a byte stream, specified against the promise;
    instances in [EchoServer], [PoolServer], [CoroServer]), [MsgNode] (the message
    nodes of 2, 3 and 4), [SendQueue] (what a queue of writes promises and the
    order it keeps; instances in [EchoServer], [PoolServer], [WebSocket]),
    [SendThreads] ([Send] and the completion handler of 2, 3, 4 and 6, statement by
    statement, under the mutex of the queue), [Fleet] (many connections on one
    thread, each a [Service], and the table of their sessions; instances in
    [EchoSystem], [WsSystem]).
    [IOPool.ServicePool], [PoolProgram.PoolProgram], [Receiver.Receiver] and
    [Callback.Json] are the interfaces of the pools, of the pools as [main] uses them,
    of the sessions (with [ClientSystem.FrameReceiver]) and of the JSON library.

    ** How the code is represented

    A function of the source is a definition of the same name.  State is passed
    explicitly; an object is a record, a pointer into a buffer an offset, a shared
    node an index.  [Ok] is a normal return, [UB] undefined behaviour (an access
    outside an object, a signed overflow), an inner [None] an exception.  What a
    call on the kernel or on asio answers is an argument (a list where the code
    loops on it); what a handler starts is part of its result, as an [action] or
    [op].  The system around the handlers is a list of events ([EchoServer],
    [EchoSystem], [WebSocket], [WsSystem], [DemoSession], [HttpSystem], [SessionSystem],
    [PoolProgram]) or a step relation ([ThreadPool], [Logic], [Singleton],
    [SendThreads]).  Integers a peer can set are [Z]
    at their width, with
    every conversion written out; indices that are proved to stay inside a buffer
    are [nat].

    ** What the theorems show

    - A request to 1: [process_read_request] and [process_request] give the answer
      of a whole request as a function of its text, [process_read_incremental] that
      it does not matter how it is split, [process_read_safe] and
      [process_read_total] that the parser stays in its buffer and ends,
      [parse_line_spec], [parse_request_line_spec], [parse_headers_spec],
      [do_request_spec] what its parts accept; [write_spec], [write_whole] and
      [write_truncates] when a reply arrives whole; [serve_one_request] puts them
      together with the event loop, and [program_safe] shows that nothing the
      clients do takes the event loop out of its arrays and buffers.
      [bad_request_answered] is the answer to any other request line.
    - The benchmark client: [build_request_direct] and [build_request_bounds] are the
      request it sends and the hosts its arrays hold, [benchmark_totals] the counts it
      prints, [bench_http11_served] and [bench_http10_rejected] what server 1
      makes of it, [socket_leak] the address it connects to and what refused
      connections cost it.
    - Bytes to messages: [receive_cut], [coroutine_cut] and [echo_fifo] show that
      the sessions of 3, 4 and 2 are implementations of [cut], [receive_messages]
      the round trip; [coroutine_length_minus_one] a head that is fatal to 4.
    - Messages to bytes: [send_fifo], [echo_fifo], [ws_fifo], [queue_in_order]: one
      write at a time, each message once and in order; [send_threads_refine] that this
      holds for the threads and the mutex of the code; [echo_complete] that all of
      them go out; [write_failure_mute] what a failed write leaves.
    - Messages to answers: [requests_answered] and [exchange], from the line typed
      at the client to the line it prints.
    - The servers of 3 and 4 at work: [server_fifo], every client gets the answers
      to its own messages in order whatever interleaves and fails;
      [server_answers], all of them when nothing fails; [server_terminates], the
      server comes to rest; [clients_served] adds the clients: each prints the
      replies to its own lines.  [http_server_serves] is the same for 5: the responses
      on all connections are those of one sequence of requests.
      [echo_server_serves] and [ws_server_serves] are the servers of 2 and 6: every
      connection goes the way it goes alone, accepting goes on, and the map of
      sessions is right; [echo_server_completes] finishes whatever was begun.
    - Threads: [pool_fifo] and [logic_fifo] (nothing lost, twice or reordered under
      every interleaving), [logic_refines] (the logic system is a queue that posts
      and handles atomically, which [SessionSystem] takes it to be),
      [singleton_once] (one object, made once), [pool_progress] and
      [logic_progress] (no lost wake-up),
      [stop_lost] (the destructor of the logic system can lose its own),
      [Stop_spec] (when stopping a pool returns) and [pool_programs_stop] (when the
      programs end).
    - Lifetimes: [init_spec], [read_spec], [sessions_spec], [deadline].

    The other theorems of the files describe errors and limits in the same way
    (for instance [write_overlap], [sync_limits], [readers_no_return],
    [pool_over_max], [SendCallBack_dangling]).

    ** Fuel and bounds

    - [process_read_loop] gets [READ_BUFFER_SIZE + 3] turns; each consumes a byte
      or enters the body state ([process_read_total]).
    - On a stream of [n] bytes [receive] gets [2 n + 2] turns, [coroutine] and [cut]
      [n + 1]: two handlers, or one turn, take a head at least; [receive_cut] and
      [coroutine_cut] prove that a result is returned.
    - [write_loop], [write_to_socket] and the other loops on answers of the kernel
      recurse on the list of answers; [write_terminates] bounds how many are used.
    - [print_digits] prints at most 20 digits, enough for 64 bits.
    - [run_append] runs the five steps of one call of [append].
    - [finish_all] gives every echo session the [read_work] reads it has left and 1001
      writes, the longest queue ([echo_server_completes]).

    ** Not modelled

    - Set-up without logic: the listening sockets of 2 to 6; [cond] of [locker.h],
      one-line wrappers of pthread calls that no program uses.
    - The rates [bench] prints (floating point); [src/thirdparty].
    - In [SessionSystem] a handler is one step.  [SendThreads] justifies this for [Send]
      and [HandleWrite], but the close flag and the map of sessions, which the code
      shares without a mutex, are not raced for.
    - Output to the console, except where it reads a buffer.
    - The kernel and the libraries: epoll, sockets, [stat] and [mmap], asio, beast
      and jsoncpp are the arguments named above, with their documented behaviour as
      hypotheses where a theorem needs it. *)

From stdpp Require Export base tactics list sets relations strings numbers gmap.
From stdpp Require Import options.
From Stdlib Require Export ZArith Lia Ascii.

(** The [string] notations of the Standard Library, used for literals only. *)
Export String.StringSyntax.

Declare Scope backend_scope.
Delimit Scope backend_scope with backend.
Global Open Scope backend_scope.

(** ** Results of C++ code

    [Ok a] is a normal return.  [UB] is what the C++ standard leaves
    undefined: an access outside an object or a signed overflow.  [OutOfFuel]
    is a loop whose fuel ran out; every fuelled loop of the development comes
    with a theorem that excludes it. *)
Inductive res (A : Type) : Type :=
| Ok (a : A)
| UB
| OutOfFuel.
Arguments Ok {A} a.
Arguments UB {A}.
Arguments OutOfFuel {A}.

Definition res_bind {A B} (x : res A) (f : A -> res B) : res B :=
  match x with
  | Ok a => f a
  | UB => UB
  | OutOfFuel => OutOfFuel
  end.

Definition of_option {A} (o : option A) : res A :=
  match o with
  | Some a => Ok a
  | None => UB
  end.

Notation "'let*' x ':=' e 'in' k" := (res_bind e (fun x => k))
  (at level 10, x name, e at level 200, k at level 200) : backend_scope.
Notation "'let*' ' p ':=' e 'in' k" :=
  (res_bind e (fun x => match x with p => k end))
  (at level 10, p pattern, e at level 200, k at level 200) : backend_scope.

#[export] Instance res_eq_dec {A} `{EqDecision A} : EqDecision (res A).
Proof. solve_decision. Defined.

Lemma res_bind_Ok {A B} (a : A) (f : A -> res B) : res_bind (Ok a) f = f a.
Proof. reflexivity. Qed.

Lemma res_bind_Ok_inv {A B} (x : res A) (f : A -> res B) b :
  res_bind x f = Ok b -> exists a, x = Ok a /\ f a = Ok b.
Proof. destruct x; simpl; [eauto | discriminate..]. Qed.

Lemma res_bind_assoc {A B C} (x : res A) (f : A -> res B) (g : B -> res C) :
  res_bind (res_bind x f) g = res_bind x (fun a => res_bind (f a) g).
Proof. by destruct x. Qed.

Lemma res_bind_fuel {A B} (x : res A) (f : A -> res B) :
  x <> OutOfFuel -> (forall a, x = Ok a -> f a <> OutOfFuel) ->
  res_bind x f <> OutOfFuel.
Proof. destruct x; simpl; auto. Qed.

Lemma of_option_fuel {A} (o : option A) : of_option o <> OutOfFuel.
Proof. by destruct o. Qed.

(** Splits a hypothesis [res_bind x f = Ok b] into its two successful halves,
    repeatedly. *)
Ltac invert_res :=
  repeat match goal with
  | H : res_bind _ _ = Ok _ |- _ =>
      apply res_bind_Ok_inv in H; destruct H as (? & ? & H)
  | H : Ok _ = Ok _ |- _ => injection H as H
  | H : UB = Ok _ |- _ => discriminate H
  | H : OutOfFuel = Ok _ |- _ => discriminate H
  | H : (_, _) = (_, _) |- _ => injection H as H
  end; simplify_eq.

(** ** Lists written in place

    [blit i d l] is [memcpy (l + i, d)] on a buffer [l]: the bytes of [d]
    replace those of [l] from index [i]; what would fall outside is dropped
    (the callers check the bounds first). *)
Definition blit {A} (i : nat) (d l : list A) : list A :=
  take (length l) (take i l ++ d ++ drop (i + length d) l).

Section blit.
Context {A : Type}.
Implicit Types (d l : list A) (i j : nat).

Lemma blit_in_range i d l :
  i + length d <= length l ->
  blit i d l = take i l ++ d ++ drop (i + length d) l.
Proof.
  intros. unfold blit. apply take_ge.
  rewrite !length_app, length_take, length_drop. lia.
Qed.

Lemma length_blit i d l : i <= length l -> length (blit i d l) = length l.
Proof.
  intros. unfold blit.
  rewrite length_take, !length_app, length_take, length_drop. lia.
Qed.

Lemma lookup_blit_lt i d l j : j < i -> blit i d l !! j = l !! j.
Proof.
  intros. destruct (decide (j < length l)) as [Hj|Hj].
  - unfold blit. rewrite lookup_take_lt by lia.
    rewrite lookup_app_l by (rewrite length_take; lia).
    by rewrite lookup_take_lt by lia.
  - rewrite !lookup_ge_None_2; [done | lia |].
    unfold blit. rewrite length_take. lia.
Qed.

Lemma lookup_blit_ge i d l j :
  i + length d <= length l -> i + length d <= j ->
  blit i d l !! j = l !! j.
Proof.
  intros. rewrite blit_in_range by lia.
  rewrite lookup_app_r by (rewrite length_take; lia).
  rewrite lookup_app_r by (rewrite length_take; lia).
  rewrite lookup_drop, length_take. f_equal. lia.
Qed.

Lemma blit_nil i l : blit i [] l = l.
Proof.
  unfold blit. simpl. rewrite Nat.add_0_r, take_drop. by apply take_ge.
Qed.

Lemma take_blit i d l :
  i + length d <= length l -> take (i + length d) (blit i d l) = take i l ++ d.
Proof.
  intros. rewrite blit_in_range, app_assoc by lia. apply take_app_length'.
  rewrite length_app, length_take. lia.
Qed.

Lemma blit_app i d1 d2 l :
  i + length d1 + length d2 <= length l ->
  blit (i + length d1) d2 (blit i d1 l) = blit i (d1 ++ d2) l.
Proof.
  intros.
  assert (length (blit i d1 l) = length l) as Hl by (apply length_blit; lia).
  rewrite (blit_in_range (i + length d1)) by lia.
  rewrite take_blit by lia.
  rewrite (blit_in_range i (d1 ++ d2)) by (rewrite length_app; lia).
  rewrite <- !app_assoc. do 3 f_equal.
  rewrite length_app, (blit_in_range i d1), app_assoc by lia.
  rewrite drop_app_ge by (rewrite length_app, length_take; lia).
  rewrite length_app, length_take, drop_drop. f_equal. lia.
Qed.

Lemma insert_blit i j x d l :
  j < i -> i + length d <= length l ->
  <[j := x]> (blit i d l) = blit i d (<[j := x]> l).
Proof.
  intros. rewrite !blit_in_range by (rewrite ?length_insert; lia).
  rewrite insert_app_l by (rewrite length_take; lia).
  rewrite take_insert_lt by lia. by rewrite drop_insert_lt by lia.
Qed.
End blit.

(** ** Weighted sums over the threads of a system

    [weight f l] adds [f] over the list of the threads' states; a thread that
    moves changes the sum by the difference of its two weights. *)
Definition weight {A} (f : A -> nat) (l : list A) : nat := foldr (fun a n => f a + n) 0 l.

Section weight.
Context {A : Type} (f : A -> nat).
Implicit Types (l : list A) (a b : A) (i : nat).

Lemma weight_insert l i a b :
  l !! i = Some a -> weight f (<[i := b]> l) + f a = weight f l + f b.
Proof.
  revert i. induction l as [|x l IH]; intros [|i] Hi; unfold weight in *; simplify_eq/=.
  - simpl. lia.
  - specialize (IH i Hi). simpl. lia.
Qed.

Lemma weight_lookup l i a : l !! i = Some a -> f a <= weight f l.
Proof.
  revert i. induction l as [|x l IH]; intros [|i] Hi; unfold weight in *; simplify_eq/=.
  - simpl. lia.
  - specialize (IH i Hi). simpl. lia.
Qed.

Lemma weight_pos l : 0 < weight f l -> exists i a, l !! i = Some a /\ 0 < f a.
Proof.
  induction l as [|x l IH]; unfold weight in *; simpl; [lia|]. intros H.
  destruct (decide (0 < f x)); [by exists 0, x|].
  destruct IH as (i & a & Hi & Ha); [lia|]. by exists (S i), a.
Qed.

Lemma weight_replicate n a : weight f (replicate n a) = n * f a.
Proof. induction n as [|n IH]; unfold weight in *; simpl; [done|]. rewrite IH. done. Qed.
End weight.

(** A lookup in the updated list of threads: the thread that moved or another
    one. *)
Ltac moved H :=
  match type of H with
  | <[?i := _]> ?l !! ?j = Some _ =>
      destruct (decide (i = j)) as [->|];
      [ rewrite list_lookup_insert_eq in H by (by eapply lookup_lt_Some)
      | rewrite list_lookup_insert_ne in H by done ]
  end; simplify_eq/=.

(** A thread [t] that moves between two control points, [c] and [c'] saying
    whether they are inside the critical section: it keeps, takes or releases
    the lock. *)
Definition lock_move {T} (t : T) (c c' : bool) (l l' : option T) : Prop :=
  (c' = c /\ l' = l) \/ (l = None /\ l' = Some t /\ c' = true)
  \/ (l = Some t /\ l' = None /\ c' = false).

Lemma lock_move_self {T} (t : T) c c' l l' :
  lock_move t c c' l l' -> (c = true <-> l = Some t) -> (c' = true <-> l' = Some t).
Proof.
  intros [[-> ->]|[(-> & -> & ->)|(-> & -> & ->)]]; [done|..]; intros _; by split.
Qed.

Lemma lock_move_other {T} (t u : T) c c' l l' b :
  lock_move t c c' l l' -> t <> u -> (b = true <-> l = Some u) -> (b = true <-> l' = Some u).
Proof.
  intros [[-> ->]|[(-> & -> & ->)|(-> & -> & ->)]] Hne; [done|..]; intros H.
  - split; [intros Hb; by apply H in Hb | intros [= ->]; done].
  - split; [intros Hb; apply H in Hb; congruence | done].
Qed.

Create Rewrite HintDb len.
#[export] Hint Rewrite @length_app @length_take @length_drop @length_insert
  @length_replicate @length_cons @length_map @length_fmap : len.

(** Length goals: normalise, then [lia]. *)
Ltac len := autorewrite with len in *; simpl in *; lia.

Create HintDb backend.
