(* ===== verification/CBase.v ===== *)
(** * The C and C++ base the programs are written in

    Machine integers at their width, [char] buffers as [list ascii], and the
    [<string.h>] / [<strings.h>] / [<stdlib.h>] functions the sources call,
    each with its list-level specification.  A C string function reads from a
    pointer up to the first NUL; running off the object it points into is
    [UB].  The locale is the C locale, integers are those of the x86-64
    System V ABI. *)

From S2P Require Import Prelude.

Abbreviation char := ascii (only parsing).

Definition NUL : char := "000"%char.
Definition TAB : char := "009"%char.
Definition LF : char := "010"%char.
Definition CR : char := "013"%char.
Definition SP : char := " "%char.
Definition SLASH : char := "/"%char.

(** A string literal as the bytes of the array, without its final NUL. *)
Definition lit (s : String.string) : list char := String.list_ascii_of_string s.

#[global] Arguments lit : simpl never.

Definition CRLF : list char := [CR; LF].

(** ** Integers *)
Section Integers.
Local Open Scope Z_scope.

Definition INT_MAX : Z := 2147483647.
Definition INT_MIN : Z := -2147483648.
Definition LONG_MAX : Z := 9223372036854775807.
Definition LONG_MIN : Z := -9223372036854775808.

(** Conversion to [w]-bit unsigned and two's complement signed integers. *)
Definition wrap_u (w z : Z) : Z := z mod 2 ^ w.
Definition wrap_s (w z : Z) : Z := (z + 2 ^ (w - 1)) mod 2 ^ w - 2 ^ (w - 1).

Definition to_int : Z -> Z := wrap_s 32.
Definition to_short : Z -> Z := wrap_s 16.
Definition to_uint16 : Z -> Z := wrap_u 16.

(** [int] addition: signed overflow is undefined. *)
Definition int_add (a b : Z) : res Z :=
  if decide (INT_MIN <= a + b <= INT_MAX) then Ok (a + b) else UB.

Lemma pow2_half w : 0 < w -> 2 ^ w = 2 * 2 ^ (w - 1).
Proof. intros. rewrite <- Z.pow_succ_r by lia. f_equal. lia. Qed.

Lemma wrap_s_id w z : 0 < w -> - 2 ^ (w - 1) <= z < 2 ^ (w - 1) -> wrap_s w z = z.
Proof.
  intros Hw Hz. unfold wrap_s.
  rewrite Z.mod_small; [lia | rewrite (pow2_half w Hw); lia].
Qed.

Lemma wrap_s_range w z : 0 < w -> - 2 ^ (w - 1) <= wrap_s w z < 2 ^ (w - 1).
Proof.
  intros Hw. unfold wrap_s. pose proof (pow2_half w Hw).
  pose proof (Z.mod_pos_bound (z + 2 ^ (w - 1)) (2 ^ w)). lia.
Qed.

Lemma wrap_u_id w z : 0 <= z < 2 ^ w -> wrap_u w z = z.
Proof. intros. unfold wrap_u. by apply Z.mod_small. Qed.

Lemma wrap_s_wrap_u w z : 0 < w -> wrap_s w (wrap_u w z) = wrap_s w z.
Proof. intros. unfold wrap_s, wrap_u. by rewrite Zplus_mod_idemp_l. Qed.

Lemma wrap_u_wrap_s w z : 0 < w -> wrap_u w (wrap_s w z) = wrap_u w z.
Proof.
  intros. unfold wrap_s, wrap_u.
  rewrite Zminus_mod_idemp_l. f_equal. lia.
Qed.

Lemma to_int_id z : INT_MIN <= z <= INT_MAX -> to_int z = z.
Proof. unfold INT_MIN, INT_MAX. intros. apply wrap_s_id; lia. Qed.

Lemma to_short_id z : -32768 <= z <= 32767 -> to_short z = z.
Proof. intros. apply wrap_s_id; lia. Qed.

Lemma to_int_range z : INT_MIN <= to_int z <= INT_MAX.
Proof.
  unfold INT_MIN, INT_MAX, to_int.
  pose proof (wrap_s_range 32 z ltac:(lia)) as H. simpl in H. lia.
Qed.

Lemma to_short_range z : -32768 <= to_short z <= 32767.
Proof.
  unfold to_short. pose proof (wrap_s_range 16 z ltac:(lia)) as H.
  simpl in H. lia.
Qed.
End Integers.

(** ** Characters *)
Definition tolower (c : char) : char :=
  let n := N_of_ascii c in
  if decide (65 <= n <= 90)%N then ascii_of_N (n + 32) else c.

Definition isdigit (c : char) : bool :=
  let n := N_of_ascii c in bool_decide (48 <= n <= 57)%N.

(** [isspace] in the C locale: HT, LF, VT, FF, CR and space. *)
Definition isspace (c : char) : bool :=
  let n := N_of_ascii c in bool_decide (9 <= n <= 13 \/ n = 32)%N.

Definition digit_val (c : char) : Z := Z.of_N (N_of_ascii c) - 48.

(** [memcpy(buf + pos, d, length d)] on an array [buf]. *)
Definition put (pos : nat) (d buf : list char) : res (list char) :=
  if decide (pos + length d <= length buf) then Ok (blit pos d buf) else UB.

Lemma put_ok pos d buf : pos + length d <= length buf -> put pos d buf = Ok (blit pos d buf).
Proof. intros H. unfold put. by rewrite decide_True. Qed.

Lemma put_overflow pos d buf : length buf < pos + length d -> put pos d buf = UB.
Proof. intros H. unfold put. rewrite decide_False; [done | lia]. Qed.

(** ** C strings

    [s] is the memory from the pointer to the end of the object. *)
Fixpoint cstr (s : list char) : option (list char) :=
  match s with
  | [] => None
  | c :: s' => if decide (c = NUL) then Some [] else cons c <$> cstr s'
  end.

(** [strpbrk(s, accept)]: the offset of the first byte that is in [accept]. *)
Fixpoint strpbrk (s accept : list char) : res (option nat) :=
  match s with
  | [] => UB
  | c :: s' =>
      if decide (c = NUL) then Ok None
      else if decide (c ∈ accept) then Ok (Some 0)
      else let* r := strpbrk s' accept in Ok (S <$> r)
  end.

(** [strchr(s, x)] for a byte [x] that is not NUL. *)
Definition strchr (s : list char) (x : char) : res (option nat) := strpbrk s [x].

(** [strspn(s, accept)]; [accept] has no NUL, so the scan stops at one. *)
Fixpoint strspn (s accept : list char) : res nat :=
  match s with
  | [] => UB
  | c :: s' =>
      if decide (c ∈ accept) then let* n := strspn s' accept in Ok (S n)
      else Ok 0
  end.

(** [strcasecmp(s, l) == 0] for a literal [l] (no NUL inside). *)
Fixpoint strcasecmp_eq (s l : list char) : res bool :=
  match s with
  | [] => UB
  | c :: s' =>
      match l with
      | [] => Ok (bool_decide (c = NUL))
      | x :: l' =>
          if decide (tolower c = tolower x) then strcasecmp_eq s' l'
          else Ok false
      end
  end.

(** [strncasecmp(s, l, n) == 0] for a literal [l] of at least [n] bytes. *)
Fixpoint strncasecmp_eq (s l : list char) (n : nat) : res bool :=
  match n with
  | O => Ok true
  | S n' =>
      match s, l with
      | c :: s', x :: l' =>
          if decide (tolower c = tolower x) then strncasecmp_eq s' l' n'
          else Ok false
      | _, _ => UB
      end
  end.

(** [strtol] of base 10 as glibc implements [atol]: white space, a sign,
    digits; a value out of the range of [long] saturates. *)
Fixpoint digits_val (s : list char) (acc : Z) : res Z :=
  match s with
  | [] => UB
  | c :: s' =>
      if isdigit c then digits_val s' (10 * acc + digit_val c) else Ok acc
  end.

Fixpoint atol (s : list char) : res Z :=
  match s with
  | [] => UB
  | c :: s' =>
      if isspace c then atol s'
      else if decide (c = "-"%char)
        then let* v := digits_val s' 0 in Ok (Z.max LONG_MIN (- v))
      else if decide (c = "+"%char)
        then let* v := digits_val s' 0 in Ok (Z.min LONG_MAX v)
      else let* v := digits_val s 0 in Ok (Z.min LONG_MAX v)
  end.

(** [atoi]: [strtol], cut to an [int]. *)
Definition atoi (s : list char) : res Z := let* v := atol s in Ok (to_int v).

(** [strncpy(dst, src, n)]: the [n] bytes it stores. *)
Fixpoint strncpy_bytes (src : list char) (n : nat) : res (list char) :=
  match n with
  | O => Ok []
  | S n' =>
      match src with
      | [] => UB
      | c :: src' =>
          if decide (c = NUL) then Ok (replicate n NUL)
          else let* r := strncpy_bytes src' n' in Ok (c :: r)
      end
  end.

(** ** [printf]'s %d *)
Fixpoint print_digits (fuel : nat) (z : Z) (acc : list char) : list char :=
  match fuel with
  | O => acc
  | S f =>
      let acc' := ascii_of_N (Z.to_N (48 + z mod 10)) :: acc in
      if decide (z / 10 = 0)%Z then acc' else print_digits f (z / 10) acc'
  end.

(** Decimal of a value of at most 64 bits (20 digits). *)
Definition print_Z (z : Z) : list char :=
  if decide (z < 0)%Z then "-"%char :: print_digits 20 (- z) []
  else print_digits 20 z [].

Example print_Z_ex : print_Z (-120) = lit "-120".
Proof. reflexivity. Qed.
Example atol_ex : atol (lit " -42x" ++ [NUL]) = Ok (-42)%Z.
Proof. reflexivity. Qed.
Example strpbrk_ex : strpbrk (lit "GET /a" ++ [NUL]) [SP; TAB] = Ok (Some 3).
Proof. reflexivity. Qed.
Example strcasecmp_ex : strcasecmp_eq (lit "gEt" ++ [NUL; SP]) (lit "GET") = Ok true.
Proof. reflexivity. Qed.

(** ** Decimals read back *)
Section Decimals.
Implicit Types (acc r : list char).
Lemma print_digit d :
  (0 <= d < 10)%Z ->
  let c := ascii_of_N (Z.to_N (48 + d)) in isdigit c = true /\ digit_val c = d.
Proof.
  intros Hd. assert (d = 0 \/ d = 1 \/ d = 2 \/ d = 3 \/ d = 4 \/ d = 5 \/ d = 6 \/ d = 7
    \/ d = 8 \/ d = 9)%Z as H by lia.
  repeat destruct H as [->|H]; [by vm_compute..|subst; by vm_compute].
Qed.

Lemma digits_val_print f z acc r :
  (0 <= z < 10 ^ Z.of_nat f)%Z -> 0 < f ->
  digits_val (print_digits f z acc ++ r) 0 = digits_val (acc ++ r) z
  /\ exists d l, print_digits f z acc = d :: l /\ isdigit d = true.
Proof.
  revert z acc. induction f as [|f IH]; intros z acc Hz Hf; [lia|]. cbn [print_digits].
  pose proof (Z.mod_pos_bound z 10 ltac:(lia)) as Hm.
  destruct (print_digit (z mod 10) Hm) as [Hd Hv]. set (c := ascii_of_N _) in *.
  pose proof (Z.div_mod z 10 ltac:(lia)) as Hdm. case_decide as H0.
  - split; [|by do 2 eexists]. cbn [app digits_val]. rewrite Hd, Hv. f_equal. lia.
  - assert (f <> 0) as Hne.
    { intros ->. change (10 ^ Z.of_nat 1)%Z with 10%Z in Hz. apply H0. apply Z.div_small. lia. }
    assert (0 <= z / 10 < 10 ^ Z.of_nat f)%Z as Hz'.
    { split; [apply Z.div_pos; lia|]. apply Z.div_lt_upper_bound; [lia|].
      replace (10 * 10 ^ Z.of_nat f)%Z with (10 ^ Z.of_nat (S f))%Z; [lia|].
      rewrite Nat2Z.inj_succ, Z.pow_succ_r by lia. lia. }
    destruct (IH (z / 10)%Z (c :: acc) Hz' ltac:(lia)) as [IH1 IH2].
    split; [|done]. rewrite IH1. cbn [app digits_val]. rewrite Hd, Hv. f_equal. lia.
Qed.

(** Decimals read back, in the range of [long]. *)
Lemma atol_print z c r :
  isdigit c = false -> (LONG_MIN <= z <= LONG_MAX)%Z -> atol (print_Z z ++ c :: r) = Ok z.
Proof.
  unfold LONG_MIN, LONG_MAX. intros Hc Hz. unfold print_Z.
  assert (forall y, (0 <= y <= 9223372036854775808)%Z ->
    digits_val (print_digits 20 y [] ++ c :: r) 0 = Ok y
    /\ exists d l, print_digits 20 y [] = d :: l /\ isdigit d = true) as H.
  { intros y Hy. destruct (digits_val_print 20 y [] (c :: r)) as [H1 H2]; [|lia|].
    - change (10 ^ Z.of_nat 20)%Z with 100000000000000000000%Z. lia.
    - rewrite H1. cbn [app digits_val]. by rewrite Hc. }
  case_decide as Hneg.
  - destruct (H (- z)%Z ltac:(lia)) as [H1 _]. cbn [app atol].
    change (isspace "-"%char) with false. cbn iota. rewrite decide_True by done.
    rewrite H1. cbn [res_bind]. f_equal. unfold LONG_MIN. lia.
  - destruct (H z ltac:(lia)) as [H1 (d & l & E & Hd)]. rewrite E in H1 |- *. cbn [app atol].
    assert (isspace d = false /\ d <> "-"%char /\ d <> "+"%char) as (Hs & Hm & Hp).
    { destruct d as [[] [] [] [] [] [] [] []]; vm_compute in Hd; try discriminate;
        split_and!; by vm_compute. }
    rewrite Hs, !decide_False by done. cbn [app] in H1. rewrite H1. cbn [res_bind].
    f_equal. unfold LONG_MAX. lia.
Qed.
End Decimals.

(** ** List-level specifications

    A C string [w] in memory is [w ++ NUL :: r] with no NUL in [w]; the
    functions below then only depend on [w]. *)

(** The index of the first byte of [w] that is in [accept]. *)
Fixpoint find_any (accept w : list char) : option nat :=
  match w with
  | [] => None
  | c :: w' => if decide (c ∈ accept) then Some 0 else S <$> find_any accept w'
  end.

(** The length of the longest prefix of [w] made of bytes of [accept]. *)
Fixpoint span_len (accept w : list char) : nat :=
  match w with
  | [] => 0
  | c :: w' => if decide (c ∈ accept) then S (span_len accept w') else 0
  end.

Definition lower (w : list char) : list char := tolower <$> w.

(** Equality and prefix up to ASCII case. *)
Definition ieq (w l : list char) : bool := bool_decide (lower w = lower l).
Definition iprefix (l w : list char) : bool :=
  bool_decide (lower (take (length l) w) = lower l).

Definition atol_val (w : list char) : Z :=
  match atol (w ++ [NUL]) with Ok v => v | _ => 0 end.

Lemma tolower_NUL c : tolower c = NUL <-> c = NUL.
Proof.
  split; [|intros ->; reflexivity].
  destruct c as [[] [] [] [] [] [] [] []]; vm_compute; intros H; congruence.
Qed.

Section CStringSpecs.
Implicit Types (w r l acc : list char).

Lemma cstr_app w r : NUL ∉ w -> cstr (w ++ NUL :: r) = Some w.
Proof.
  induction w as [|c w IH]; intros Hw; simpl.
  - done.
  - apply not_elem_of_cons in Hw as [Hc Hw].
    rewrite decide_False by congruence. by rewrite IH.
Qed.

Lemma cstr_Some s w : cstr s = Some w -> (NUL ∉ w) /\ exists r, s = w ++ NUL :: r.
Proof.
  revert w. induction s as [|c s IH]; intros w; simpl; [done|].
  case_decide as Hc; intros H.
  - simplify_eq. split; [apply not_elem_of_nil | by exists s].
  - destruct (cstr s) as [w'|] eqn:E; simpl in H; [|done]. simplify_eq.
    destruct (IH w' eq_refl) as [Hn [r ->]].
    split; [apply not_elem_of_cons; split; [congruence|done] | by exists r].
Qed.

Lemma cstr_is_Some s : is_Some (cstr s) <-> NUL ∈ s.
Proof.
  induction s as [|c s IH]; simpl.
  - split; [by intros [? ?] | by intros ?%elem_of_nil].
  - rewrite elem_of_cons. case_decide as Hc; [subst; split; eauto|].
    rewrite fmap_is_Some, IH. split; [by right | by intros [?|?]].
Qed.

Lemma strpbrk_spec acc w r :
  NUL ∉ w -> strpbrk (w ++ NUL :: r) acc = Ok (find_any acc w).
Proof.
  induction w as [|c w IH]; intros Hw; simpl; [done|].
  apply not_elem_of_cons in Hw as [Hc Hw].
  rewrite decide_False by congruence. case_decide; [done|]. by rewrite IH.
Qed.

Lemma strspn_spec acc w r :
  NUL ∉ w -> NUL ∉ acc -> strspn (w ++ NUL :: r) acc = Ok (span_len acc w).
Proof.
  intros Hw Ha. induction w as [|c w IH]; simpl.
  - by rewrite decide_False.
  - apply not_elem_of_cons in Hw as [Hc Hw].
    case_decide; [|done]. by rewrite IH.
Qed.

Lemma strcasecmp_spec l w r :
  NUL ∉ w -> NUL ∉ l -> strcasecmp_eq (w ++ NUL :: r) l = Ok (ieq w l).
Proof.
  revert l. induction w as [|c w IH]; intros [|x l] Hw Hl; simpl.
  - done.
  - apply not_elem_of_cons in Hl as [Hx _].
    rewrite decide_False; [done|]. intros E. symmetry in E.
    change (tolower NUL) with NUL in E. by apply (proj1 (tolower_NUL _)) in E; subst.
  - apply not_elem_of_cons in Hw as [Hc Hw].
    unfold ieq. by rewrite !bool_decide_eq_false_2 by done.
  - apply not_elem_of_cons in Hw as [Hc Hw].
    apply not_elem_of_cons in Hl as [Hx Hl].
    unfold ieq in *. simpl. case_decide as E.
    + rewrite IH by done. f_equal. apply bool_decide_ext.
      unfold lower. simpl. rewrite E. split; congruence.
    + rewrite bool_decide_eq_false_2; [done|].
      unfold lower. simpl. congruence.
Qed.

Lemma strncasecmp_spec l w r :
  NUL ∉ l ->
  strncasecmp_eq (w ++ NUL :: r) l (length l) = Ok (iprefix l w).
Proof.
  revert w. induction l as [|x l IH]; intros [|c w] Hl; simpl; [done..| |].
  - apply not_elem_of_cons in Hl as [Hx _].
    rewrite decide_False; [done|]. intros E. symmetry in E.
    change (tolower NUL) with NUL in E. by apply (proj1 (tolower_NUL _)) in E; subst.
  - apply not_elem_of_cons in Hl as [Hx Hl].
    unfold iprefix in *. simpl. case_decide as E.
    + rewrite IH by done. f_equal. apply bool_decide_ext.
      unfold lower. simpl. rewrite E. split; congruence.
    + rewrite bool_decide_eq_false_2; [done|].
      unfold lower. simpl. congruence.
Qed.

Lemma digits_val_app w r (a : Z) :
  exists v, digits_val (w ++ NUL :: r) a = Ok v
    /\ forall r', digits_val (w ++ NUL :: r') a = Ok v.
Proof.
  revert a. induction w as [|c w IH]; intros a; simpl; [eauto|].
  destruct (isdigit c); eauto.
Qed.

Lemma atol_app w r : atol (w ++ NUL :: r) = Ok (atol_val w).
Proof.
  unfold atol_val. induction w as [|c w IH]; [done|]. simpl.
  destruct (isspace c); [done|].
  destruct (digits_val_app w r 0) as (v & Hv & Hv'). rewrite Hv, (Hv' []).
  simpl. case_decide; [done|]. case_decide; [done|].
  destruct (isdigit c); [|done].
  destruct (digits_val_app w r (10 * 0 + digit_val c)) as (u & Hu & Hu').
  change (digit_val c) with (10 * 0 + digit_val c)%Z in *.
  by rewrite Hu, (Hu' []).
Qed.

Lemma strncpy_bytes_spec w r n :
  NUL ∉ w ->
  strncpy_bytes (w ++ NUL :: r) n = Ok (take n (w ++ replicate n NUL)).
Proof.
  revert w. induction n as [|n IH]; intros [|c w] Hw; simpl; [done..| |].
  - f_equal. f_equal. symmetry. apply take_ge. by rewrite length_replicate.
  - apply not_elem_of_cons in Hw as [Hc Hw].
    rewrite decide_False by congruence. rewrite IH by done. simpl.
    do 2 f_equal. change (NUL :: replicate n NUL) with (replicate (S n) NUL).
    rewrite !take_app. f_equal. rewrite !take_replicate. f_equal. lia.
Qed.

Lemma strncpy_bytes_fuel s n : strncpy_bytes s n <> OutOfFuel.
Proof.
  revert s. induction n as [|n IH]; intros [|c s]; simpl; try done.
  case_decide; [done|]. apply res_bind_fuel; [apply IH | done].
Qed.

Lemma find_any_Some acc w k :
  find_any acc w = Some k ->
  exists w1 c w2, w = w1 ++ c :: w2 /\ length w1 = k /\ c ∈ acc
    /\ find_any acc w1 = None.
Proof.
  revert k. induction w as [|c w IH]; intros k; simpl; [done|].
  case_decide as Hc; intros H.
  - simplify_eq. by exists [], c, w.
  - destruct (find_any acc w) as [k'|] eqn:E; simpl in H; simplify_eq.
    destruct (IH k' eq_refl) as (w1 & x & w2 & -> & <- & Hx & Hn).
    exists (c :: w1), x, w2. repeat split; [done|].
    simpl. rewrite decide_False by done. by rewrite Hn.
Qed.

Lemma find_any_app acc w1 c w2 :
  find_any acc w1 = None -> c ∈ acc ->
  find_any acc (w1 ++ c :: w2) = Some (length w1).
Proof.
  intros Hn Hc. induction w1 as [|x w1 IH]; simpl in *.
  - by rewrite decide_True.
  - case_decide; [done|]. rewrite IH; [done|]. by destruct (find_any acc w1).
Qed.

Lemma find_any_None acc w : find_any acc w = None <-> forall c, c ∈ w -> c ∉ acc.
Proof.
  induction w as [|x w IH]; simpl.
  - split; [intros _ c H; by apply elem_of_nil in H | done].
  - case_decide as Hx.
    + split; [done|]. intros H. by destruct (H x ltac:(left) Hx).
    + rewrite fmap_None, IH. split.
      * intros H c Hc. apply elem_of_cons in Hc as [->|Hc]; auto.
      * intros H c Hc. apply H. by right.
Qed.

Lemma find_any_lt acc w k : find_any acc w = Some k -> k < length w.
Proof.
  intros H. apply find_any_Some in H as (w1 & c & w2 & -> & <- & _).
  rewrite length_app. simpl. lia.
Qed.

Lemma span_len_le acc w : span_len acc w <= length w.
Proof. induction w as [|c w IH]; simpl; [lia|]. case_decide; simpl; lia. Qed.
End CStringSpecs.
