(* ===== verification/Frame.v ===== *)
(** * Message frames of the asio servers

    The byte order conversions and the 16-bit loads and stores of
    [2. AsyncServer], [3. AsyncServerIOservicepool] and [4. CoroutineAsyncServer];
    what a frame format promises to the code that cuts a byte stream into
    messages ([FrameFormat]), and the specification of that cutting, proved
    against the promise only. *)

From S2P Require Import Prelude CBase.

Section Bytes.
Local Open Scope Z_scope.

Definition char_byte (c : char) : Z := Z.of_N (N_of_ascii c).
Definition byte_char (z : Z) : char := ascii_of_N (Z.to_N (z mod 256)).

(** [memcpy] of a 16-bit integer to memory and back, on the little-endian
    machines the servers are built for. *)
Definition store16 (v : Z) : list char :=
  [byte_char (Z.land v 255); byte_char (Z.shiftr v 8)].
Definition load16 (m : list char) : res Z :=
  match m with
  | lo :: hi :: _ => Ok (Z.lor (char_byte lo) (Z.shiftl (char_byte hi) 8))
  | _ => UB
  end.

(** [htons] and [ntohs] ([host_to_network_short], [network_to_host_short]) there:
    the two bytes swapped. *)
Definition swap16 (v : Z) : Z := Z.lor (Z.shiftl (Z.land v 255) 8) (Z.shiftr v 8).
Definition host_to_network_short (v : Z) : Z := swap16 (to_uint16 v).
Definition network_to_host_short (v : Z) : Z := swap16 (to_uint16 v).

(** The two bytes of a value, most significant first. *)
Definition be16 (v : Z) : list char := [byte_char (v / 256); byte_char v].

Lemma byte_char_mod z : char_byte (byte_char z) = z mod 256.
Proof.
  unfold char_byte, byte_char. pose proof (Z.mod_pos_bound z 256 ltac:(lia)).
  rewrite N_ascii_embedding by lia. lia.
Qed.

Lemma char_byte_range c : 0 <= char_byte c < 256.
Proof.
  unfold char_byte. pose proof (N_ascii_bounded c). lia.
Qed.

Lemma byte_char_char c : byte_char (char_byte c) = c.
Proof.
  unfold byte_char. rewrite Z.mod_small by apply char_byte_range.
  unfold char_byte. by rewrite N2Z.id, ascii_N_embedding.
Qed.

Lemma land_255 v : Z.land v 255 = v mod 256.
Proof. change 255 with (Z.ones 8). by rewrite Z.land_ones. Qed.

Lemma shiftr_8 v : Z.shiftr v 8 = v / 256.
Proof. by rewrite Z.shiftr_div_pow2. Qed.

Lemma lor_low_high lo hi : 0 <= lo < 256 -> Z.lor lo (Z.shiftl hi 8) = lo + 256 * hi.
Proof.
  intros Hlo.
  assert (Z.land lo (Z.shiftl hi 8) = 0) as H0.
  { apply Z.bits_inj'. intros n Hn. rewrite Z.land_spec, Z.bits_0.
    destruct (decide (n < 8)) as [H|H].
    - rewrite Z.shiftl_spec_low by lia. apply andb_false_r.
    - destruct (decide (lo = 0)) as [->|]; [by rewrite Z.bits_0|].
      rewrite Z.bits_above_log2; [done | lia|].
      assert (Z.log2 lo < 8); [|lia]. apply Z.log2_lt_pow2; lia. }
  rewrite <- Z.lxor_lor by done. rewrite <- Z.add_nocarry_lxor by done.
  rewrite Z.shiftl_mul_pow2 by lia. lia.
Qed.

Lemma store16_value v : 0 <= v < 65536 -> load16 (store16 v) = Ok v.
Proof.
  intros Hv. unfold store16, load16. rewrite !byte_char_mod, land_255, shiftr_8.
  rewrite lor_low_high by (pose proof (Z.mod_pos_bound (v mod 256) 256); lia).
  f_equal. rewrite (Z.mod_small (v mod 256)) by (apply Z.mod_pos_bound; lia).
  rewrite (Z.mod_small (v / 256)).
  - pose proof (Z.div_mod v 256). lia.
  - split; [apply Z.div_pos; lia | apply Z.div_lt_upper_bound; lia].
Qed.

Lemma swap16_eq v : 0 <= v < 65536 -> swap16 v = 256 * (v mod 256) + v / 256.
Proof.
  intros Hv. unfold swap16. rewrite Z.lor_comm, land_255, shiftr_8.
  rewrite lor_low_high; [lia|].
  split; [apply Z.div_pos; lia | apply Z.div_lt_upper_bound; lia].
Qed.

(** Network order is big-endian. *)
Lemma store_network v : store16 (host_to_network_short v) = be16 (to_uint16 v).
Proof.
  unfold host_to_network_short, to_uint16, wrap_u. change (2 ^ 16) with 65536.
  pose proof (Z.mod_pos_bound v 65536 ltac:(lia)) as Hv.
  set (u := v mod 65536) in *. rewrite swap16_eq by done.
  unfold store16, be16. rewrite land_255, shiftr_8.
  assert (0 <= u / 256 < 256) as Hq
    by (split; [apply Z.div_pos; lia | apply Z.div_lt_upper_bound; lia]).
  pose proof (Z.mod_pos_bound u 256 ltac:(lia)).
  assert ((256 * (u mod 256) + u / 256) mod 256 = u / 256) as ->.
  { rewrite Z.add_comm, Z.mul_comm, Z.mod_add by lia. by apply Z.mod_small. }
  assert ((256 * (u mod 256) + u / 256) / 256 = u mod 256) as ->.
  { rewrite Z.add_comm, Z.mul_comm, Z.div_add by lia. rewrite Z.div_small by done. lia. }
  do 2 f_equal. unfold byte_char. by rewrite Z.mod_mod by lia.
Qed.

Lemma load_network v r :
  0 <= v < 65536 ->
  (let* x := load16 (be16 v ++ r) in Ok (network_to_host_short x)) = Ok v.
Proof.
  intros Hv. unfold be16. simpl. rewrite !byte_char_mod.
  pose proof (Z.mod_pos_bound v 256 ltac:(lia)) as Hm.
  assert (0 <= v / 256 < 256) as Hq
    by (split; [apply Z.div_pos; lia | apply Z.div_lt_upper_bound; lia]).
  rewrite (Z.mod_small (v / 256)) by done.
  rewrite lor_low_high by lia. unfold network_to_host_short, to_uint16, wrap_u.
  change (2 ^ 16) with 65536. rewrite Z.mod_small by lia. rewrite swap16_eq by lia.
  assert ((v / 256 + 256 * (v mod 256)) mod 256 = v / 256) as ->.
  { rewrite Z.mul_comm, Z.mod_add by lia. by apply Z.mod_small. }
  assert ((v / 256 + 256 * (v mod 256)) / 256 = v mod 256) as ->.
  { rewrite Z.mul_comm, Z.div_add by lia. rewrite Z.div_small by done. lia. }
  f_equal. pose proof (Z.div_mod v 256). lia.
Qed.
End Bytes.

(** ** Frame formats

    What a receiver relies on: a head of fixed length that either announces
    the length of a body or is rejected, and an encoding that the head
    announces faithfully. *)
Class FrameFormat (H : Type) := {
  ff_head : nat;
  ff_parse : list char -> option (H * nat);
  ff_encode : H -> list char -> list char;
  ff_valid : H -> list char -> Prop;
  ff_head_pos : 0 < ff_head;
  ff_encode_parse h body :
    ff_valid h body ->
    exists hd, ff_encode h body = hd ++ body /\ length hd = ff_head
      /\ ff_parse hd = Some (h, length body)
}.

(** How a stream ends for the receiver: in the middle of a frame, or at a head
    it rejects. *)
Inductive stream_end := StreamShort | StreamRejected.

Section Cut.
Context {H : Type} `{F : FrameFormat H}.
Implicit Types (h : H) (s d body : list char) (ms : list (H * list char)).

(** The frames of a stream. *)
Fixpoint cut_fuel (fuel : nat) s : list (H * list char) * stream_end :=
  match fuel with
  | O => ([], StreamShort)
  | S f =>
      if decide (length s < ff_head) then ([], StreamShort)
      else
        match ff_parse (take ff_head s) with
        | None => ([], StreamRejected)
        | Some (h, n) =>
            let s := drop ff_head s in
            if decide (length s < n) then ([], StreamShort)
            else let '(ms, e) := cut_fuel f (drop n s) in ((h, take n s) :: ms, e)
        end
  end.

(** Every frame takes at least a head, so the length of the stream is fuel
    enough ([cut_fuel_enough]). *)
Definition cut s : list (H * list char) * stream_end := cut_fuel (S (length s)) s.

Lemma cut_fuel_enough f g s :
  length s < f -> length s < g -> cut_fuel f s = cut_fuel g s.
Proof.
  pose proof ff_head_pos as Hp.
  revert g s. induction f as [|f IH]; intros [|g] s Hf Hg; try lia. simpl.
  case_decide; [done|]. destruct (ff_parse _) as [[h n]|]; [|done].
  case_decide; [done|].
  rewrite (IH g); [done|..]; rewrite !length_drop; lia.
Qed.

Lemma cut_short s : length s < ff_head -> cut s = ([], StreamShort).
Proof. intros Hs. unfold cut. simpl. by rewrite decide_True. Qed.

Lemma cut_rejected s :
  ff_head <= length s -> ff_parse (take ff_head s) = None -> cut s = ([], StreamRejected).
Proof. intros Hs Hp. unfold cut. simpl. rewrite decide_False by lia. by rewrite Hp. Qed.

Lemma cut_short_body s h n :
  ff_head <= length s -> ff_parse (take ff_head s) = Some (h, n) ->
  length s < ff_head + n -> cut s = ([], StreamShort).
Proof.
  intros Hs Hp Hn. unfold cut. simpl. rewrite decide_False by lia. rewrite Hp.
  by rewrite decide_True by (rewrite length_drop; lia).
Qed.

Lemma cut_frame s h n :
  ff_parse (take ff_head s) = Some (h, n) -> ff_head + n <= length s ->
  cut s = (let '(ms, e) := cut (drop (ff_head + n) s) in
           ((h, take n (drop ff_head s)) :: ms, e)).
Proof.
  intros Hp Hn. pose proof ff_head_pos. unfold cut at 1. cbn [cut_fuel].
  rewrite decide_False by lia. rewrite Hp. rewrite decide_False by (rewrite length_drop; lia).
  rewrite drop_drop. unfold cut.
  rewrite (cut_fuel_enough (length s) (S (length (drop (ff_head + n) s))));
    [done|..]; rewrite ?length_drop; lia.
Qed.

(** What is left of a stream where the cutting stops: less than a head, a head that
    is rejected, or a head whose body is not complete. *)
Fixpoint leftover_fuel (fuel : nat) s : list char :=
  match fuel with
  | O => s
  | S f =>
      if decide (length s < ff_head) then s
      else
        match ff_parse (take ff_head s) with
        | None => s
        | Some (_, n) =>
            if decide (length s < ff_head + n) then s
            else leftover_fuel f (drop (ff_head + n) s)
        end
  end.

Definition leftover s : list char := leftover_fuel (S (length s)) s.

Lemma leftover_fuel_enough f g s :
  length s < f -> length s < g -> leftover_fuel f s = leftover_fuel g s.
Proof.
  pose proof ff_head_pos as Hp.
  revert g s. induction f as [|f IH]; intros [|g] s Hf Hg; try lia. simpl.
  case_decide; [done|]. destruct (ff_parse _) as [[h n]|]; [|done].
  case_decide; [done|]. apply IH; rewrite length_drop; lia.
Qed.

Lemma leftover_here s :
  length s < ff_head
  \/ (forall h n, ff_parse (take ff_head s) = Some (h, n) -> length s < ff_head + n) ->
  leftover s = s.
Proof.
  intros Hl. unfold leftover. cbn [leftover_fuel]. case_decide; [done|].
  destruct Hl as [Hl|Hl]; [lia|]. destruct (ff_parse _) as [[h n]|]; [|done].
  by rewrite decide_True by exact (Hl h n eq_refl).
Qed.

Lemma leftover_frame s h n :
  ff_parse (take ff_head s) = Some (h, n) -> ff_head + n <= length s ->
  leftover s = leftover (drop (ff_head + n) s).
Proof.
  intros Hp Hn. pose proof ff_head_pos. unfold leftover at 1. cbn [leftover_fuel].
  rewrite decide_False by lia. rewrite Hp, decide_False by lia.
  apply leftover_fuel_enough; rewrite ?length_drop; lia.
Qed.

Lemma cut_encode_one h body rest :
  ff_valid h body ->
  cut (ff_encode h body ++ rest) = (let '(ms, e) := cut rest in ((h, body) :: ms, e)).
Proof.
  intros Hv. destruct (ff_encode_parse h body Hv) as (hd & -> & Hl & Hp).
  rewrite <- app_assoc. rewrite (cut_frame _ h (length body)).
  - rewrite <- Hl. rewrite drop_app_length, take_app_length.
    rewrite <- drop_drop, drop_app_length, drop_app_length. done.
  - by rewrite <- Hl, take_app_length.
  - rewrite !length_app. lia.
Qed.

(** A sequence of encoded messages is cut into these messages. *)
Lemma cut_encode ms rest :
  Forall (fun '(h, body) => ff_valid h body) ms ->
  cut (concat ((fun '(h, body) => ff_encode h body) <$> ms) ++ rest)
  = (ms ++ (cut rest).1, (cut rest).2).
Proof.
  induction 1 as [|[h body] ms Hv Hms IH]; cbn [fmap list_fmap concat app].
  - by destruct (cut rest).
  - rewrite <- app_assoc, cut_encode_one by done. by rewrite IH.
Qed.

(** What encoded messages are followed by is left as it is. *)
Lemma leftover_encode ms rest :
  Forall (fun '(h, body) => ff_valid h body) ms ->
  length rest < ff_head
  \/ (forall h n, ff_parse (take ff_head rest) = Some (h, n) -> length rest < ff_head + n) ->
  leftover (concat ((fun '(h, body) => ff_encode h body) <$> ms) ++ rest) = rest.
Proof.
  intros Hms Hrest. induction Hms as [|[h body] ms Hv Hms IH]; cbn [fmap list_fmap concat app].
  { by apply leftover_here. }
  destruct (ff_encode_parse h body Hv) as (hd & -> & Hl & Hp). rewrite <- !app_assoc.
  rewrite (leftover_frame _ h (length body)).
  - by rewrite <- Hl, <- drop_drop, drop_app_length, drop_app_length.
  - by rewrite <- Hl, take_app_length.
  - rewrite !length_app. lia.
Qed.
End Cut.

(** ** Reads

    [asio::async_read] of [n] bytes from a connection whose remaining bytes are
    [s]: it completes with exactly [n] bytes, or with [eof] and what was left. *)
Inductive asio_error := eof | connection_reset | operation_aborted | other_error.

#[export] Instance asio_error_eq_dec : EqDecision asio_error.
Proof. solve_decision. Defined.

Definition async_read (n : nat) (s : list char)
    : option asio_error * list char * list char :=
  if decide (length s < n) then (Some eof, s, []) else (None, take n s, drop n s).
