(* ===== verification/Fleet.v ===== *)
(** * Many connections on one thread

    The servers of [2. AsyncServer] and [6. WebSocketServer] run the handlers of all
    their connections on one [io_context], one after the other.  A [Service] is what
    such a server runs for each connection; a fleet is what it runs for all of
    them.  Each connection goes the way it goes alone, on its own events, and the
    table of sessions holds the ones that were not dropped. *)

From S2P Require Import Prelude.

(** [sv_do] is one handler: [Ok None] when an exception leaves it.  [sv_ok] holds of a
    connection whose handlers have all returned. *)
Class Service (C E : Type) := {
  sv_do : E -> C -> res (option C);
  sv_ok : C -> Prop;
  sv_do_ok e c : sv_ok c -> exists c', sv_do e c = Ok (Some c') /\ sv_ok c'
}.

Section Fleet.
Context {C E : Type} `{!Service C E}.
Implicit Types (c : C) (cs : list C) (e : E).

(** A connection begins; something happens to connection [i]. *)
Inductive fevent := FNew c | FDo (i : nat) e.
Implicit Types fs : list fevent.

(** An event of a connection that does not exist changes nothing. *)
Definition fleet_step (f : fevent) cs : res (option (list C)) :=
  match f with
  | FNew c => Ok (Some (cs ++ [c]))
  | FDo i e =>
      match cs !! i with
      | None => Ok (Some cs)
      | Some c =>
          let* o := sv_do e c in
          Ok ((fun c' => <[i:=c']> cs) <$> o)
      end
  end.

Fixpoint fleet_run fs cs : res (option (list C)) :=
  match fs with
  | [] => Ok (Some cs)
  | f :: fs =>
      let* o := fleet_step f cs in
      match o with Some cs => fleet_run fs cs | None => Ok None end
  end.

Fixpoint alone (es : list E) c : res (option C) :=
  match es with
  | [] => Ok (Some c)
  | e :: es => let* o := sv_do e c in match o with Some c => alone es c | None => Ok None end
  end.

(** The states the connections begin with, and the events of connection [i] when there
    are [k] already. *)
Definition newcomers fs : list C := omap (fun f => if f is FNew c then Some c else None) fs.

Fixpoint events_of (i k : nat) fs : list E :=
  match fs with
  | [] => []
  | FNew _ :: fs => events_of i (S k) fs
  | FDo j e :: fs =>
      (if decide (j = i /\ i < k) then [e] else []) ++ events_of i k fs
  end.

Lemma newcomers_app fs fs' : newcomers (fs ++ fs') = newcomers fs ++ newcomers fs'.
Proof. apply omap_app. Qed.

Lemma events_of_app i k fs fs' :
  events_of i k (fs ++ fs') = events_of i k fs ++ events_of i (k + length (newcomers fs)) fs'.
Proof.
  revert k. induction fs as [|[c|j e] fs IH]; intros k; cbn [app events_of].
  - by rewrite Nat.add_0_r.
  - rewrite IH. do 2 f_equal. unfold newcomers. cbn [omap list_omap length]. lia.
  - by rewrite IH, app_assoc.
Qed.

(** The first [n] connections in turn, [f i] for connection [i]. *)
Definition rounds (f : nat -> list E) (n : nat) : list fevent :=
  seq 0 n ≫= fun i => FDo i <$> f i.

Lemma events_of_do i j k (es : list E) :
  events_of i k (FDo j <$> es) = if decide (j = i /\ i < k) then es else [].
Proof.
  induction es as [|e es IH]; [by case_decide|]. cbn [fmap list_fmap events_of].
  rewrite IH. by case_decide.
Qed.

Lemma newcomers_do j (es : list E) : newcomers (FDo j <$> es) = [].
Proof. by induction es. Qed.

Lemma events_of_rounds f n i k : i < k -> n <= k ->
  events_of i k (rounds f n) = if decide (i < n) then f i else [].
Proof.
  intros Hi. unfold rounds. induction n as [|n IH]; intros Hn; [by rewrite decide_False by lia|].
  rewrite seq_S, bind_app, events_of_app, IH by lia. cbn [Nat.add mbind list_bind].
  assert (newcomers (seq 0 n ≫= fun i => FDo i <$> f i) = []) as ->.
  { clear. induction (seq 0 n) as [|j l IH]; [done|]. cbn [mbind list_bind].
    by rewrite newcomers_app, newcomers_do. }
  cbn [length]. rewrite Nat.add_0_r, app_nil_r, events_of_do.
  destruct (decide (n = i)) as [->|Hne].
  - rewrite decide_False, !decide_True by lia. done.
  - rewrite (decide_False (P := n = i /\ i < k)) by tauto. rewrite app_nil_r.
    destruct (decide (i < n)); [by rewrite decide_True by lia|by rewrite decide_False by lia].
Qed.

Lemma fleet_run_app fs fs' cs :
  fleet_run (fs ++ fs') cs
  = (let* o := fleet_run fs cs in
     match o with Some cs => fleet_run fs' cs | None => Ok None end).
Proof.
  revert cs. induction fs as [|f fs IH]; intros cs; [done|]. cbn [app fleet_run].
  by destruct (fleet_step f cs) as [[cs'|]| |]; cbn [res_bind].
Qed.

Lemma fleet_run_1 f cs : fleet_run [f] cs = fleet_step f cs.
Proof. cbn [fleet_run]. by destruct (fleet_step f cs) as [[cs'|]| |]. Qed.

(** Nothing leaves a handler. *)
Lemma fleet_step_ok f cs :
  (forall c, f = FNew c -> sv_ok c) -> Forall sv_ok cs ->
  exists cs', fleet_step f cs = Ok (Some cs') /\ Forall sv_ok cs'.
Proof.
  intros Hnew Hok. destruct f as [c|i e]; cbn [fleet_step].
  - eexists. split; [done|]. apply Forall_app. split; [done|].
    apply Forall_singleton. by apply Hnew.
  - destruct (cs !! i) as [c|] eqn:Hi; [|by eexists].
    destruct (sv_do_ok e c) as (c' & -> & Hc'); [by eapply Forall_lookup_1|].
    eexists. split; [done|]. by apply Forall_insert.
Qed.

Lemma length_fleet_step f cs cs' :
  fleet_step f cs = Ok (Some cs') ->
  length cs' = length cs + (if f is FNew _ then 1 else 0).
Proof.
  destruct f as [c|i e]; cbn [fleet_step]; [intros [= <-]; by rewrite length_app|].
  destruct (cs !! i); [|intros [= <-]; lia].
  intros ([cj'|] & He & Hf)%res_bind_Ok_inv; [|done]. injection Hf as <-.
  rewrite length_insert. lia.
Qed.

Lemma length_fleet_run fs cs cs' :
  fleet_run fs cs = Ok (Some cs') -> length cs' = length cs + length (newcomers fs).
Proof.
  revert cs. induction fs as [|f fs IH]; intros cs H; [injection H as <-; simpl; lia|].
  cbn [fleet_run] in H. apply res_bind_Ok_inv in H as (o & Hf & H).
  destruct o as [cs1|]; [|done]. apply length_fleet_step in Hf. rewrite (IH cs1 H), Hf.
  destruct f; unfold newcomers; cbn [omap list_omap length]; lia.
Qed.

Lemma alone_app es es' c :
  alone (es ++ es') c
  = (let* o := alone es c in match o with Some c => alone es' c | None => Ok None end).
Proof.
  revert c. induction es as [|e es IH]; intros c; [done|]. cbn [app alone].
  by destruct (sv_do e c) as [[c'|]| |]; cbn [res_bind].
Qed.

(** Each connection goes the way it goes alone. *)
Lemma fleet_alone fs cs cs' i c :
  fleet_run fs cs = Ok (Some cs') -> cs !! i = Some c ->
  exists c', cs' !! i = Some c' /\ alone (events_of i (length cs) fs) c = Ok (Some c').
Proof.
  revert cs c. induction fs as [|f fs IH]; intros cs c H Hi.
  { injection H as <-. by exists c. }
  cbn [fleet_run] in H. apply res_bind_Ok_inv in H as (o & Hf & H).
  destruct o as [cs1|]; [|done]. pose proof (lookup_lt_Some _ _ _ Hi) as Hlt.
  destruct f as [c0|j e]; cbn [fleet_step events_of] in Hf |- *.
  - injection Hf as <-. destruct (IH (cs ++ [c0]) c H) as (c' & Hc' & Ha).
    { by apply lookup_app_l_Some. }
    exists c'. split; [done|]. rewrite length_app, Nat.add_1_r in Ha. exact Ha.
  - destruct (cs !! j) as [cj|] eqn:Hj.
    + apply res_bind_Ok_inv in Hf as ([cj'|] & He & Hf); [|done]. injection Hf as <-.
      destruct (decide (j = i)) as [->|Hne].
      * rewrite Hi in Hj. injection Hj as <-.
        destruct (IH (<[i:=cj']> cs) cj' H) as (c' & Hc' & Ha).
        { by apply list_lookup_insert_eq. }
        exists c'. split; [done|]. rewrite length_insert in Ha. rewrite decide_True by done.
        cbn [app alone]. by rewrite He.
      * destruct (IH (<[j:=cj']> cs) c H) as (c' & Hc' & Ha).
        { by rewrite list_lookup_insert_ne. }
        exists c'. split; [done|]. rewrite length_insert in Ha. by rewrite decide_False by tauto.
    + injection Hf as <-. destruct (IH cs c H Hi) as (c' & Hc' & Ha). exists c'. split; [done|].
      rewrite decide_False; [done|]. intros [-> _]. congruence.
Qed.

(** A connection that begins during the run. *)
Lemma fleet_begins fs cs cs' i c :
  fleet_run fs cs = Ok (Some cs') -> newcomers fs !! i = Some c ->
  exists c', cs' !! (length cs + i) = Some c'
    /\ alone (events_of (length cs + i) (length cs) fs) c = Ok (Some c').
Proof.
  revert cs i. induction fs as [|f fs IH]; intros cs i H Hb; [done|].
  cbn [fleet_run] in H. apply res_bind_Ok_inv in H as (o & Hf & H).
  destruct o as [cs1|]; [|done]. destruct f as [c0|j e]; cbn [events_of].
  - injection Hf as <-. assert (length (cs ++ [c0]) = S (length cs)) as Hl
      by (rewrite length_app; simpl; lia). rewrite <- Hl. destruct i as [|i].
    + injection Hb as ->. rewrite Nat.add_0_r. apply (fleet_alone fs _ _ _ c H).
      by rewrite lookup_app_r, Nat.sub_diag by done.
    + replace (length cs + S i) with (length (cs ++ [c0]) + i) by lia. by apply IH.
  - apply length_fleet_step in Hf. rewrite Nat.add_0_r in Hf.
    rewrite decide_False by lia. rewrite <- Hf. by apply IH.
Qed.
End Fleet.

Arguments fevent C E : clear implicits.

(** ** The table of sessions

    Session [x] is registered under its uuid [u x] while [held] holds of it. *)
Section Table.
Context {C : Type} (u : nat -> String.string) `{!Inj (=) (=) u} (held : C -> bool).
Implicit Types (t : gmap String.string nat) (cs : list C).

Definition table_ok t cs : Prop :=
  forall k x, t !! k = Some x <-> k = u x /\ exists c, cs !! x = Some c /\ held c = true.

Lemma table_nil : table_ok ∅ [].
Proof. intros k x. rewrite lookup_empty. split; [done|]. by intros (_ & c & ? & _). Qed.

Lemma table_fresh t cs : table_ok t cs -> t !! u (length cs) = None.
Proof.
  intros Ht. destruct (t !! u (length cs)) as [x|] eqn:E; [|done].
  apply Ht in E as (Hu & c & Hc & _). apply (inj u) in Hu as <-.
  apply lookup_lt_Some in Hc. lia.
Qed.

Lemma table_new t cs c :
  table_ok t cs ->
  table_ok (if held c then <[u (length cs) := length cs]> t else t) (cs ++ [c]).
Proof.
  intros Ht k x. assert (t !! k = Some x -> x < length cs) as Hlt.
  { intros (_ & c' & Hc & _)%Ht. by apply lookup_lt_Some in Hc. }
  assert (t !! k = Some x <-> k = u x /\ exists c', cs !! x = Some c' /\ held c' = true) as Hx
    by apply Ht.
  assert ((cs ++ [c]) !! length cs = Some c) as Hlast by by apply list_lookup_middle.
  assert (forall c', x < length cs -> (cs ++ [c]) !! x = Some c' <-> cs !! x = Some c') as Hold
    by (intros; by rewrite lookup_app_l).
  assert (forall c', (cs ++ [c]) !! x = Some c' -> x <> length cs -> x < length cs) as Hb.
  { intros c' H%lookup_lt_Some. rewrite length_app in H. simpl in H. lia. }
  destruct (held c) eqn:Eh; [rewrite lookup_insert_Some|]; split.
  - intros [[<- <-]|[_ H]]; [split; [done|]; by exists c|].
    specialize (Hlt H). apply Hx in H as (-> & c' & Hc & Hh). split; [done|]. exists c'.
    by rewrite Hold.
  - intros (-> & c' & Hc & Hh). destruct (decide (length cs = x)) as [<-|Hne]; [by left|right].
    split; [intros Hu; by apply (inj u) in Hu|]. apply Hx. split; [done|]. exists c'.
    split; [|done]. apply Hold; [|done]. by eapply Hb.
  - intros H. specialize (Hlt H). apply Hx in H as (-> & c' & Hc & Hh). split; [done|]. exists c'.
    by rewrite Hold.
  - intros (-> & c' & Hc & Hh). apply Hx. split; [done|]. exists c'. split; [|done].
    apply Hold; [|done]. eapply Hb; [done|]. intros ->. congruence.
Qed.

(** Session [i] changes: it is removed when it is dropped, and entered when it begins. *)
Lemma table_update t cs i c c' :
  table_ok t cs -> cs !! i = Some c ->
  table_ok (if held c' then <[u i := i]> t else delete (u i) t) (<[i:=c']> cs).
Proof.
  intros Ht Hi k x. pose proof (lookup_lt_Some _ _ _ Hi) as Hlt.
  assert (t !! k = Some x <-> k = u x /\ exists c, cs !! x = Some c /\ held c = true) as Hx
    by apply Ht.
  destruct (decide (i = x)) as [<-|Hne].
  - rewrite list_lookup_insert_eq by done. destruct (held c') eqn:Eh.
    + rewrite lookup_insert_Some. split.
      * intros [[<- _]|[Hk H]]; [|apply Hx in H as [-> _]; done]. split; [done|]. by exists c'.
      * intros [-> _]. by left.
    + rewrite lookup_delete_Some. split.
      * intros [Hk H]. by apply Hx in H as [-> _].
      * intros (_ & c0 & [= <-] & Hh). congruence.
  - rewrite list_lookup_insert_ne by done. rewrite <- Hx.
    assert (forall y, t !! k = Some x -> k = u y -> x = y) as Hk.
    { intros y [-> _]%Hx Hu. by apply (inj u). }
    destruct (held c'); [rewrite lookup_insert_Some|rewrite lookup_delete_Some]; split.
    + intros [[_ ?]|[_ H]]; done.
    + intros H. right. split; [|done]. intros Hu. apply Hne. symmetry. by apply Hk.
    + by intros [_ H].
    + intros H. split; [|done]. intros Hu. apply Hne. symmetry. by apply Hk.
Qed.

(** An entry written over, or removed again, is as before. *)
Lemma table_held t cs i c :
  table_ok t cs -> cs !! i = Some c ->
  (if held c then <[u i := i]> t else delete (u i) t) = t.
Proof.
  intros Ht Hi. destruct (held c) eqn:Eh.
  - apply insert_id, Ht. split; [done|]. by exists c.
  - apply delete_id. destruct (t !! u i) as [x|] eqn:E; [|done].
    apply Ht in E as (Hu & c' & Hc & Hh). apply (inj u) in Hu as <-. congruence.
Qed.
End Table.
