(* ===== verification/HttpConn.v ===== *)
(** * [1. Proactor/http_conn.h], [http_conn.cpp]: the connection object

    The data of [class http_conn], its memory layout, the epoll helpers,
    [init], [closeconn] and the non-blocking [read].

    - Pointers into [m_read_buf] ([m_url], [m_version], [m_host]) are offsets
      in that buffer; the null pointer is [None].
    - The index fields are C [int]s that only hold values between 0 and
      [READ_BUFFER_SIZE] (see [conn_ok] and its preservation lemmas), so they
      are kept as [nat].  [m_content_length], which a client sets, is a [Z]
      with the conversions and overflow checks of the code.
    - System calls are not modelled: a call that only acts on the kernel is
      an [action] of the trace; a call that returns data takes the data as an
      argument, and what POSIX guarantees of it is a named hypothesis. *)

From S2P Require Import Prelude CBase.

(** ** Constants and enumerations of [http_conn.h] *)
Definition READ_BUFFER_SIZE : nat := 2048.
Definition WRITE_BUFFER_SIZE : nat := 1024.
Definition FILENAME_LEN : nat := 200.
#[global] Arguments READ_BUFFER_SIZE : simpl never.
#[global] Arguments WRITE_BUFFER_SIZE : simpl never.
#[global] Arguments FILENAME_LEN : simpl never.

Inductive METHOD := GET | POST | HEAD | PUT | DELETE | TRACE | OPTIONS | CONNECT.

Inductive CHECK_STATE :=
| CHECK_STATE_REQUESTLINE
| CHECK_STATE_HEADER
| CHECK_STATE_CONTENT.

Inductive HTTP_CODE :=
| NO_REQUEST
| GET_REQUEST
| BAD_REQUEST
| NO_RESOURCE
| FORBIDDEN_REQUEST
| FILE_REQUEST
| INTERNAL_ERROR
| CLOSED_CONNECTION.

Inductive LINE_STATUS := LINE_OK | LINE_BAD | LINE_OPEN.

#[export] Instance METHOD_eq_dec : EqDecision METHOD.
Proof. solve_decision. Defined.
#[export] Instance CHECK_STATE_eq_dec : EqDecision CHECK_STATE.
Proof. solve_decision. Defined.
#[export] Instance HTTP_CODE_eq_dec : EqDecision HTTP_CODE.
Proof. solve_decision. Defined.
#[export] Instance LINE_STATUS_eq_dec : EqDecision LINE_STATUS.
Proof. solve_decision. Defined.

(** The two fields of [struct stat] the program reads. *)
Record stat_t := MkStat { st_mode : Z; st_size : Z }.

(** Where an [iov_base] points: nowhere, at [m_write_buf], or at a mapping. *)
Inductive iov_ptr := IovNull | IovWriteBuf | IovMap (addr : Z).
Record iovec := MkIov { iov_base : iov_ptr; iov_len : Z }.

#[export] Instance stat_eq_dec : EqDecision stat_t.
Proof. solve_decision. Defined.
#[export] Instance iov_ptr_eq_dec : EqDecision iov_ptr.
Proof. solve_decision. Defined.
#[export] Instance iovec_eq_dec : EqDecision iovec.
Proof. solve_decision. Defined.

(** ** The object *)
Record http_conn := MkConn {
  m_sockfd : Z;
  m_address : list char;         (** the 16 bytes of the [sockaddr_in] *)
  m_read_buf : list char;
  m_read_idx : nat;
  m_checked_index : nat;
  m_start_line : nat;
  m_check_state : CHECK_STATE;
  m_url : option nat;
  m_version : option nat;
  m_method : METHOD;
  m_host : option nat;
  m_linger : bool;
  m_content_length : Z;
  m_real_file : list char;
  m_write_buf : list char;
  m_write_idx : nat;
  m_file_address : Z;            (** 0 is the null pointer *)
  m_file_stat : stat_t;
  m_iv : list iovec;
  m_iv_count : Z
}.

#[export] Instance http_conn_eq_dec : EqDecision http_conn.
Proof. solve_decision. Defined.

(** One assignment to a field each. *)
Definition set_m_sockfd (v : Z) (m : http_conn) : http_conn :=
  MkConn v (m.(m_address)) (m.(m_read_buf)) (m.(m_read_idx))
    (m.(m_checked_index)) (m.(m_start_line)) (m.(m_check_state)) (m.(m_url))
    (m.(m_version)) (m.(m_method)) (m.(m_host)) (m.(m_linger))
    (m.(m_content_length)) (m.(m_real_file)) (m.(m_write_buf))
    (m.(m_write_idx)) (m.(m_file_address)) (m.(m_file_stat)) (m.(m_iv))
    (m.(m_iv_count)).
Definition set_m_address (v : list char) (m : http_conn) : http_conn :=
  MkConn (m.(m_sockfd)) v (m.(m_read_buf)) (m.(m_read_idx))
    (m.(m_checked_index)) (m.(m_start_line)) (m.(m_check_state)) (m.(m_url))
    (m.(m_version)) (m.(m_method)) (m.(m_host)) (m.(m_linger))
    (m.(m_content_length)) (m.(m_real_file)) (m.(m_write_buf))
    (m.(m_write_idx)) (m.(m_file_address)) (m.(m_file_stat)) (m.(m_iv))
    (m.(m_iv_count)).
Definition set_m_read_buf (v : list char) (m : http_conn) : http_conn :=
  MkConn (m.(m_sockfd)) (m.(m_address)) v (m.(m_read_idx))
    (m.(m_checked_index)) (m.(m_start_line)) (m.(m_check_state)) (m.(m_url))
    (m.(m_version)) (m.(m_method)) (m.(m_host)) (m.(m_linger))
    (m.(m_content_length)) (m.(m_real_file)) (m.(m_write_buf))
    (m.(m_write_idx)) (m.(m_file_address)) (m.(m_file_stat)) (m.(m_iv))
    (m.(m_iv_count)).
Definition set_m_read_idx (v : nat) (m : http_conn) : http_conn :=
  MkConn (m.(m_sockfd)) (m.(m_address)) (m.(m_read_buf)) v
    (m.(m_checked_index)) (m.(m_start_line)) (m.(m_check_state)) (m.(m_url))
    (m.(m_version)) (m.(m_method)) (m.(m_host)) (m.(m_linger))
    (m.(m_content_length)) (m.(m_real_file)) (m.(m_write_buf))
    (m.(m_write_idx)) (m.(m_file_address)) (m.(m_file_stat)) (m.(m_iv))
    (m.(m_iv_count)).
Definition set_m_checked_index (v : nat) (m : http_conn) : http_conn :=
  MkConn (m.(m_sockfd)) (m.(m_address)) (m.(m_read_buf)) (m.(m_read_idx)) v
    (m.(m_start_line)) (m.(m_check_state)) (m.(m_url)) (m.(m_version))
    (m.(m_method)) (m.(m_host)) (m.(m_linger)) (m.(m_content_length))
    (m.(m_real_file)) (m.(m_write_buf)) (m.(m_write_idx))
    (m.(m_file_address)) (m.(m_file_stat)) (m.(m_iv)) (m.(m_iv_count)).
Definition set_m_start_line (v : nat) (m : http_conn) : http_conn :=
  MkConn (m.(m_sockfd)) (m.(m_address)) (m.(m_read_buf)) (m.(m_read_idx))
    (m.(m_checked_index)) v (m.(m_check_state)) (m.(m_url)) (m.(m_version))
    (m.(m_method)) (m.(m_host)) (m.(m_linger)) (m.(m_content_length))
    (m.(m_real_file)) (m.(m_write_buf)) (m.(m_write_idx))
    (m.(m_file_address)) (m.(m_file_stat)) (m.(m_iv)) (m.(m_iv_count)).
Definition set_m_check_state (v : CHECK_STATE) (m : http_conn) : http_conn :=
  MkConn (m.(m_sockfd)) (m.(m_address)) (m.(m_read_buf)) (m.(m_read_idx))
    (m.(m_checked_index)) (m.(m_start_line)) v (m.(m_url)) (m.(m_version))
    (m.(m_method)) (m.(m_host)) (m.(m_linger)) (m.(m_content_length))
    (m.(m_real_file)) (m.(m_write_buf)) (m.(m_write_idx))
    (m.(m_file_address)) (m.(m_file_stat)) (m.(m_iv)) (m.(m_iv_count)).
Definition set_m_url (v : option nat) (m : http_conn) : http_conn :=
  MkConn (m.(m_sockfd)) (m.(m_address)) (m.(m_read_buf)) (m.(m_read_idx))
    (m.(m_checked_index)) (m.(m_start_line)) (m.(m_check_state)) v
    (m.(m_version)) (m.(m_method)) (m.(m_host)) (m.(m_linger))
    (m.(m_content_length)) (m.(m_real_file)) (m.(m_write_buf))
    (m.(m_write_idx)) (m.(m_file_address)) (m.(m_file_stat)) (m.(m_iv))
    (m.(m_iv_count)).
Definition set_m_version (v : option nat) (m : http_conn) : http_conn :=
  MkConn (m.(m_sockfd)) (m.(m_address)) (m.(m_read_buf)) (m.(m_read_idx))
    (m.(m_checked_index)) (m.(m_start_line)) (m.(m_check_state)) (m.(m_url))
    v (m.(m_method)) (m.(m_host)) (m.(m_linger)) (m.(m_content_length))
    (m.(m_real_file)) (m.(m_write_buf)) (m.(m_write_idx))
    (m.(m_file_address)) (m.(m_file_stat)) (m.(m_iv)) (m.(m_iv_count)).
Definition set_m_method (v : METHOD) (m : http_conn) : http_conn :=
  MkConn (m.(m_sockfd)) (m.(m_address)) (m.(m_read_buf)) (m.(m_read_idx))
    (m.(m_checked_index)) (m.(m_start_line)) (m.(m_check_state)) (m.(m_url))
    (m.(m_version)) v (m.(m_host)) (m.(m_linger)) (m.(m_content_length))
    (m.(m_real_file)) (m.(m_write_buf)) (m.(m_write_idx))
    (m.(m_file_address)) (m.(m_file_stat)) (m.(m_iv)) (m.(m_iv_count)).
Definition set_m_host (v : option nat) (m : http_conn) : http_conn :=
  MkConn (m.(m_sockfd)) (m.(m_address)) (m.(m_read_buf)) (m.(m_read_idx))
    (m.(m_checked_index)) (m.(m_start_line)) (m.(m_check_state)) (m.(m_url))
    (m.(m_version)) (m.(m_method)) v (m.(m_linger)) (m.(m_content_length))
    (m.(m_real_file)) (m.(m_write_buf)) (m.(m_write_idx))
    (m.(m_file_address)) (m.(m_file_stat)) (m.(m_iv)) (m.(m_iv_count)).
Definition set_m_linger (v : bool) (m : http_conn) : http_conn :=
  MkConn (m.(m_sockfd)) (m.(m_address)) (m.(m_read_buf)) (m.(m_read_idx))
    (m.(m_checked_index)) (m.(m_start_line)) (m.(m_check_state)) (m.(m_url))
    (m.(m_version)) (m.(m_method)) (m.(m_host)) v (m.(m_content_length))
    (m.(m_real_file)) (m.(m_write_buf)) (m.(m_write_idx))
    (m.(m_file_address)) (m.(m_file_stat)) (m.(m_iv)) (m.(m_iv_count)).
Definition set_m_content_length (v : Z) (m : http_conn) : http_conn :=
  MkConn (m.(m_sockfd)) (m.(m_address)) (m.(m_read_buf)) (m.(m_read_idx))
    (m.(m_checked_index)) (m.(m_start_line)) (m.(m_check_state)) (m.(m_url))
    (m.(m_version)) (m.(m_method)) (m.(m_host)) (m.(m_linger)) v
    (m.(m_real_file)) (m.(m_write_buf)) (m.(m_write_idx))
    (m.(m_file_address)) (m.(m_file_stat)) (m.(m_iv)) (m.(m_iv_count)).
Definition set_m_real_file (v : list char) (m : http_conn) : http_conn :=
  MkConn (m.(m_sockfd)) (m.(m_address)) (m.(m_read_buf)) (m.(m_read_idx))
    (m.(m_checked_index)) (m.(m_start_line)) (m.(m_check_state)) (m.(m_url))
    (m.(m_version)) (m.(m_method)) (m.(m_host)) (m.(m_linger))
    (m.(m_content_length)) v (m.(m_write_buf)) (m.(m_write_idx))
    (m.(m_file_address)) (m.(m_file_stat)) (m.(m_iv)) (m.(m_iv_count)).
Definition set_m_write_buf (v : list char) (m : http_conn) : http_conn :=
  MkConn (m.(m_sockfd)) (m.(m_address)) (m.(m_read_buf)) (m.(m_read_idx))
    (m.(m_checked_index)) (m.(m_start_line)) (m.(m_check_state)) (m.(m_url))
    (m.(m_version)) (m.(m_method)) (m.(m_host)) (m.(m_linger))
    (m.(m_content_length)) (m.(m_real_file)) v (m.(m_write_idx))
    (m.(m_file_address)) (m.(m_file_stat)) (m.(m_iv)) (m.(m_iv_count)).
Definition set_m_write_idx (v : nat) (m : http_conn) : http_conn :=
  MkConn (m.(m_sockfd)) (m.(m_address)) (m.(m_read_buf)) (m.(m_read_idx))
    (m.(m_checked_index)) (m.(m_start_line)) (m.(m_check_state)) (m.(m_url))
    (m.(m_version)) (m.(m_method)) (m.(m_host)) (m.(m_linger))
    (m.(m_content_length)) (m.(m_real_file)) (m.(m_write_buf)) v
    (m.(m_file_address)) (m.(m_file_stat)) (m.(m_iv)) (m.(m_iv_count)).
Definition set_m_file_address (v : Z) (m : http_conn) : http_conn :=
  MkConn (m.(m_sockfd)) (m.(m_address)) (m.(m_read_buf)) (m.(m_read_idx))
    (m.(m_checked_index)) (m.(m_start_line)) (m.(m_check_state)) (m.(m_url))
    (m.(m_version)) (m.(m_method)) (m.(m_host)) (m.(m_linger))
    (m.(m_content_length)) (m.(m_real_file)) (m.(m_write_buf))
    (m.(m_write_idx)) v (m.(m_file_stat)) (m.(m_iv)) (m.(m_iv_count)).
Definition set_m_file_stat (v : stat_t) (m : http_conn) : http_conn :=
  MkConn (m.(m_sockfd)) (m.(m_address)) (m.(m_read_buf)) (m.(m_read_idx))
    (m.(m_checked_index)) (m.(m_start_line)) (m.(m_check_state)) (m.(m_url))
    (m.(m_version)) (m.(m_method)) (m.(m_host)) (m.(m_linger))
    (m.(m_content_length)) (m.(m_real_file)) (m.(m_write_buf))
    (m.(m_write_idx)) (m.(m_file_address)) v (m.(m_iv)) (m.(m_iv_count)).
Definition set_m_iv (v : list iovec) (m : http_conn) : http_conn :=
  MkConn (m.(m_sockfd)) (m.(m_address)) (m.(m_read_buf)) (m.(m_read_idx))
    (m.(m_checked_index)) (m.(m_start_line)) (m.(m_check_state)) (m.(m_url))
    (m.(m_version)) (m.(m_method)) (m.(m_host)) (m.(m_linger))
    (m.(m_content_length)) (m.(m_real_file)) (m.(m_write_buf))
    (m.(m_write_idx)) (m.(m_file_address)) (m.(m_file_stat)) v
    (m.(m_iv_count)).
Definition set_m_iv_count (v : Z) (m : http_conn) : http_conn :=
  MkConn (m.(m_sockfd)) (m.(m_address)) (m.(m_read_buf)) (m.(m_read_idx))
    (m.(m_checked_index)) (m.(m_start_line)) (m.(m_check_state)) (m.(m_url))
    (m.(m_version)) (m.(m_method)) (m.(m_host)) (m.(m_linger))
    (m.(m_content_length)) (m.(m_real_file)) (m.(m_write_buf))
    (m.(m_write_idx)) (m.(m_file_address)) (m.(m_file_stat)) (m.(m_iv)) v.

Ltac conn_simpl := cbn [m_sockfd m_address m_read_buf m_read_idx
  m_checked_index m_start_line m_check_state m_url m_version m_method m_host
  m_linger m_content_length m_real_file m_write_buf m_write_idx
  m_file_address m_file_stat m_iv m_iv_count set_m_sockfd set_m_address
  set_m_read_buf set_m_read_idx set_m_checked_index set_m_start_line
  set_m_check_state set_m_url set_m_version set_m_method set_m_host
  set_m_linger set_m_content_length set_m_real_file set_m_write_buf
  set_m_write_idx set_m_file_address set_m_file_stat set_m_iv
  set_m_iv_count] in *.


(** ** Memory layout

    The fields in declaration order with their size and alignment on x86-64
    Linux ([sizeof(sockaddr_in) = 16], [sizeof(struct stat) = 144],
    [sizeof(struct iovec) = 16]). *)
Inductive field :=
| F_sockfd | F_address | F_read_buf | F_read_idx | F_checked_index
| F_start_line | F_check_state | F_url | F_version | F_method | F_host
| F_linger | F_content_length | F_real_file | F_write_buf | F_write_idx
| F_file_address | F_file_stat | F_iv | F_iv_count.

#[export] Instance field_eq_dec : EqDecision field.
Proof. solve_decision. Defined.

Section Layout.
Local Open Scope Z_scope.

Definition layout : list (field * Z * Z) :=
  [(F_sockfd, 4, 4); (F_address, 16, 4);
   (F_read_buf, Z.of_nat READ_BUFFER_SIZE, 1);
   (F_read_idx, 4, 4); (F_checked_index, 4, 4); (F_start_line, 4, 4);
   (F_check_state, 4, 4); (F_url, 8, 8); (F_version, 8, 8);
   (F_method, 4, 4); (F_host, 8, 8); (F_linger, 1, 1);
   (F_content_length, 4, 4); (F_real_file, Z.of_nat FILENAME_LEN, 1);
   (F_write_buf, Z.of_nat WRITE_BUFFER_SIZE, 1); (F_write_idx, 4, 4);
   (F_file_address, 8, 8); (F_file_stat, 144, 8); (F_iv, 32, 8);
   (F_iv_count, 4, 4)].

Definition align_up (z a : Z) : Z := (z + a - 1) / a * a.

Fixpoint offset_in (l : list (field * Z * Z)) (at_ : Z) (f : field) : Z :=
  match l with
  | [] => 0
  | (g, sz, al) :: l' =>
      let o := align_up at_ al in
      if decide (g = f) then o else offset_in l' (o + sz) f
  end.

Definition offset_of (f : field) : Z := offset_in layout 0 f.

Definition size_of (f : field) : Z :=
  match list_find (fun '(g, _, _) => g = f) layout with
  | Some (_, (_, sz, _)) => sz
  | None => 0
  end.

Definition sizeof_http_conn : Z :=
  align_up (foldl (fun a '(_, sz, al) => align_up a al + sz) 0 layout) 8.

(** What zeroing the bytes [lo, hi) of the object does to a field: a scalar
    that lies inside becomes zero, an array byte by byte. *)
Definition covered (lo hi : Z) (f : field) : bool :=
  bool_decide (lo <= offset_of f /\ offset_of f + size_of f <= hi).

Definition zero_bytes (lo hi off : Z) (l : list char) : list char :=
  imap (fun i x => if decide (lo <= off + Z.of_nat i < hi) then NUL else x) l.

Definition zero_range (lo hi : Z) (c : http_conn) : http_conn :=
  let sc {A} (f : field) (zero old : A) := if covered lo hi f then zero else old in
  let ar f l := zero_bytes lo hi (offset_of f) l in
  MkConn (sc F_sockfd 0 (m_sockfd c)) (ar F_address (m_address c))
    (ar F_read_buf (m_read_buf c)) (sc F_read_idx 0%nat (m_read_idx c))
    (sc F_checked_index 0%nat (m_checked_index c))
    (sc F_start_line 0%nat (m_start_line c))
    (sc F_check_state CHECK_STATE_REQUESTLINE (m_check_state c))
    (sc F_url None (m_url c)) (sc F_version None (m_version c))
    (sc F_method GET (m_method c)) (sc F_host None (m_host c))
    (sc F_linger false (m_linger c))
    (sc F_content_length 0 (m_content_length c))
    (ar F_real_file (m_real_file c)) (ar F_write_buf (m_write_buf c))
    (sc F_write_idx 0%nat (m_write_idx c))
    (sc F_file_address 0 (m_file_address c))
    (sc F_file_stat (MkStat 0 0) (m_file_stat c))
    (sc F_iv [MkIov IovNull 0; MkIov IovNull 0] (m_iv c))
    (sc F_iv_count 0 (m_iv_count c)).

(** [bzero(member, n)]: the part inside the object, and the number of bytes
    zeroed past its end (in the next element of the [users] array). *)
Definition bzero (f : field) (n : nat) (c : http_conn) : http_conn :=
  zero_range (offset_of f) (offset_of f + Z.of_nat n) c.
Definition bzero_past_end (f : field) (n : nat) : Z :=
  Z.max 0 (offset_of f + Z.of_nat n - sizeof_http_conn).
End Layout.

(** ** Effects on the kernel and on the static members *)
Section Epoll.
Local Open Scope Z_scope.
Definition EPOLLIN : Z := 1.
Definition EPOLLOUT : Z := 4.
Definition EPOLLERR : Z := 8.
Definition EPOLLHUP : Z := 16.
Definition EPOLLRDHUP : Z := 8192.
Definition EPOLLONESHOT : Z := 1073741824.
Definition EPOLLET : Z := 2147483648.
End Epoll.

(** [ZeroNext n] is the overrun of a [bzero]: the first [n] bytes of the
    object that follows in memory become zero.  [UserInc] and [UserDec] are
    the updates of the static [m_user_count]. *)
Inductive action :=
| SetReuseAddr (fd : Z)
| SetNonblocking (fd : Z)
| EpollAdd (fd events : Z)
| EpollMod (fd events : Z)
| EpollDel (fd : Z)
| Close (fd : Z)
| Writev (iv : list iovec) (sent : Z)
| Munmap (addr len : Z)
| UserInc
| UserDec
| ZeroNext (n : Z).

#[export] Instance action_eq_dec : EqDecision action.
Proof. solve_decision. Defined.

Definition setnonblocking (fd : Z) : list action := [SetNonblocking fd].

Definition addfd (fd : Z) (one_shot : bool) : list action :=
  let ev := Z.lor EPOLLIN (Z.lor EPOLLET EPOLLRDHUP) in
  EpollAdd fd (if one_shot then Z.lor ev EPOLLONESHOT else ev)
  :: setnonblocking fd.

Definition removefd (fd : Z) : list action := [EpollDel fd; Close fd].

Definition modifyfd (fd ev : Z) : list action :=
  [EpollMod fd (Z.lor ev (Z.lor EPOLLONESHOT (Z.lor EPOLLRDHUP EPOLLET)))].

(** ** [init] *)

(** [http_conn::init()]: the parsing state, then the three [bzero]s.  The
    second one clears [m_write_buf] with [READ_BUFFER_SIZE]. *)
Definition init_state (c : http_conn) : http_conn * list action :=
  let c := set_m_check_state CHECK_STATE_REQUESTLINE c in
  let c := set_m_linger false c in
  let c := set_m_method GET c in
  let c := set_m_url None c in
  let c := set_m_version None c in
  let c := set_m_content_length 0 c in
  let c := set_m_host None c in
  let c := set_m_start_line 0 c in
  let c := set_m_checked_index 0 c in
  let c := set_m_read_idx 0 c in
  let c := set_m_write_idx 0 c in
  let c := bzero F_read_buf READ_BUFFER_SIZE c in
  let c := bzero F_write_buf READ_BUFFER_SIZE c in
  let c := bzero F_real_file FILENAME_LEN c in
  (c, [ZeroNext (bzero_past_end F_write_buf READ_BUFFER_SIZE)]).

(** [http_conn::init(int, const sockaddr_in &)] *)
Definition init (sockfd : Z) (addr : list char) (c : http_conn)
    : http_conn * list action :=
  let c := set_m_sockfd sockfd c in
  let c := set_m_address addr c in
  let acts := SetReuseAddr (m_sockfd c) :: addfd (m_sockfd c) true ++ [UserInc] in
  let '(c, acts') := init_state c in
  (c, acts ++ acts').

(** ** [closeconn] *)
Definition closeconn (c : http_conn) : http_conn * list action :=
  if decide (m_sockfd c = -1)%Z then (c, [])
  else (set_m_sockfd (-1) c, removefd (m_sockfd c) ++ [UserDec]).

(** ** [read]

    [rs] are the answers of the successive [recv] calls: data (none: the peer
    closed), [EAGAIN]/[EWOULDBLOCK], or another error. *)
Inductive recv_result := RecvData (d : list char) | RecvAgain | RecvError.

(** [recv] stores [d] at [m_read_buf + m_read_idx]. *)
Definition feed (d : list char) (c : http_conn) : http_conn :=
  set_m_read_idx (m_read_idx c + length d)
    (set_m_read_buf (blit (m_read_idx c) d (m_read_buf c)) c).

Fixpoint read_loop (rs : list recv_result) (c : http_conn)
    : res (bool * http_conn) :=
  match rs with
  | [] => OutOfFuel
  | RecvAgain :: _ => Ok (true, c)
  | RecvError :: _ => Ok (false, c)
  | RecvData d :: rs' =>
      if decide (m_read_idx c + length d <= length (m_read_buf c)) then
        if decide (length d = 0) then Ok (false, c)
        else read_loop rs' (feed d c)
      else UB
  end.

Definition read (rs : list recv_result) (c : http_conn) : res (bool * http_conn) :=
  if decide (READ_BUFFER_SIZE <= m_read_idx c) then Ok (false, c)
  else read_loop rs c.

(** ** Invariant

    The buffers keep their size, the cursors are ordered inside the read
    buffer, and the bytes that were never received are NUL (they come from the
    [bzero] of [init]). *)
Record conn_ok (c : http_conn) : Prop := {
  ok_read_buf : length (m_read_buf c) = READ_BUFFER_SIZE;
  ok_write_buf : length (m_write_buf c) = WRITE_BUFFER_SIZE;
  ok_real_file : length (m_real_file c) = FILENAME_LEN;
  ok_start : m_start_line c <= m_checked_index c;
  ok_checked : m_checked_index c <= m_read_idx c;
  ok_read_idx : m_read_idx c <= READ_BUFFER_SIZE;
  ok_zero : forall i, m_read_idx c <= i < READ_BUFFER_SIZE ->
    m_read_buf c !! i = Some NUL;
  ok_write_idx : m_write_idx c < WRITE_BUFFER_SIZE;
  ok_real_end : m_real_file c !! (FILENAME_LEN - 1) = Some NUL;
  ok_iv : length (m_iv c) = 2;
  ok_address : length (m_address c) = 16
}.

(** The object [init] leaves for the socket [fd] and address [addr]. *)
Definition fresh_conn (fd : Z) (addr : list char) : http_conn :=
  MkConn fd addr (replicate READ_BUFFER_SIZE NUL) 0 0 0
    CHECK_STATE_REQUESTLINE None None GET None false 0
    (replicate FILENAME_LEN NUL) (replicate WRITE_BUFFER_SIZE NUL) 0
    0 (MkStat 0 0) [MkIov IovNull 0; MkIov IovNull 0] 0.

(** The arrays have their declared length: true of any object of the
    class, initialised or not. *)
Definition sized (c : http_conn) : Prop :=
  length (m_read_buf c) = READ_BUFFER_SIZE /\
  length (m_write_buf c) = WRITE_BUFFER_SIZE /\
  length (m_real_file c) = FILENAME_LEN /\
  length (m_address c) = 16.

Lemma zero_bytes_all lo hi off l :
  (lo <= off)%Z -> (off + Z.of_nat (length l) <= hi)%Z ->
  zero_bytes lo hi off l = replicate (length l) NUL.
Proof.
  intros Hlo Hhi. apply list_eq. intros i. unfold zero_bytes.
  rewrite list_lookup_imap. destruct (l !! i) as [x|] eqn:E; simpl.
  - pose proof (lookup_lt_Some _ _ _ E). rewrite lookup_replicate_2 by done.
    rewrite decide_True by lia. done.
  - apply lookup_ge_None in E. symmetry. apply lookup_replicate_None. lia.
Qed.

Lemma zero_bytes_none lo hi off l :
  (off + Z.of_nat (length l) <= lo \/ hi <= off)%Z -> zero_bytes lo hi off l = l.
Proof.
  intros H. apply list_eq. intros i. unfold zero_bytes.
  rewrite list_lookup_imap. destruct (l !! i) as [x|] eqn:E; simpl; [|done].
  pose proof (lookup_lt_Some _ _ _ E). rewrite decide_False by lia. done.
Qed.

Lemma zero_bytes_prefix hi off l k :
  (0 <= off)%Z -> hi = (off + Z.of_nat k)%Z -> k <= length l ->
  zero_bytes 0 hi off l = replicate k NUL ++ drop k l.
Proof.
  intros Hoff -> Hk. apply list_eq. intros i. unfold zero_bytes.
  rewrite list_lookup_imap. destruct (decide (i < k)) as [Hi|Hi].
  - destruct (lookup_lt_is_Some_2 l i) as [x ->]; [lia|]. simpl.
    rewrite decide_True by lia. rewrite lookup_app_l by (rewrite length_replicate; lia).
    symmetry. apply lookup_replicate_2. lia.
  - rewrite lookup_app_r by (rewrite length_replicate; lia).
    rewrite length_replicate, lookup_drop.
    replace (k + (i - k)) with i by lia.
    destruct (l !! i); simpl; [|done]. rewrite decide_False by lia. done.
Qed.

(** Evaluates the closed layout tests of a [zero_range]. *)
Ltac eval_layout :=
  repeat match goal with
  | |- context [covered ?a ?b ?f] =>
      let v := eval vm_compute in (covered a b f) in change (covered a b f) with v
  | |- context [offset_of ?f] =>
      let v := eval vm_compute in (offset_of f) in change (offset_of f) with v
  end.

(** The three [bzero]s one by one: the first and the third clear their array,
    the second the write buffer and every member after it. *)
Ltac run_bzero :=
  unfold bzero, zero_range;
  change (Z.of_nat READ_BUFFER_SIZE) with 2048%Z;
  change (Z.of_nat FILENAME_LEN) with 200%Z;
  eval_layout; conn_simpl; cbv beta iota zeta.

Lemma conn_ok_sized c : conn_ok c -> sized c.
Proof. intros []. by split_and!. Qed.

Lemma sized_lengths c :
  sized c -> length (m_read_buf c) = 2048 /\ length (m_write_buf c) = 1024
    /\ length (m_real_file c) = 200 /\ length (m_address c) = 16.
Proof. by intros (? & ? & ? & ?). Qed.

Lemma bzero_read_buf c :
  sized c ->
  bzero F_read_buf READ_BUFFER_SIZE c = set_m_read_buf (replicate READ_BUFFER_SIZE NUL) c.
Proof.
  intros Hc. destruct (sized_lengths c Hc) as (Hr & Hw & Hf & Ha).
  destruct c; conn_simpl.
  run_bzero. rewrite (zero_bytes_none _ _ _ m_address0), (zero_bytes_all _ _ _ m_read_buf0),
    (zero_bytes_none _ _ _ m_real_file0), (zero_bytes_none _ _ _ m_write_buf0) by lia.
  by rewrite Hr.
Qed.

Lemma bzero_real_file c :
  sized c ->
  bzero F_real_file FILENAME_LEN c = set_m_real_file (replicate FILENAME_LEN NUL) c.
Proof.
  intros Hc. destruct (sized_lengths c Hc) as (Hr & Hw & Hf & Ha).
  destruct c; conn_simpl.
  run_bzero. rewrite (zero_bytes_none _ _ _ m_address0), (zero_bytes_none _ _ _ m_read_buf0),
    (zero_bytes_all _ _ _ m_real_file0), (zero_bytes_none _ _ _ m_write_buf0) by lia.
  by rewrite Hf.
Qed.

Lemma bzero_write_buf c :
  sized c ->
  bzero F_write_buf READ_BUFFER_SIZE c =
    MkConn (m_sockfd c) (m_address c) (m_read_buf c) (m_read_idx c) (m_checked_index c)
      (m_start_line c) (m_check_state c) (m_url c) (m_version c) (m_method c) (m_host c)
      (m_linger c) (m_content_length c) (m_real_file c) (replicate WRITE_BUFFER_SIZE NUL)
      0 0 (MkStat 0 0) [MkIov IovNull 0; MkIov IovNull 0] 0.
Proof.
  intros Hc. destruct (sized_lengths c Hc) as (Hr & Hw & Hf & Ha).
  destruct c; conn_simpl.
  run_bzero. rewrite (zero_bytes_none _ _ _ m_address0), (zero_bytes_none _ _ _ m_read_buf0),
    (zero_bytes_none _ _ _ m_real_file0), (zero_bytes_all _ _ _ m_write_buf0) by lia.
  by rewrite Hw.
Qed.

Lemma init_state_eq c :
  sized c ->
  init_state c =
    (fresh_conn (m_sockfd c) (m_address c), [ZeroNext 824]).
Proof.
  intros Hc. pose proof Hc as (Hr & Hw & Hf & Ha). unfold init_state.
  change (bzero_past_end F_write_buf READ_BUFFER_SIZE) with 824%Z.
  rewrite bzero_read_buf by done.
  rewrite bzero_write_buf by (split_and!; conn_simpl; rewrite ?length_replicate; done).
  rewrite bzero_real_file by (split_and!; conn_simpl; rewrite ?length_replicate; done).
  reflexivity.
Qed.

Lemma fresh_conn_ok fd addr : length addr = 16 -> conn_ok (fresh_conn fd addr).
Proof.
  intros Ha.
  split; unfold fresh_conn; conn_simpl; rewrite ?length_replicate; try done;
    try (unfold READ_BUFFER_SIZE, WRITE_BUFFER_SIZE; lia).
  intros i Hi. apply lookup_replicate_2. lia.
Qed.

(** ** [init] *)

(** The events the code registers for a client socket. *)
Definition client_events : Z :=
  Z.lor (Z.lor EPOLLIN (Z.lor EPOLLET EPOLLRDHUP)) EPOLLONESHOT.

Lemma init_run fd addr c :
  sized c -> length addr = 16 ->
  init fd addr c =
    (fresh_conn fd addr,
     [SetReuseAddr fd; EpollAdd fd client_events; SetNonblocking fd; UserInc;
      ZeroNext 824])
  /\ conn_ok (fresh_conn fd addr).
Proof.
  intros Hs Ha. split; [|by apply fresh_conn_ok].
  unfold init. rewrite init_state_eq; [done|].
  destruct Hs as (? & ? & ? & _). by repeat split.
Qed.

(** C23: [init] turns any object into the fresh one of its socket, whatever
    bytes it held: the whole parsing state, the three buffers and, because
    the [bzero] of [m_write_buf] is [READ_BUFFER_SIZE] long, every member
    declared after it; it registers the socket one-shot and edge-triggered,
    counts the user, and clears the 824 bytes that follow the object in
    memory.  The fresh object satisfies the invariant of the parser. *)
Theorem init_spec fd addr c :
  sized c -> length addr = 16 ->
  init fd addr c =
    (fresh_conn fd addr,
     [SetReuseAddr fd; EpollAdd fd client_events; SetNonblocking fd; UserInc;
      ZeroNext 824])
  /\ conn_ok (fresh_conn fd addr).
Proof. apply init_run. Qed.

Lemma init_spec_witness :
  init 7 (replicate 16 NUL)
    (set_m_linger true (set_m_read_idx 5 (fresh_conn 3 (replicate 16 SP))))
  = (fresh_conn 7 (replicate 16 NUL),
     [SetReuseAddr 7; EpollAdd 7 client_events; SetNonblocking 7; UserInc;
      ZeroNext 824])
  /\ conn_ok (fresh_conn 7 (replicate 16 NUL)).
Proof. apply init_spec; [repeat split | reflexivity]. Defined.

(** ** [read] *)

(** The bytes delivered before the loop stops, and how it stops. *)
Fixpoint received (rs : list recv_result) : list char :=
  match rs with
  | RecvData (x :: d) :: rs' => (x :: d) ++ received rs'
  | _ => []
  end.

Fixpoint read_end (rs : list recv_result) : option bool :=
  match rs with
  | [] => None
  | RecvAgain :: _ => Some true
  | RecvError :: _ => Some false
  | RecvData [] :: _ => Some false
  | RecvData _ :: rs' => read_end rs'
  end.

(** POSIX: [recv] returns at most the length it is given, which is the room
    left in the buffer. *)
Fixpoint recvs_ok (room : nat) (rs : list recv_result) : Prop :=
  match rs with
  | RecvData d :: rs' => length d <= room /\ recvs_ok (room - length d) rs'
  | _ => True
  end.

Section Feed.
Implicit Types c : http_conn.

Lemma feed_nil c : feed [] c = c.
Proof. unfold feed. rewrite blit_nil. destruct c; cbn. by rewrite Nat.add_0_r. Qed.

Lemma feed_app c d1 d2 :
  m_read_idx c + length d1 + length d2 <= length (m_read_buf c) ->
  feed d2 (feed d1 c) = feed (d1 ++ d2) c.
Proof.
  intros. unfold feed, set_m_read_idx, set_m_read_buf. conn_simpl.
  rewrite blit_app by done. rewrite length_app. by rewrite Nat.add_assoc.
Qed.

Lemma feed_ok c d :
  conn_ok c -> m_read_idx c + length d <= READ_BUFFER_SIZE -> conn_ok (feed d c).
Proof.
  intros [Hr ? ? ? ? ? Hz ? ? ? ?] Hd. split; unfold feed; conn_simpl; try done; try lia.
  - rewrite length_blit; [done | lia].
  - intros i Hi. rewrite lookup_blit_ge by lia. apply Hz. lia.
Qed.

Lemma recvs_ok_length room rs : recvs_ok room rs -> length (received rs) <= room.
Proof.
  revert room. induction rs as [|[[|x d]| |] rs IH]; intros room; simpl; try lia.
  intros [Hd Hrs]. apply IH in Hrs. rewrite length_app. lia.
Qed.

Lemma read_loop_spec rs c b :
  conn_ok c -> recvs_ok (READ_BUFFER_SIZE - m_read_idx c) rs ->
  read_end rs = Some b ->
  read_loop rs c = Ok (b, feed (received rs) c)
  /\ conn_ok (feed (received rs) c).
Proof.
  revert c. induction rs as [|[[|x d]| |] rs IH]; intros c Hc Hrs Hb; simpl in *;
    simplify_eq; rewrite ?feed_nil; try done.
  - pose proof (ok_read_idx c Hc). pose proof (ok_read_buf c Hc).
    by rewrite decide_True by lia.
  - destruct Hrs as [Hd Hrs]. pose proof (ok_read_idx c Hc).
    pose proof (ok_read_buf c Hc) as Hl. rewrite decide_True by (rewrite Hl; lia).
    assert (m_read_idx (feed (x :: d) c) = m_read_idx c + S (length d)) as Hidx
      by done.
    change (x :: d ++ received rs) with ((x :: d) ++ received rs).
    rewrite <- feed_app; [apply IH|].
    + apply feed_ok; [done | simpl; lia].
    + by replace (READ_BUFFER_SIZE - m_read_idx (feed (x :: d) c))
        with (READ_BUFFER_SIZE - m_read_idx c - S (length d)) by lia.
    + done.
    + pose proof (recvs_ok_length _ _ Hrs). simpl. lia.
Qed.
End Feed.

Lemma read_run rs c b :
  conn_ok c -> m_read_idx c < READ_BUFFER_SIZE ->
  recvs_ok (READ_BUFFER_SIZE - m_read_idx c) rs -> read_end rs = Some b ->
  read rs c = Ok (b, feed (received rs) c) /\ conn_ok (feed (received rs) c).
Proof.
  intros Hc Hi Hrs Hb. unfold read. rewrite decide_False by lia.
  by apply read_loop_spec.
Qed.

(** [read] appends to the buffer exactly the bytes the kernel delivers
    before [EAGAIN], an error or the end of the stream, for any sequence of
    [recv] answers; it answers [true] exactly when the sequence ended with
    [EAGAIN], never writes outside [m_read_buf] and keeps the invariant. *)
Theorem read_spec rs c b :
  conn_ok c -> m_read_idx c < READ_BUFFER_SIZE ->
  recvs_ok (READ_BUFFER_SIZE - m_read_idx c) rs -> read_end rs = Some b ->
  read rs c = Ok (b, feed (received rs) c) /\ conn_ok (feed (received rs) c).
Proof. apply read_run. Qed.

Lemma read_spec_witness :
  let c := fresh_conn 5 (replicate 16 NUL) in
  let rs := [RecvData (lit "GET /"); RecvData (lit "a"); RecvAgain] in
  read rs c = Ok (true, feed (lit "GET /a") c) /\ conn_ok (feed (lit "GET /a") c).
Proof.
  intros c rs. apply (read_spec rs c true).
  - by apply fresh_conn_ok.
  - vm_compute. lia.
  - vm_compute. lia.
  - reflexivity.
Defined.
