(* ===== verification/HttpParse.v ===== *)
(** * [1. Proactor/http_conn.cpp]: parsing a request

    [parse_line] (the line splitter), [parse_request_line], [parse_headers],
    [parse_content], [do_request] and the main loop [process_read], on the
    buffer and with the pointers of the object.  The file system is the
    argument [sysenv]. *)

From S2P Require Import Prelude CBase HttpConn.

(** ** Reading and writing [m_read_buf] *)
Definition peek (c : http_conn) (i : nat) : res char :=
  of_option (m_read_buf c !! i).

Definition poke (i : nat) (x : char) (c : http_conn) : res http_conn :=
  if decide (i < length (m_read_buf c))
  then Ok (set_m_read_buf (<[i := x]> (m_read_buf c)) c) else UB.

(** The memory a pointer into [m_read_buf] can read: up to the end of it. *)
Definition mem_at (c : http_conn) (p : nat) : list char := drop p (m_read_buf c).

Definition blanks : list char := [SP; TAB].

(** ** [parse_line] *)

(** The [for] loop; [n] is the number of bytes left, [m_read_idx -
    m_checked_index]. *)
Fixpoint parse_line_loop (n : nat) (c : http_conn) : res (LINE_STATUS * http_conn) :=
  match n with
  | O => Ok (LINE_OPEN, c)
  | S n' =>
      let* temp := peek c (m_checked_index c) in
      if decide (temp = CR) then
        if decide (m_checked_index c + 1 = m_read_idx c) then Ok (LINE_OPEN, c)
        else
          let* next := peek c (m_checked_index c + 1) in
          if decide (next = LF) then
            let* c := poke (m_checked_index c) NUL c in
            let c := set_m_checked_index (S (m_checked_index c)) c in
            let* c := poke (m_checked_index c) NUL c in
            let c := set_m_checked_index (S (m_checked_index c)) c in
            Ok (LINE_OK, c)
          else Ok (LINE_BAD, c)
      else if decide (temp = LF) then
        if decide (1 < m_checked_index c) then
          let* prev := peek c (m_checked_index c - 1) in
          if decide (prev = CR) then
            let* c := poke (m_checked_index c - 1) NUL c in
            let* c := poke (m_checked_index c) NUL c in
            let c := set_m_checked_index (S (m_checked_index c)) c in
            Ok (LINE_OK, c)
          else Ok (LINE_BAD, c)
        else Ok (LINE_BAD, c)
      else parse_line_loop n' (set_m_checked_index (S (m_checked_index c)) c)
  end.

Definition parse_line (c : http_conn) : res (LINE_STATUS * http_conn) :=
  parse_line_loop (m_read_idx c - m_checked_index c) c.

Definition get_line (c : http_conn) : nat := m_start_line c.

(** ** [parse_request_line] *)
Definition parse_request_line (text : nat) (c : http_conn)
    : res (HTTP_CODE * http_conn) :=
  let* r := strpbrk (mem_at c text) blanks in
  match r with
  | None => Ok (BAD_REQUEST, set_m_url None c)
  | Some k =>
      let url := text + k in
      let* c := poke url NUL c in
      let c := set_m_url (Some (S url)) c in
      let* is_get := strcasecmp_eq (mem_at c text) (lit "GET") in
      if negb is_get then Ok (BAD_REQUEST, c)
      else
        let c := set_m_method GET c in
        let* r := strpbrk (mem_at c (S url)) blanks in
        match r with
        | None => Ok (BAD_REQUEST, set_m_version None c)
        | Some k' =>
            let version := S url + k' in
            let* c := poke version NUL c in
            let c := set_m_version (Some (S version)) c in
            let* is_11 := strcasecmp_eq (mem_at c (S version)) (lit "HTTP/1.1") in
            if negb is_11 then Ok (BAD_REQUEST, c)
            else
              let* is_abs := strncasecmp_eq (mem_at c (S url)) (lit "http://") 7 in
              let* c :=
                if is_abs : bool then
                  let* s := strchr (mem_at c (S url + 7)) SLASH in
                  Ok (set_m_url (Nat.add (S url + 7) <$> s) c)
                else Ok c in
              match m_url c with
              | None => Ok (BAD_REQUEST, c)
              | Some u =>
                  let* x := peek c u in
                  if decide (x = SLASH)
                  then Ok (NO_REQUEST, set_m_check_state CHECK_STATE_HEADER c)
                  else Ok (BAD_REQUEST, c)
              end
        end
  end.

(** ** [parse_headers] *)
Definition parse_headers (text : nat) (c : http_conn)
    : res (HTTP_CODE * http_conn) :=
  let* x := peek c text in
  if decide (x = NUL) then
    if decide (m_content_length c <> 0%Z)
    then Ok (NO_REQUEST, set_m_check_state CHECK_STATE_CONTENT c)
    else Ok (GET_REQUEST, c)
  else
    let* is_conn := strncasecmp_eq (mem_at c text) (lit "Connection:") 11 in
    if is_conn : bool then
      let text := text + 11 in
      let* n := strspn (mem_at c text) blanks in
      let text := text + n in
      let* keep := strcasecmp_eq (mem_at c text) (lit "keep-alive") in
      Ok (NO_REQUEST, if keep : bool then set_m_linger true c else c)
    else
      let* is_len := strncasecmp_eq (mem_at c text) (lit "Content-Length:") 15 in
      if is_len : bool then
        let text := text + 15 in
        let* n := strspn (mem_at c text) blanks in
        let text := text + n in
        let* v := atol (mem_at c text) in
        Ok (NO_REQUEST, set_m_content_length (to_int v) c)
      else
        let* is_host := strncasecmp_eq (mem_at c text) (lit "Host:") 5 in
        if is_host : bool then
          let text := text + 5 in
          let* n := strspn (mem_at c text) blanks in
          let text := text + n in
          Ok (NO_REQUEST, set_m_host (Some text) c)
        else
          (* printf("oops! unknow header %s") *)
          let* _ := of_option (cstr (mem_at c text)) in
          Ok (NO_REQUEST, c).

(** ** [parse_content] *)
Definition parse_content (text : nat) (c : http_conn)
    : res (HTTP_CODE * http_conn) :=
  let* need := int_add (m_content_length c) (Z.of_nat (m_checked_index c)) in
  if decide (need <= Z.of_nat (m_read_idx c))%Z then
    let at_ := (Z.of_nat text + m_content_length c)%Z in
    if decide (at_ < 0)%Z then UB
    else let* c := poke (Z.to_nat at_) NUL c in Ok (GET_REQUEST, c)
  else Ok (NO_REQUEST, c).

(** ** [do_request] *)

(** The file system calls of [do_request]: [stat] ([None] is -1), [open] and
    [mmap] (of a size and a descriptor; the address it returns). *)
Record sysenv := {
  sys_stat : list char -> option stat_t;
  sys_open : list char -> Z;
  sys_mmap : Z -> Z -> Z
}.

Definition doc_root : list char := lit "./resources".

Definition S_IROTH : Z := 4.
Definition S_IFMT : Z := 61440.
Definition S_IFDIR : Z := 16384.
Definition S_ISDIR (mode : Z) : bool := bool_decide (Z.land mode S_IFMT = S_IFDIR).

Section Request.
Context (E : sysenv).

Definition do_request (c : http_conn) : res (HTTP_CODE * http_conn) :=
    let len := length doc_root in
    (* strcpy(m_real_file, doc_root) stores the final NUL too *)
    let c := set_m_real_file (blit 0 (doc_root ++ [NUL]) (m_real_file c)) c in
    let* u := of_option (m_url c) in
    let* bytes := strncpy_bytes (mem_at c u) (FILENAME_LEN - len - 1) in
    let c := set_m_real_file (blit len bytes (m_real_file c)) c in
    let* path := of_option (cstr (m_real_file c)) in
    match sys_stat E path with
    | None => Ok (NO_RESOURCE, c)
    | Some st =>
        let c := set_m_file_stat st c in
        if decide (Z.land (st_mode st) S_IROTH = 0)%Z then Ok (FORBIDDEN_REQUEST, c)
        else if S_ISDIR (st_mode st) then Ok (BAD_REQUEST, c)
        else
          let fd := sys_open E path in
          let c := set_m_file_address (sys_mmap E (st_size st) fd) c in
          Ok (FILE_REQUEST, c)
    end.

(** ** [process_read] *)

(** The [while] condition: the line status and the object after it, and
    whether the body runs. *)
Definition loop_guard (line_status : LINE_STATUS) (c : http_conn)
    : res (LINE_STATUS * http_conn) :=
  if decide (m_check_state c = CHECK_STATE_CONTENT /\ line_status = LINE_OK)
  then Ok (LINE_OK, c)
  else parse_line c.

(** The [switch]: a return value, or the status the loop goes on with. *)
Definition loop_body (c : http_conn)
    : res ((HTTP_CODE + LINE_STATUS) * http_conn) :=
  let text := get_line c in
  let c := set_m_start_line (m_checked_index c) c in
  (* printf("got 1 http line:%s\n", text) *)
  let* _ := of_option (cstr (mem_at c text)) in
  match m_check_state c with
  | CHECK_STATE_REQUESTLINE =>
      let* '(ret, c) := parse_request_line text c in
      if decide (ret = BAD_REQUEST) then Ok (inl BAD_REQUEST, c)
      else Ok (inr LINE_OK, c)
  | CHECK_STATE_HEADER =>
      let* '(ret, c) := parse_headers text c in
      if decide (ret = BAD_REQUEST) then Ok (inl BAD_REQUEST, c)
      else if decide (ret = GET_REQUEST) then
        let* '(r, c) := do_request c in Ok (inl r, c)
      else Ok (inr LINE_OK, c)
  | CHECK_STATE_CONTENT =>
      let* '(ret, c) := parse_content text c in
      if decide (ret = GET_REQUEST) then
        let* '(r, c) := do_request c in Ok (inl r, c)
      else Ok (inr LINE_OPEN, c)
  end.

Fixpoint process_read_loop (fuel : nat) (line_status : LINE_STATUS) (c : http_conn)
      : res (HTTP_CODE * http_conn) :=
    match fuel with
    | O => OutOfFuel
    | S f =>
        let* '(ls, c) := loop_guard line_status c in
        if decide (ls = LINE_OK) then
          let* '(next, c) := loop_body c in
          match next with
          | inl ret => Ok (ret, c)
          | inr ls => process_read_loop f ls c
          end
        else Ok (NO_REQUEST, c)
    end.

(** Every turn consumes a byte or enters the body state, so
    [READ_BUFFER_SIZE + 3] turns are enough ([process_read_total]). *)
Definition process_read (c : http_conn) : res (HTTP_CODE * http_conn) :=
  process_read_loop (READ_BUFFER_SIZE + 3) LINE_OK c.
End Request.

(** ** Lines in memory

    [line_at m p w]: the C string at offset [p] of the buffer [m] is [w]. *)
Definition line_at (m : list char) (p : nat) (w : list char) : Prop :=
  (NUL ∉ w) /\ exists r, drop p m = w ++ NUL :: r.

(** A NUL stored at offset [i]. *)
Definition zap (i : nat) (c : http_conn) : http_conn :=
  set_m_read_buf (<[i := NUL]> (m_read_buf c)) c.

Section Lines.
Implicit Types (c : http_conn) (m w r : list char) (p i k : nat).

Lemma line_at_cstr m p w : line_at m p w <-> cstr (drop p m) = Some w.
Proof.
  split.
  - intros (Hn & r & ->). by apply cstr_app.
  - intros H. by apply cstr_Some in H.
Qed.

Lemma line_at_take m p w :
  line_at m p w <-> (NUL ∉ w) /\ take (S (length w)) (drop p m) = w ++ [NUL].
Proof.
  split; intros [Hn H]; (split; [done|]).
  - destruct H as [r ->].
    change (NUL :: r) with ([NUL] ++ r). rewrite app_assoc.
    apply take_app_length'. rewrite length_app. simpl. lia.
  - exists (drop (S (length w)) (drop p m)).
    rewrite <- (take_drop (S (length w)) (drop p m)) at 1.
    rewrite H, <- app_assoc. done.
Qed.

Lemma line_at_bound m p w : line_at m p w -> p + length w < length m.
Proof.
  intros (Hn & r & Hr).
  assert (length (drop p m) = length w + S (length r)) as Hl.
  { rewrite Hr, length_app. done. }
  rewrite length_drop in Hl. lia.
Qed.

Lemma line_at_lookup m p w i :
  line_at m p w -> i <= length w -> m !! (p + i) = (w ++ [NUL]) !! i.
Proof.
  intros (Hn & r & Hr) Hi. rewrite <- lookup_drop, Hr.
  change (NUL :: r) with ([NUL] ++ r). rewrite app_assoc, lookup_app_l; [done|].
  rewrite length_app. simpl. lia.
Qed.

(** A suffix of the string, at the pointer moved by [k]. *)
Lemma line_at_drop m p w k :
  line_at m p w -> k <= length w -> line_at m (p + k) (drop k w).
Proof.
  intros (Hn & r & Hr) Hk. split.
  - intros Hin. apply Hn. rewrite <- (take_drop k w).
    apply elem_of_app. by right.
  - exists r. rewrite <- drop_drop, Hr. by rewrite drop_app_le.
Qed.

(** A NUL stored at index [k] of the string cuts it in two. *)
Lemma line_at_cut m p w k :
  line_at m p w -> k < length w ->
  line_at (<[p + k := NUL]> m) p (take k w)
  /\ line_at (<[p + k := NUL]> m) (p + S k) (drop (S k) w).
Proof.
  intros H Hk. pose proof (line_at_bound _ _ _ H) as Hb. destruct H as (Hn & r & Hr).
  assert (drop p (<[p + k := NUL]> m) = take k w ++ NUL :: drop (S k) w ++ NUL :: r)
    as Hd.
  { rewrite drop_insert_ge by lia. rewrite Hr, insert_app_l by lia.
    replace (p + k - p) with k by lia.
    by rewrite insert_take_drop, <- app_assoc by done. }
  repeat split.
  - intros Hin. apply Hn. rewrite <- (take_drop k w). apply elem_of_app. by left.
  - by exists (drop (S k) w ++ NUL :: r).
  - intros Hin. apply Hn. rewrite <- (take_drop (S k) w). apply elem_of_app. by right.
  - exists r. rewrite <- drop_drop, Hd. rewrite drop_app_ge;
      rewrite length_take; [|lia].
    by replace (S k - min k (length w)) with 1 by lia.
Qed.

(** Bytes received after the string do not change it. *)
Lemma line_at_blit m p w i d :
  i <= length m -> p + length w < i -> line_at (blit i d m) p w <-> line_at m p w.
Proof.
  intros Hm Hi. rewrite !line_at_take.
  assert (take (S (length w)) (drop p (blit i d m))
    = take (S (length w)) (drop p m)) as ->; [|done].
  apply list_eq. intros j. destruct (decide (j < S (length w))) as [Hj|Hj].
  - rewrite !lookup_take_lt, !lookup_drop by done. apply lookup_blit_lt. lia.
  - rewrite !lookup_take_ge by lia. done.
Qed.
End Lines.

(** ** The line parsers on the text of a line

    [request_line_run text w c] and [header_run text w c] are the parsers of
    the request line and of one header as functions of the line's text [w];
    [parse_request_line_run] and [parse_headers_run] show that the pointer
    code computes them. *)
Definition request_line_run (text : nat) (w : list char) (c : http_conn)
    : HTTP_CODE * http_conn :=
  match find_any blanks w with
  | None => (BAD_REQUEST, set_m_url None c)
  | Some k =>
      let c := set_m_url (Some (S (text + k))) (zap (text + k) c) in
      if negb (ieq (take k w) (lit "GET")) then (BAD_REQUEST, c)
      else
        let rest := drop (S k) w in
        let c := set_m_method GET c in
        match find_any blanks rest with
        | None => (BAD_REQUEST, set_m_version None c)
        | Some k' =>
            let v := S (text + k) + k' in
            let c := set_m_version (Some (S v)) (zap v c) in
            if negb (ieq (drop (S k') rest) (lit "HTTP/1.1")) then (BAD_REQUEST, c)
            else
              let url := take k' rest in
              let c :=
                if iprefix (lit "http://") url then
                  set_m_url (Nat.add (S (text + k) + 7) <$>
                    find_any [SLASH] (drop 7 url)) c
                else c in
              match m_url c with
              | None => (BAD_REQUEST, c)
              | Some u =>
                  if decide ((url ++ [NUL]) !! (u - S (text + k)) = Some SLASH)
                  then (NO_REQUEST, set_m_check_state CHECK_STATE_HEADER c)
                  else (BAD_REQUEST, c)
              end
        end
  end.

Definition header_run (text : nat) (w : list char) (c : http_conn)
    : HTTP_CODE * http_conn :=
  let value n := drop (span_len blanks (drop n w)) (drop n w) in
  if decide (w = []) then
    if decide (m_content_length c <> 0%Z)
    then (NO_REQUEST, set_m_check_state CHECK_STATE_CONTENT c)
    else (GET_REQUEST, c)
  else if iprefix (lit "Connection:") w then
    (NO_REQUEST,
     if ieq (value 11) (lit "keep-alive") then set_m_linger true c else c)
  else if iprefix (lit "Content-Length:") w then
    (NO_REQUEST, set_m_content_length (to_int (atol_val (value 15))) c)
  else if iprefix (lit "Host:") w then
    (NO_REQUEST,
     set_m_host (Some (text + 5 + span_len blanks (drop 5 w))) c)
  else (NO_REQUEST, c).

Section Runs.
Implicit Types (c : http_conn) (w : list char) (text p i k : nat).

Lemma strpbrk_at c p w acc :
  line_at (m_read_buf c) p w -> strpbrk (mem_at c p) acc = Ok (find_any acc w).
Proof. intros (Hn & r & Hr). unfold mem_at. rewrite Hr. by apply strpbrk_spec. Qed.

Lemma strspn_at c p w :
  line_at (m_read_buf c) p w -> strspn (mem_at c p) blanks = Ok (span_len blanks w).
Proof.
  intros (Hn & r & Hr). unfold mem_at. rewrite Hr. apply strspn_spec; [done|].
  by apply (bool_decide_eq_true_1 (NUL ∉ blanks)).
Qed.

Lemma strcasecmp_at c p w l :
  line_at (m_read_buf c) p w -> NUL ∉ l ->
  strcasecmp_eq (mem_at c p) l = Ok (ieq w l).
Proof. intros (Hn & r & Hr) Hl. unfold mem_at. rewrite Hr. by apply strcasecmp_spec. Qed.

Lemma strncasecmp_at c p w l n :
  line_at (m_read_buf c) p w -> NUL ∉ l -> n = length l ->
  strncasecmp_eq (mem_at c p) l n = Ok (iprefix l w).
Proof.
  intros (Hn & r & Hr) Hl ->. unfold mem_at. rewrite Hr. by apply strncasecmp_spec.
Qed.

Lemma atol_at c p w :
  line_at (m_read_buf c) p w -> atol (mem_at c p) = Ok (atol_val w).
Proof. intros (Hn & r & Hr). unfold mem_at. rewrite Hr. apply atol_app. Qed.

Lemma peek_at c p w i :
  line_at (m_read_buf c) p w -> i <= length w ->
  exists x, peek c (p + i) = Ok x /\ (w ++ [NUL]) !! i = Some x.
Proof.
  intros H Hi. unfold peek. rewrite (line_at_lookup _ _ _ _ H Hi).
  destruct (lookup_lt_is_Some_2 (w ++ [NUL]) i) as [x Hx].
  { rewrite length_app. simpl. lia. }
  rewrite Hx. by exists x.
Qed.

Lemma poke_zap c i : i < length (m_read_buf c) -> poke i NUL c = Ok (zap i c).
Proof. intros. unfold poke. by rewrite decide_True. Qed.

Lemma iprefix_length l w : iprefix l w = true -> length l <= length w.
Proof.
  unfold iprefix. intros H%bool_decide_eq_true.
  apply (f_equal length) in H. unfold lower in H.
  rewrite !length_fmap, length_take in H. lia.
Qed.
End Runs.

(** Literals hold no NUL. *)
Ltac no_nul := by apply (bool_decide_eq_true_1 (NUL ∉ _)).

Lemma parse_request_line_run text w c :
  line_at (m_read_buf c) text w ->
  parse_request_line text c = Ok (request_line_run text w c).
Proof.
  intros H. unfold parse_request_line, request_line_run.
  rewrite (strpbrk_at _ _ _ _ H). cbn [res_bind].
  destruct (find_any blanks w) as [k|] eqn:Ek; [|done].
  pose proof (find_any_lt _ _ _ Ek) as Hk.
  pose proof (line_at_bound _ _ _ H) as Hb.
  destruct (line_at_cut _ _ _ _ H Hk) as [H1 H2].
  rewrite poke_zap by lia. cbn [res_bind].
  set (c1 := set_m_url _ (zap _ _)).
  rewrite (strcasecmp_at c1 text (take k w)) by (done || no_nul). cbn [res_bind].
  destruct (ieq (take k w) (lit "GET")); cbn [negb]; [|done].
  rewrite Nat.add_succ_r in H2. set (rest := drop (S k) w) in *.
  rewrite (strpbrk_at (set_m_method GET c1) _ rest) by done. cbn [res_bind].
  destruct (find_any blanks rest) as [k'|] eqn:Ek'; [|done].
  pose proof (find_any_lt _ _ _ Ek') as Hk'.
  pose proof (line_at_bound _ _ _ H2) as Hb2.
  destruct (line_at_cut _ _ _ _ H2 Hk') as [H3 H4].
  assert (S (text + k) + k' < length (m_read_buf c1)) as Hb3.
  { change (m_read_buf c1) with (<[text + k := NUL]> (m_read_buf c)). lia. }
  rewrite poke_zap by exact Hb3. cbn [res_bind].
  set (c2 := set_m_version _ (zap _ _)). rewrite Nat.add_succ_r in H4.
  rewrite (strcasecmp_at c2 _ (drop (S k') rest)) by (done || no_nul). cbn [res_bind].
  destruct (ieq (drop (S k') rest) (lit "HTTP/1.1")); cbn [negb]; [|done].
  set (url := take k' rest) in *.
  rewrite (strncasecmp_at c2 _ url) by (done || no_nul). cbn [res_bind].
  destruct (iprefix (lit "http://") url) eqn:Ep; cbn [res_bind].
  - pose proof (iprefix_length _ _ Ep) as Hl. change (length (lit _)) with 7 in Hl.
    pose proof (line_at_drop _ _ _ 7 H3 Hl) as H5.
    unfold strchr. rewrite (strpbrk_at c2 _ (drop 7 url)) by done. cbn [res_bind].
    destruct (find_any [SLASH] (drop 7 url)) as [j|] eqn:Ej; conn_simpl; [|done].
    pose proof (find_any_lt _ _ _ Ej) as Hj. rewrite length_drop in Hj.
    destruct (peek_at (set_m_url (Some (S (text + k) + 7 + j)) c2) _ url (7 + j) H3)
      as (x & Hx & Hx'); [lia|].
    cbn [fmap option_fmap option_map m_url set_m_url].
    replace (S (text + k) + 7 + j - S (text + k)) with (7 + j) by lia.
    rewrite (Nat.add_assoc _ 7 j) in Hx. rewrite Hx, Hx'. cbn [res_bind].
    case_decide; case_decide; by simplify_eq.
  - cbn [m_url set_m_method c1 c2 set_m_url set_m_version zap set_m_read_buf].
    destruct (peek_at c2 _ url 0 H3) as (x & Hx & Hx'); [lia|].
    rewrite Nat.add_0_r in Hx. rewrite Nat.sub_diag, Hx, Hx'. cbn [res_bind].
    case_decide; case_decide; by simplify_eq.
Qed.

(** The blanks after a header name, from the pointer past the name. *)
Lemma header_value_at c text w n :
  line_at (m_read_buf c) text w -> n <= length w ->
  strspn (mem_at c (text + n)) blanks = Ok (span_len blanks (drop n w))
  /\ line_at (m_read_buf c) (text + n + span_len blanks (drop n w))
       (drop (span_len blanks (drop n w)) (drop n w)).
Proof.
  intros H Hn. pose proof (line_at_drop _ _ _ _ H Hn) as H1. split.
  - by apply strspn_at.
  - apply line_at_drop; [done | apply span_len_le].
Qed.

Lemma parse_headers_run text w c :
  line_at (m_read_buf c) text w ->
  parse_headers text c = Ok (header_run text w c).
Proof.
  intros H. unfold parse_headers, header_run.
  destruct (peek_at c text w 0 H) as (x & Hx & Hx'); [lia|].
  rewrite Nat.add_0_r in Hx. rewrite Hx. cbn [res_bind].
  destruct w as [|y w].
  { simpl in Hx'. simplify_eq. rewrite !decide_True by done. by case_decide. }
  simpl in Hx'. simplify_eq. rewrite decide_False; cycle 1.
  { intros ->. by destruct H as [[]%not_elem_of_cons _]. }
  rewrite decide_False by done. set (l := x :: w) in *.
  rewrite (strncasecmp_at _ _ _ _ _ H) by (done || no_nul). cbn [res_bind].
  destruct (iprefix (lit "Connection:") l) eqn:E1.
  { destruct (header_value_at c text l 11 H) as [-> Hv]; [by apply iprefix_length in E1|].
    cbn [res_bind]. rewrite (strcasecmp_at _ _ _ _ Hv) by no_nul. done. }
  rewrite (strncasecmp_at _ _ _ _ _ H) by (done || no_nul). cbn [res_bind].
  destruct (iprefix (lit "Content-Length:") l) eqn:E2.
  { destruct (header_value_at c text l 15 H) as [-> Hv]; [by apply iprefix_length in E2|].
    cbn [res_bind]. by rewrite (atol_at _ _ _ Hv). }
  rewrite (strncasecmp_at _ _ _ _ _ H) by (done || no_nul). cbn [res_bind].
  destruct (iprefix (lit "Host:") l) eqn:E3.
  { destruct (header_value_at c text l 5 H) as [-> Hv]; [by apply iprefix_length in E3|].
    done. }
  apply line_at_cstr in H. unfold mem_at. by rewrite H.
Qed.

(** ** [parse_line] on the unread bytes

    [unread c] are the received bytes not scanned yet; [scan_line] is the
    splitter on them. *)
Definition unread (c : http_conn) : list char :=
  take (m_read_idx c - m_checked_index c) (drop (m_checked_index c) (m_read_buf c)).

(** A line ended by CR LF after [n] bytes; the data stops after [n] bytes; a
    CR without LF or an LF without CR at index [n]. *)
Inductive scan := ScanLine (n : nat) | ScanOpen (n : nat) | ScanBad (n : nat).

Definition scan_S (s : scan) : scan :=
  match s with
  | ScanLine n => ScanLine (S n)
  | ScanOpen n => ScanOpen (S n)
  | ScanBad n => ScanBad (S n)
  end.

Fixpoint scan_line (w : list char) : scan :=
  match w with
  | [] => ScanOpen 0
  | x :: w' =>
      if decide (x = CR) then
        match w' with
        | [] => ScanOpen 0
        | y :: _ => if decide (y = LF) then ScanLine 0 else ScanBad 0
        end
      else if decide (x = LF) then ScanBad 0
      else scan_S (scan_line w')
  end.

(** The byte before the cursor is never a CR: it was scanned as another byte
    or replaced by NUL. *)
Definition prev_ok (c : http_conn) : Prop :=
  1 < m_checked_index c -> m_read_buf c !! (m_checked_index c - 1) <> Some CR.

(** The cursor moved by [n], and past a line of [n] bytes. *)
Definition advance (n : nat) (c : http_conn) : http_conn :=
  set_m_checked_index (m_checked_index c + n) c.

Definition take_line (n : nat) (c : http_conn) : http_conn :=
  advance (n + 2) (zap (m_checked_index c + n + 1) (zap (m_checked_index c + n) c)).

Definition scan_result (s : scan) (c : http_conn) : LINE_STATUS * http_conn :=
  match s with
  | ScanLine n => (LINE_OK, take_line n c)
  | ScanOpen n => (LINE_OPEN, advance n c)
  | ScanBad n => (LINE_BAD, advance n c)
  end.

Section ParseLine.
Implicit Types (c : http_conn) (w : list char) (n : nat).

Lemma unread_cons c :
  conn_ok c -> m_checked_index c < m_read_idx c ->
  exists x, m_read_buf c !! m_checked_index c = Some x
    /\ unread c = x :: unread (advance 1 c).
Proof.
  intros Hc Hlt. pose proof (ok_read_idx c Hc). pose proof (ok_read_buf c Hc) as Hl.
  destruct (lookup_lt_is_Some_2 (m_read_buf c) (m_checked_index c)) as [x Hx]; [lia|].
  exists x. split; [done|]. unfold unread, advance. conn_simpl.
  rewrite (drop_S _ x) by done.
  replace (m_read_idx c - m_checked_index c)
    with (S (m_read_idx c - (m_checked_index c + 1))) by lia.
  simpl. by rewrite Nat.add_1_r.
Qed.

Lemma length_unread c :
  conn_ok c -> length (unread c) = m_read_idx c - m_checked_index c.
Proof.
  intros Hc. pose proof (ok_read_idx c Hc). pose proof (ok_read_buf c Hc).
  unfold unread. rewrite length_take, length_drop. lia.
Qed.

Lemma advance_advance n k c : advance n (advance k c) = advance (k + n) c.
Proof. unfold advance, set_m_checked_index. conn_simpl. f_equal. lia. Qed.

Lemma advance_0 c : advance 0 c = c.
Proof. unfold advance. destruct c. conn_simpl. by rewrite Nat.add_0_r. Qed.

Lemma take_line_advance n k c : take_line n (advance k c) = take_line (k + n) c.
Proof.
  unfold take_line. unfold advance at 2 3 4, zap. conn_simpl.
  replace (m_checked_index c + (k + n) + 1) with (m_checked_index c + k + n + 1) by lia.
  replace (m_checked_index c + (k + n)) with (m_checked_index c + k + n) by lia.
  unfold advance, set_m_checked_index, set_m_read_buf. conn_simpl. f_equal. lia.
Qed.

Lemma scan_result_S s c : scan_result s (advance 1 c) = scan_result (scan_S s) c.
Proof.
  destruct s; simpl; by rewrite ?take_line_advance, ?advance_advance.
Qed.

Lemma advance_ok n c :
  conn_ok c -> m_checked_index c + n <= m_read_idx c -> conn_ok (advance n c).
Proof. intros [] Hn. split; unfold advance; conn_simpl; try done; lia. Qed.
End ParseLine.

Lemma unread_nil c : m_read_idx c <= m_checked_index c -> unread c = [].
Proof. intros. unfold unread. by replace (_ - _) with 0 by lia. Qed.

Lemma parse_line_loop_spec n c :
  conn_ok c -> prev_ok c -> n = m_read_idx c - m_checked_index c ->
  parse_line_loop n c = Ok (scan_result (scan_line (unread c)) c).
Proof.
  revert c. induction n as [|n IH]; intros c Hc Hp Hn.
  { rewrite unread_nil by lia. simpl. by rewrite advance_0. }
  destruct (unread_cons c Hc) as (x & Hx & ->); [lia|]. simpl.
  pose proof (ok_read_buf c Hc) as Hl. pose proof (ok_read_idx c Hc).
  unfold peek. rewrite Hx. cbn [of_option res_bind].
  assert (conn_ok (advance 1 c)) as Hc1 by (apply advance_ok; [done | lia]).
  case_decide as Ecr.
  - case_decide as Elast.
    { rewrite unread_nil by (unfold advance; conn_simpl; lia).
      simpl. by rewrite advance_0. }
    destruct (unread_cons (advance 1 c) Hc1) as (y & Hy & ->).
    { unfold advance. conn_simpl. lia. }
    unfold advance in Hy. conn_simpl. rewrite Hy. cbn [of_option res_bind].
    case_decide as Elf; [|simpl; by rewrite advance_0].
    rewrite poke_zap by lia. cbn [res_bind].
    rewrite poke_zap by (unfold zap; conn_simpl; rewrite length_insert; lia).
    cbn [res_bind scan_result]. unfold take_line, advance, zap. conn_simpl.
    rewrite !Nat.add_0_r, Nat.add_1_r. simpl.
    unfold set_m_checked_index, set_m_read_buf. conn_simpl.
    do 3 f_equal. lia.
  - case_decide as Elf.
    + simpl. rewrite advance_0. case_decide as E1; [|done].
      specialize (Hp E1).
      destruct (lookup_lt_is_Some_2 (m_read_buf c) (m_checked_index c - 1)) as [z Hz];
        [lia|].
      rewrite Hz in Hp |- *. cbn [of_option res_bind].
      rewrite decide_False by congruence. done.
    + replace (set_m_checked_index (S (m_checked_index c)) c) with (advance 1 c)
        by (unfold advance; by rewrite Nat.add_1_r).
      rewrite IH, scan_result_S; [done..| |].
      * intros _. unfold advance. conn_simpl. rewrite Nat.add_sub. congruence.
      * unfold advance. conn_simpl. lia.
Qed.

Lemma parse_line_eq c :
  conn_ok c -> prev_ok c ->
  parse_line c = Ok (scan_result (scan_line (unread c)) c).
Proof. intros. by apply parse_line_loop_spec. Qed.

(** *** Facts on [scan_line] *)
Section Scan.
Implicit Types (w d : list char) (n : nat).

(** What a complete line looks like. *)
Lemma scan_line_Line w n :
  scan_line w = ScanLine n ->
  exists l r, w = l ++ CR :: LF :: r /\ length l = n /\ (CR ∉ l) /\ (LF ∉ l).
Proof.
  revert n. induction w as [|x w IH]; intros n; simpl; [done|].
  case_decide as E1.
  - destruct w as [|y w]; [done|]. case_decide; [|done]. intros [= <-]. subst.
    exists [], w. split_and!; try done; apply not_elem_of_nil.
  - case_decide as E2; [done|].
    destruct (scan_line w) as [k| |] eqn:E; try done. intros [= <-].
    destruct (IH k eq_refl) as (l & r & -> & <- & Hcr & Hlf).
    exists (x :: l), r. split_and!; try done; by apply not_elem_of_cons.
Qed.

Lemma scan_line_mk l r :
  CR ∉ l -> LF ∉ l -> scan_line (l ++ CR :: LF :: r) = ScanLine (length l).
Proof.
  induction l as [|x l IH]; intros H1 H2; [done|]. simpl.
  apply not_elem_of_cons in H1 as [? ?], H2 as [? ?].
  rewrite !decide_False by congruence. by rewrite IH.
Qed.

Lemma scan_line_bound w :
  match scan_line w with
  | ScanLine n => n + 2 <= length w
  | ScanOpen n => n <= length w
  | ScanBad n => n < length w
  end.
Proof.
  induction w as [|x w IH]; simpl; [lia|].
  case_decide; [destruct w; simpl; [lia | case_decide; simpl; lia]|].
  case_decide; simpl; [lia|]. destruct (scan_line w); simpl; lia.
Qed.

(** Scanning resumes where it stopped: more data after an open end, or
    after a malformed one, gives the scan of the whole from that point. *)
Lemma scan_line_resume w d n :
  scan_line w = ScanOpen n \/ scan_line w = ScanBad n ->
  scan_line (w ++ d) =
    Nat.iter n scan_S (scan_line (drop n w ++ d)).
Proof.
  revert n. induction w as [|x w IH]; intros n; simpl.
  { intros [[= <-]|?]; done. }
  case_decide as E1.
  { destruct w as [|y w]; [intros [[= <-]|?]; subst; done|].
    case_decide; [by intros [?|?]|]. intros [?|[= <-]]; by simplify_eq. }
  case_decide as E2.
  { intros [?|[= <-]]; by simplify_eq. }
  intros H. destruct n as [|n].
  { by destruct H as [H|H]; destruct (scan_line w). }
  simpl. f_equal. apply IH.
  destruct H as [H|H]; destruct (scan_line w); simplify_eq/=; auto.
Qed.

(** A malformed line stays malformed whatever follows. *)
Lemma scan_line_Bad_app w d n :
  scan_line w = ScanBad n -> scan_line (w ++ d) = ScanBad n.
Proof.
  revert n. induction w as [|x w IH]; intros n; simpl; [done|].
  case_decide; [destruct w; simpl; [done|]; by case_decide|].
  case_decide; [done|]. destruct (scan_line w) as [| |k]; try done.
  intros [= <-]. by rewrite (IH k).
Qed.

Lemma scan_line_Line_app w d n :
  scan_line w = ScanLine n -> scan_line (w ++ d) = ScanLine n.
Proof.
  intros (l & r & -> & <- & Hcr & Hlf)%scan_line_Line.
  rewrite <- app_assoc. by apply scan_line_mk.
Qed.
End Scan.

(** ** What the parsers may change

    Between two turns of the loop the parsers only store NULs in the read
    buffer and set the parsed fields; the cursors, the other buffers and the
    reply are untouched. *)
Definition zapped (m m' : list char) : Prop :=
  length m' = length m /\ forall i, m' !! i = m !! i \/ m' !! i = Some NUL.

Record touched (c c' : http_conn) : Prop := {
  t_buf : zapped (m_read_buf c) (m_read_buf c');
  t_read_idx : m_read_idx c' = m_read_idx c;
  t_checked : m_checked_index c' = m_checked_index c;
  t_start : m_start_line c' = m_start_line c;
  t_real_file : m_real_file c' = m_real_file c;
  t_write_buf : m_write_buf c' = m_write_buf c;
  t_write_idx : m_write_idx c' = m_write_idx c;
  t_sockfd : m_sockfd c' = m_sockfd c;
  t_iv : m_iv c' = m_iv c;
  t_address : m_address c' = m_address c
}.

#[export] Instance zapped_preorder : PreOrder zapped.
Proof.
  split.
  - intros m. split; [done | by left].
  - intros m1 m2 m3 [Hl1 H1] [Hl2 H2]. split; [congruence|].
    intros i. destruct (H2 i) as [E|E]; [|by right].
    destruct (H1 i); [left | right]; congruence.
Qed.

#[export] Instance touched_preorder : PreOrder touched.
Proof.
  split.
  - intros c. split; done.
  - intros c1 c2 c3 [] []. split; try congruence. by etrans.
Qed.

Lemma zapped_insert i m : zapped m (<[i := NUL]> m).
Proof.
  split; [by rewrite length_insert|]. intros j.
  destruct (decide (i = j)) as [->|]; [|left; by apply list_lookup_insert_ne].
  destruct (decide (j < length m)); [right; by apply list_lookup_insert_eq|].
  left. by rewrite list_insert_ge by lia.
Qed.

(** An assignment to parsed fields, of an object built from [c]. *)
Ltac touch := split; unfold zap; conn_simpl; try done; try apply zapped_insert.

Lemma touched_zap i c : touched c (zap i c).
Proof. touch. Qed.

#[export] Hint Resolve touched_zap : backend.

Lemma request_line_run_touched text w c :
  touched c (request_line_run text w c).2.
Proof.
  unfold request_line_run. destruct (find_any blanks w) as [k|]; [|simpl; touch].
  set (c1 := set_m_url _ (zap _ c)).
  assert (touched c c1) as H1 by touch.
  destruct (negb _); [done|]. destruct (find_any _ _) as [k'|].
  - set (c2 := set_m_version _ (zap _ _)).
    assert (touched c c2) as H2.
    { transitivity (set_m_method GET c1); [rewrite H1; touch|]. touch. }
    destruct (negb _); [done|].
    set (c3 := if iprefix _ _ then _ else c2).
    assert (touched c c3) as H3.
    { unfold c3. destruct (iprefix _ _); [|done]. rewrite H2. touch. }
    destruct (m_url c3); [|done]. case_decide; [|done]. simpl. rewrite H3. touch.
  - simpl. rewrite H1. touch.
Qed.

Lemma header_run_touched text w c : touched c (header_run text w c).2.
Proof.
  unfold header_run. repeat case_decide; try (simpl; touch; fail).
  destruct (iprefix (lit "Connection:") w); [simpl; destruct (ieq _ _); touch|].
  destruct (iprefix (lit "Content-Length:") w); [simpl; touch|].
  destruct (iprefix (lit "Host:") w); simpl; touch.
Qed.

(** What the request line parser stores in the state machine. *)
Lemma header_run_state text w c :
  m_check_state (header_run text w c).2 =
    if decide (w = [] /\ m_content_length c <> 0%Z)
    then CHECK_STATE_CONTENT else m_check_state c.
Proof.
  unfold header_run. destruct (decide (w = [])) as [->|Hw].
  - case_decide; [rewrite decide_True by done; done|].
    rewrite decide_False by (by intros [_ ?]). done.
  - rewrite (decide_False (P := _ /\ _)) by (by intros [? _]).
    destruct (iprefix (lit "Connection:") w); [simpl; by destruct (ieq _ _)|].
    destruct (iprefix (lit "Content-Length:") w); [done|].
    by destruct (iprefix (lit "Host:") w).
Qed.

Section Touched.
Implicit Types c : http_conn.

Lemma touched_ok c c' : touched c c' -> conn_ok c -> conn_ok c'.
Proof.
  intros [[Hl Hz] ? ? ? ? ?] [Hb ? ? ? ? ? Hzero ? ?].
  split; try congruence; try lia.
  intros i Hi. destruct (Hz i) as [->|]; [apply Hzero; lia | done].
Qed.

Lemma touched_prev c c' : touched c c' -> prev_ok c -> prev_ok c'.
Proof.
  intros [[Hl Hz] ? Hc ? ? ?] Hp. unfold prev_ok. rewrite Hc. intros H1.
  destruct (Hz (m_checked_index c - 1)) as [->| ->]; [by apply Hp | done].
Qed.

Lemma take_line_touched n c : touched (advance (n + 2) c) (take_line n c).
Proof.
  unfold take_line. split; unfold advance, zap; conn_simpl; try done.
  etrans; apply zapped_insert.
Qed.

Lemma take_line_ok n c :
  conn_ok c -> n + 2 <= length (unread c) ->
  conn_ok (take_line n c) /\ prev_ok (take_line n c).
Proof.
  intros Hc Hn. rewrite length_unread in Hn by done.
  pose proof (ok_read_idx c Hc). pose proof (ok_read_buf c Hc). split.
  - eapply touched_ok; [apply take_line_touched|]. apply advance_ok; [done | lia].
  - intros _. unfold take_line, advance, zap. conn_simpl.
    replace (m_checked_index c + (n + 2) - 1) with (m_checked_index c + n + 1) by lia.
    rewrite list_lookup_insert_eq by (rewrite length_insert; lia). done.
Qed.

(** The text of the line: it ends before the NUL that replaced the CR. *)
Lemma line_at_before m p i :
  p <= i -> m !! i = Some NUL ->
  exists w, line_at m p w /\ p + length w <= i.
Proof.
  intros Hp Hi.
  destruct (proj2 (cstr_is_Some (drop p m))) as [w Hw].
  { apply list_elem_of_lookup. exists (i - p). rewrite lookup_drop.
    by replace (p + (i - p)) with i by lia. }
  apply line_at_cstr in Hw. exists w. split; [done|].
  destruct (decide (p + length w <= i)) as [|Hgt]; [done|exfalso].
  destruct Hw as (Hn & r & Hr). apply Hn, list_elem_of_lookup.
  exists (i - p). rewrite <- (lookup_app_l w (NUL :: r)) by lia.
  rewrite <- Hr, lookup_drop. by replace (p + (i - p)) with i by lia.
Qed.

Lemma take_line_text n c :
  conn_ok c -> n + 2 <= length (unread c) ->
  exists w, line_at (m_read_buf (take_line n c)) (m_start_line c) w
    /\ m_start_line c + length w <= m_checked_index c + n.
Proof.
  intros Hc Hn. rewrite length_unread in Hn by done.
  pose proof (ok_read_idx c Hc). pose proof (ok_read_buf c Hc).
  pose proof (ok_start c Hc).
  apply line_at_before; [lia|]. unfold take_line, advance, zap. conn_simpl.
  rewrite list_lookup_insert_ne by lia. apply list_lookup_insert_eq. lia.
Qed.
End Touched.

(** ** Receiving more data

    [feed] appends to the received bytes; everything the parsers do happens
    before that point, so it commutes with [feed]. *)
Section FeedCommutes.
Implicit Types (c : http_conn) (d w : list char) (text n : nat).

Lemma zap_feed i d c :
  i < m_read_idx c -> m_read_idx c + length d <= length (m_read_buf c) ->
  zap i (feed d c) = feed d (zap i c).
Proof.
  intros. unfold zap, feed. unfold set_m_read_buf, set_m_read_idx. conn_simpl.
  by rewrite insert_blit.
Qed.

Lemma advance_feed n d c : advance n (feed d c) = feed d (advance n c).
Proof. done. Qed.

Lemma take_line_feed n d c :
  conn_ok c -> n + 2 <= length (unread c) ->
  m_read_idx c + length d <= READ_BUFFER_SIZE ->
  take_line n (feed d c) = feed d (take_line n c).
Proof.
  intros Hc Hn Hd. rewrite length_unread in Hn by done.
  pose proof (ok_read_buf c Hc). unfold take_line.
  change (m_checked_index (feed d c)) with (m_checked_index c).
  rewrite (zap_feed (m_checked_index c + n)) by lia. rewrite zap_feed; [done| |].
  - unfold zap. conn_simpl. lia.
  - unfold zap. conn_simpl. rewrite length_insert. lia.
Qed.

Lemma unread_feed d c :
  conn_ok c -> m_read_idx c + length d <= READ_BUFFER_SIZE ->
  unread (feed d c) = unread c ++ d.
Proof.
  intros Hc Hd. pose proof (ok_read_buf c Hc). pose proof (ok_checked c Hc).
  unfold unread, feed. conn_simpl. rewrite blit_in_range by lia.
  rewrite drop_app_le by (rewrite length_take; lia).
  rewrite app_assoc, take_app_length'.
  - f_equal. rewrite skipn_firstn_comm. done.
  - rewrite length_app, length_drop, length_take. lia.
Qed.

Lemma request_line_run_feed text w d c :
  text + length w < m_read_idx c ->
  m_read_idx c + length d <= length (m_read_buf c) ->
  request_line_run text w (feed d c) =
    (let '(r, c') := request_line_run text w c in (r, feed d c')).
Proof.
  intros Hw Hd. unfold request_line_run. cbv zeta.
  destruct (find_any blanks w) as [k|] eqn:Ek; [|done].
  pose proof (find_any_lt _ _ _ Ek). rewrite zap_feed by lia.
  destruct (negb _); [done|].
  destruct (find_any blanks (drop _ _)) as [k'|] eqn:Ek'; [|done].
  pose proof (find_any_lt _ _ _ Ek') as Hk'. rewrite length_drop in Hk'.
  change (set_m_method GET (set_m_url (Some (S (text + k))) (feed d (zap (text + k) c))))
    with (feed d (set_m_method GET (set_m_url (Some (S (text + k))) (zap (text + k) c)))).
  rewrite zap_feed; cycle 1.
  { conn_simpl. unfold zap. conn_simpl. lia. }
  { conn_simpl. unfold zap. conn_simpl. rewrite length_insert. lia. }
  destruct (negb _); [done|].
  destruct (iprefix _ _).
  - destruct (find_any [SLASH] _); [|done]. cbn. by case_decide.
  - cbn. by case_decide.
Qed.

Lemma header_run_feed text w d c :
  header_run text w (feed d c) =
    (let '(r, c') := header_run text w c in (r, feed d c')).
Proof.
  unfold header_run. change (m_content_length (feed d c)) with (m_content_length c).
  case_decide; [by case_decide|].
  destruct (iprefix (lit "Connection:") w); [by destruct (ieq _ _)|].
  destruct (iprefix (lit "Content-Length:") w); [done|].
  by destruct (iprefix (lit "Host:") w).
Qed.
End FeedCommutes.

(** ** The loop *)
Section Loop.
Context (E : sysenv).
Implicit Types (c : http_conn) (d w : list char) (ls : LINE_STATUS) (f : nat).

(** [do_request] always answers with a final code. *)
Lemma do_request_code c r c' : do_request E c = Ok (r, c') -> r <> NO_REQUEST.
Proof.
  unfold do_request. intros H. invert_res. repeat case_match; by simplify_eq.
Qed.

Lemma do_request_state c r c' : do_request E c = Ok (r, c') ->
  m_check_state c' = m_check_state c.
Proof.
  unfold do_request. intros H. invert_res. repeat case_match; simplify_eq; done.
Qed.

Lemma do_request_fuel c : do_request E c <> OutOfFuel.
Proof.
  unfold do_request. apply res_bind_fuel; [apply of_option_fuel | intros u _].
  apply res_bind_fuel; [apply strncpy_bytes_fuel | intros bytes _].
  apply res_bind_fuel; [apply of_option_fuel | intros path _].
  repeat case_match; done.
Qed.

Lemma parse_content_fuel text c : parse_content text c <> OutOfFuel.
Proof.
  unfold parse_content, int_add, poke. cbv zeta.
  repeat (case_decide; cbn [res_bind]; try done).
Qed.

Lemma loop_body_fuel c : loop_body E c <> OutOfFuel.
Proof.
  unfold loop_body. set (c1 := set_m_start_line _ c).
  destruct (cstr _) as [w|] eqn:Ew; [|done]. apply line_at_cstr in Ew.
  cbn [of_option res_bind]. destruct (m_check_state c1).
  - rewrite (parse_request_line_run _ _ _ Ew). cbn [res_bind].
    destruct (request_line_run _ _ _). by case_decide.
  - rewrite (parse_headers_run _ _ _ Ew). cbn [res_bind].
    destruct (header_run _ _ _). case_decide; [done|]. case_decide; [|done].
    apply res_bind_fuel; [apply do_request_fuel | by intros [] _].
  - apply res_bind_fuel; [apply parse_content_fuel|]. intros [r c2] _.
    case_decide; [|done].
    apply res_bind_fuel; [apply do_request_fuel | by intros [] _].
Qed.

Lemma loop_guard_ok ls c :
  conn_ok c -> prev_ok c -> exists ls' c', loop_guard ls c = Ok (ls', c').
Proof.
  intros. unfold loop_guard. case_decide; [eauto|].
  rewrite parse_line_eq by done. destruct (scan_line _); eauto.
Qed.

(** A turn of the loop that goes on, from the object at the head of the
    [switch]. *)
Lemma loop_body_next c ls c' :
  loop_body E c = Ok (inr ls, c') ->
  touched (set_m_start_line (m_checked_index c) c) c'
  /\ (m_check_state c <> CHECK_STATE_CONTENT /\ ls = LINE_OK
      \/ m_check_state c = CHECK_STATE_CONTENT /\ ls = LINE_OPEN
         /\ c' = set_m_start_line (m_checked_index c) c).
Proof.
  unfold loop_body. set (c1 := set_m_start_line _ c). intros H.
  change (m_check_state c1) with (m_check_state c) in H.
  unfold get_line in H. apply res_bind_Ok_inv in H as (w & Hw & H).
  destruct (cstr _) as [w'|] eqn:Ew; [|done]. apply line_at_cstr in Ew.
  destruct (m_check_state c) eqn:Es.
  - rewrite (parse_request_line_run _ _ _ Ew) in H. cbn [res_bind] in H.
    pose proof (request_line_run_touched (m_start_line c) w' c1) as Ht.
    destruct (request_line_run _ _ _) as [r c2]. case_decide; simplify_eq.
    split; [exact Ht|]. by left.
  - rewrite (parse_headers_run _ _ _ Ew) in H. cbn [res_bind] in H.
    pose proof (header_run_touched (m_start_line c) w' c1) as Ht.
    destruct (header_run _ _ _) as [r c2]. case_decide; simplify_eq.
    case_decide; invert_res; [by case_match|]. split; [exact Ht|]. by left.
  - apply res_bind_Ok_inv in H as ([ret c2] & Hp & H).
    apply res_bind_Ok_inv in Hp as (need & _ & Hp).
    destruct (decide (need <= _)%Z).
    + cbv zeta in Hp. destruct (decide (_ < 0)%Z); [done|]. apply res_bind_Ok_inv in Hp as (c3 & _ & Hp).
      simplify_eq. by apply res_bind_Ok_inv in H as ([] & _ & [=]).
    + simplify_eq. rewrite decide_False in H by done. simplify_eq.
      split; [reflexivity|]. by right.
Qed.

(** The state between two turns. *)
Definition ready c : Prop := conn_ok c /\ prev_ok c.

Lemma ready_start c : ready c -> ready (set_m_start_line (m_checked_index c) c).
Proof. intros [[] Hp]. split; [split; conn_simpl; done || lia | done]. Qed.

Lemma ready_touched c c' : touched c c' -> ready c -> ready c'.
Proof. intros Ht [? ?]. split; eauto using touched_ok, touched_prev. Qed.

Lemma loop_guard_inv ls c c1 :
  ready c -> loop_guard ls c = Ok (LINE_OK, c1) ->
  (m_check_state c = CHECK_STATE_CONTENT /\ ls = LINE_OK /\ c1 = c)
  \/ exists n, ~ (m_check_state c = CHECK_STATE_CONTENT /\ ls = LINE_OK)
       /\ scan_line (unread c) = ScanLine n /\ n + 2 <= length (unread c)
       /\ c1 = take_line n c.
Proof.
  intros [Hc Hp]. unfold loop_guard. case_decide as Hcont.
  { destruct Hcont as [Hs Hl]. intros [= <-]. left. by split_and!. }
  rewrite parse_line_eq by done. pose proof (scan_line_bound (unread c)).
  destruct (scan_line _) as [n| |]; intros Heq; simplify_eq/=.
  right. by exists n.
Qed.

Lemma loop_guard_ready ls c c1 :
  ready c -> loop_guard ls c = Ok (LINE_OK, c1) -> ready c1.
Proof.
  intros Hr Hg. destruct (loop_guard_inv ls c c1 Hr Hg) as
    [(_ & _ & ->)|(n & _ & _ & Hn & ->)]; [done|].
  destruct Hr. by apply take_line_ok.
Qed.

(** The bytes not scanned, and one more for a status that lets the body
    state run without scanning. *)
Definition turns_left ls c : nat :=
  m_read_idx c - m_checked_index c + (if decide (ls = LINE_OK) then 1 else 0).

Lemma loop_turn ls c c1 ls' c2 :
  ready c -> loop_guard ls c = Ok (LINE_OK, c1) ->
  loop_body E c1 = Ok (inr ls', c2) ->
  ready c2 /\ turns_left ls' c2 < turns_left ls c.
Proof.
  intros Hr Hg Hb. pose proof (loop_guard_ready _ _ _ Hr Hg) as Hr1.
  destruct (loop_body_next _ _ _ Hb) as [Ht Hls]. split.
  { eapply ready_touched; [exact Ht|]. by apply ready_start. }
  unfold turns_left. rewrite (t_read_idx _ _ Ht), (t_checked _ _ Ht). conn_simpl.
  destruct (loop_guard_inv ls c c1 Hr Hg) as
    [(Hs & -> & ->)|(n & _ & _ & Hn & ->)].
  - destruct Hls as [[? ?]|(_ & -> & _)]; [done|]. simpl. lia.
  - rewrite length_unread in Hn by apply Hr.
    unfold take_line, advance, zap. conn_simpl.
    case_decide; case_decide; lia.
Qed.

Lemma process_read_loop_fuel f ls c :
  ready c -> turns_left ls c < f -> process_read_loop E f ls c <> OutOfFuel.
Proof.
  revert ls c. induction f as [|f IH]; intros ls c Hr Hf; [lia|]. simpl.
  destruct (loop_guard_ok ls c) as (ls1 & c1 & Hg); [apply Hr..|].
  rewrite Hg. cbn [res_bind]. case_decide as Els; [subst|done].
  destruct (loop_body E c1) as [[[r|ls'] c2]| |] eqn:Hb; cbn [res_bind]; try done.
  - destruct (loop_turn _ _ _ _ _ Hr Hg Hb) as [Hr2 Hm]. apply IH; [done | lia].
  - exfalso. revert Hb. apply loop_body_fuel.
Qed.

Lemma process_read_loop_mono f g ls c :
  process_read_loop E f ls c <> OutOfFuel -> f <= g ->
  process_read_loop E g ls c = process_read_loop E f ls c.
Proof.
  revert g ls c. induction f as [|f IH]; intros g ls c Hf Hg; [done|].
  destruct g as [|g]; [lia|]. simpl in *.
  destruct (loop_guard ls c) as [[ls1 c1]| |]; cbn [res_bind] in *; try done.
  case_decide; [|done].
  destruct (loop_body E c1) as [[[r|ls'] c2]| |]; cbn [res_bind] in *; try done.
  apply IH; [done | lia].
Qed.

Lemma loop_body_state c r c' :
  m_check_state c = CHECK_STATE_CONTENT ->
  loop_body E c = Ok (r, c') -> m_check_state c' = CHECK_STATE_CONTENT.
Proof.
  intros Hs. unfold loop_body. intros H.
  apply res_bind_Ok_inv in H as (w & _ & H).
  change (m_check_state (set_m_start_line _ c)) with (m_check_state c) in H.
  rewrite Hs in H. apply res_bind_Ok_inv in H as ([ret c2] & Hp & H).
  assert (m_check_state c2 = CHECK_STATE_CONTENT) as Hc2.
  { apply res_bind_Ok_inv in Hp as (need & _ & Hp).
    destruct (decide (need <= _)%Z); [|simplify_eq; exact Hs].
    cbv zeta in Hp. destruct (decide (_ < 0)%Z); [done|].
    unfold poke in Hp. destruct (decide (_ < _)); [|done].
    simplify_eq/=. exact Hs. }
  case_decide; [|by simplify_eq].
  apply res_bind_Ok_inv in H as ([r' c3] & Hd & [= <- <-]).
  rewrite <- Hc2. by eapply do_request_state.
Qed.

(** The body never answers [NO_REQUEST]: only an incomplete line does. *)
Lemma loop_body_final c c' : loop_body E c <> Ok (inl NO_REQUEST, c').
Proof.
  assert (forall c0 c1, (let* '(r, c) := do_request E c0 in
    Ok (A := (HTTP_CODE + LINE_STATUS) * http_conn) (inl r, c)) <> Ok (inl NO_REQUEST, c1))
    as Hreq.
  { intros c0 c1 H. apply res_bind_Ok_inv in H as ([r c2] & Hd & [= -> ->]).
    by apply do_request_code in Hd. }
  unfold loop_body. intros H. apply res_bind_Ok_inv in H as (w & _ & H).
  destruct (m_check_state _); apply res_bind_Ok_inv in H as ([ret c2] & _ & H);
    repeat case_decide; simplify_eq; by apply Hreq in H.
Qed.

Lemma process_read_loop_content f ls c r c' :
  ready c -> m_check_state c = CHECK_STATE_CONTENT ->
  process_read_loop E f ls c = Ok (r, c') -> m_check_state c' = CHECK_STATE_CONTENT.
Proof.
  revert ls c. induction f as [|f IH]; intros ls c Hr Hs H; [done|]. simpl in H.
  apply res_bind_Ok_inv in H as ([ls1 c1] & Hg & H).
  assert (m_check_state c1 = CHECK_STATE_CONTENT) as Hs1.
  { unfold loop_guard in Hg. destruct (decide (_ /\ _)); [simplify_eq; exact Hs|].
    rewrite parse_line_eq in Hg by apply Hr.
    destruct (scan_line _); simplify_eq/=; exact Hs. }
  case_decide; [subst|by simplify_eq].
  apply res_bind_Ok_inv in H as ([[ret|ls'] c2] & Hb & H).
  - simplify_eq. by eapply loop_body_state.
  - eapply IH; [| |exact H].
    + by eapply loop_turn.
    + by eapply loop_body_state.
Qed.

Lemma loop_body_feed c d w ls c2 :
  line_at (m_read_buf c) (m_start_line c) w ->
  m_start_line c + length w < m_read_idx c ->
  m_read_idx c + length d <= length (m_read_buf c) ->
  m_check_state c <> CHECK_STATE_CONTENT ->
  loop_body E c = Ok (inr ls, c2) -> loop_body E (feed d c) = Ok (inr ls, feed d c2).
Proof.
  intros Hw Hb Hd Hs. unfold loop_body.
  set (c1 := set_m_start_line _ c).
  change (set_m_start_line _ (feed d c)) with (feed d c1).
  change (get_line (feed d c)) with (m_start_line c).
  change (get_line c) with (m_start_line c).
  assert (line_at (m_read_buf (feed d c1)) (m_start_line c) w) as Hw'.
  { unfold feed, c1. conn_simpl. apply line_at_blit; [lia | lia | done]. }
  change (line_at (m_read_buf c1) (m_start_line c) w) in Hw.
  unfold mem_at. rewrite (proj1 (line_at_cstr _ _ _) Hw').
  rewrite (proj1 (line_at_cstr _ _ _) Hw). cbn [of_option res_bind].
  change (m_check_state (feed d c1)) with (m_check_state c1).
  change (m_check_state c1) with (m_check_state c).
  destruct (m_check_state c); [| |done].
  - rewrite (parse_request_line_run _ _ _ Hw), (parse_request_line_run _ _ _ Hw').
    rewrite request_line_run_feed by done. cbn [res_bind].
    destruct (request_line_run _ _ _) as [r c3]. case_decide; [done|].
    by intros [= <- <-].
  - rewrite (parse_headers_run _ _ _ Hw), (parse_headers_run _ _ _ Hw').
    rewrite header_run_feed. cbn [res_bind].
    destruct (header_run _ _ _) as [r c3]. case_decide; [done|].
    case_decide; [|by intros [= <- <-]].
    intros Hq. by apply res_bind_Ok_inv in Hq as ([] & _ & [=]).
Qed.

(** A run of the loop with enough fuel. *)
Definition runs ls c (r : res (HTTP_CODE * http_conn)) : Prop :=
  exists f, process_read_loop E f ls c = r /\ r <> OutOfFuel.

Lemma runs_det ls c r r' : runs ls c r -> runs ls c r' -> r = r'.
Proof.
  intros (f & Hf & Hn) (g & Hg & Hn').
  destruct (Nat.le_ge_cases f g) as [Hle|Hle]; subst.
  - symmetry. by apply process_read_loop_mono.
  - by apply process_read_loop_mono.
Qed.

Lemma runs_process_read c :
  ready c -> runs LINE_OK c (process_read E c).
Proof.
  intros Hr. exists (READ_BUFFER_SIZE + 3). split; [done|].
  apply process_read_loop_fuel; [done|]. unfold turns_left.
  pose proof (ok_read_idx c (proj1 Hr)). case_decide; lia.
Qed.

Lemma scan_result_iter n s c :
  scan_result (Nat.iter n scan_S s) c = scan_result s (advance n c).
Proof.
  revert c. induction n as [|n IH]; intros c; simpl; [by rewrite advance_0|].
  rewrite <- scan_result_S, IH, advance_advance. done.
Qed.

(** The bytes a scan skips hold no CR. *)
Lemma scan_line_no_CR w n i :
  scan_line w = ScanOpen n \/ scan_line w = ScanBad n -> i < n ->
  w !! i <> Some CR.
Proof.
  revert n i. induction w as [|x w IH]; intros n i; simpl.
  { intros [[= <-]|?]; [lia | done]. }
  case_decide as E1.
  { destruct w as [|y w]; [intros [[= <-]|?]; [lia | done]|].
    case_decide; [by intros [?|?]|]. intros [?|[= <-]]; [done | lia]. }
  case_decide as E2; [intros [?|[= <-]]; [done | lia]|].
  intros Hs Hi. destruct i as [|i]; [simpl; congruence|]. simpl.
  destruct n as [|n]; [lia|].
  apply (IH n); [|lia]. destruct Hs as [Hs|Hs]; destruct (scan_line w);
    simplify_eq/=; auto.
Qed.

Lemma advance_ready n c :
  ready c -> scan_line (unread c) = ScanOpen n \/ scan_line (unread c) = ScanBad n ->
  ready (advance n c).
Proof.
  intros [Hc Hp] Hs. pose proof (scan_line_bound (unread c)) as Hb.
  pose proof (length_unread c Hc) as Hl. pose proof (ok_checked c Hc).
  assert (n <= length (unread c)) as Hn.
  { destruct Hs as [Hs|Hs]; rewrite Hs in Hb; lia. }
  split; [apply advance_ok; [done | lia]|].
  destruct n as [|n]; [by rewrite advance_0|]. intros _. unfold advance. conn_simpl.
  pose proof (scan_line_no_CR _ _ n Hs ltac:(lia)) as Hcr.
  unfold unread in Hcr. rewrite lookup_take_lt, lookup_drop in Hcr by lia.
  by replace (m_checked_index c + S n - 1) with (m_checked_index c + n) by lia.
Qed.

Lemma feed_ready d c :
  ready c -> m_read_idx c + length d <= READ_BUFFER_SIZE -> ready (feed d c).
Proof.
  intros [Hc Hp] Hd. split; [by apply feed_ok|]. intros H1.
  unfold feed. conn_simpl. pose proof (ok_checked c Hc). pose proof (ok_read_buf c Hc).
  rewrite lookup_blit_lt; [by apply Hp|].
  change (m_checked_index (feed d c)) with (m_checked_index c) in H1. lia.
Qed.

(** Where a scan stopped without a line, more data is scanned as if from the
    start. *)
Lemma parse_line_resume n d c :
  ready c -> scan_line (unread c) = ScanOpen n \/ scan_line (unread c) = ScanBad n ->
  m_read_idx c + length d <= READ_BUFFER_SIZE ->
  parse_line (feed d (advance n c)) = parse_line (feed d c).
Proof.
  intros Hr Hs Hd. pose proof (advance_ready n c Hr Hs) as Hr'.
  destruct (feed_ready d c Hr Hd), (feed_ready d (advance n c) Hr' Hd).
  rewrite !parse_line_eq by done. destruct Hr as [Hc _], Hr' as [Hc' _].
  rewrite !unread_feed by done. rewrite (scan_line_resume _ _ n Hs).
  rewrite scan_result_iter, advance_feed. do 3 f_equal.
  unfold unread, advance. conn_simpl.
  rewrite skipn_firstn_comm, drop_drop.
  by replace (m_read_idx c - m_checked_index c - n)
    with (m_read_idx c - (m_checked_index c + n)) by lia.
Qed.

Lemma runs_same_guard ls c c' r :
  loop_guard ls c = loop_guard ls c' -> runs ls c r -> runs ls c' r.
Proof.
  intros Hg (f & <- & Hn). exists f. split; [|done].
  destruct f; [done|]. simpl. by rewrite Hg.
Qed.

Lemma runs_feed f c d c' r :
  ready c -> m_read_idx c + length d <= READ_BUFFER_SIZE ->
  m_check_state c <> CHECK_STATE_CONTENT ->
  process_read_loop E f LINE_OK c = Ok (NO_REQUEST, c') ->
  m_check_state c' <> CHECK_STATE_CONTENT ->
  runs LINE_OK (feed d c') r -> runs LINE_OK (feed d c) r.
Proof.
  revert c. induction f as [|f IH]; intros c Hr Hd Hs H Hs' Hrun; [done|].
  simpl in H. apply res_bind_Ok_inv in H as ([ls1 c1] & Hg & H).
  assert (forall ls c0, m_check_state c0 <> CHECK_STATE_CONTENT ->
    loop_guard ls c0 = parse_line c0) as Hguard.
  { intros. unfold loop_guard. rewrite decide_False; [done|]. by intros [? _]. }
  rewrite Hguard, parse_line_eq in Hg by (done || apply Hr).
  destruct (scan_line (unread c)) as [n|n|n] eqn:Es; simpl in Hg; simplify_eq;
    simpl in H.
  2,3: simplify_eq; refine (runs_same_guard _ _ _ _ _ Hrun);
    rewrite !Hguard by done; apply parse_line_resume; auto.
  pose proof (scan_line_bound (unread c)) as Hn. rewrite Es in Hn.
  destruct (take_line_text n c (proj1 Hr) Hn) as (w & Hw & Hwb).
  pose proof (length_unread c (proj1 Hr)) as Hl.
  destruct (take_line_ok n c (proj1 Hr) Hn) as [Hok1 Hp1].
  apply res_bind_Ok_inv in H as ([[ret|ls'] c2] & Hb & H).
  { simplify_eq. exfalso. revert Hb. apply loop_body_final. }
  destruct (loop_body_next _ _ _ Hb) as [Ht [[_ ->]|[? _]]]; [|done].
  assert (ready c2) as Hr2.
  { eapply ready_touched; [exact Ht|]. by apply ready_start. }
  destruct (decide (m_check_state c2 = CHECK_STATE_CONTENT)) as [Hc2|Hc2].
  { by apply process_read_loop_content in H. }
  apply (loop_body_feed _ d w) in Hb; [|done | | |done]; cycle 1.
  { change (m_start_line c + length w < m_read_idx c). lia. }
  { rewrite (ok_read_buf _ Hok1). exact Hd. }
  destruct (IH c2) as (g & Hgr & Hgn); try done.
  { rewrite (t_read_idx _ _ Ht). exact Hd. }
  exists (S g). split; [|done]. simpl. destruct (feed_ready d c Hr Hd).
  rewrite Hguard, parse_line_eq, unread_feed by (done || apply Hr).
  rewrite (scan_line_Line_app _ _ _ Es). cbn [scan_result res_bind].
  rewrite decide_True by done. rewrite take_line_feed by (done || apply Hr).
  rewrite Hb. exact Hgr.
Qed.
End Loop.

(** ** List-level specifications of the line parsers *)

(** The path a request line asks for: [GET] (in any case), a blank, the URL,
    a blank, [HTTP/1.1] (in any case); an absolute [http://] URL is cut before
    the first slash of its authority; the path starts with a slash. *)
Definition request_target (l : list char) : option (list char) :=
  k ← find_any blanks l;
  let rest := drop (S k) l in
  k' ← find_any blanks rest;
  let url := take k' rest in
  if ieq (take k l) (lit "GET") && ieq (drop (S k') rest) (lit "HTTP/1.1") then
    path ← (if iprefix (lit "http://") url
            then (fun j => drop (7 + j) url) <$> find_any [SLASH] (drop 7 url)
            else Some url);
    if decide (head path = Some SLASH) then Some path else None
  else None.

(** What a header line does to the keep-alive flag and the body length. *)
Definition header_value (n : nat) (l : list char) : list char :=
  drop (span_len blanks (drop n l)) (drop n l).

Definition header_effect (l : list char) (s : bool * Z) : bool * Z :=
  if iprefix (lit "Connection:") l then
    (s.1 || ieq (header_value 11 l) (lit "keep-alive"), s.2)
  else if iprefix (lit "Content-Length:") l then
    (s.1, to_int (atol_val (header_value 15 l)))
  else s.

Example request_target_ex1 :
  request_target (lit "get /a/b?x=1 http/1.1") = Some (lit "/a/b?x=1").
Proof. reflexivity. Qed.
Example request_target_ex2 :
  request_target (lit "GET http://10.0.0.1:80/i.html HTTP/1.1") = Some (lit "/i.html").
Proof. reflexivity. Qed.
Example request_target_ex3 : request_target (lit "POST / HTTP/1.1") = None.
Proof. reflexivity. Qed.

Lemma line_at_insert m p w i :
  line_at m p w -> p + length w < i -> line_at (<[i := NUL]> m) p w.
Proof.
  rewrite !line_at_take. intros [Hn <-] Hi. split; [done|].
  apply list_eq. intros j. destruct (decide (j < S (length w))) as [Hj|Hj].
  - rewrite !lookup_take_lt, !lookup_drop by done. apply list_lookup_insert_ne. lia.
  - by rewrite !lookup_take_ge by lia.
Qed.

Lemma request_line_run_spec text w c :
  line_at (m_read_buf c) text w ->
  let '(r, c') := request_line_run text w c in
  match request_target w with
  | Some path =>
      r = NO_REQUEST /\ m_check_state c' = CHECK_STATE_HEADER /\ m_method c' = GET
      /\ exists u, m_url c' = Some u /\ line_at (m_read_buf c') u path
           /\ u + length path <= text + length w
  | None => r = BAD_REQUEST /\ m_check_state c' = m_check_state c
  end.
Proof.
  intros H. unfold request_line_run, request_target. cbv zeta.
  destruct (find_any blanks w) as [k|] eqn:Ek; [simpl|done].
  pose proof (find_any_lt _ _ _ Ek) as Hk.
  destruct (line_at_cut _ _ _ _ H Hk) as [_ H2]. rewrite Nat.add_succ_r in H2.
  destruct (ieq (take k w) (lit "GET")); cbn [negb andb]; cycle 1.
  { by destruct (find_any blanks (drop (S k) w)). }
  set (rest := drop (S k) w) in *.
  destruct (find_any blanks rest) as [k'|] eqn:Ek'; [simpl|done].
  pose proof (find_any_lt _ _ _ Ek') as Hk'.
  destruct (line_at_cut _ _ _ _ H2 Hk') as [H3 _].
  destruct (ieq (drop (S k') rest) _); cbn [negb]; [|done].
  set (url := take k' rest) in *.
  assert (length url <= k') as Hu by (unfold url; rewrite length_take; lia).
  assert (length rest = length w - S k) as Hrest by apply length_drop.
  assert (forall j : nat, (url ++ [NUL]) !! j = Some SLASH <-> head (drop j url) = Some SLASH)
    as Hhead.
  { intros j. rewrite head_lookup, lookup_drop, Nat.add_0_r.
    destruct (decide (j < length url)); [by rewrite lookup_app_l|].
    rewrite lookup_app_r, (lookup_ge_None_2 url) by lia.
    destruct (j - length url) as [|[|]]; done. }
  destruct (iprefix (lit "http://") url) eqn:Ep; cbn.
  - destruct (find_any [SLASH] (drop 7 url)) as [j|] eqn:Ej; [|done].
    pose proof (find_any_lt _ _ _ Ej) as Hj. rewrite length_drop in Hj.
    cbn [fmap option_fmap option_map mbind option_bind].
    change (S (S (S (S (S (S (S j))))))) with (7 + j).
    replace (S (text + k + 7 + j) - S (text + k)) with (7 + j) by lia.
    destruct (decide (head (drop (7 + j) url) = Some SLASH)) as [Hs|Hs];
      [|by rewrite decide_False by (by rewrite Hhead)].
    rewrite decide_True by (by apply Hhead).
    split_and!; try done. eexists. split; [done|]. split.
    + replace (S (text + k + 7 + j)) with (S (text + k) + (7 + j)) by lia.
      apply line_at_drop; [exact H3 | lia].
    + rewrite length_drop. lia.
  - rewrite Nat.sub_diag. specialize (Hhead 0). rewrite drop_0 in Hhead.
    destruct (decide (head url = Some SLASH)) as [Hs|Hs];
      [|by rewrite decide_False by (by rewrite Hhead)].
    rewrite decide_True by (by apply Hhead). split_and!; try done. eexists. split; [done|].
    split; [exact H3 | lia].
Qed.

(** ** One complete line *)

(** The text of a line on the wire. *)
Definition clean (l : list char) : Prop := (NUL ∉ l) /\ (CR ∉ l) /\ (LF ∉ l).

#[export] Instance clean_dec l : Decision (clean l).
Proof. unfold clean. apply _. Defined.

Section OneLine.
Context (E : sysenv).
Implicit Types (c : http_conn) (l rest path : list char).

Lemma unread_take_line n c :
  conn_ok c -> n + 2 <= length (unread c) ->
  unread (take_line n c) = drop (n + 2) (unread c).
Proof.
  intros Hc Hn. rewrite length_unread in Hn by done.
  unfold unread, take_line, advance, zap. conn_simpl.
  rewrite !drop_insert_lt by lia. rewrite skipn_firstn_comm, drop_drop.
  f_equal. lia.
Qed.

Lemma take_line_exact l rest c :
  conn_ok c -> unread c = l ++ CRLF ++ rest -> NUL ∉ l ->
  line_at (m_read_buf (take_line (length l) c)) (m_checked_index c) l.
Proof.
  intros Hc Hu Hl. pose proof (ok_read_buf c Hc). pose proof (ok_read_idx c Hc).
  assert (m_checked_index c + length l < m_read_idx c) as Hb.
  { pose proof (length_unread c Hc) as Hlen. rewrite Hu, length_app in Hlen.
    unfold CRLF in Hlen. simpl in Hlen. lia. }
  split; [done|]. unfold take_line, advance, zap. conn_simpl.
  rewrite !drop_insert_ge by lia.
  rewrite <- (take_drop (m_read_idx c - m_checked_index c) (drop _ (m_read_buf c))).
  fold (unread c). rewrite Hu.
  replace (m_checked_index c + length l - m_checked_index c) with (length l + 0) by lia.
  replace (m_checked_index c + length l + 1 - m_checked_index c)
    with (length l + 1) by lia.
  rewrite <- app_assoc. rewrite !insert_app_r. eexists. done.
Qed.

Lemma runs_step ls c c1 ls' c2 r :
  loop_guard ls c = Ok (LINE_OK, c1) -> loop_body E c1 = Ok (inr ls', c2) ->
  runs E ls' c2 r -> runs E ls c r.
Proof.
  intros Hg Hb (f & Hf & Hn). exists (S f). split; [|done]. simpl.
  rewrite Hg. cbn [res_bind]. rewrite decide_True by done. by rewrite Hb.
Qed.

Lemma runs_return ls c c1 ret c2 :
  loop_guard ls c = Ok (LINE_OK, c1) -> loop_body E c1 = Ok (inl ret, c2) ->
  runs E ls c (Ok (ret, c2)).
Proof.
  intros Hg Hb. exists 1. split; [|done]. simpl.
  rewrite Hg. cbn [res_bind]. rewrite decide_True by done. by rewrite Hb.
Qed.

(** The turn of the loop on a complete line, up to the [switch]. *)
Lemma line_turn l rest c :
  ready c -> m_check_state c <> CHECK_STATE_CONTENT ->
  m_start_line c = m_checked_index c ->
  unread c = l ++ CRLF ++ rest -> clean l ->
  let c1 := take_line (length l) c in
  loop_guard LINE_OK c = Ok (LINE_OK, c1) /\ ready c1 /\ unread c1 = rest
  /\ line_at (m_read_buf c1) (m_start_line c) l
  /\ m_start_line c + length l < m_checked_index c1.
Proof.
  intros [Hc Hp] Hs Hst Hu (Hn & Hcr & Hlf) c1.
  assert (scan_line (unread c) = ScanLine (length l)) as Hscan.
  { rewrite Hu. by apply scan_line_mk. }
  pose proof (scan_line_bound (unread c)) as Hb. rewrite Hscan in Hb.
  split_and!.
  - unfold loop_guard. rewrite decide_False by (by intros [? _]).
    rewrite parse_line_eq, Hscan by done. done.
  - by apply take_line_ok.
  - unfold c1. rewrite unread_take_line, Hu by done.
    change (l ++ CRLF ++ rest) with (l ++ (CRLF ++ rest)).
    rewrite app_assoc. apply drop_app_length'. by rewrite length_app.
  - rewrite Hst. by eapply take_line_exact.
  - unfold c1, take_line, advance, zap. conn_simpl. lia.
Qed.

(** [loop_body] in the two line states. *)
Lemma loop_body_request c l :
  m_check_state c = CHECK_STATE_REQUESTLINE ->
  line_at (m_read_buf c) (m_start_line c) l ->
  loop_body E c =
    (let '(ret, c') := request_line_run (m_start_line c) l
       (set_m_start_line (m_checked_index c) c) in
     Ok (if decide (ret = BAD_REQUEST) then inl BAD_REQUEST else inr LINE_OK, c')).
Proof.
  intros Hs Hl. unfold loop_body, get_line, mem_at. conn_simpl.
  rewrite (proj1 (line_at_cstr _ _ _) Hl). cbn [of_option res_bind]. rewrite Hs.
  rewrite (parse_request_line_run _ l) by done. cbn [res_bind].
  destruct (request_line_run _ _ _). by case_decide.
Qed.

Lemma loop_body_header c l :
  m_check_state c = CHECK_STATE_HEADER ->
  line_at (m_read_buf c) (m_start_line c) l ->
  loop_body E c =
    (let '(ret, c') := header_run (m_start_line c) l
       (set_m_start_line (m_checked_index c) c) in
     if decide (ret = GET_REQUEST)
     then let* '(r, c') := do_request E c' in Ok (inl r, c')
     else Ok (inr LINE_OK, c')).
Proof.
  intros Hs Hl. unfold loop_body, get_line, mem_at. conn_simpl.
  rewrite (proj1 (line_at_cstr _ _ _) Hl). cbn [of_option res_bind]. rewrite Hs.
  rewrite (parse_headers_run _ l) by done. cbn [res_bind].
  destruct (header_run _ _ _) as [ret c'] eqn:Er.
  case_decide; [|done]. subst. exfalso.
  unfold header_run in Er. repeat case_decide; simplify_eq; by repeat case_match.
Qed.
End OneLine.
