(* ===== verification/HttpSpec.v ===== *)
(** * What the request parser does

    The properties of [HttpParse]: the line splitter against a scan of the
    unread bytes, the two line parsers against functions of the line's text,
    [do_request] against the path, and [process_read] on whole and on split
    requests. *)

From S2P Require Import Prelude CBase HttpConn HttpParse.

(** ** [do_request] *)

(** The file a path names: [m_real_file] has room for 188 bytes of it. *)
Definition resource (path : list char) : list char :=
  doc_root ++ take (FILENAME_LEN - length doc_root - 1) path.

(** What [stat] says of a file, as an answer. *)
Definition resource_code (E : sysenv) (file : list char) : HTTP_CODE :=
  match sys_stat E file with
  | None => NO_RESOURCE
  | Some st =>
      if decide (Z.land (st_mode st) S_IROTH = 0)%Z then FORBIDDEN_REQUEST
      else if S_ISDIR (st_mode st) then BAD_REQUEST
      else FILE_REQUEST
  end.

Lemma doc_root_clean : NUL ∉ doc_root.
Proof. no_nul. Qed.

Lemma resource_NUL path : NUL ∉ path -> NUL ∉ resource path.
Proof.
  intros H. unfold resource. rewrite not_elem_of_app. split; [apply doc_root_clean|].
  intros Hin. apply H. rewrite <- (take_drop (FILENAME_LEN - length doc_root - 1) path).
  apply elem_of_app. by left.
Qed.

(** The name [strcpy] and [strncpy] build, terminated inside the array. *)
Lemma real_file_text path m :
  length m = FILENAME_LEN -> m !! (FILENAME_LEN - 1) = Some NUL -> NUL ∉ path ->
  let n := FILENAME_LEN - length doc_root - 1 in
  cstr (blit (length doc_root) (take n (path ++ replicate n NUL))
          (blit 0 (doc_root ++ [NUL]) m)) = Some (resource path).
Proof.
  intros Hm Hend Hp n.
  assert (length (take n (path ++ replicate n NUL)) = n) as Hn
    by (rewrite length_take, length_app, length_replicate; lia).
  assert (length doc_root = 11) as Hd by done.
  assert (n = 188) as Hn188 by done.
  set (bytes := take n _) in *.
  assert (length (blit 0 (doc_root ++ [NUL]) m) = FILENAME_LEN) as Hl.
  { rewrite length_blit by lia. done. }
  assert (FILENAME_LEN = 200) as HF by done.
  rewrite blit_in_range by (rewrite Hl; lia).
  assert (take (length doc_root) (blit 0 (doc_root ++ [NUL]) m) = doc_root) as ->.
  { rewrite blit_in_range by (rewrite length_app; simpl; lia).
    rewrite take_0, app_nil_l, <- app_assoc. apply take_app_length. }
  assert (drop (length doc_root + length bytes) (blit 0 (doc_root ++ [NUL]) m) = [NUL])
    as ->.
  { rewrite (drop_S _ NUL).
    - rewrite drop_ge; [done|]. rewrite Hl. lia.
    - rewrite lookup_blit_ge by (rewrite length_app; simpl; lia).
      by replace (length doc_root + length bytes) with (FILENAME_LEN - 1) by lia. }
  assert (exists r, bytes ++ [NUL] = take n path ++ NUL :: r) as [r ->].
  { unfold bytes. destruct (decide (n <= length path)) as [Hle|Hle].
    - exists []. by rewrite take_app_le.
    - rewrite take_app_ge, (take_ge path) by lia. rewrite take_replicate.
      exists (replicate (n - length path) NUL).
      replace ((n - length path) `min` n) with (n - length path) by lia.
      by rewrite <- app_assoc, <- replicate_cons_app. }
  rewrite app_assoc. apply cstr_app. by apply resource_NUL.
Qed.

Lemma real_file_bounds b m :
  length m = FILENAME_LEN -> m !! (FILENAME_LEN - 1) = Some NUL ->
  length b = FILENAME_LEN - length doc_root - 1 ->
  let m' := blit (length doc_root) b (blit 0 (doc_root ++ [NUL]) m) in
  length m' = FILENAME_LEN /\ m' !! (FILENAME_LEN - 1) = Some NUL.
Proof.
  intros Hm Hend Hb m'.
  assert (length doc_root = 11) as Hd by done.
  assert (FILENAME_LEN = 200) as HF by done.
  assert (length (blit 0 (doc_root ++ [NUL]) m) = length m) as Hl by (apply length_blit; lia).
  unfold m'. split; [rewrite length_blit; lia|].
  rewrite lookup_blit_ge by (rewrite ?Hl; lia).
  rewrite lookup_blit_ge by (rewrite length_app; change (length [NUL]) with 1; lia).
  done.
Qed.

(** The object after [do_request], as far as the reply depends on it. *)
Record served (E : sysenv) (file : list char) (c c' : http_conn) : Prop := {
  sv_file : cstr (m_real_file c') = Some file;
  sv_linger : m_linger c' = m_linger c;
  sv_method : m_method c' = m_method c;
  sv_write_buf : m_write_buf c' = m_write_buf c;
  sv_write_idx : m_write_idx c' = m_write_idx c;
  sv_sockfd : m_sockfd c' = m_sockfd c;
  sv_map : resource_code E file = FILE_REQUEST ->
    exists st, sys_stat E file = Some st /\ m_file_stat c' = st
      /\ m_file_address c' = sys_mmap E (st_size st) (sys_open E file)
}.

Lemma do_request_run E u path c :
  conn_ok c -> m_url c = Some u -> line_at (m_read_buf c) u path ->
  exists c', do_request E c = Ok (resource_code E (resource path), c')
    /\ served E (resource path) c c' /\ conn_ok c'.
Proof.
  intros Hc Hu Hl. unfold do_request. cbv zeta. conn_simpl. rewrite Hu.
  cbn [of_option res_bind]. unfold mem_at. conn_simpl.
  destruct Hl as (Hn & r & ->). rewrite strncpy_bytes_spec by done. cbn [res_bind].
  conn_simpl. rewrite real_file_text by (done || apply Hc). cbn [of_option res_bind].
  set (n := FILENAME_LEN - length doc_root - 1) in *.
  set (file := blit _ (take n _) _). set (c0 := set_m_real_file file _).
  assert (cstr file = Some (resource path)) as Hfile
    by (apply real_file_text; done || apply Hc).
  destruct (real_file_bounds (take n (path ++ replicate n NUL)) (m_real_file c))
    as [Hlen Hend]; [apply Hc.. | rewrite length_take, length_app, length_replicate; lia|].
  fold n file in Hlen, Hend.
  assert (conn_ok c0) as Hok0 by (destruct Hc; split; done).
  unfold resource_code.
  destruct (sys_stat E (resource path)) as [st|] eqn:Est; cycle 1.
  { exists c0. split; [done|]. split; [|done].
    split; try done. unfold resource_code. by rewrite Est. }
  set (c1 := set_m_file_stat st c0).
  assert (conn_ok c1) as Hok1 by (destruct Hok0; split; done).
  case_decide as Eperm.
  { exists c1. split; [done|]. split; [|done].
    split; try done. unfold resource_code. by rewrite Est, decide_True. }
  destruct (S_ISDIR _) eqn:Edir.
  { exists c1. split; [done|]. split; [|done].
    split; try done. unfold resource_code. by rewrite Est, decide_False, Edir. }
  eexists. split; [done|]. split; [|destruct Hok1; split; done].
  split; try done. by exists st.
Qed.

(** ** A whole request *)

(** The bytes of a request: its line, its headers, the empty line. *)
Definition header_bytes (hs : list (list char)) : list char :=
  concat ((fun h => h ++ CRLF) <$> hs) ++ CRLF.
Definition wire (l0 : list char) (hs : list (list char)) : list char :=
  l0 ++ CRLF ++ header_bytes hs.

Definition header_line (h : list char) : Prop := clean h /\ h <> [].
#[export] Instance header_line_dec h : Decision (header_line h).
Proof. unfold header_line. apply _. Defined.

(** The keep-alive flag and the body's length after a list of headers. *)
Definition header_effects (hs : list (list char)) (s : bool * Z) : bool * Z :=
  foldl (fun s h => header_effect h s) s hs.

Lemma header_run_effect text h c :
  h <> [] ->
  let c' := (header_run text h c).2 in
  (header_run text h c).1 = NO_REQUEST
  /\ (m_linger c', m_content_length c') =
       header_effect h (m_linger c, m_content_length c)
  /\ m_url c' = m_url c /\ m_read_buf c' = m_read_buf c
  /\ m_method c' = m_method c /\ m_check_state c' = m_check_state c.
Proof.
  intros Hh. unfold header_run, header_effect. rewrite decide_False by done.
  destruct (iprefix (lit "Connection:") h).
  { unfold header_value. cbn [fst snd].
    destruct (ieq _ _); rewrite ?orb_true_r, ?orb_false_r; done. }
  destruct (iprefix (lit "Content-Length:") h); [done|].
  destruct (iprefix (lit "Host:") h); done.
Qed.

(** The object at the start of a line, with the path of the request line
    already parsed. *)
Record at_header (u : nat) (path : list char) (c : http_conn) : Prop := {
  ah_ready : ready c;
  ah_state : m_check_state c = CHECK_STATE_HEADER;
  ah_start : m_start_line c = m_checked_index c;
  ah_url : m_url c = Some u;
  ah_path : line_at (m_read_buf c) u path;
  ah_before : u + length path < m_start_line c
}.

(** A run that goes on from [c'] as it did from [c], [c'] having the same
    reply buffer. *)
Definition leads (E : sysenv) (ls : LINE_STATUS) (c : http_conn)
    (ls' : LINE_STATUS) (c' : http_conn) : Prop :=
  (forall r, runs E ls' c' r -> runs E ls c r)
  /\ m_read_idx c' = m_read_idx c
  /\ m_write_buf c' = m_write_buf c /\ m_write_idx c' = m_write_idx c
  /\ m_sockfd c' = m_sockfd c.

Lemma leads_trans E ls1 c1 ls2 c2 ls3 c3 :
  leads E ls1 c1 ls2 c2 -> leads E ls2 c2 ls3 c3 -> leads E ls1 c1 ls3 c3.
Proof.
  intros (Hr1 & ? & ? & ? & ?) (Hr2 & ? & ? & ? & ?). split_and!; try congruence. auto.
Qed.

Lemma take_line_start n c : m_start_line (take_line n c) = m_start_line c.
Proof. done. Qed.

Lemma unread_zap i c : i < m_checked_index c -> unread (zap i c) = unread c.
Proof. intros Hi. unfold unread, zap. conn_simpl. by rewrite drop_insert_lt. Qed.

Lemma request_line_run_unread text w c :
  text + length w < m_checked_index c ->
  unread (request_line_run text w c).2 = unread c.
Proof.
  intros Hb. unfold request_line_run. cbv zeta.
  destruct (find_any blanks w) as [k|] eqn:Ek; [|done].
  pose proof (find_any_lt _ _ _ Ek) as Hk.
  set (c1 := set_m_url _ (zap _ c)).
  assert (unread c1 = unread c) as H1.
  { change (unread (zap (text + k) c) = unread c). apply unread_zap. lia. }
  destruct (negb _); [done|].
  destruct (find_any blanks (drop (S k) w)) as [k'|] eqn:Ek'; [|done].
  pose proof (find_any_lt _ _ _ Ek') as Hk'. rewrite length_drop in Hk'.
  set (c2 := set_m_version _ (zap _ _)).
  assert (unread c2 = unread c) as H2.
  { rewrite <- H1. change (unread (zap (S (text + k) + k') c1) = unread c1).
    apply unread_zap. change (m_checked_index c1) with (m_checked_index c). lia. }
  destruct (negb _); [done|].
  set (c3 := if iprefix _ _ then _ else c2).
  assert (unread c3 = unread c) as H3 by (unfold c3; by destruct (iprefix _ _)).
  destruct (m_url c3); [by case_decide | done].
Qed.

Lemma request_line_run_same text w c :
  let c' := (request_line_run text w c).2 in
  m_linger c' = m_linger c /\ m_content_length c' = m_content_length c.
Proof.
  cbv zeta. unfold request_line_run. cbv zeta.
  destruct (find_any blanks w) as [k|]; [|done]. destruct (negb _); [done|].
  destruct (find_any blanks _) as [k'|]; [|done]. destruct (negb _); [done|].
  set (c3 := if iprefix _ _ then _ else _).
  assert (m_linger c3 = m_linger c /\ m_content_length c3 = m_content_length c) as H3
    by (unfold c3; by destruct (iprefix _ _)).
  destruct (m_url c3); [by case_decide | done].
Qed.

(** One header of the list: the loop goes on at the next line. *)
Lemma header_turn E h c u path r :
  at_header u path c -> header_line h -> unread c = h ++ CRLF ++ r ->
  exists c', leads E LINE_OK c LINE_OK c' /\ at_header u path c' /\ unread c' = r
    /\ (m_linger c', m_content_length c') = header_effect h (m_linger c, m_content_length c).
Proof.
  intros [Hr Hs Hst Hu Hp Hb] [Hcl Hne] Hun.
  destruct (line_turn h r c) as (Hg & Hr1 & Hu1 & Hl & Hpos); try done; [by rewrite Hs|].
  set (c1 := take_line (length h) c) in *.
  pose proof (take_line_touched (length h) c) as Ht1. fold c1 in Ht1.
  set (cs := set_m_start_line (m_checked_index c1) c1).
  destruct (header_run_effect (m_start_line c1) h cs Hne) as (E1 & E2 & E3 & E4 & E5 & E6).
  pose proof (header_run_touched (m_start_line c1) h cs) as Ht.
  pose proof (loop_body_header E c1 h Hs Hl) as Hbody. fold cs in Hbody.
  destruct (header_run (m_start_line c1) h cs) as [ret c2]. cbn [fst snd] in *. subst ret.
  rewrite decide_False in Hbody by done.
  exists c2. split_and!.
  - split_and!; [intros rr; by apply (runs_step E LINE_OK c c1 LINE_OK c2)|..];
      rewrite ?(t_read_idx _ _ Ht), ?(t_write_buf _ _ Ht), ?(t_write_idx _ _ Ht),
        ?(t_sockfd _ _ Ht); done.
  - pose proof (t_checked _ _ Ht) as Hchk. pose proof (t_start _ _ Ht) as Hstt.
    change (m_checked_index cs) with (m_checked_index c1) in Hchk.
    change (m_start_line cs) with (m_checked_index c1) in Hstt.
    split; [| | congruence | | |].
    + eapply ready_touched; [exact Ht|]. by apply ready_start.
    + by rewrite E6.
    + by rewrite E3.
    + rewrite E4. change (m_read_buf cs) with (m_read_buf c1). unfold c1, take_line.
      unfold advance, zap. conn_simpl.
      apply line_at_insert; [apply line_at_insert; [done|]|];
        pose proof (ok_start c (proj1 Hr)); lia.
    + rewrite Hstt. pose proof (ok_start _ (proj1 Hr)). lia.
  - rewrite <- Hu1. unfold unread. rewrite E4, (t_read_idx _ _ Ht), (t_checked _ _ Ht).
    done.
  - rewrite E2. done.
Qed.

Lemma header_turns E hs c u path r :
  at_header u path c -> Forall header_line hs ->
  unread c = concat ((fun h => h ++ CRLF) <$> hs) ++ r ->
  exists c', leads E LINE_OK c LINE_OK c' /\ at_header u path c' /\ unread c' = r
    /\ (m_linger c', m_content_length c') =
         header_effects hs (m_linger c, m_content_length c).
Proof.
  intros Hc Hhs. revert c Hc. induction Hhs as [|h hs Hh Hhs IH]; intros c Hc Hun.
  { exists c. split_and!; try done. }
  cbn in Hun. rewrite <- !app_assoc in Hun.
  destruct (header_turn E h c u path _ Hc Hh Hun) as (c1 & Hl1 & Ha1 & Hu1 & He1).
  destruct (IH c1 Ha1 Hu1) as (c2 & Hl2 & Ha2 & Hu2 & He2).
  exists c2. split_and!; try done; [by eapply leads_trans|].
  rewrite He2, He1. done.
Qed.

(** The first line of a request. *)
Lemma request_turn E l0 path c r :
  ready c -> m_check_state c = CHECK_STATE_REQUESTLINE ->
  m_start_line c = m_checked_index c -> clean l0 -> request_target l0 = Some path ->
  unread c = l0 ++ CRLF ++ r ->
  exists u c', leads E LINE_OK c LINE_OK c' /\ at_header u path c' /\ unread c' = r
    /\ m_linger c' = m_linger c /\ m_content_length c' = m_content_length c.
Proof.
  intros Hr Hs Hst Hcl Htgt Hun.
  destruct (line_turn l0 r c) as (Hg & Hr1 & Hu1 & Hl & Hpos); try done; [by rewrite Hs|].
  set (c1 := take_line (length l0) c) in *.
  set (cs := set_m_start_line (m_checked_index c1) c1).
  pose proof (request_line_run_spec (m_start_line c1) l0 cs Hl) as Hspec.
  pose proof (request_line_run_touched (m_start_line c1) l0 cs) as Ht.
  pose proof (request_line_run_unread (m_start_line c1) l0 cs Hpos) as Hun2.
  pose proof (request_line_run_same (m_start_line c1) l0 cs) as Hsame.
  pose proof (loop_body_request E c1 l0 Hs Hl) as Hbody. fold cs in Hbody.
  destruct (request_line_run (m_start_line c1) l0 cs) as [ret c2].
  rewrite Htgt in Hspec. cbn [fst snd] in *.
  destruct Hspec as (-> & Hs2 & _ & u & Hu2 & Hp & Hup).
  rewrite decide_False in Hbody by done. destruct Hsame as [Hli Hlen].
  exists u, c2. split_and!; try done.
  - split_and!; [intros rr; by apply (runs_step E LINE_OK c c1 LINE_OK c2)|..];
      rewrite ?(t_read_idx _ _ Ht), ?(t_write_buf _ _ Ht), ?(t_write_idx _ _ Ht),
        ?(t_sockfd _ _ Ht); done.
  - pose proof (t_checked _ _ Ht) as Hchk. pose proof (t_start _ _ Ht) as Hstt.
    change (m_checked_index cs) with (m_checked_index c1) in Hchk.
    change (m_start_line cs) with (m_checked_index c1) in Hstt.
    change (m_start_line c1) with (m_start_line c) in Hup.
    split; [| done | congruence | done | done |].
    + eapply ready_touched; [exact Ht|]. by apply ready_start.
    + lia.
  - by rewrite Hun2, <- Hu1.
Qed.

(** The empty line. *)
Lemma empty_turn E u path c r :
  at_header u path c -> unread c = CRLF ++ r ->
  exists c', conn_ok c' /\ m_url c' = Some u /\ line_at (m_read_buf c') u path
    /\ m_linger c' = m_linger c /\ m_content_length c' = m_content_length c
    /\ m_read_idx c' = m_read_idx c /\ unread c' = r
    /\ m_start_line c' = m_checked_index c' /\ u + length path < m_start_line c'
    /\ m_write_buf c' = m_write_buf c /\ m_write_idx c' = m_write_idx c
    /\ m_sockfd c' = m_sockfd c
    /\ (m_content_length c = 0%Z ->
          forall res, do_request E c' = Ok res -> runs E LINE_OK c (Ok res))
    /\ (m_content_length c <> 0%Z ->
          m_check_state c' = CHECK_STATE_CONTENT /\ leads E LINE_OK c LINE_OK c').
Proof.
  intros [Hr Hs Hst Hu Hp Hb] Hun.
  destruct (line_turn [] r c) as (Hg & Hr1 & Hu1 & Hl & Hpos); try done;
    [by rewrite Hs | by apply (bool_decide_eq_true_1 (clean []))|].
  set (c1 := take_line (length (A := char) []) c) in *.
  set (cs := set_m_start_line (m_checked_index c1) c1).
  assert (line_at (m_read_buf c1) u path) as Hp1.
  { unfold c1, take_line, advance, zap. conn_simpl.
    apply line_at_insert; [apply line_at_insert; [done|]|];
      pose proof (ok_start c (proj1 Hr)); lia. }
  pose proof (ready_start c1 Hr1) as [Hoks _]. fold cs in Hoks.
  pose proof (loop_body_header E c1 [] Hs Hl) as Hbody. fold cs in Hbody.
  assert (m_start_line c <= m_checked_index c) as Hle by apply Hr.
  assert (m_checked_index c < m_checked_index c1) as Hlt by (unfold c1, take_line; cbn; lia).
  unfold header_run in Hbody. rewrite decide_True in Hbody by done.
  change (m_content_length cs) with (m_content_length c) in Hbody.
  destruct (decide (m_content_length c <> 0%Z)) as [Hn|Hn].
  - exists (set_m_check_state CHECK_STATE_CONTENT cs).
    rewrite decide_False in Hbody by done.
    split_and!; try done; [by destruct Hoks | cbn; lia|].
    intros _. split; [done|]. split_and!; try done.
    intros rr. by apply (runs_step E LINE_OK c c1 LINE_OK).
  - exists cs. split_and!; try done; [cbn; lia|].
    intros _ [rc cr] Hres. rewrite decide_True in Hbody by done.
    rewrite Hres in Hbody. cbn [res_bind] in Hbody. by eapply runs_return.
Qed.

(** A body that has arrived whole. *)
Lemma body_turn E u path c body r :
  conn_ok c -> m_url c = Some u -> line_at (m_read_buf c) u path ->
  u + length path < m_start_line c -> m_start_line c = m_checked_index c ->
  m_check_state c = CHECK_STATE_CONTENT ->
  m_content_length c = Z.of_nat (length body) -> m_read_idx c < READ_BUFFER_SIZE ->
  unread c = body ++ r ->
  exists c', conn_ok c' /\ m_url c' = Some u /\ line_at (m_read_buf c') u path
    /\ m_linger c' = m_linger c
    /\ m_write_buf c' = m_write_buf c /\ m_write_idx c' = m_write_idx c
    /\ m_sockfd c' = m_sockfd c
    /\ (forall res, do_request E c' = Ok res -> runs E LINE_OK c (Ok res)).
Proof.
  intros Hc Hu Hp Hb Hst Hs Hlen Hroom Hun.
  pose proof (length_unread c Hc) as Hul. rewrite Hun, length_app in Hul.
  pose proof (ok_checked c Hc). pose proof (ok_read_buf c Hc).
  assert (READ_BUFFER_SIZE = 2048) as HR by done.
  set (at_ := m_start_line c + length body).
  assert (at_ <= m_read_idx c) as Hat by (unfold at_; lia).
  set (c' := zap at_ (set_m_start_line (m_checked_index c) c)).
  assert (touched (set_m_start_line (m_checked_index c) c) c') as Ht by apply touched_zap.
  exists c'. split_and!; try done.
  - eapply touched_ok; [exact Ht|]. destruct Hc. split; conn_simpl; done || lia.
  - apply line_at_insert; [done|]. unfold at_. lia.
  - intros [rc cr] Hres. apply (runs_return E LINE_OK c c).
    { unfold loop_guard. by rewrite decide_True. }
    unfold loop_body, get_line.
    destruct (line_at_before (m_read_buf c) (m_start_line c) (READ_BUFFER_SIZE - 1))
      as (w & Hw & _); [lia | apply ok_zero; [done | lia]|].
    unfold mem_at. conn_simpl. rewrite (proj1 (line_at_cstr _ _ _) Hw).
    cbn [of_option res_bind]. rewrite Hs. unfold parse_content. conn_simpl.
    rewrite Hlen. unfold int_add, INT_MIN, INT_MAX.
    rewrite decide_True by lia. cbn [res_bind]. rewrite decide_True by lia. cbv zeta.
    rewrite decide_False by lia. rewrite poke_zap by (conn_simpl; lia). cbn [res_bind].
    replace (Z.to_nat _) with at_ by (unfold at_; lia). fold c'.
    rewrite decide_True by done. by rewrite Hres.
Qed.

Lemma process_read_loop_ready E f ls c c' :
  ready c -> process_read_loop E f ls c = Ok (NO_REQUEST, c') ->
  ready c' /\ m_read_idx c' = m_read_idx c.
Proof.
  revert ls c. induction f as [|f IH]; intros ls c Hr H; [done|]. simpl in H.
  apply res_bind_Ok_inv in H as ([ls1 c1] & Hg & H). case_decide as Els.
  - subst. apply res_bind_Ok_inv in H as ([[ret|ls'] c2] & Hb & H).
    { simplify_eq. by apply loop_body_final in Hb. }
    destruct (loop_turn E _ _ _ _ _ Hr Hg Hb) as [Hr2 _].
    destruct (IH _ _ Hr2 H) as [? Hidx]. split; [done|]. rewrite Hidx.
    destruct (loop_body_next _ _ _ _ Hb) as [Ht _]. rewrite (t_read_idx _ _ Ht).
    change (m_read_idx c1 = m_read_idx c).
    by destruct (loop_guard_inv ls c c1 Hr Hg) as [(_ & _ & ->)|(n & _ & _ & _ & ->)].
  - simplify_eq. unfold loop_guard in Hg. destruct (decide (_ /\ _)); [by simplify_eq|].
    rewrite parse_line_eq in Hg by apply Hr.
    destruct (scan_line (unread c)) as [k|k|k] eqn:Es; simplify_eq/=;
      split; done || (apply advance_ready; auto).
Qed.

Lemma served_request E c l0 hs path body rest :
  ready c -> m_check_state c = CHECK_STATE_REQUESTLINE ->
  m_start_line c = m_checked_index c -> m_read_idx c < READ_BUFFER_SIZE ->
  clean l0 -> Forall header_line hs -> request_target l0 = Some path ->
  unread c = wire l0 hs ++ body ++ rest ->
  (header_effects hs (m_linger c, m_content_length c)).2 = Z.of_nat (length body) ->
  exists c', process_read E c = Ok (resource_code E (resource path), c')
    /\ cstr (m_real_file c') = Some (resource path)
    /\ m_linger c' = (header_effects hs (m_linger c, m_content_length c)).1
    /\ m_write_buf c' = m_write_buf c /\ m_write_idx c' = m_write_idx c
    /\ m_sockfd c' = m_sockfd c /\ conn_ok c'
    /\ (resource_code E (resource path) = FILE_REQUEST ->
        exists st, sys_stat E (resource path) = Some st /\ m_file_stat c' = st
          /\ m_file_address c' = sys_mmap E (st_size st) (sys_open E (resource path))).
Proof.
  intros Hr Hs Hst Hroom Hl0 Hhs Htgt Hun Hbody.
  unfold wire, header_bytes in Hun. rewrite <- !app_assoc in Hun.
  destruct (request_turn E l0 path c _ Hr Hs Hst Hl0 Htgt Hun)
    as (u & c1 & L1 & A1 & U1 & El1 & Ec1).
  destruct (header_turns E hs c1 u path _ A1 Hhs U1) as (c2 & L2 & A2 & U2 & E2).
  rewrite El1, Ec1 in E2. rewrite <- E2 in Hbody |- *. cbn [fst snd] in *.
  destruct (empty_turn E u path c2 _ A2 U2)
    as (c3 & Ok3 & Url3 & P3 & Li3 & Le3 & Ri3 & U3 & St3 & B3 & W3 & I3 & S3 & K0 & K1).
  pose proof (leads_trans _ _ _ _ _ _ _ L1 L2) as (Hruns & Hidx & Hwb & Hwi & Hfd).
  assert (exists c4, conn_ok c4 /\ m_url c4 = Some u /\ line_at (m_read_buf c4) u path
    /\ m_linger c4 = m_linger c2 /\ m_write_buf c4 = m_write_buf c2
    /\ m_write_idx c4 = m_write_idx c2 /\ m_sockfd c4 = m_sockfd c2
    /\ (forall res, do_request E c4 = Ok res -> runs E LINE_OK c2 (Ok res)))
    as (c4 & Ok4 & Url4 & P4 & Li4 & W4 & I4 & S4 & K4).
  { destruct (decide (m_content_length c2 = 0%Z)) as [Hz|Hz]; [exists c3; by split_and!; auto|].
    destruct (K1 Hz) as [Hs3 (L3 & _)].
    destruct (body_turn E u path c3 body rest) as
      (c4 & ? & ? & ? & ? & ? & ? & ? & K4); try done; try congruence.
    exists c4. split_and!; try congruence. auto. }
  destruct (do_request_run E u path c4 Ok4 Url4 P4) as (c' & Hd & [] & Hok').
  exists c'. split_and!; try congruence; [|done..].
  apply (runs_det E LINE_OK c); [by apply runs_process_read | by auto].
Qed.

(** A first line that is no request line ends the reading, whatever follows it. *)
Lemma rejected_request E c l0 rest :
  ready c -> m_check_state c = CHECK_STATE_REQUESTLINE ->
  m_start_line c = m_checked_index c -> clean l0 -> request_target l0 = None ->
  unread c = l0 ++ CRLF ++ rest ->
  exists c', process_read E c = Ok (BAD_REQUEST, c')
    /\ m_linger c' = m_linger c /\ m_write_idx c' = m_write_idx c
    /\ m_sockfd c' = m_sockfd c /\ conn_ok c'.
Proof.
  intros Hr Hs Hst Hl0 Htgt Hun.
  destruct (line_turn l0 rest c) as (Hg & Hr1 & _ & Hl & _); try done; [by rewrite Hs|].
  set (c1 := take_line (length l0) c) in *.
  set (cs := set_m_start_line (m_checked_index c1) c1).
  pose proof (request_line_run_spec (m_start_line c1) l0 cs Hl) as Hspec.
  pose proof (request_line_run_touched (m_start_line c1) l0 cs) as Ht.
  pose proof (request_line_run_same (m_start_line c1) l0 cs) as Hsame.
  pose proof (loop_body_request E c1 l0 Hs Hl) as Hbody. fold cs in Hbody.
  destruct (request_line_run (m_start_line c1) l0 cs) as [ret c2].
  rewrite Htgt in Hspec. cbn [fst snd] in *. destruct Hspec as (-> & _).
  rewrite decide_True in Hbody by done. destruct Hsame as [Hli _].
  exists c2. split.
  { apply (runs_det E LINE_OK c); [by apply runs_process_read|].
    by apply (runs_return E LINE_OK c c1). }
  rewrite (t_write_idx _ _ Ht), (t_sockfd _ _ Ht). split_and!; try done.
  eapply ready_touched; [exact Ht|]. by apply ready_start.
Qed.

(** C12: a request for [path] whose bytes have arrived, body included, is
    answered by what [stat] says of the file [resource path]; the headers set
    the keep-alive flag, and on [FILE_REQUEST] the file is mapped. *)
Theorem process_read_request E c l0 hs path body rest :
  ready c -> m_check_state c = CHECK_STATE_REQUESTLINE ->
  m_start_line c = m_checked_index c -> m_read_idx c < READ_BUFFER_SIZE ->
  clean l0 -> Forall header_line hs -> request_target l0 = Some path ->
  unread c = wire l0 hs ++ body ++ rest ->
  (header_effects hs (m_linger c, m_content_length c)).2 = Z.of_nat (length body) ->
  exists c', process_read E c = Ok (resource_code E (resource path), c')
    /\ cstr (m_real_file c') = Some (resource path)
    /\ m_linger c' = (header_effects hs (m_linger c, m_content_length c)).1
    /\ m_write_buf c' = m_write_buf c /\ m_write_idx c' = m_write_idx c
    /\ m_sockfd c' = m_sockfd c /\ conn_ok c'
    /\ (resource_code E (resource path) = FILE_REQUEST ->
        exists st, sys_stat E (resource path) = Some st /\ m_file_stat c' = st
          /\ m_file_address c' = sys_mmap E (st_size st) (sys_open E (resource path))).
Proof. apply served_request. Qed.

Lemma fresh_ready fd addr : length addr = 16 -> ready (fresh_conn fd addr).
Proof.
  intros Ha. split; [by apply fresh_conn_ok|]. intros Hi. cbn in Hi. lia.
Qed.

(** A file system with one readable file and one directory. *)
Definition sample_env : sysenv := {|
  sys_stat f :=
    if decide (f = lit "./resources/a") then Some (MkStat 33188 12)
    else if decide (f = lit "./resources/d") then Some (MkStat 16877 64)
    else None;
  sys_open _ := 9%Z;
  sys_mmap _ _ := 4096%Z
|}.

Definition sample_conn (bytes : list char) : http_conn :=
  feed bytes (fresh_conn 5 (replicate 16 NUL)).

Lemma sample_ready bytes : length bytes <= READ_BUFFER_SIZE -> ready (sample_conn bytes).
Proof. intros. apply feed_ready; [by apply fresh_ready | done]. Qed.

(** Decidable facts at concrete inputs. *)
Ltac concrete := apply (bool_decide_eq_true_1 _); vm_compute; reflexivity.

Lemma process_read_request_witness :
  let c := sample_conn (wire (lit "GET /a HTTP/1.1")
    [lit "Connection: keep-alive"; lit "Content-Length: 3"] ++ lit "abc") in
  exists c', process_read sample_env c = Ok (FILE_REQUEST, c')
    /\ m_linger c' = true /\ m_file_address c' = 4096%Z.
Proof.
  intros c.
  destruct (process_read_request sample_env c (lit "GET /a HTTP/1.1")
    [lit "Connection: keep-alive"; lit "Content-Length: 3"] (lit "/a") (lit "abc") [])
    as (c' & Hp & _ & Hl & _ & _ & _ & _ & Hf).
  - apply sample_ready. concrete.
  - reflexivity.
  - reflexivity.
  - concrete.
  - concrete.
  - concrete.
  - reflexivity.
  - vm_compute. reflexivity.
  - reflexivity.
  - exists c'. split; [exact Hp|]. split; [exact Hl|].
    destruct (Hf eq_refl) as (st & Hst & _ & Ha). exact Ha.
Defined.

(** ** The line splitter *)

(** C13: [parse_line] answers what a scan of the unread bytes says: a line ended
    by CR LF is taken and its ending overwritten with two NULs; data without
    a line ending moves the cursor to a trailing CR or to the end of the
    data; a CR or an LF alone is [LINE_BAD], at that byte.  The look at the byte
    before an LF never finds a CR. *)
Theorem parse_line_spec c :
  ready c ->
  parse_line c = Ok (
    match scan_line (unread c) with
    | ScanLine n => (LINE_OK, take_line n c)
    | ScanOpen n => (LINE_OPEN, advance n c)
    | ScanBad n => (LINE_BAD, advance n c)
    end).
Proof. intros [Hc Hp]. rewrite parse_line_eq by done. by destruct (scan_line _). Qed.

Lemma parse_line_spec_witness :
  let c := sample_conn (lit "ab" ++ CRLF ++ lit "c") in
  parse_line c = Ok (LINE_OK, take_line 2 c).
Proof. intros c. apply (parse_line_spec c). apply sample_ready. concrete. Defined.

(** ** Termination *)

(** C26: [process_read] needs at most one turn per received byte and three more:
    its fuel is never exhausted. *)
Theorem process_read_total E c : ready c -> process_read E c <> OutOfFuel.
Proof. intros Hr. by destruct (runs_process_read E c Hr) as (f & _ & H). Qed.

Lemma process_read_total_witness :
  process_read sample_env (sample_conn (lit "GET /a")) <> OutOfFuel.
Proof. apply process_read_total. apply sample_ready. concrete. Defined.

(** ** Requests that arrive in pieces *)



(** A CR or LF alone in the request line or the headers is never answered:
    [process_read] says [NO_REQUEST] now and whatever arrives later, although
    [LINE_BAD] and [BAD_REQUEST] exist for it. *)
Theorem bad_line_unanswered E c d n :
  ready c -> m_read_idx c + length d <= READ_BUFFER_SIZE ->
  m_check_state c <> CHECK_STATE_CONTENT -> scan_line (unread c) = ScanBad n ->
  process_read E (feed d c) = Ok (NO_REQUEST, advance n (feed d c)).
Proof.
  intros Hr Hd Hs Hscan. destruct (feed_ready d c Hr Hd) as [Hc Hp].
  apply (runs_det E LINE_OK (feed d c)); [by apply runs_process_read|].
  exists 1. split; [|done]. simpl. unfold loop_guard.
  rewrite decide_False by (by intros [? _]).
  rewrite parse_line_eq, unread_feed by (done || apply Hr).
  by rewrite (scan_line_Bad_app _ _ _ Hscan).
Qed.

Lemma bad_line_unanswered_witness :
  let c := sample_conn (lit "GET /a HTTP/1.1" ++ [LF]) in
  process_read sample_env (feed CRLF c)
  = Ok (NO_REQUEST, advance 15 (feed CRLF c)).
Proof.
  intros c. apply (bad_line_unanswered sample_env c CRLF 15).
  - apply sample_ready. concrete.
  - concrete.
  - discriminate.
  - reflexivity.
Defined.

(** ** Memory safety

    [m_url] points at a terminated string before the current line as soon as
    the request line is parsed. *)
Definition url_ok (c : http_conn) : Prop :=
  m_check_state c <> CHECK_STATE_REQUESTLINE ->
  exists u path, m_url c = Some u /\ line_at (m_read_buf c) u path
    /\ u + length path < m_start_line c.

Lemma line_at_zap m u path i :
  line_at m u path ->
  exists path', line_at (<[i := NUL]> m) u path' /\ length path' <= length path.
Proof.
  intros H. pose proof H as (Hn & r & Hr).
  destruct (decide (i < u)).
  { exists path. split; [|done]. split; [done|]. exists r. by rewrite drop_insert_lt by lia. }
  destruct (decide (i < u + length path)).
  { destruct (line_at_cut m u path (i - u) H) as [Hc _]; [lia|].
    replace (u + (i - u)) with i in Hc by lia. eexists. split; [exact Hc|].
    rewrite length_take. lia. }
  destruct (decide (i = u + length path)) as [->|].
  { exists path. split; [|done]. replace (<[_ := NUL]> m) with m; [done|].
    symmetry. apply list_insert_id. rewrite (line_at_lookup m u path _ H) by lia.
    by rewrite lookup_app_r, Nat.sub_diag by lia. }
  exists path. split; [|done]. apply line_at_insert; [done|]. lia.
Qed.

Lemma url_ok_zap c c' i :
  url_ok c -> m_check_state c' = m_check_state c -> m_url c' = m_url c ->
  m_read_buf c' = <[i := NUL]> (m_read_buf c) -> m_start_line c <= m_start_line c' ->
  url_ok c'.
Proof.
  intros H Hs Hu Hb Hle Hst. rewrite Hs in Hst.
  destruct (H Hst) as (u & path & H1 & H2 & H3).
  destruct (line_at_zap _ _ _ i H2) as (path' & H4 & H5).
  exists u, path'. rewrite Hu, Hb. split_and!; done || lia.
Qed.

Lemma url_ok_same c c' :
  url_ok c -> m_check_state c' = m_check_state c -> m_url c' = m_url c ->
  m_read_buf c' = m_read_buf c -> m_start_line c <= m_start_line c' -> url_ok c'.
Proof.
  intros H Hs Hu Hb Hle Hst. rewrite Hs in Hst.
  destruct (H Hst) as (u & path & H1 & H2 & H3).
  exists u, path. rewrite Hu, Hb. split_and!; done || lia.
Qed.

(** One turn of the loop that goes on. *)
Definition turn (E : sysenv) (s s' : LINE_STATUS * http_conn) : Prop :=
  exists c1, loop_guard s.1 s.2 = Ok (LINE_OK, c1) /\ loop_body E c1 = Ok (inr s'.1, s'.2).

(** The turns that read a body whose declared length is negative enough to
    name a byte before the buffer, or too large to be added to the cursor. *)
Definition bad_length (c : http_conn) : Prop :=
  m_check_state c = CHECK_STATE_CONTENT /\
  (m_content_length c < - Z.of_nat (m_start_line c)
   \/ INT_MAX - Z.of_nat (m_checked_index c) < m_content_length c)%Z.

Lemma loop_guard_url ls c c1 :
  ready c -> url_ok c -> loop_guard ls c = Ok (LINE_OK, c1) -> url_ok c1.
Proof.
  intros Hr Hu Hg.
  destruct (loop_guard_inv ls c c1 Hr Hg) as [(_ & _ & ->)|(n & _ & _ & _ & ->)]; [done|].
  unfold take_line. set (c0 := zap (m_checked_index c + n) c).
  assert (url_ok c0) as H0 by (by eapply url_ok_zap).
  eapply (url_ok_zap c0); done.
Qed.

Lemma do_request_safe E c :
  conn_ok c -> (exists u path, m_url c = Some u /\ line_at (m_read_buf c) u path) ->
  do_request E c <> UB.
Proof.
  intros Hc (u & path & Hu & Hp).
  destruct (do_request_run E u path c Hc Hu Hp) as (c' & -> & _). done.
Qed.

(** The text of the current line: there is always a NUL after it. *)
Lemma line_text_exists c :
  conn_ok c -> m_read_idx c < READ_BUFFER_SIZE ->
  exists w, line_at (m_read_buf c) (m_start_line c) w.
Proof.
  intros Hc Hroom. pose proof (ok_start c Hc). pose proof (ok_checked c Hc).
  destruct (line_at_before (m_read_buf c) (m_start_line c) (READ_BUFFER_SIZE - 1))
    as (w & Hw & _); [lia | apply ok_zero; [done | lia]|]. by exists w.
Qed.

Lemma bind_inl_safe E c :
  do_request E c <> UB ->
  (let* '(r, c) := do_request E c in Ok (A := (HTTP_CODE + LINE_STATUS) * http_conn) (inl r, c))
  <> UB.
Proof. destruct (do_request E c) as [[]| |]; done. Qed.

Definition line_ok (c : http_conn) : Prop :=
  m_check_state c <> CHECK_STATE_CONTENT ->
  exists w, line_at (m_read_buf c) (m_start_line c) w
    /\ m_start_line c + length w < m_checked_index c.

Lemma loop_guard_line ls c c1 :
  ready c -> loop_guard ls c = Ok (LINE_OK, c1) -> line_ok c1.
Proof.
  intros Hr Hg Hs.
  destruct (loop_guard_inv ls c c1 Hr Hg) as [(? & _ & ->)|(n & _ & _ & Hn & ->)]; [done|].
  destruct (take_line_text n c (proj1 Hr) Hn) as (w & Hw & Hb). exists w. split; [done|].
  unfold take_line, advance, zap. conn_simpl. lia.
Qed.

Lemma loop_body_safe E c :
  conn_ok c -> url_ok c -> line_ok c -> m_read_idx c < READ_BUFFER_SIZE ->
  loop_body E c = UB -> bad_length c.
Proof.
  intros Hc Hu Hline Hroom. pose proof (ok_start c Hc). pose proof (ok_checked c Hc).
  set (cs := set_m_start_line (m_checked_index c) c).
  assert (conn_ok cs) as Hcs by (destruct Hc; split; conn_simpl; done || lia).
  destruct (m_check_state c) eqn:Es.
  - destruct Hline as (w & Hw & _); [by rewrite Es|].
    rewrite (loop_body_request E c w) by done. by destruct (request_line_run _ _ _).
  - destruct Hline as (w & Hw & _); [by rewrite Es|].
    rewrite (loop_body_header E c w) by done. fold cs.
    pose proof (header_run_touched (m_start_line c) w cs) as Ht.
    destruct (header_run _ _ _) as [ret c2] eqn:Erun. case_decide as Er; [|done].
    intros HU. exfalso. revert HU. apply bind_inl_safe, do_request_safe.
    { eapply touched_ok; [exact Ht | done]. }
    destruct Hu as (u & path & H1 & H2 & _); [by rewrite Es|]. subst ret.
    assert (c2 = cs) as -> by (unfold header_run in Erun; repeat case_match; congruence).
    by exists u, path.
  - destruct (line_text_exists c Hc Hroom) as [w Hw].
    unfold loop_body, get_line, mem_at. fold cs.
    change (m_read_buf cs) with (m_read_buf c).
    rewrite (proj1 (line_at_cstr _ _ _) Hw). cbn [of_option res_bind].
    change (m_check_state cs) with (m_check_state c). rewrite Es. unfold parse_content.
    change (m_content_length cs) with (m_content_length c).
    change (m_checked_index cs) with (m_checked_index c).
    change (m_read_idx cs) with (m_read_idx c). unfold int_add.
    destruct (decide (INT_MIN <= _ <= INT_MAX)%Z) as [Hadd|Hadd]; cbn [res_bind].
    + destruct (decide (_ <= Z.of_nat (m_read_idx c))%Z) as [Hle|]; [|done]. cbv zeta.
      destruct (decide (_ < 0)%Z) as [Hneg|Hneg]; [intros _; split; [done|]; lia|].
      pose proof (ok_read_buf c Hc) as Hl.
      rewrite poke_zap by (change (m_read_buf cs) with (m_read_buf c); lia).
      cbn [res_bind]. rewrite decide_True by done.
      intros HU. exfalso. revert HU. apply bind_inl_safe, do_request_safe.
      { eapply touched_ok; [apply touched_zap | done]. }
      destruct Hu as (u & path & H1 & H2 & _); [by rewrite Es|].
      destruct (line_at_zap _ _ _ (Z.to_nat (Z.of_nat (m_start_line c) + m_content_length c)) H2)
        as (path' & H3 & _). by exists u, path'.
    + intros _. split; [done|]. revert Hadd. unfold INT_MIN, INT_MAX.
      pose proof (ok_read_idx c Hc). assert (READ_BUFFER_SIZE = 2048) as HR by done. lia.
Qed.

Lemma loop_body_url E c ls c2 :
  conn_ok c -> url_ok c -> line_ok c -> loop_body E c = Ok (inr ls, c2) -> url_ok c2.
Proof.
  intros Hc Hu Hline. pose proof (ok_start c Hc).
  set (cs := set_m_start_line (m_checked_index c) c).
  destruct (m_check_state c) eqn:Es.
  - destruct Hline as (w & Hw & Hb); [by rewrite Es|].
    rewrite (loop_body_request E c w) by done. fold cs.
    pose proof (request_line_run_spec (m_start_line c) w cs Hw) as Hspec.
    pose proof (request_line_run_touched (m_start_line c) w cs) as Ht.
    destruct (request_line_run _ _ _) as [ret c3].
    destruct (request_target w) as [path|].
    + destruct Hspec as (-> & Hs3 & _ & u & H1 & H2 & H3).
      rewrite decide_False by done. intros [= <- <-] _. exists u, path.
      split_and!; try done. cbn [snd] in Ht. rewrite (t_start _ _ Ht). cbn. lia.
    + destruct Hspec as [-> _]. by rewrite decide_True.
  - destruct Hline as (w & Hw & Hb); [by rewrite Es|].
    rewrite (loop_body_header E c w) by done. fold cs.
    pose proof (header_run_touched (m_start_line c) w cs) as Ht.
    destruct (header_run _ _ _) as [ret c3] eqn:Erun. cbn [snd] in Ht.
    assert (m_url c3 = m_url c /\ m_read_buf c3 = m_read_buf c) as [E1 E2].
    { destruct (decide (w = [])) as [->|Hne].
      - unfold header_run in Erun. rewrite decide_True in Erun by done.
        case_decide; by simplify_eq.
      - pose proof (header_run_effect (m_start_line c) w cs Hne) as He.
        rewrite Erun in He. cbn in He. destruct He as (_ & _ & -> & -> & _). done. }
    case_decide; [intros HU; invert_res; by case_match|]. intros [= <- <-] _.
    destruct Hu as (u & path & H1 & H2 & H3); [by rewrite Es|].
    exists u, path. rewrite E1, E2, (t_start _ _ Ht). split_and!; try done. cbn. lia.
  - intros Hb. destruct (loop_body_next _ _ _ _ Hb) as [_ [[? _]|(_ & _ & ->)]]; [done|].
    eapply url_ok_same; [exact Hu|..]; done.
Qed.

Lemma process_read_loop_safe E f ls c :
  ready c -> url_ok c -> m_read_idx c < READ_BUFFER_SIZE ->
  process_read_loop E f ls c = UB ->
  exists ls' c0 c1, rtc (turn E) (ls, c) (ls', c0)
    /\ loop_guard ls' c0 = Ok (LINE_OK, c1) /\ bad_length c1.
Proof.
  revert ls c. induction f as [|f IH]; intros ls c Hr Hu Hroom H; [done|]. simpl in H.
  destruct (loop_guard_ok ls c) as (ls1 & c1 & Hg); [apply Hr..|].
  rewrite Hg in H. cbn [res_bind] in H. destruct (decide (ls1 = LINE_OK)); [subst ls1|done].
  pose proof (loop_guard_ready _ _ _ Hr Hg) as [Hok1 _].
  pose proof (loop_guard_url _ _ _ Hr Hu Hg) as Hu1.
  pose proof (loop_guard_line _ _ _ Hr Hg) as Hl1.
  assert (m_read_idx c1 = m_read_idx c) as Hidx.
  { by destruct (loop_guard_inv ls c c1 Hr Hg) as [(_ & _ & ->)|(n & _ & _ & _ & ->)]. }
  destruct (loop_body E c1) as [[[ret|ls'] c2]| |] eqn:Hb; cbn [res_bind] in H; try done.
  - assert (turn E (ls, c) (ls', c2)) as Hturn by (exists c1; done).
    destruct (loop_turn E _ _ _ _ _ Hr Hg Hb) as [Hr2 _].
    destruct (loop_body_next _ _ _ _ Hb) as [Ht _].
    destruct (IH ls' c2) as (ls3 & c3 & c4 & Hrt & Hg3 & Hbad); try done.
    + by eapply loop_body_url.
    + rewrite (t_read_idx _ _ Ht). change (m_read_idx c1 < READ_BUFFER_SIZE). lia.
    + exists ls3, c3, c4. split; [by eapply rtc_l | done].
  - exists ls, c, c1. split_and!; [constructor | done |].
    apply (loop_body_safe E); [done..| by rewrite Hidx | done].
Qed.


Definition negative_length : list char :=
  wire (lit "GET /a HTTP/1.1") [lit "Content-Length: -200"].


(** A body that arrives in a later packet is not recognised: the request
    below is served when it arrives at once and never answered when its last
    byte comes alone (the cursor, moved over the first bytes of the body by
    [parse_line], is added to the length again). *)
Theorem split_body_unanswered :
  let head := wire (lit "GET /a HTTP/1.1") [lit "Content-Length: 3"] in
  (exists c', process_read sample_env (sample_conn (head ++ lit "abc"))
     = Ok (FILE_REQUEST, c'))
  /\ exists c1 c2, process_read sample_env (sample_conn (head ++ lit "ab"))
       = Ok (NO_REQUEST, c1)
     /\ process_read sample_env (feed (lit "c") c1) = Ok (NO_REQUEST, c2).
Proof.
  cbv zeta. split; [eexists; vm_compute; reflexivity|].
  destruct (process_read sample_env (sample_conn _)) as [[r1 c1]| |] eqn:E1.
  all: vm_compute in E1; try discriminate E1. injection E1 as <- <-.
  eexists. eexists. split; [reflexivity|]. vm_compute. reflexivity.
Qed.

(** ** The line parsers *)

(** C36: [parse_request_line] on a line of text [w] answers [NO_REQUEST] exactly
    when [w] is [GET], a path and [HTTP/1.1], with [m_url] pointing at the
    path (past the authority of an absolute URL), and [BAD_REQUEST] otherwise. *)
Theorem parse_request_line_spec text w c :
  line_at (m_read_buf c) text w ->
  exists r c', parse_request_line text c = Ok (r, c') /\
  match request_target w with
  | Some path =>
      r = NO_REQUEST /\ m_check_state c' = CHECK_STATE_HEADER /\ m_method c' = GET
      /\ exists u, m_url c' = Some u /\ line_at (m_read_buf c') u path
           /\ u + length path <= text + length w
  | None => r = BAD_REQUEST /\ m_check_state c' = m_check_state c
  end.
Proof.
  intros H. rewrite (parse_request_line_run _ _ _ H).
  pose proof (request_line_run_spec text w c H) as Hs.
  destruct (request_line_run text w c) as [r c']. by exists r, c'.
Qed.

Lemma parse_request_line_spec_witness :
  let c := sample_conn (lit "GET http://h/a HTTP/1.1") in
  exists r c', parse_request_line 0 c = Ok (r, c') /\ r = NO_REQUEST
    /\ exists u, m_url c' = Some u /\ line_at (m_read_buf c') u (lit "/a").
Proof.
  intros c.
  destruct (parse_request_line_spec 0 (lit "GET http://h/a HTTP/1.1") c)
    as (r & c' & Hp & Hs).
  - apply line_at_cstr. vm_compute. reflexivity.
  - change (request_target _) with (Some (lit "/a")) in Hs.
    destruct Hs as (Hr & _ & _ & u & Hu & Hl & _).
    exists r, c'. split; [exact Hp|]. split; [exact Hr|]. exists u. split; [exact Hu | exact Hl].
Defined.

(** C39: [parse_headers] on the empty line ends the headers: with a declared
    length the body is next, without one the request is complete.  On any
    other line it updates the keep-alive flag and the length as
    [header_effect] says (names in any case, blanks skipped, unknown headers
    ignored) and nothing else the reply depends on. *)
Theorem parse_headers_spec text w c :
  line_at (m_read_buf c) text w ->
  exists r c', parse_headers text c = Ok (r, c') /\
  (w = [] ->
     if decide (m_content_length c = 0%Z) then r = GET_REQUEST /\ c' = c
     else r = NO_REQUEST /\ c' = set_m_check_state CHECK_STATE_CONTENT c) /\
  (w <> [] ->
     r = NO_REQUEST
     /\ (m_linger c', m_content_length c') =
          header_effect w (m_linger c, m_content_length c)
     /\ m_url c' = m_url c /\ m_read_buf c' = m_read_buf c
     /\ m_check_state c' = m_check_state c).
Proof.
  intros H. rewrite (parse_headers_run _ _ _ H).
  pose proof (header_run_effect text w c) as He.
  destruct (header_run text w c) as [r c'] eqn:Er. exists r, c'.
  split_and!; [done | |intros Hw; by destruct (He Hw) as (? & ? & ? & ? & ? & ?)].
  intros ->. unfold header_run in Er. rewrite decide_True in Er by done.
  repeat case_decide; by simplify_eq.
Qed.

Lemma parse_headers_spec_witness :
  let c := sample_conn (lit "content-length:  12") in
  exists r c', parse_headers 0 c = Ok (r, c') /\ m_content_length c' = 12%Z.
Proof.
  intros c.
  destruct (parse_headers_spec 0 (lit "content-length:  12") c) as (r & c' & Hp & _ & Hs).
  - apply line_at_cstr. vm_compute. reflexivity.
  - exists r, c'. split; [exact Hp|].
    assert (lit "content-length:  12" <> []) as Hn by discriminate.
    destruct (Hs Hn) as (_ & He & _).
    assert (header_effect (lit "content-length:  12") (m_linger c, m_content_length c)
      = (false, 12%Z)) as Hv by reflexivity.
    rewrite Hv in He. injection He as _ He. exact He.
Defined.

(** [do_request] builds the file name from the document root and the first
    188 bytes of the path, and answers what [stat] says: missing, not readable
    by others, a directory, or a file that it then opens and maps. *)
Theorem do_request_spec E u path c :
  conn_ok c -> m_url c = Some u -> line_at (m_read_buf c) u path ->
  exists c', do_request E c = Ok (resource_code E (resource path), c')
    /\ served E (resource path) c c' /\ conn_ok c'.
Proof. apply do_request_run. Qed.

Lemma do_request_spec_witness :
  let c := set_m_url (Some 0) (sample_conn (lit "/d")) in
  exists c', do_request sample_env c = Ok (BAD_REQUEST, c') /\ conn_ok c'.
Proof.
  intros c. destruct (do_request_spec sample_env 0 (lit "/d") c) as (c' & Hd & _ & Hc).
  - destruct (sample_ready (lit "/d")) as [H _]; [concrete|]. destruct H. split; assumption.
  - reflexivity.
  - apply line_at_cstr. vm_compute. reflexivity.
  - exists c'. split; [exact Hd | exact Hc].
Defined.

(** The path is not checked for dots. *)
Example dots_leave_the_root :
  resource (lit "/../secret") = lit "./resources/../secret".
Proof. reflexivity. Qed.
