(* ===== verification/HttpReply.v ===== *)
(** * [1. Proactor/http_conn.cpp]: the reply

    The functions that fill [m_write_buf] and the two [iovec]s
    ([add_response] to [process_write]), [unmap], the sending function
    [http_conn::write] against the answers of [writev], and [process], the
    function a worker thread runs. *)

From S2P Require Import Prelude CBase HttpConn HttpParse HttpSpec.

(** ** The reply's texts *)
Definition ok_200_title : list char := lit "OK".
Definition error_400_title : list char := lit "Bad Request".
Definition error_400_form : list char :=
  lit "Your request has bad syntax or is inherently impossible to satisfy." ++ [LF].
Definition error_403_title : list char := lit "Forbidden".
Definition error_403_form : list char :=
  lit "You do not have permission to get file from this server." ++ [LF].
Definition error_404_title : list char := lit "Not Found".
Definition error_404_form : list char :=
  lit "The requested file was not found on this server." ++ [LF].
Definition error_500_title : list char := lit "Internal Error".
Definition error_500_form : list char :=
  lit "There was an unusual problem serving the requested file." ++ [LF].

(** ** [add_response] and its callers *)

(** [vsnprintf(buf + pos, size, ...)] on an expansion [text]: at most [size - 1]
    bytes and a NUL are stored, nothing when [size] is 0. *)
Definition vsnprintf (pos size : nat) (text buf : list char) : list char :=
  match size with
  | O => buf
  | S n => blit pos (take n text ++ [NUL]) buf
  end.

(** [text] is the expansion of the format with its arguments. *)
Definition add_response (text : list char) (c : http_conn) : bool * http_conn :=
  if decide (WRITE_BUFFER_SIZE <= m_write_idx c) then (false, c)
  else
    let size := WRITE_BUFFER_SIZE - 1 - m_write_idx c in
    let c := set_m_write_buf (vsnprintf (m_write_idx c) size text (m_write_buf c)) c in
    if decide (size <= length text) then (false, c)
    else (true, set_m_write_idx (m_write_idx c + length text) c).

Definition add_status_line (status : Z) (title : list char) : http_conn -> bool * http_conn :=
  add_response (lit "HTTP/1.1" ++ [SP] ++ print_Z status ++ [SP] ++ title ++ CRLF).

Definition add_content_length (content_len : Z) : http_conn -> bool * http_conn :=
  add_response (lit "Content-Length: " ++ print_Z content_len ++ CRLF).

Definition add_linger (c : http_conn) : bool * http_conn :=
  add_response (lit "Connection: "
    ++ (if m_linger c then lit "keep-alive" else lit "close") ++ CRLF) c.

Definition add_blank_line : http_conn -> bool * http_conn := add_response CRLF.

Definition add_content (content : list char) : http_conn -> bool * http_conn :=
  add_response content.

Definition add_content_type : http_conn -> bool * http_conn :=
  add_response (lit "Content-Type:" ++ lit "text/html" ++ CRLF).

(** The four results are ignored.  The function is declared [bool] and ends without
    a [return], which C++ leaves undefined; it is taken to come back to its
    callers, which ignore the value. *)
Definition add_headers (content_len : Z) (c : http_conn) : http_conn :=
  let c := (add_content_length content_len c).2 in
  let c := (add_content_type c).2 in
  let c := (add_linger c).2 in
  (add_blank_line c).2.

(** ** [process_write] *)

(** One error branch: the status line, the headers, the content. *)
Definition error_reply (status : Z) (title form : list char) (c : http_conn)
    : bool * http_conn :=
  let c := (add_status_line status title c).2 in
  let c := add_headers (to_int (Z.of_nat (length form))) c in
  add_content form c.

Definition process_write (ret : HTTP_CODE) (c : http_conn) : bool * http_conn :=
  let finish '(ok, c) :=
    if negb ok then (false, c)
    else
      let c := set_m_iv (<[0 := MkIov IovWriteBuf (Z.of_nat (m_write_idx c))]> (m_iv c)) c in
      (true, set_m_iv_count 1 c) in
  match ret with
  | INTERNAL_ERROR => finish (error_reply 500 error_500_title error_500_form c)
  | BAD_REQUEST => finish (error_reply 400 error_400_title error_400_form c)
  | NO_RESOURCE => finish (error_reply 404 error_404_title error_404_form c)
  | FORBIDDEN_REQUEST => finish (error_reply 403 error_403_title error_403_form c)
  | FILE_REQUEST =>
      let c := (add_status_line 200 ok_200_title c).2 in
      let c := add_headers (to_int (st_size (m_file_stat c))) c in
      let c := set_m_iv (<[0 := MkIov IovWriteBuf (Z.of_nat (m_write_idx c))]> (m_iv c)) c in
      let c := set_m_iv
        (<[1 := MkIov (IovMap (m_file_address c)) (st_size (m_file_stat c))]> (m_iv c)) c in
      (true, set_m_iv_count 2 c)
  | _ => (false, c)
  end.

(** ** [unmap] and [write] *)
Definition unmap (c : http_conn) : http_conn * list action :=
  if decide (m_file_address c <> 0)%Z
  then (set_m_file_address 0 c, [Munmap (m_file_address c) (st_size (m_file_stat c))])
  else (c, []).

(** The answers of the successive [writev] calls: a number of bytes, -1 with
    [EAGAIN], -1 with another error. *)
Inductive writev_result := WvSent (n : Z) | WvAgain | WvError.

Fixpoint write_loop (rs : list writev_result) (bytes_to_send bytes_have_send : Z)
    (c : http_conn) : res (bool * http_conn * list action) :=
  match rs with
  | [] => OutOfFuel
  | WvAgain :: _ => Ok (true, c, modifyfd (m_sockfd c) EPOLLOUT)
  | WvError :: _ => let '(c, acts) := unmap c in Ok (false, c, acts)
  | WvSent temp :: rs' =>
      let sent := Writev (take (Z.to_nat (m_iv_count c)) (m_iv c)) temp in
      let bytes_to_send := (bytes_to_send - temp)%Z in
      let bytes_have_send := (bytes_have_send + temp)%Z in
      if decide (bytes_to_send <= bytes_have_send)%Z then
        let '(c, unmapped) := unmap c in
        if m_linger c then
          let '(c, inits) := init_state c in
          Ok (true, c, sent :: unmapped ++ inits ++ modifyfd (m_sockfd c) EPOLLIN)
        else Ok (false, c, sent :: unmapped ++ modifyfd (m_sockfd c) EPOLLIN)
      else
        let* '(b, c, acts) := write_loop rs' bytes_to_send bytes_have_send c in
        Ok (b, c, sent :: acts)
  end.

Definition write (rs : list writev_result) (c : http_conn)
    : res (bool * http_conn * list action) :=
  if decide (m_write_idx c = 0) then
    let acts := modifyfd (m_sockfd c) EPOLLIN in
    let '(c, inits) := init_state c in
    Ok (true, c, acts ++ inits)
  else write_loop rs (Z.of_nat (m_write_idx c)) 0 c.

(** ** [process] *)
Definition process (E : sysenv) (c : http_conn) : res (http_conn * list action) :=
  let* '(read_ret, c) := process_read E c in
  if decide (read_ret = NO_REQUEST) then Ok (c, modifyfd (m_sockfd c) EPOLLIN)
  else
    let '(write_ret, c) := process_write read_ret c in
    let '(c, closed) := if negb write_ret then closeconn c else (c, []) in
    Ok (c, closed ++ modifyfd (m_sockfd c) EPOLLOUT).

(** ** What the reply functions append

    [wrote text c]: [text] appended to the reply and terminated. *)
Definition wrote (text : list char) (c : http_conn) : http_conn :=
  set_m_write_idx (m_write_idx c + length text)
    (set_m_write_buf (blit (m_write_idx c) (text ++ [NUL]) (m_write_buf c)) c).

Definition room_for (text : list char) (c : http_conn) : Prop :=
  m_write_idx c + length text < WRITE_BUFFER_SIZE - 1.

Definition reply_text (c : http_conn) : list char := take (m_write_idx c) (m_write_buf c).

Section Append.
Implicit Types (c : http_conn) (text : list char).

Lemma add_response_fits text c :
  length (m_write_buf c) = WRITE_BUFFER_SIZE -> room_for text c ->
  add_response text c = (true, wrote text c).
Proof.
  unfold room_for. intros Hb Hr. unfold add_response.
  rewrite decide_False by lia. rewrite decide_False by lia. unfold vsnprintf.
  destruct (WRITE_BUFFER_SIZE - 1 - m_write_idx c) as [|n] eqn:En; [lia|].
  rewrite take_ge by lia. done.
Qed.

(** The buffer that does not fit is truncated; the reply is left as it was. *)
Lemma add_response_full text c :
  length (m_write_buf c) = WRITE_BUFFER_SIZE -> ~ room_for text c ->
  exists c', add_response text c = (false, c') /\ m_write_idx c' = m_write_idx c
    /\ reply_text c' = reply_text c /\ length (m_write_buf c') = WRITE_BUFFER_SIZE.
Proof.
  unfold room_for. intros Hb Hr. unfold add_response.
  case_decide as Hfull; [by exists c|]. rewrite decide_True by lia.
  eexists. split; [done|]. split; [done|].
  unfold reply_text, vsnprintf. conn_simpl.
  destruct (WRITE_BUFFER_SIZE - 1 - m_write_idx c) as [|n] eqn:En; [done|].
  split; [|rewrite length_blit by lia; done].
  apply list_eq. intros i. destruct (decide (i < m_write_idx c)).
  - by rewrite !lookup_take_lt, lookup_blit_lt by lia.
  - by rewrite !lookup_take_ge by lia.
Qed.

Lemma wrote_buf_length text c :
  length (m_write_buf c) = WRITE_BUFFER_SIZE -> room_for text c ->
  length (m_write_buf (wrote text c)) = WRITE_BUFFER_SIZE.
Proof.
  unfold room_for. intros. unfold wrote. conn_simpl. by rewrite length_blit by lia.
Qed.

Lemma reply_text_wrote text c :
  length (m_write_buf c) = WRITE_BUFFER_SIZE -> room_for text c ->
  reply_text (wrote text c) = reply_text c ++ text.
Proof.
  unfold room_for. intros Hb Hr. unfold reply_text, wrote. conn_simpl.
  rewrite blit_in_range by (rewrite length_app; simpl; lia).
  rewrite <- app_assoc, app_assoc. apply take_app_length'.
  rewrite length_app, length_take. lia.
Qed.

Lemma room_for_app t1 t2 c :
  room_for (t1 ++ t2) c -> room_for t1 c /\ room_for t2 (wrote t1 c).
Proof.
  unfold room_for, wrote. conn_simpl. rewrite length_app. lia.
Qed.

Lemma blit_over {A} (i : nat) (d1 d2 l : list A) x :
  i + length d1 + length d2 < length l -> d2 <> [] ->
  blit (i + length d1) d2 (blit i (d1 ++ [x]) l) = blit i (d1 ++ d2) l.
Proof.
  intros Hl Hd. destruct d2 as [|y d2]; [done|].
  assert (blit (i + length d1) (y :: d2) (blit i (d1 ++ [x]) l)
    = blit (i + length d1) (y :: d2) (blit i d1 l)) as ->.
  { assert (length (d1 ++ [x]) = S (length d1)) as Hx by (rewrite length_app; simpl; lia).
    simpl in Hl. rewrite !(blit_in_range (i + _)) by
      (rewrite length_blit by lia; simpl; lia).
    f_equal.
    - apply list_eq. intros j. destruct (decide (j < i + length d1)).
      + rewrite !lookup_take_lt by done.
        rewrite <- blit_app by (simpl; lia). by rewrite lookup_blit_lt.
      + by rewrite !lookup_take_ge by lia.
    - f_equal. apply list_eq. intros j. rewrite !lookup_drop. simpl.
      by rewrite !lookup_blit_ge by (rewrite ?Hx; lia). }
  apply blit_app. lia.
Qed.

Lemma wrote_wrote t1 t2 c :
  length (m_write_buf c) = WRITE_BUFFER_SIZE -> room_for (t1 ++ t2) c ->
  wrote t2 (wrote t1 c) = wrote (t1 ++ t2) c.
Proof.
  unfold room_for. rewrite length_app. intros Hb Hr. unfold wrote. conn_simpl.
  rewrite blit_over by (rewrite ?length_app; simpl; try lia; by destruct t2).
  rewrite <- app_assoc, length_app, Nat.add_assoc. done.
Qed.
End Append.

(** ** The reply as a text *)
Definition status_text (status : Z) (title : list char) : list char :=
  lit "HTTP/1.1" ++ [SP] ++ print_Z status ++ [SP] ++ title ++ CRLF.

Definition header_text (content_len : Z) (linger : bool) : list char :=
  (lit "Content-Length: " ++ print_Z content_len ++ CRLF)
  ++ (lit "Content-Type:" ++ lit "text/html" ++ CRLF)
  ++ (lit "Connection: " ++ (if linger then lit "keep-alive" else lit "close") ++ CRLF)
  ++ CRLF.

Definition head_text (status : Z) (title : list char) (content_len : Z) (linger : bool)
    : list char := status_text status title ++ header_text content_len linger.

(** The status, title and body of the error answers. *)
Definition error_text (ret : HTTP_CODE) : option (Z * list char * list char) :=
  match ret with
  | INTERNAL_ERROR => Some (500, error_500_title, error_500_form)%Z
  | BAD_REQUEST => Some (400, error_400_title, error_400_form)%Z
  | NO_RESOURCE => Some (404, error_404_title, error_404_form)%Z
  | FORBIDDEN_REQUEST => Some (403, error_403_title, error_403_form)%Z
  | _ => None
  end.

(** The bytes [writev] is given; [mem a n] are the [n] bytes mapped at [a]. *)
Definition iov_data (mem : Z -> Z -> list char) (c : http_conn) (v : iovec) : list char :=
  match iov_base v with
  | IovNull => []
  | IovWriteBuf => take (Z.to_nat (iov_len v)) (m_write_buf c)
  | IovMap a => mem a (iov_len v)
  end.
Definition message (mem : Z -> Z -> list char) (c : http_conn) : list char :=
  concat (iov_data mem c <$> take (Z.to_nat (m_iv_count c)) (m_iv c)).

Section ReplyText.
Implicit Types (c : http_conn) (text : list char).

Lemma print_digits_length f z acc : length (print_digits f z acc) <= f + length acc.
Proof.
  revert z acc. induction f as [|f IH]; intros z acc; simpl; [done|].
  case_decide; simpl; [lia|]. etrans; [apply IH|]. simpl. lia.
Qed.

Lemma print_Z_length z : length (print_Z z) <= 21.
Proof.
  unfold print_Z. case_decide; [|etrans; [apply print_digits_length|]; simpl; lia].
  change (length (?x :: ?l)) with (S (length l)).
  apply le_n_S. apply (print_digits_length 20 (- z) []).
Qed.

Lemma add_headers_fits n c :
  length (m_write_buf c) = WRITE_BUFFER_SIZE ->
  room_for (header_text n (m_linger c)) c ->
  add_headers n c = wrote (header_text n (m_linger c)) c.
Proof.
  intros Hb Hr. unfold header_text in *.
  destruct (room_for_app _ _ _ Hr) as [R1 S1].
  destruct (room_for_app _ _ _ S1) as [R2 S2].
  destruct (room_for_app _ _ _ S2) as [R3 R4].
  unfold add_headers, add_content_length, add_content_type, add_linger, add_blank_line.
  rewrite (add_response_fits _ c) by assumption. cbn [snd].
  pose proof (wrote_buf_length _ _ Hb R1) as B1.
  rewrite (add_response_fits _ (wrote _ c)) by assumption. cbn [snd].
  pose proof (wrote_buf_length _ _ B1 R2) as B2.
  change (m_linger (wrote _ (wrote _ c))) with (m_linger c).
  rewrite (add_response_fits _ (wrote _ (wrote _ c))) by assumption. cbn [snd].
  pose proof (wrote_buf_length _ _ B2 R3) as B3.
  rewrite add_response_fits by assumption. cbn [snd].
  do 3 rewrite wrote_wrote by assumption. reflexivity.
Qed.

(** The head of a reply, from an empty buffer. *)
Lemma head_fits status title n c :
  length (m_write_buf c) = WRITE_BUFFER_SIZE ->
  room_for (head_text status title n (m_linger c)) c ->
  add_headers n (add_status_line status title c).2
  = wrote (head_text status title n (m_linger c)) c.
Proof.
  intros Hb Hr. destruct (room_for_app _ _ _ Hr) as [R1 R2].
  unfold add_status_line. fold (status_text status title).
  rewrite add_response_fits by done. cbn [snd].
  pose proof (wrote_buf_length _ _ Hb R1) as B1.
  rewrite add_headers_fits by done.
  change (m_linger (wrote _ c)) with (m_linger c). by rewrite wrote_wrote.
Qed.

Lemma error_reply_fits status title form c :
  length (m_write_buf c) = WRITE_BUFFER_SIZE ->
  let n := to_int (Z.of_nat (length form)) in
  room_for (head_text status title n (m_linger c) ++ form) c ->
  error_reply status title form c
  = (true, wrote (head_text status title n (m_linger c) ++ form) c).
Proof.
  intros Hb n Hr. destruct (room_for_app _ _ _ Hr) as [R1 R2].
  unfold error_reply. fold n. rewrite head_fits by done. unfold add_content.
  rewrite add_response_fits; [|by apply wrote_buf_length | done].
  by rewrite wrote_wrote.
Qed.

(** The longest head: 21 digits of length. *)
Lemma head_length status title n linger :
  length (head_text status title n linger) <= length title + 140.
Proof.
  unfold head_text, status_text, header_text. rewrite !length_app.
  pose proof (print_Z_length status). pose proof (print_Z_length n).
  assert (length (if linger then lit "keep-alive" else lit "close") <= 10)
    by (destruct linger; apply (bool_decide_eq_true_1 _); done).
  change (length (lit "HTTP/1.1")) with 8. change (length (lit "Content-Length: ")) with 16.
  change (length (lit "Content-Type:")) with 13. change (length (lit "text/html")) with 9.
  change (length (lit "Connection: ")) with 12. change (length CRLF) with 2.
  simpl. lia.
Qed.
End ReplyText.

Section ProcessWrite.
Implicit Types (c : http_conn) (mem : Z -> Z -> list char).

Lemma room_for_empty text c :
  m_write_idx c = 0 -> length text < 1023 -> room_for text c.
Proof. intros Hi Hl. unfold room_for. rewrite Hi. exact Hl. Qed.

Lemma reply_text_empty text c :
  conn_ok c -> m_write_idx c = 0 -> room_for text c -> reply_text (wrote text c) = text.
Proof.
  intros Hc Hi Hr. rewrite reply_text_wrote by (done || apply Hc).
  unfold reply_text. by rewrite Hi.
Qed.

(** The first [iovec]: the reply's text. *)
Lemma iov_text mem c :
  iov_data mem c (MkIov IovWriteBuf (Z.of_nat (m_write_idx c))) = reply_text c.
Proof. unfold iov_data. simpl. by rewrite Nat2Z.id. Qed.

Lemma error_room status title form c :
  m_write_idx c = 0 -> length title + length form < 880 ->
  let n := to_int (Z.of_nat (length form)) in
  room_for (head_text status title n (m_linger c) ++ form) c.
Proof.
  intros Hi Hl n. apply room_for_empty; [done|]. rewrite length_app.
  pose proof (head_length status title n (m_linger c)). lia.
Qed.

Definition error_reply_message (status : Z) (title form : list char) (linger : bool)
    : list char := head_text status title (Z.of_nat (length form)) linger ++ form.

(** The object with its first [iovec] at the reply's text. *)
Definition finish_iv (c : http_conn) : http_conn :=
  set_m_iv_count 1
    (set_m_iv (<[0 := MkIov IovWriteBuf (Z.of_nat (m_write_idx c))]> (m_iv c)) c).

Lemma finish_message mem c :
  conn_ok c -> m_iv_count (finish_iv c) = 1%Z /\ m_sockfd (finish_iv c) = m_sockfd c
    /\ message mem (finish_iv c) = reply_text c.
Proof.
  intros Hc. pose proof (ok_iv c Hc) as Hiv. split_and!; [done..|].
  unfold message, finish_iv. conn_simpl.
  destruct (m_iv c) as [|v0 [|v1 [|]]]; try discriminate Hiv.
  change (Z.to_nat 1) with 1. cbn [insert list_insert take fmap list_fmap concat].
  rewrite app_nil_r. apply (iov_text mem c).
Qed.

Lemma process_write_error_eq ret status title form c :
  error_text ret = Some (status, title, form) ->
  process_write ret c =
    (let '(ok, c1) := error_reply status title form c in
     if negb ok then (false, c1) else (true, finish_iv c1)).
Proof.
  intros He. destruct ret; try discriminate He; injection He as <- <- <-;
    unfold process_write; by destruct (error_reply _ _ _ c) as [[] ?].
Qed.

Lemma error_text_short ret status title form :
  error_text ret = Some (status, title, form) ->
  length title + length form < 880
  /\ to_int (Z.of_nat (length form)) = Z.of_nat (length form).
Proof.
  intros He. destruct ret; try discriminate He; injection He as <- <- <-;
    (split; [concrete | vm_compute; reflexivity]).
Qed.

Lemma wrote_ok text c : conn_ok c -> room_for text c -> conn_ok (wrote text c).
Proof.
  intros Hc Hr. pose proof (wrote_buf_length text c (ok_write_buf c Hc) Hr) as Hb.
  unfold room_for in Hr. destruct Hc. split; try assumption.
  unfold wrote. conn_simpl. lia.
Qed.

Lemma finish_ok c : conn_ok c -> conn_ok (finish_iv c).
Proof.
  intros []. split; try assumption. unfold finish_iv. conn_simpl. by rewrite length_insert.
Qed.

Lemma process_write_error_run mem ret status title form c :
  conn_ok c -> m_write_idx c = 0 -> error_text ret = Some (status, title, form) ->
  exists c', process_write ret c = (true, c') /\ m_iv_count c' = 1%Z
    /\ message mem c' = error_reply_message status title form (m_linger c)
    /\ m_sockfd c' = m_sockfd c
    /\ conn_ok c' /\ m_linger c' = m_linger c
    /\ 0 < m_write_idx c' <= length (message mem c').
Proof.
  intros Hc Hi He. destruct (error_text_short _ _ _ _ He) as [Hl Hn].
  pose proof (error_room status title form c Hi Hl) as Hr. cbv zeta in Hr.
  pose proof (error_reply_fits status title form c (ok_write_buf c Hc) Hr) as Hf.
  rewrite Hn in Hf, Hr. set (text := head_text _ _ _ _ ++ form) in *.
  destruct (finish_message mem (wrote text c)) as (H1 & H2 & H3); [by apply wrote_ok|].
  exists (finish_iv (wrote text c)). rewrite (process_write_error_eq _ _ _ _ _ He), Hf.
  split; [reflexivity|]. split; [exact H1|]. rewrite H3, reply_text_empty by done.
  split; [done|]. split; [exact H2|]. split; [by apply finish_ok, wrote_ok|].
  split; [done|]. change (m_write_idx (finish_iv ?x)) with (m_write_idx x).
  unfold wrote. conn_simpl. rewrite Hi. unfold text, head_text, status_text.
  rewrite !length_app. change (length (lit "HTTP/1.1")) with 8. lia.
Qed.

Lemma process_write_file_run mem c :
  conn_ok c -> m_write_idx c = 0 ->
  let size := st_size (m_file_stat c) in
  let head := head_text 200 ok_200_title (to_int size) (m_linger c) in
  exists c', process_write FILE_REQUEST c = (true, c') /\ m_iv_count c' = 2%Z
    /\ message mem c' = head ++ mem (m_file_address c) size
    /\ m_sockfd c' = m_sockfd c /\ conn_ok c' /\ m_linger c' = m_linger c
    /\ 0 < m_write_idx c' /\ m_write_idx c' = length head.
Proof.
  intros Hc Hi size head.
  assert (room_for head c) as Hr.
  { apply room_for_empty; [done|].
    pose proof (head_length 200 ok_200_title (to_int size) (m_linger c)) as Hl.
    change (length ok_200_title) with 2 in Hl. unfold head. lia. }
  pose proof (head_fits 200 ok_200_title (to_int size) c (ok_write_buf c Hc) Hr) as Hf.
  unfold process_write.
  change (m_file_stat (add_status_line 200 ok_200_title c).2)
    with (m_file_stat (add_status_line 200 ok_200_title c).2).
  assert (m_file_stat (add_status_line 200 ok_200_title c).2 = m_file_stat c) as ->.
  { unfold add_status_line, add_response. by repeat case_decide. }
  fold size. rewrite Hf. fold head. cbv zeta.
  eexists. split; [reflexivity|]. split; [reflexivity|].
  assert (m_write_idx (wrote head c) = length head) as Hidx
    by (unfold wrote; conn_simpl; by rewrite Hi).
  split; [|split; [reflexivity|]; split; [|split; [reflexivity|split; [|exact Hidx]]]].
  - unfold message. conn_simpl. pose proof (ok_iv c Hc) as Hiv.
    change (m_iv (wrote head c)) with (m_iv c).
    destruct (m_iv c) as [|v0 [|v1 [|]]]; try discriminate Hiv.
    change (Z.to_nat 2) with 2. cbn [insert list_insert take fmap list_fmap concat].
    rewrite app_nil_r. f_equal.
    etrans; [apply (iov_text mem (wrote head c))|]. by apply reply_text_empty.
  - destruct (wrote_ok head c Hc Hr). split; try assumption. conn_simpl.
    by rewrite !length_insert.
  - conn_simpl. rewrite Hidx. unfold head, head_text, status_text. rewrite !length_app.
    change (length (lit "HTTP/1.1")) with 8. lia.
Qed.
End ProcessWrite.

(** An error answer is one [iovec] whose bytes are the status line, a
    [Content-Length] that is the length of the body, the content type, the
    [Connection] header chosen by the keep-alive flag, an empty line, and the
    body. *)
Theorem process_write_error mem ret status title form c :
  conn_ok c -> m_write_idx c = 0 -> error_text ret = Some (status, title, form) ->
  exists c', process_write ret c = (true, c') /\ m_iv_count c' = 1%Z
    /\ message mem c' =
         head_text status title (Z.of_nat (length form)) (m_linger c) ++ form.
Proof.
  intros Hc Hi He.
  destruct (process_write_error_run mem ret status title form c Hc Hi He)
    as (c' & ? & ? & ? & _). by exists c'.
Qed.

Lemma process_write_error_witness :
  let c := fresh_conn 5 (replicate 16 NUL) in
  exists c', process_write NO_RESOURCE c = (true, c') /\ m_iv_count c' = 1%Z
    /\ message (fun _ _ => []) c' =
         lit "HTTP/1.1 404 Not Found" ++ CRLF ++ lit "Content-Length: 49" ++ CRLF
         ++ lit "Content-Type:text/html" ++ CRLF ++ lit "Connection: close" ++ CRLF
         ++ CRLF ++ error_404_form.
Proof.
  intros c. apply (process_write_error (fun _ _ => []) NO_RESOURCE 404 error_404_title
    error_404_form c).
  - by apply fresh_conn_ok.
  - reflexivity.
  - reflexivity.
Defined.

(** A file answer is two [iovec]s: the head, and [st_size] bytes at the
    mapping.  The [Content-Length] of the head is the file's size when that
    fits an [int], and another number when it does not. *)
Theorem process_write_file mem c :
  conn_ok c -> m_write_idx c = 0 ->
  let size := st_size (m_file_stat c) in
  exists c' n, process_write FILE_REQUEST c = (true, c') /\ m_iv_count c' = 2%Z
    /\ message mem c' =
         head_text 200 ok_200_title n (m_linger c) ++ mem (m_file_address c) size
    /\ (n = size <-> INT_MIN <= size <= INT_MAX)%Z.
Proof.
  intros Hc Hi size.
  destruct (process_write_file_run mem c Hc Hi) as (c' & H1 & H2 & H3 & _).
  exists c', (to_int size). do 3 (split; [done|]). split.
  - intros Hn. rewrite <- Hn. apply to_int_range.
  - by apply to_int_id.
Qed.

Lemma process_write_file_witness :
  let c := set_m_file_address 4096 (set_m_file_stat (MkStat 33188 (2 ^ 31))
             (fresh_conn 5 (replicate 16 NUL))) in
  exists c' n, process_write FILE_REQUEST c = (true, c') /\ n <> (2 ^ 31)%Z
    /\ message (fun a _ => if decide (a = 4096)%Z then lit "data" else []) c'
       = head_text 200 ok_200_title n false ++ lit "data".
Proof.
  intros c.
  destruct (process_write_file (fun a _ => if decide (a = 4096)%Z then lit "data" else []) c)
    as (c' & n & H1 & _ & H2 & H3).
  - destruct (fresh_conn_ok 5 (replicate 16 NUL) eq_refl). split; assumption.
  - reflexivity.
  - exists c', n. split; [exact H1|]. split; [|exact H2].
    intros Hn. apply H3 in Hn. contradict Hn. concrete.
Defined.

(** ** Sending *)
Definition sum (ns : list Z) : Z := foldr Z.add 0%Z ns.

(** The [writev] calls of a run: each is given the same [iovec]s. *)
Definition calls (c : http_conn) (ns : list Z) : list action :=
  Writev (take (Z.to_nat (m_iv_count c)) (m_iv c)) <$> ns.

(** What the peer receives from them. *)
Definition received_by_peer (mem : Z -> Z -> list char) (c : http_conn) (ns : list Z)
    : list char :=
  concat ((fun n => take (Z.to_nat n) (message mem c)) <$> ns).

(** The end of a reply: keep-alive starts over, otherwise the caller closes. *)
Definition reply_done (c : http_conn) : bool * http_conn * list action :=
  let c' := (unmap c).1 in
  if m_linger c
  then (true, (init_state c').1,
        (unmap c).2 ++ (init_state c').2 ++ modifyfd (m_sockfd c) EPOLLIN)
  else (false, c', (unmap c).2 ++ modifyfd (m_sockfd c) EPOLLIN).

Section Sending.
Implicit Types (c : http_conn) (rs : list writev_result) (ns : list Z).

Lemma unmap_same c :
  m_linger (unmap c).1 = m_linger c /\ m_sockfd (unmap c).1 = m_sockfd c.
Proof. unfold unmap. by case_decide. Qed.

Lemma init_state_sockfd c : m_sockfd (init_state c).1 = m_sockfd c.
Proof. reflexivity. Qed.

Lemma write_loop_done n rs to have c :
  (to - n <= have + n)%Z ->
  write_loop (WvSent n :: rs) to have c =
    Ok (let '(b, c', acts) := reply_done c in (b, c', calls c [n] ++ acts)).
Proof.
  intros Hn. cbn [write_loop]. rewrite decide_True by done. unfold reply_done.
  destruct (unmap_same c) as [Hl Hf].
  destruct (unmap c) as [c1 un]. cbn [fst snd] in *. rewrite Hl.
  destruct (m_linger c); [|by rewrite Hf].
  pose proof (init_state_sockfd c1) as Hs. destruct (init_state c1) as [c2 inits].
  cbn [fst snd] in *. by rewrite Hs, Hf.
Qed.

(** Calls that send too little for the loop to stop. *)
Lemma write_loop_calls ns rs to have c :
  Forall (Z.le 0) ns -> (have + sum ns < to - sum ns)%Z ->
  write_loop ((WvSent <$> ns) ++ rs) to have c =
    (let* '(b, c', acts) := write_loop rs (to - sum ns) (have + sum ns) c in
     Ok (b, c', calls c ns ++ acts)).
Proof.
  intros Hpos. revert to have. induction Hpos as [|n ns Hn Hns IH]; intros to have Hs.
  - simpl. rewrite Z.sub_0_r, Z.add_0_r.
    by destruct (write_loop rs to have c) as [[[??]?]| |].
  - assert (0 <= sum ns)%Z by (clear -Hns; induction Hns; simpl; lia).
    change ((WvSent <$> n :: ns) ++ rs) with (WvSent n :: ((WvSent <$> ns) ++ rs)).
    simpl in Hs. cbn [write_loop].
    rewrite decide_False by lia. rewrite IH by lia. simpl.
    replace (to - n - sum ns)%Z with (to - (n + sum ns))%Z by lia.
    replace (have + n + sum ns)%Z with (have + (n + sum ns))%Z by lia.
    by destruct (write_loop rs _ _ c) as [[[??]?]| |].
Qed.

Lemma write_run ns last rs c :
  0 < m_write_idx c -> Forall (Z.le 0) ns ->
  (2 * sum ns < Z.of_nat (m_write_idx c))%Z ->
  (forall n, last = WvSent n -> Z.of_nat (m_write_idx c) <= 2 * (sum ns + n))%Z ->
  write ((WvSent <$> ns) ++ last :: rs) c =
    Ok (match last with
        | WvSent n =>
            let '(b, c', acts) := reply_done c in (b, c', calls c (ns ++ [n]) ++ acts)
        | WvAgain => (true, c, calls c ns ++ modifyfd (m_sockfd c) EPOLLOUT)
        | WvError => (false, (unmap c).1, calls c ns ++ (unmap c).2)
        end).
Proof.
  intros Hi Hpos Hs Hlast. unfold write. rewrite decide_False by lia.
  rewrite write_loop_calls by (done || lia).
  destruct last as [n| |].
  - specialize (Hlast n eq_refl). rewrite write_loop_done by lia. cbn [res_bind].
    destruct (reply_done c) as [[b c'] acts]. unfold calls. rewrite fmap_app.
    by rewrite app_assoc.
  - reflexivity.
  - simpl. by destruct (unmap c).
Qed.
End Sending.

(** C14: [write] calls [writev] with the whole message each time, and stops after
    the first call that brings the bytes sent to half of the head or more (a full
    socket and an error stop it too): the reply is then over, the mapping is
    released, and a keep-alive connection starts over. *)
Theorem write_spec ns last rs c :
  0 < m_write_idx c -> Forall (Z.le 0) ns ->
  (2 * sum ns < Z.of_nat (m_write_idx c))%Z ->
  (forall n, last = WvSent n -> Z.of_nat (m_write_idx c) <= 2 * (sum ns + n))%Z ->
  write ((WvSent <$> ns) ++ last :: rs) c =
    Ok (match last with
        | WvSent n =>
            let '(b, c', acts) := reply_done c in (b, c', calls c (ns ++ [n]) ++ acts)
        | WvAgain => (true, c, calls c ns ++ modifyfd (m_sockfd c) EPOLLOUT)
        | WvError => (false, (unmap c).1, calls c ns ++ (unmap c).2)
        end).
Proof. apply write_run. Qed.

(** A reply of a 87-byte head and a 12-byte file. *)
Definition sample_reply : http_conn :=
  (process_write FILE_REQUEST
     (set_m_file_address 4096 (set_m_file_stat (MkStat 33188 12)
        (set_m_linger true (fresh_conn 5 (replicate 16 NUL)))))).2.

Lemma write_spec_witness :
  exists c' acts, write [WvSent 20; WvSent 105] sample_reply = Ok (true, c', acts)
    /\ Munmap 4096 12 ∈ acts /\ m_read_idx c' = 0.
Proof.
  pose proof (write_spec [20%Z] (WvSent 105) [] sample_reply) as H.
  assert (0 < m_write_idx sample_reply) as H1 by concrete.
  assert (Forall (Z.le 0) [20%Z]) as H2 by concrete.
  assert (2 * sum [20%Z] < Z.of_nat (m_write_idx sample_reply))%Z as H3 by concrete.
  assert (forall n, WvSent 105 = WvSent n ->
    Z.of_nat (m_write_idx sample_reply) <= 2 * (sum [20%Z] + n))%Z as H4.
  { intros n Hn. injection Hn as <-. concrete. }
  specialize (H H1 H2 H3 H4).
  change ((WvSent <$> [20%Z]) ++ [WvSent 105]) with [WvSent 20; WvSent 105] in H.
  rewrite H. eexists. eexists. split; [reflexivity|]. split.
  - concrete.
  - reflexivity.
Defined.

(** If every [writev] sends at least one byte (or fails), [write] ends: half
    as many calls as the head has bytes are enough. *)
Theorem write_terminates rs c :
  Forall (fun r => forall n, r = WvSent n -> 1 <= n)%Z rs ->
  m_write_idx c <= 2 * length rs -> 0 < length rs -> write rs c <> OutOfFuel.
Proof.
  intros Hrs Hlen Hne. unfold write. case_decide as Hi; [by destruct (init_state c)|].
  assert (forall have to, (to - have <= 2 * Z.of_nat (length rs))%Z ->
    write_loop rs to have c <> OutOfFuel) as Hgen.
  { clear Hlen Hi. induction Hrs as [|r rs Hr Hrs IH]; [simpl in Hne; lia|].
    intros have to Hth. destruct r as [n| |]; cbn [write_loop];
      [|done|by destruct (unmap c)].
    specialize (Hr n eq_refl). case_decide as Hd.
    { destruct (unmap c) as [c1 un]. destruct (m_linger c1); [|done].
      by destruct (init_state c1). }
    apply res_bind_fuel; [|by intros [[??]?] _].
    change (length (WvSent n :: rs)) with (S (length rs)) in Hth.
    destruct rs as [|r' rs']; [cbn in Hth; lia|]. apply IH; [simpl; lia | lia]. }
  apply Hgen. lia.
Qed.

Lemma write_terminates_witness :
  write (replicate 70 (WvSent 1)) sample_reply <> OutOfFuel.
Proof.
  apply write_terminates.
  - apply Forall_replicate. intros n Hn. injection Hn as <-. lia.
  - concrete.
  - concrete.
Defined.

(** A message that goes out in one call arrives whole: what the peer gets is
    the head and the file, the mapping is released, and the connection is
    kept exactly when the request asked for it. *)
Theorem write_whole mem rs c :
  conn_ok c -> m_write_idx c = 0 ->
  Z.of_nat (length (mem (m_file_address c) (st_size (m_file_stat c))))
    = st_size (m_file_stat c) ->
  let size := st_size (m_file_stat c) in
  let reply := head_text 200 ok_200_title (to_int size) (m_linger c)
               ++ mem (m_file_address c) size in
  let c1 := (process_write FILE_REQUEST c).2 in
  let all := Z.of_nat (length reply) in
  received_by_peer mem c1 [all] = reply
  /\ write (WvSent all :: rs) c1 =
     Ok (let '(b, c', acts) := reply_done c1 in (b, c', calls c1 [all] ++ acts)).
Proof.
  intros Hc Hi Hmem size reply c1 all.
  destruct (process_write_file_run mem c Hc Hi) as (c' & Hp & _ & Hm & _ & _ & _ & Hpos & Hidx).
  assert (c1 = c') as Hc1 by (unfold c1; rewrite Hp; reflexivity).
  clearbody c1. subst c1.
  split.
  - unfold received_by_peer. rewrite Hm. cbn [fmap list_fmap concat].
    rewrite app_nil_r. apply take_ge. unfold all, reply, size. lia.
  - assert (Z.of_nat (m_write_idx c') <= all)%Z as Hle.
    { rewrite Hidx. unfold all, reply. rewrite length_app. fold size. lia. }
    apply (write_run [] (WvSent all) rs c' Hpos); [constructor | cbn [sum foldr]; lia|].
    intros n Hn. injection Hn as <-. cbn [sum foldr]. lia.
Qed.

Definition sample_file (a n : Z) : list char :=
  if decide (a = 4096 /\ n = 12)%Z then lit "hello, world" else [].
Definition sample_mapped : http_conn :=
  set_m_file_address 4096 (set_m_file_stat (MkStat 33188 12)
    (set_m_linger true (fresh_conn 5 (replicate 16 NUL)))).

Lemma sample_mapped_ok : conn_ok sample_mapped.
Proof. destruct (fresh_conn_ok 5 (replicate 16 NUL) eq_refl). split; assumption. Qed.

Lemma write_whole_witness :
  received_by_peer sample_file sample_reply [99%Z]
  = head_text 200 ok_200_title 12 true ++ lit "hello, world".
Proof.
  destruct (write_whole sample_file [] sample_mapped) as [H _].
  - apply sample_mapped_ok.
  - reflexivity.
  - reflexivity.
  - exact H.
Defined.

(** [write] forgets the file when it counts: a single [writev] that takes
    half of the head, or the head and part of the file, ends the reply as if it
    were complete, and the peer has only that prefix of it. *)
Theorem write_truncates mem rs c n :
  conn_ok c -> m_write_idx c = 0 ->
  let size := st_size (m_file_stat c) in
  let head := head_text 200 ok_200_title (to_int size) (m_linger c) in
  let reply := head ++ mem (m_file_address c) size in
  let c1 := (process_write FILE_REQUEST c).2 in
  (Z.of_nat (length head) <= 2 * n < 2 * Z.of_nat (length reply))%Z ->
  write (WvSent n :: rs) c1 =
    Ok (let '(b, c', acts) := reply_done c1 in (b, c', calls c1 [n] ++ acts))
  /\ received_by_peer mem c1 [n] = take (Z.to_nat n) reply
  /\ length (received_by_peer mem c1 [n]) < length reply.
Proof.
  intros Hc Hi size head reply c1 Hn.
  destruct (process_write_file_run mem c Hc Hi) as (c' & Hp & _ & Hm & _ & _ & _ & Hpos & Hidx).
  assert (c1 = c') as Hc1 by (unfold c1; rewrite Hp; reflexivity).
  clearbody c1. subst c1. fold size head in Hm, Hidx. fold reply in Hm.
  assert (received_by_peer mem c' [n] = take (Z.to_nat n) reply) as Hrec.
  { unfold received_by_peer. rewrite Hm. cbn [fmap list_fmap concat]. apply app_nil_r. }
  split_and!; [|exact Hrec|].
  - apply (write_run [] (WvSent n) rs c' Hpos); [constructor | cbn [sum foldr]; lia|].
    intros k Hk. injection Hk as <-. cbn [sum foldr]. rewrite Hidx. lia.
  - rewrite Hrec, length_take. lia.
Qed.

Lemma write_truncates_witness :
  exists c' acts, write [WvSent 50] sample_reply = Ok (true, c', acts)
    /\ length (received_by_peer sample_file sample_reply [50%Z]) < 99.
Proof.
  destruct (write_truncates sample_file [] sample_mapped 50) as (H1 & _ & H2).
  - apply sample_mapped_ok.
  - reflexivity.
  - concrete.
  - destruct (reply_done sample_reply) as [[b c'] acts] eqn:E.
    assert (b = true) as -> by (vm_compute in E; congruence).
    exists c', (calls sample_reply [50%Z] ++ acts). split; [|exact H2].
    change (write [WvSent 50] sample_reply
      = Ok (let '(b, c', acts) := reply_done sample_reply in
            (b, c', calls sample_reply [50%Z] ++ acts))) in H1.
    rewrite E in H1. exact H1.
Defined.

(** After a first call that sends less than half of the head, [write] sends
    the message again from its start: the peer receives a prefix of it, then
    the message from its first byte. *)
Theorem write_repeats mem rs c n1 n2 :
  0 < m_write_idx c -> (0 <= n1)%Z -> (2 * n1 < Z.of_nat (m_write_idx c))%Z ->
  (Z.of_nat (m_write_idx c) <= 2 * (n1 + n2))%Z ->
  write (WvSent n1 :: WvSent n2 :: rs) c =
    Ok (let '(b, c', acts) := reply_done c in (b, c', calls c [n1; n2] ++ acts))
  /\ received_by_peer mem c [n1; n2]
     = take (Z.to_nat n1) (message mem c) ++ take (Z.to_nat n2) (message mem c).
Proof.
  intros Hi H0 H1 H2. split.
  - apply (write_run [n1] (WvSent n2) rs c Hi).
    + by repeat constructor.
    + cbn [sum foldr]. lia.
    + intros n Hn. injection Hn as <-. cbn [sum foldr]. lia.
  - unfold received_by_peer. cbn [fmap list_fmap concat]. by rewrite app_nil_r.
Qed.

Lemma write_repeats_witness :
  received_by_peer sample_file sample_reply [20; 99]%Z
  = lit "HTTP/1.1 200 OK" ++ CRLF ++ lit "Con"
    ++ head_text 200 ok_200_title 12 true ++ lit "hello, world".
Proof.
  destruct (write_repeats sample_file [] sample_reply 20 99) as [_ H].
  - concrete.
  - lia.
  - concrete.
  - concrete.
  - rewrite H. vm_compute. reflexivity.
Defined.

(** ** [process] *)

(** What a call leaves alone while it parses. *)
Record kept (c c' : http_conn) : Prop := {
  k_ok : conn_ok c';
  k_prev : prev_ok c -> prev_ok c';
  k_write_buf : m_write_buf c' = m_write_buf c;
  k_write_idx : m_write_idx c' = m_write_idx c;
  k_sockfd : m_sockfd c' = m_sockfd c
}.

Lemma kept_touched c c' : touched c c' -> conn_ok c -> kept c c'.
Proof.
  intros Ht Hc. pose proof (touched_ok c c' Ht Hc). pose proof (touched_prev c c' Ht).
  by destruct Ht.
Qed.

Lemma kept_trans c1 c2 c3 : kept c1 c2 -> kept c2 c3 -> kept c1 c3.
Proof. intros [] []. split; [done|auto|congruence..]. Qed.

Lemma kept_ready c c' : kept c c' -> ready c -> ready c'.
Proof. intros [] [_ ?]. split; auto. Qed.

(** The answers [process_read] ends with. *)
Definition answered (r : HTTP_CODE) : Prop :=
  r = FILE_REQUEST \/ (r <> NO_REQUEST /\ is_Some (error_text r)).

Lemma strncpy_bytes_length s n b : strncpy_bytes s n = Ok b -> length b = n.
Proof.
  revert s b. induction n as [|n IH]; intros [|x s] b; simpl; try by intros [= <-].
  case_decide; [intros [= <-]; simpl; by rewrite length_replicate|].
  intros Hr. apply res_bind_Ok_inv in Hr as (b' & Hb & [= <-]).
  simpl. by rewrite (IH _ _ Hb).
Qed.

Lemma do_request_kept E c r c' :
  conn_ok c -> do_request E c = Ok (r, c') -> kept c c' /\ answered r.
Proof.
  intros Hc H. unfold do_request in H. cbv zeta in H.
  apply res_bind_Ok_inv in H as (u & _ & H).
  apply res_bind_Ok_inv in H as (b & Hb & H). apply strncpy_bytes_length in Hb.
  apply res_bind_Ok_inv in H as (path & _ & H).
  destruct (real_file_bounds b (m_real_file c)) as [H1 H2]; [apply Hc..|done|].
  set (c0 := set_m_real_file (blit (length doc_root) b _) _) in H.
  assert (kept c c0) as Hk
    by (destruct Hc; split; [split|..]; solve [assumption | reflexivity | exact id]).
  assert (forall st, kept c (set_m_file_stat st c0)) as Hk1
    by (intros; destruct Hk as [[] ]; split; [split|..]; assumption).
  destruct (sys_stat E path) as [st|];
    [|simplify_eq; split; [done|]; right; split; [done | by eexists]].
  cbv zeta in H. specialize (Hk1 st).
  destruct (decide (_ = 0)%Z);
    [simplify_eq; split; [done|]; right; split; [done | by eexists]|].
  destruct (S_ISDIR _);
    [simplify_eq; split; [done|]; right; split; [done | by eexists]|].
  simplify_eq. split; [|by left]. destruct Hk1 as [[] ]. split; [split|..]; assumption.
Qed.

Lemma bind_do_request E c (r : HTTP_CODE) c' :
  (let* '(r, c) := do_request E c in Ok (A := (HTTP_CODE + LINE_STATUS) * http_conn) (inl r, c))
  = Ok (inl r, c') -> do_request E c = Ok (r, c').
Proof. destruct (do_request E c) as [[]| |]; cbn; congruence. Qed.

Lemma loop_body_kept E c r c' :
  ready c -> loop_body E c = Ok (inl r, c') -> kept c c' /\ answered r.
Proof.
  intros Hr Hb. set (cs := set_m_start_line (m_checked_index c) c).
  destruct (ready_start c Hr) as [Hcs _]. fold cs in Hcs.
  assert (kept c cs) as Hks by by split.
  assert (forall c2 r, touched cs c2 -> do_request E c2 = Ok (r, c') ->
    kept c c' /\ answered r) as Hreq.
  { intros c2 r0 Ht Hd. destruct (kept_touched _ _ Ht Hcs).
    destruct (do_request_kept E c2 r0 c') as [Hk ?]; [done..|]. split; [|done].
    eapply kept_trans; [exact Hks|]. eapply kept_trans; [|exact Hk]. by split. }
  pose proof Hb as Hb'. unfold loop_body in Hb'.
  apply res_bind_Ok_inv in Hb' as (w & Hw & H).
  destruct (cstr _) as [w'|] eqn:Ew; [|done]. apply line_at_cstr in Ew.
  fold cs in H. unfold get_line in H, Ew.
  change (line_at (m_read_buf cs) (m_start_line c) w') in Ew.
  change (m_check_state cs) with (m_check_state c) in H.
  destruct (m_check_state c).
  - rewrite (parse_request_line_run _ _ _ Ew) in H. cbn [res_bind] in H.
    pose proof (request_line_run_touched (m_start_line c) w' cs) as Ht.
    destruct (request_line_run _ _ _) as [ret c2]. case_decide; simplify_eq.
    split; [|right; split; [done | by eexists]].
    eapply kept_trans; [exact Hks|]. by apply kept_touched.
  - rewrite (parse_headers_run _ _ _ Ew) in H. cbn [res_bind] in H.
    pose proof (header_run_touched (m_start_line c) w' cs) as Ht.
    destruct (header_run _ _ _) as [ret c2]. case_decide; simplify_eq.
    { split; [|right; split; [done | by eexists]].
      eapply kept_trans; [exact Hks|]. by apply kept_touched. }
    case_decide; [|done]. apply bind_do_request in H. by eapply Hreq.
  - apply res_bind_Ok_inv in H as ([ret c2] & Hp & H).
    case_decide; [|done]. apply bind_do_request in H. subst ret.
    eapply Hreq; [|exact H]. unfold parse_content in Hp.
    apply res_bind_Ok_inv in Hp as (need & _ & Hp). destruct (decide (need <= _)%Z); [|done].
    cbv zeta in Hp. destruct (decide (_ < 0)%Z); [done|].
    apply res_bind_Ok_inv in Hp as (c3 & Hpk & [= <-]). unfold poke in Hpk.
    destruct (decide (_ < _)); [|done]. injection Hpk as <-. apply (touched_zap _ cs).
Qed.

Lemma loop_guard_kept ls c ls1 c1 :
  ready c -> loop_guard ls c = Ok (ls1, c1) -> kept c c1.
Proof.
  intros Hr Hg. destruct Hr as [Hc Hp]. unfold loop_guard in Hg.
  destruct (decide (_ /\ _)); [simplify_eq; by split|].
  rewrite parse_line_eq in Hg by done. pose proof (scan_line_bound (unread c)) as Hb.
  pose proof (length_unread c Hc). pose proof (ok_checked c Hc).
  destruct (scan_line (unread c)) as [k|k|k] eqn:Es; simplify_eq/=.
  - destruct (take_line_ok k c Hc) as [? ?]; [lia|]. by split.
  - destruct (advance_ready k c) as [? ?]; [by split | by left|]. by split.
  - destruct (advance_ready k c) as [? ?]; [by split | by right|]. by split.
Qed.

Lemma process_read_loop_kept E f ls c r c' :
  ready c -> process_read_loop E f ls c = Ok (r, c') ->
  kept c c' /\ (r = NO_REQUEST \/ answered r).
Proof.
  revert ls c. induction f as [|f IH]; intros ls c Hr H; [done|]. simpl in H.
  apply res_bind_Ok_inv in H as ([ls1 c1] & Hg & H).
  pose proof (loop_guard_kept _ _ _ _ Hr Hg) as Hk.
  destruct (decide (ls1 = LINE_OK)) as [->|]; [|simplify_eq; auto].
  apply res_bind_Ok_inv in H as ([[ret|ls'] c2] & Hb & H).
  - simplify_eq. apply loop_body_kept in Hb as [Hk2 Ha]; [|by eapply loop_guard_ready].
    split; [by eapply kept_trans | by right].
  - destruct (loop_turn E _ _ _ _ _ Hr Hg Hb) as [Hr2 _].
    destruct (loop_body_next _ _ _ _ Hb) as [Ht _].
    destruct (IH _ _ Hr2 H) as [Hk2 ?]. split; [|done].
    eapply kept_trans; [exact Hk|]. eapply kept_trans; [|exact Hk2].
    destruct (kept_touched _ _ Ht) as [? ? ? ?]; [|by split].
    destruct (ready_start c1) as [? _]; [exact (loop_guard_ready _ _ _ Hr Hg) | done].
Qed.

(** The reply to a request for [file]. *)
Definition expected_reply (E : sysenv) (mem : Z -> Z -> list char) (file : list char)
    (linger : bool) : list char :=
  match error_text (resource_code E file), sys_stat E file with
  | Some (status, title, form), _ =>
      head_text status title (Z.of_nat (length form)) linger ++ form
  | None, Some st =>
      head_text 200 ok_200_title (to_int (st_size st)) linger
      ++ mem (sys_mmap E (st_size st) (sys_open E file)) (st_size st)
  | None, None => []
  end.

Lemma resource_code_cases E file :
  resource_code E file = FILE_REQUEST \/
  exists status title form, error_text (resource_code E file) = Some (status, title, form).
Proof.
  unfold resource_code. destruct (sys_stat E file); [|right; by do 3 eexists].
  case_decide; [right; by do 3 eexists|].
  destruct (S_ISDIR _); [right; by do 3 eexists | by left].
Qed.

Lemma process_reply E c r c' :
  process_read E c = Ok (r, c') -> r <> NO_REQUEST ->
  forall c2, process_write r c' = (true, c2) ->
  process E c = Ok (c2, modifyfd (m_sockfd c2) EPOLLOUT).
Proof.
  intros Hr Hn c2 Hw. unfold process. rewrite Hr. cbn [res_bind].
  rewrite decide_False by done. by rewrite Hw.
Qed.

Lemma process_request_run E mem c l0 hs path body rest :
  ready c -> m_check_state c = CHECK_STATE_REQUESTLINE ->
  m_start_line c = m_checked_index c -> m_read_idx c < READ_BUFFER_SIZE ->
  m_write_idx c = 0 ->
  clean l0 -> Forall header_line hs -> request_target l0 = Some path ->
  unread c = wire l0 hs ++ body ++ rest ->
  (header_effects hs (m_linger c, m_content_length c)).2 = Z.of_nat (length body) ->
  exists c', process E c = Ok (c', modifyfd (m_sockfd c) EPOLLOUT)
    /\ message mem c' = expected_reply E mem (resource path)
         (header_effects hs (m_linger c, m_content_length c)).1
    /\ m_sockfd c' = m_sockfd c /\ conn_ok c'
    /\ m_linger c' = (header_effects hs (m_linger c, m_content_length c)).1
    /\ 0 < m_write_idx c' <= length (message mem c').
Proof.
  intros Hr Hs Hst Hroom Hi Hl0 Hhs Htgt Hun Hbody.
  destruct (served_request E c l0 hs path body rest) as
    (c1 & Hp & _ & Hli & _ & Hi1 & Hfd & Hok & Hf); try done.
  rewrite Hi in Hi1. rewrite <- Hli. unfold expected_reply.
  destruct (resource_code_cases E (resource path)) as [Hc|(status & title & form & He)].
  - destruct (Hf Hc) as (st & Hstat & Hst1 & Ha). rewrite Hc in Hp |- *. rewrite Hstat.
    destruct (process_write_file_run mem c1 Hok Hi1) as
      (c2 & Hw & _ & Hm & Hfd2 & Hok2 & Hli2 & Hpos & Hidx).
    exists c2. rewrite (process_reply _ _ _ _ Hp ltac:(done) c2 Hw), Hfd2, Hfd.
    rewrite Hst1, Ha in Hm. split_and!; try done.
    rewrite Hm, Hidx, length_app, Hst1. lia.
  - rewrite He.
    destruct (process_write_error_run mem _ _ _ _ c1 Hok Hi1 He) as
      (c2 & Hw & _ & Hm & Hfd2 & Hok2 & Hli2 & Hlen).
    assert (resource_code E (resource path) <> NO_REQUEST) as Hn
      by (intros Hn; rewrite Hn in He; discriminate He).
    exists c2. rewrite (process_reply _ _ _ _ Hp Hn c2 Hw), Hfd2, Hfd.
    split_and!; done || apply Hlen.
Qed.

(** C1: from the bytes of a request to the reply: [process] on an object that
    has received a whole request arms the socket for writing, and the message
    [writev] will be given is the reply expected for the file the path names,
    with the [Connection] header the request's headers ask for. *)
Theorem process_request E mem c l0 hs path body rest :
  ready c -> m_check_state c = CHECK_STATE_REQUESTLINE ->
  m_start_line c = m_checked_index c -> m_read_idx c < READ_BUFFER_SIZE ->
  m_write_idx c = 0 ->
  clean l0 -> Forall header_line hs -> request_target l0 = Some path ->
  unread c = wire l0 hs ++ body ++ rest ->
  (header_effects hs (m_linger c, m_content_length c)).2 = Z.of_nat (length body) ->
  exists c', process E c = Ok (c', modifyfd (m_sockfd c) EPOLLOUT)
    /\ message mem c' = expected_reply E mem (resource path)
         (header_effects hs (m_linger c, m_content_length c)).1.
Proof.
  intros. destruct (process_request_run E mem c l0 hs path body rest)
    as (c' & ? & ? & _); try done. by exists c'.
Qed.

Lemma process_request_witness :
  let c := sample_conn (wire (lit "GET /a HTTP/1.1") [lit "Connection: keep-alive"]) in
  exists c', process sample_env c = Ok (c', modifyfd 5 EPOLLOUT)
    /\ message sample_file c' = head_text 200 ok_200_title 12 true ++ lit "hello, world".
Proof.
  intros c. apply (process_request sample_env sample_file c (lit "GET /a HTTP/1.1")
    [lit "Connection: keep-alive"] (lit "/a") [] []).
  - apply sample_ready. concrete.
  - reflexivity.
  - reflexivity.
  - concrete.
  - reflexivity.
  - concrete.
  - concrete.
  - reflexivity.
  - vm_compute. reflexivity.
  - reflexivity.
Defined.

Lemma bad_request_run E mem c l0 rest :
  ready c -> m_check_state c = CHECK_STATE_REQUESTLINE ->
  m_start_line c = m_checked_index c -> m_write_idx c = 0 ->
  clean l0 -> request_target l0 = None -> unread c = l0 ++ CRLF ++ rest ->
  exists c', process E c = Ok (c', modifyfd (m_sockfd c) EPOLLOUT)
    /\ message mem c' = head_text 400 error_400_title (Z.of_nat (length error_400_form)) (m_linger c)
                        ++ error_400_form.
Proof.
  intros Hr Hs Hst Hi Hl0 Htgt Hun.
  destruct (rejected_request E c l0 rest) as (c1 & Hp & Hli & Hi1 & Hfd & Hok); try done.
  rewrite Hi in Hi1.
  destruct (process_write_error_run mem BAD_REQUEST _ _ _ c1 Hok Hi1 eq_refl) as
    (c2 & Hw & _ & Hm & Hfd2 & _).
  exists c2. rewrite (process_reply _ _ _ _ Hp ltac:(done) c2 Hw), Hfd2, Hfd. by rewrite Hm, Hli.
Qed.



(** [process] always rearms the socket it was called for: for reading when no
    request is complete, for writing when a reply is ready.  The branch that
    closes the connection (and would then rearm descriptor -1) is never taken
    when the reply buffer starts empty. *)
Theorem process_rearms E c c' acts :
  ready c -> m_write_idx c = 0 -> process E c = Ok (c', acts) ->
  m_sockfd c' = m_sockfd c /\
  (process_read E c = Ok (NO_REQUEST, c') /\ acts = modifyfd (m_sockfd c) EPOLLIN
   \/ (exists ret c1, process_read E c = Ok (ret, c1) /\ process_write ret c1 = (true, c')
         /\ acts = modifyfd (m_sockfd c) EPOLLOUT)).
Proof.
  intros Hr Hi H. unfold process in H.
  apply res_bind_Ok_inv in H as ([ret c1] & Hp & H).
  pose proof (process_read_loop_kept _ _ _ _ _ _ Hr Hp) as [[Hok _ _ Hi1 Hfd] Hans].
  rewrite Hi in Hi1. case_decide as Hret.
  { simplify_eq. split; [done|]. left. by rewrite Hfd. }
  assert (exists c2, process_write ret c1 = (true, c2) /\ m_sockfd c2 = m_sockfd c1)
    as (c2 & Hw & Hfd2).
  { destruct Hans as [|[->|[_ [[[s t] f] He]]]]; [done|..].
    - destruct (process_write_file_run (fun _ _ => []) c1 Hok Hi1)
        as (c2 & Hw & _ & _ & Hf & _).
      by exists c2.
    - destruct (process_write_error_run (fun _ _ => []) _ _ _ _ c1 Hok Hi1 He)
        as (c2 & Hw & _ & _ & Hf & _). by exists c2. }
  rewrite Hw in H. cbn [negb app] in H. simplify_eq. split; [congruence|]. right.
  exists ret, c1. split_and!; [done..|]. by rewrite Hfd2, Hfd.
Qed.

Lemma process_rearms_witness :
  let c := sample_conn (lit "GET /a") in
  exists c', process sample_env c = Ok (c', modifyfd 5 EPOLLIN) /\ m_sockfd c' = 5%Z.
Proof.
  intros c. destruct (process sample_env c) as [[c' acts]| |] eqn:E;
    [|vm_compute in E; discriminate..].
  destruct (process_rearms sample_env c c' acts) as [Hfd _].
  - apply sample_ready. concrete.
  - reflexivity.
  - exact E.
  - exists c'. split; [|exact Hfd]. f_equal. f_equal. vm_compute in E. injection E as _ <-. reflexivity.
Defined.
