(* ===== verification/ThreadPool.v ===== *)
(** * [1. Proactor/threadpool.h], [locker.h]: the thread pool

    The pool's queue, its mutex and its semaphore, the worker loop [run] and
    the producer's [append] as interleaved steps: one step per statement that
    touches the shared state.  A request is a pointer, [None] when null. *)

From S2P Require Import Prelude.

Section ThreadPool.
Context {T : Type}.
Implicit Types (r : option T) (i : nat).

(** Where a worker is in [run], and a caller in [append]. *)
Inductive wpc :=
| WTop                      (** while (!m_stop) *)
| WWait                     (** m_queuestat.wait() *)
| WLock                     (** m_queuelocker.lock() *)
| WTest                     (** if (m_workqueue.empty()) *)
| WUnlockEmpty              (** unlock, continue *)
| WPop                      (** front, pop_front *)
| WUnlock (r : option T)    (** unlock *)
| WNull (r : option T)      (** if (!request) continue *)
| WProcess (x : T)          (** request->process() *)
| WDone.

Inductive cpc :=
| CIdle
| CLock (r : option T)      (** lock *)
| CTest (r : option T)      (** if (m_workqueue.size() > m_maxrequestnum) *)
| CUnlockFull (r : option T) (** unlock, return false *)
| CPush (r : option T)      (** push_back *)
| CUnlock (r : option T)    (** unlock *)
| CPost (r : option T)      (** post, return true *)
| CReturn (b : bool).

Inductive tid := Worker (i : nat) | Caller (i : nat).

#[export] Instance tid_eq_dec : EqDecision tid.
Proof. solve_decision. Defined.

(** The members of the object ([m_workqueue], [m_queuelocker]'s owner,
    [m_queuestat]'s value, [m_stop], [m_maxrequestnum]), the threads, and the history:
    the requests pushed, popped, and finished, in order. *)
Record pool := MkPool {
  m_workqueue : list (option T);
  m_queuelocker : option tid;
  m_queuestat : nat;
  m_stop : bool;
  m_maxrequestnum : nat;
  workers : list wpc;
  callers : list cpc;
  pushed : list (option T);
  popped : list (option T);
  finished : list (option T)
}.

Definition set_worker i (pc : wpc) (s : pool) : pool :=
  MkPool (m_workqueue s) (m_queuelocker s) (m_queuestat s) (m_stop s) (m_maxrequestnum s)
    (<[i := pc]> (workers s)) (callers s) (pushed s) (popped s) (finished s).
Definition set_caller i (pc : cpc) (s : pool) : pool :=
  MkPool (m_workqueue s) (m_queuelocker s) (m_queuestat s) (m_stop s) (m_maxrequestnum s)
    (workers s) (<[i := pc]> (callers s)) (pushed s) (popped s) (finished s).
Definition set_lock (o : option tid) (s : pool) : pool :=
  MkPool (m_workqueue s) o (m_queuestat s) (m_stop s) (m_maxrequestnum s)
    (workers s) (callers s) (pushed s) (popped s) (finished s).
Definition set_sem (n : nat) (s : pool) : pool :=
  MkPool (m_workqueue s) (m_queuelocker s) n (m_stop s) (m_maxrequestnum s)
    (workers s) (callers s) (pushed s) (popped s) (finished s).
Definition set_stop (b : bool) (s : pool) : pool :=
  MkPool (m_workqueue s) (m_queuelocker s) (m_queuestat s) b (m_maxrequestnum s)
    (workers s) (callers s) (pushed s) (popped s) (finished s).
Definition push r (s : pool) : pool :=
  MkPool (m_workqueue s ++ [r]) (m_queuelocker s) (m_queuestat s) (m_stop s)
    (m_maxrequestnum s) (workers s) (callers s) (pushed s ++ [r]) (popped s) (finished s).
Definition pop r (q : list (option T)) (s : pool) : pool :=
  MkPool q (m_queuelocker s) (m_queuestat s) (m_stop s)
    (m_maxrequestnum s) (workers s) (callers s) (pushed s) (popped s ++ [r]) (finished s).
Definition finish r (s : pool) : pool :=
  MkPool (m_workqueue s) (m_queuelocker s) (m_queuestat s) (m_stop s)
    (m_maxrequestnum s) (workers s) (callers s) (pushed s) (popped s) (finished s ++ [r]).

(** [pthread_mutex_lock] by thread [t] ([None]: it blocks), [sem_wait],
    [sem_post]. *)
Definition lock (t : tid) (s : pool) : option pool :=
  match m_queuelocker s with None => Some (set_lock (Some t) s) | Some _ => None end.
Definition unlock (s : pool) : pool := set_lock None s.
Definition wait (s : pool) : option pool :=
  match m_queuestat s with O => None | S n => Some (set_sem n s) end.
Definition post (s : pool) : pool := set_sem (S (m_queuestat s)) s.

(** ** [run]: the next step of worker [i], [None] when it is blocked or gone *)
Definition run_step i (s : pool) : option pool :=
  pc ← workers s !! i;
  match pc with
  | WTop => Some (set_worker i (if m_stop s then WDone else WWait) s)
  | WWait => set_worker i WLock <$> wait s
  | WLock => set_worker i WTest <$> lock (Worker i) s
  | WTest =>
      Some (set_worker i (match m_workqueue s with [] => WUnlockEmpty | _ => WPop end) s)
  | WUnlockEmpty => Some (set_worker i WTop (unlock s))
  | WPop =>
      match m_workqueue s with
      | [] => None
      | r :: q => Some (set_worker i (WUnlock r) (pop r q s))
      end
  | WUnlock r => Some (set_worker i (WNull r) (unlock s))
  | WNull None => Some (set_worker i WTop (finish None s))
  | WNull (Some x) => Some (set_worker i (WProcess x) s)
  | WProcess x => Some (set_worker i WTop (finish (Some x) s))
  | WDone => None
  end.

(** ** [append] *)
Definition call i r (s : pool) : option pool :=
  pc ← callers s !! i;
  match pc with CIdle => Some (set_caller i (CLock r) s) | _ => None end.

Definition append_step i (s : pool) : option pool :=
  pc ← callers s !! i;
  match pc with
  | CIdle => None
  | CLock r => set_caller i (CTest r) <$> lock (Caller i) s
  | CTest r =>
      Some (set_caller i
        (if decide (m_maxrequestnum s < length (m_workqueue s))
         then CUnlockFull r else CPush r) s)
  | CUnlockFull r => Some (set_caller i (CReturn false) (unlock s))
  | CPush r => Some (set_caller i (CUnlock r) (push r s))
  | CUnlock r => Some (set_caller i (CPost r) (unlock s))
  | CPost r => Some (set_caller i (CReturn true) (post s))
  | CReturn _ => Some (set_caller i CIdle s)
  end.

(** ** The system

    The workers, the callers, new calls of [append], and the destructor's
    [m_stop = true], in any interleaving. *)
Inductive step (s : pool) : pool -> Prop :=
| step_run i s' : run_step i s = Some s' -> step s s'
| step_append i s' : append_step i s = Some s' -> step s s'
| step_call i r s' : call i r s = Some s' -> step s s'
| step_stop : step s (set_stop true s).

(** The object the constructor leaves, with [n] workers and [k] callers. *)
Definition start (n k max : nat) : pool :=
  MkPool [] None 0 false max (replicate n WTop) (replicate k CIdle) [] [] [].

Definition reachable (n k max : nat) : pool -> Prop := rtc step (start n k max).

(** ** The constructor and the destructor

    [create i] and [detach i] are the results of [pthread_create] and
    [pthread_detach] for thread [i]; a failure throws, with the threads started
    so far left running on the object that is never constructed. *)
Inductive ctor_result := Built (threads : nat) | Threw (running : nat).

Fixpoint start_threads (create detach : nat -> Z) (i n : nat) : ctor_result :=
  match n with
  | O => Built i
  | S n' =>
      if decide (create i <> 0)%Z then Threw i
      else if decide (detach i <> 0)%Z then Threw (S i)
      else start_threads create detach (S i) n'
  end.

Definition threadpool_new (thread_number max_request : Z) (create detach : nat -> Z)
    : ctor_result :=
  if decide (thread_number <= 0 \/ max_request <= 0)%Z then Threw 0
  else start_threads create detach 0 (Z.to_nat thread_number).

(** ** The invariant *)
Definition worker_crit (pc : wpc) : bool :=
  match pc with WTest | WUnlockEmpty | WPop | WUnlock _ => true | _ => false end.
Definition caller_crit (pc : cpc) : bool :=
  match pc with CTest _ | CUnlockFull _ | CPush _ | CUnlock _ => true | _ => false end.

(** A worker that has passed the semaphore and not popped yet; a caller that
    has pushed and not posted yet. *)
Definition woken (pc : wpc) : nat :=
  match pc with WLock | WTest | WPop => 1 | _ => 0 end.
Definition unposted (pc : cpc) : nat :=
  match pc with CUnlock _ | CPost _ => 1 | _ => 0 end.

(** The request a worker holds. *)
Definition in_hand (pc : wpc) : list (option T) :=
  match pc with WUnlock r | WNull r => [r] | WProcess x => [Some x] | _ => [] end.

Record inv (s : pool) : Prop := {
  i_worker : forall i pc, workers s !! i = Some pc ->
    (worker_crit pc = true <-> m_queuelocker s = Some (Worker i));
  i_caller : forall i pc, callers s !! i = Some pc ->
    (caller_crit pc = true <-> m_queuelocker s = Some (Caller i));
  i_lock : forall t, m_queuelocker s = Some t ->
    match t with Worker i => is_Some (workers s !! i) | Caller i => is_Some (callers s !! i) end;
  i_sem : length (m_workqueue s) =
    m_queuestat s + weight woken (workers s) + weight unposted (callers s);
  i_not_empty : forall i, workers s !! i <> Some WUnlockEmpty;
  i_push : forall i r, callers s !! i = Some (CPush r) ->
    length (m_workqueue s) <= m_maxrequestnum s;
  i_size : length (m_workqueue s) <= S (m_maxrequestnum s);
  i_fifo : pushed s = popped s ++ m_workqueue s;
  i_hand : popped s ≡ₚ finished s ++ (workers s ≫= in_hand);
  i_done : m_stop s = false -> forall i, workers s !! i <> Some WDone
}.

Lemma bind_insert {A B} (f : A -> list B) (l : list A) i a b :
  l !! i = Some a ->
  exists rest, l ≫= f ≡ₚ f a ++ rest /\ <[i := b]> l ≫= f ≡ₚ f b ++ rest.
Proof.
  intros Hi. exists ((take i l ≫= f) ++ (drop (S i) l ≫= f)).
  assert (i < length l) as Hl by by eapply lookup_lt_Some.
  rewrite insert_take_drop by done. rewrite <- (take_drop_middle l i a Hi) at 1.
  rewrite !bind_app, !bind_cons. split; solve_Permutation.
Qed.

(** Field accesses on a pool built from another one. *)
Ltac pool_simpl := cbn [m_workqueue m_queuelocker m_queuestat m_stop m_maxrequestnum
  workers callers pushed popped finished set_worker set_caller set_lock set_sem set_stop
  push pop finish unlock post start] in *.

Lemma inv_start n k max : inv (start n k max).
Proof.
  assert (forall i pc, replicate n WTop !! i = Some pc -> pc = WTop) as Hw
    by (intros i pc [? _]%lookup_replicate; done).
  assert (forall i pc, replicate k CIdle !! i = Some pc -> pc = CIdle) as Hc
    by (intros i pc [? _]%lookup_replicate; done).
  split; pool_simpl; try done.
  - intros i pc H. rewrite (Hw _ _ H). by split.
  - intros i pc H. rewrite (Hc _ _ H). by split.
  - rewrite !weight_replicate. simpl. lia.
  - intros i H. by apply Hw in H.
  - intros i r H. by apply Hc in H.
  - simpl. lia.
  - assert (forall m, replicate m WTop ≫= in_hand = []) as ->; [|constructor].
    clear. by induction m.
  - intros _ i H. by apply Hw in H.
Qed.

(** The invariant after a step of worker [i] from [pc] to [pc']: what the step
    must respect. *)
Lemma inv_worker i pc pc' s s' pops fins :
  inv s -> workers s !! i = Some pc ->
  workers s' = <[i := pc']> (workers s) -> callers s' = callers s ->
  m_maxrequestnum s' = m_maxrequestnum s -> m_stop s' = m_stop s ->
  lock_move (Worker i) (worker_crit pc) (worker_crit pc')
    (m_queuelocker s) (m_queuelocker s') ->
  length (m_workqueue s') + m_queuestat s + woken pc
    = length (m_workqueue s) + m_queuestat s' + woken pc' ->
  pc' <> WUnlockEmpty -> (pc' = WDone -> m_stop s = true) ->
  pushed s' = pushed s -> popped s' = popped s ++ pops -> finished s' = finished s ++ fins ->
  m_workqueue s = pops ++ m_workqueue s' ->
  in_hand pc ++ pops ≡ₚ fins ++ in_hand pc' ->
  inv s'.
Proof.
  intros Hs Hpc Ew Ec Em Est Hlock Hcount Hne Hdone Epush Epop Efin Eq Hhand.
  pose proof (weight_insert woken _ _ _ pc' Hpc) as Hweight.
  assert (length (m_workqueue s) = length pops + length (m_workqueue s')) as Hlen
    by (by rewrite Eq, length_app).
  destruct (bind_insert in_hand _ _ _ pc' Hpc) as (rest & H1 & H2).
  destruct Hs as [Hw Hc Hl Hsem Hempty Hpush Hsize Hfifo Hh Hd].
  split; rewrite ?Ew, ?Ec, ?Em, ?Est.
  - intros j pcj Hj. moved Hj; [by eapply lock_move_self; [|apply Hw]|].
    eapply lock_move_other; [exact Hlock | congruence | by apply Hw].
  - intros j pcj Hj. eapply lock_move_other; [exact Hlock | done | by apply Hc].
  - intros t Ht. destruct Hlock as [[_ Hl']|[(_ & Hl' & _)|(_ & Hl' & _)]]; rewrite Hl' in Ht.
    + apply Hl in Ht. destruct t as [j|j]; [|done].
      by rewrite list_lookup_insert_is_Some.
    + injection Ht as <-. rewrite list_lookup_insert_is_Some. by eexists.
    + done.
  - lia.
  - intros j Hj. moved Hj. by apply Hempty in Hj.
  - intros j r Hj. apply Hpush in Hj. lia.
  - lia.
  - by rewrite Epush, Epop, Hfifo, Eq, app_assoc.
  - rewrite Epop, Efin, H2, Hh, H1. rewrite <- !app_assoc. apply Permutation_app_head.
    rewrite (app_assoc fins), <- Hhand. solve_Permutation.
  - intros Hst j Hj. moved Hj; [by rewrite Hdone in Hst | by apply Hd in Hj].
Qed.

(** The same for a step of caller [i], which may push. *)
Lemma inv_caller i pc pc' s s' qs :
  inv s -> callers s !! i = Some pc ->
  workers s' = workers s -> callers s' = <[i := pc']> (callers s) ->
  m_maxrequestnum s' = m_maxrequestnum s -> m_stop s' = m_stop s ->
  lock_move (Caller i) (caller_crit pc) (caller_crit pc')
    (m_queuelocker s) (m_queuelocker s') ->
  length qs + m_queuestat s + unposted pc = m_queuestat s' + unposted pc' ->
  (qs <> [] -> m_queuelocker s = Some (Caller i) /\ pc' <> CPush None
     /\ (forall r, pc' <> CPush r) /\ length (m_workqueue s) <= m_maxrequestnum s
     /\ length qs <= 1) ->
  (forall r, pc' = CPush r -> length (m_workqueue s) <= m_maxrequestnum s) ->
  pushed s' = pushed s ++ qs -> m_workqueue s' = m_workqueue s ++ qs ->
  popped s' = popped s -> finished s' = finished s ->
  inv s'.
Proof.
  intros Hs Hpc Ew Ec Em Est Hlock Hcount Hqs Hpc' Epush Eq Epop Efin.
  pose proof (weight_insert unposted _ _ _ pc' Hpc) as Hweight.
  assert (length (m_workqueue s') = length (m_workqueue s) + length qs) as Hlen
    by (by rewrite Eq, length_app).
  destruct Hs as [Hw Hc Hl Hsem Hempty Hpush Hsize Hfifo Hh Hd].
  assert (length qs = 0 \/ qs <> []) as Hcase by (destruct qs; auto).
  split; rewrite ?Ew, ?Ec, ?Em, ?Est.
  - intros j pcj Hj. eapply lock_move_other; [exact Hlock | done | by apply Hw].
  - intros j pcj Hj. moved Hj; [by eapply lock_move_self; [|apply Hc]|].
    eapply lock_move_other; [exact Hlock | congruence | by apply Hc].
  - intros t Ht. destruct Hlock as [[_ Hl']|[(_ & Hl' & _)|(_ & Hl' & _)]]; rewrite Hl' in Ht.
    + apply Hl in Ht. destruct t as [j|j]; [done|]. by rewrite list_lookup_insert_is_Some.
    + injection Ht as <-. rewrite list_lookup_insert_is_Some. by eexists.
    + done.
  - lia.
  - done.
  - intros j r Hj. destruct Hcase as [H0|Hne].
    + moved Hj; [specialize (Hpc' r eq_refl); lia | apply Hpush in Hj; lia].
    + destruct (Hqs Hne) as (Hlk & _ & Hnp & _).
      moved Hj; [by specialize (Hnp r)|].
      assert (m_queuelocker s = Some (Caller j)) as Hlj by by apply (Hc j _ Hj).
      congruence.
  - destruct Hcase as [H0|Hne]; [lia|].
    destruct (Hqs Hne) as (_ & _ & _ & ? & ?). lia.
  - by rewrite Epush, Epop, Eq, Hfifo, app_assoc.
  - by rewrite Epop, Efin.
  - done.
Qed.

Lemma inv_run i s s' : inv s -> run_step i s = Some s' -> inv s'.
Proof.
  intros Hs H. unfold run_step in H. destruct (workers s !! i) as [pc|] eqn:Hpc; [|done].
  simpl in H. pose proof (proj1 (i_worker s Hs i pc Hpc)) as Hcrit.
  pose proof (weight_lookup woken _ _ _ Hpc) as Hwk. pose proof (i_sem s Hs) as Hsem.
  destruct pc; simpl in Hcrit, Hwk.
  - simplify_eq. eapply (inv_worker i WTop _ s _ [] []);
      rewrite ?app_nil_r; try done; destruct (m_stop s) eqn:Hst; try done; by left.
  - unfold wait in H. destruct (m_queuestat s) as [|k] eqn:Ek; simplify_eq/=.
    eapply (inv_worker i WWait WLock s _ [] []); rewrite ?app_nil_r; try done;
      pool_simpl; [by left | simpl; lia].
  - unfold lock in H. destruct (m_queuelocker s) eqn:Elk; simplify_eq/=.
    eapply (inv_worker i WLock WTest s _ [] []); rewrite ?app_nil_r; try done.
    rewrite Elk. right. by left.
  - destruct (m_workqueue s) as [|r q] eqn:Eq; [simpl in Hsem; lia|]. simplify_eq.
    eapply (inv_worker i WTest WPop s _ [] []); rewrite ?app_nil_r; try done. by left.
  - by apply (i_not_empty s Hs) in Hpc.
  - destruct (m_workqueue s) as [|r q] eqn:Eq; simplify_eq.
    eapply (inv_worker i WPop (WUnlock r) s _ [r] []); rewrite ?app_nil_r; try done;
      pool_simpl; [by left | rewrite Eq; simpl; lia].
  - simplify_eq. eapply (inv_worker i (WUnlock r) (WNull r) s _ [] []);
      rewrite ?app_nil_r; try done. right. right. by rewrite Hcrit.
  - destruct r as [x|]; simplify_eq.
    + eapply (inv_worker i (WNull (Some x)) (WProcess x) s _ [] []);
        rewrite ?app_nil_r; try done. by left.
    + eapply (inv_worker i (WNull None) WTop s _ [] [None]);
        rewrite ?app_nil_r; try done. by left.
  - simplify_eq. eapply (inv_worker i (WProcess x) WTop s _ [] [Some x]);
      rewrite ?app_nil_r; try done. by left.
  - done.
Qed.

Lemma inv_append i s s' : inv s -> append_step i s = Some s' -> inv s'.
Proof.
  intros Hs H. unfold append_step in H. destruct (callers s !! i) as [pc|] eqn:Hpc; [|done].
  simpl in H. pose proof (proj1 (i_caller s Hs i pc Hpc)) as Hcrit.
  destruct pc; simpl in Hcrit; try done.
  - unfold lock in H. destruct (m_queuelocker s) eqn:Elk; simplify_eq/=.
    eapply (inv_caller i (CLock r) (CTest r) s _ []); rewrite ?app_nil_r; try done.
    rewrite Elk. right. by left.
  - simplify_eq. case_decide.
    + eapply (inv_caller i (CTest r) (CUnlockFull r) s _ []); rewrite ?app_nil_r; try done.
      by left.
    + eapply (inv_caller i (CTest r) (CPush r) s _ []); rewrite ?app_nil_r; try done.
      * by left.
      * intros; pool_simpl; lia.
  - simplify_eq. eapply (inv_caller i (CUnlockFull r) (CReturn false) s _ []);
      rewrite ?app_nil_r; try done. right. right. by rewrite Hcrit.
  - simplify_eq. pose proof (i_push s Hs i r Hpc).
    eapply (inv_caller i (CPush r) (CUnlock r) s _ [r]); try done.
    + by left.
    + simpl. lia.
    + intros _. rewrite Hcrit by done. done.
  - simplify_eq. eapply (inv_caller i (CUnlock r) (CPost r) s _ []);
      rewrite ?app_nil_r; try done. right. right. by rewrite Hcrit.
  - simplify_eq. eapply (inv_caller i (CPost r) (CReturn true) s _ []);
      rewrite ?app_nil_r; try done; [by left | simpl; lia].
  - simplify_eq. eapply (inv_caller i (CReturn b) CIdle s _ []);
      rewrite ?app_nil_r; try done. by left.
Qed.

Lemma inv_step s s' : inv s -> step s s' -> inv s'.
Proof.
  intros Hs [i s1 H|i s1 H|i r s1 H|].
  - by eapply inv_run.
  - by eapply inv_append.
  - unfold call in H. destruct (callers s !! i) as [[]|] eqn:Hpc; simplify_eq/=.
    eapply (inv_caller i CIdle (CLock r) s _ []); rewrite ?app_nil_r; try done. by left.
  - destruct Hs. by split.
Qed.

Lemma inv_reachable n k max s : reachable n k max s -> inv s.
Proof.
  intros H. assert (inv (start n k max)) as H0 by apply inv_start.
  revert H0. induction H as [|s1 s2 s3 H1 H2 IH]; [done|].
  intros H0. apply IH. by eapply inv_step.
Qed.

(** A given interleaving. *)
Inductive event := ERun (i : nat) | EAppend (i : nat) | ECall (i : nat) (r : option T) | EStop.

Definition do_event (e : event) (s : pool) : option pool :=
  match e with
  | ERun i => run_step i s
  | EAppend i => append_step i s
  | ECall i r => call i r s
  | EStop => Some (set_stop true s)
  end.

Fixpoint schedule (es : list event) (s : pool) : option pool :=
  match es with
  | [] => Some s
  | e :: es => s' ← do_event e s; schedule es s'
  end.

Lemma schedule_steps es s s' : schedule es s = Some s' -> rtc step s s'.
Proof.
  revert s. induction es as [|e es IH]; intros s; simpl; [intros [= <-]; constructor|].
  intros H. destruct (do_event e s) as [s1|] eqn:E; [|done].
  eapply rtc_l; [|by apply IH]. destruct e; simplify_eq/=; eauto using step.
Qed.

(** ** What the pool guarantees *)

(** The control point of a thread is inside the critical section. *)
Definition in_section (s : pool) (t : tid) : Prop :=
  match t with
  | Worker i => exists pc, workers s !! i = Some pc /\ worker_crit pc = true
  | Caller i => exists pc, callers s !! i = Some pc /\ caller_crit pc = true
  end.

Lemma in_section_lock s t : inv s -> in_section s t -> m_queuelocker s = Some t.
Proof.
  intros Hs. destruct t as [i|i]; intros (pc & Hpc & Hcrit).
  - by apply (i_worker s Hs i pc Hpc).
  - by apply (i_caller s Hs i pc Hpc).
Qed.

(** At most one thread, worker or caller, is between [lock] and [unlock]. *)
Theorem pool_mutual_exclusion n k max s t u :
  reachable n k max s -> in_section s t -> in_section s u -> t = u.
Proof.
  intros Hs%inv_reachable Ht Hu. apply in_section_lock in Ht, Hu; [congruence|done..].
Qed.


(** A worker that passed the semaphore always finds a request: the value of
    the semaphore and the workers it has let through never exceed the queue, so
    the [empty] branch of [run] is never taken. *)
Lemma pool_never_empty n k max s :
  reachable n k max s ->
  m_queuestat s + weight woken (workers s) <= length (m_workqueue s)
  /\ forall i, workers s !! i <> Some WUnlockEmpty.
Proof.
  intros Hs%inv_reachable. split; [|by apply i_not_empty].
  rewrite (i_sem s Hs). lia.
Qed.

(** C28: no deadlock: while a request waits and the pool is not stopped, some
    worker, or a caller that is inside [append], can move. *)
Theorem pool_progress n k max s :
  reachable n k max s -> m_stop s = false -> 0 < length (workers s) ->
  m_workqueue s <> [] ->
  exists i s', run_step i s = Some s' \/ append_step i s = Some s'.
Proof.
  intros Hs%inv_reachable Hst Hn Hq.
  destruct (m_queuelocker s) as [[i|i]|] eqn:Elk.
  - destruct (i_lock s Hs _ Elk) as [pc Hpc].
    assert (worker_crit pc = true) as Hcrit by by apply (i_worker s Hs i pc Hpc).
    exists i. unfold run_step. rewrite Hpc. simpl.
    destruct pc; try done; eauto. destruct (m_workqueue s); [done | eauto].
  - destruct (i_lock s Hs _ Elk) as [pc Hpc].
    assert (caller_crit pc = true) as Hcrit by by apply (i_caller s Hs i pc Hpc).
    exists i. unfold append_step. rewrite Hpc. simpl. destruct pc; try done;
      by (eexists; right).
  - assert (0 < length (m_workqueue s)) as Hlen by (destruct (m_workqueue s); simpl; [done | lia]).
    rewrite (i_sem s Hs) in Hlen.
    destruct (decide (0 < weight unposted (callers s))) as [Hu|Hu].
    { destruct (weight_pos _ _ Hu) as (i & pc & Hpc & Hw). exists i.
      unfold append_step. rewrite Hpc. simpl. destruct pc; simpl in Hw; try lia;
        by (eexists; right). }
    destruct (decide (0 < weight woken (workers s))) as [Hw|Hw].
    { destruct (weight_pos _ _ Hw) as (i & pc & Hpc & Hp). exists i.
      pose proof (proj1 (i_worker s Hs i pc Hpc)) as Hcrit.
      unfold run_step. rewrite Hpc. simpl. unfold lock. rewrite Elk.
      destruct pc; simpl in Hp, Hcrit; try lia; simpl; eauto.
      specialize (Hcrit eq_refl); congruence. }
    destruct (lookup_lt_is_Some_2 (workers s) 0 Hn) as [pc Hpc]. exists 0.
    pose proof (i_done s Hs Hst 0) as Hd. pose proof (proj1 (i_worker s Hs 0 pc Hpc)) as Hcrit.
    unfold run_step. rewrite Hpc. simpl. unfold wait, lock. rewrite Elk.
    destruct (m_queuestat s) as [|q]; [lia|].
    destruct pc; simpl in Hcrit; simpl; try congruence; eauto.
    + specialize (Hcrit eq_refl); congruence.
    + destruct r; eauto.
Qed.

(** A call of [append] run to its return without interleaving. *)
Fixpoint run_append (fuel i : nat) (s : pool) : option pool :=
  match fuel with
  | O => Some s
  | S f => match callers s !! i with
           | Some (CReturn _) => Some s
           | _ => s' ← append_step i s; run_append f i s'
           end
  end.

Definition append i r (s : pool) : option pool := s' ← call i r s; run_append 5 i s'.

Lemma run_append_steps f i s s' : run_append f i s = Some s' -> rtc step s s'.
Proof.
  revert s. induction f as [|f IH]; intros s; simpl; [intros [= <-]; constructor|].
  intros H. destruct (append_step i s) as [s1|] eqn:E.
  - assert (run_append f i s1 = Some s' \/ s = s') as [Hr|<-].
    { destruct (callers s !! i) as [[]|]; simplify_eq/=; auto. }
    + eapply rtc_l; [by eapply step_append | by apply IH].
    + constructor.
  - destruct (callers s !! i) as [[]|]; simplify_eq/=; constructor.
Qed.

Lemma set_caller_lookup i pc s :
  i < length (callers s) -> callers (set_caller i pc s) !! i = Some pc.
Proof. apply list_lookup_insert_eq. Qed.

(** One step of a caller whose control point is known. *)
Lemma append_step_at i pc s :
  i < length (callers s) ->
  append_step i (set_caller i pc s) =
    match pc with
    | CIdle => None
    | CLock r =>
        match m_queuelocker s with
        | None => Some (set_caller i (CTest r) (set_lock (Some (Caller i)) s))
        | Some _ => None
        end
    | CTest r =>
        Some (set_caller i
          (if decide (m_maxrequestnum s < length (m_workqueue s))
           then CUnlockFull r else CPush r) s)
    | CUnlockFull r => Some (set_caller i (CReturn false) (set_lock None s))
    | CPush r => Some (set_caller i (CUnlock r) (push r s))
    | CUnlock r => Some (set_caller i (CPost r) (set_lock None s))
    | CPost r => Some (set_caller i (CReturn true) (post s))
    | CReturn _ => Some (set_caller i CIdle s)
    end.
Proof.
  intros Hi. unfold append_step. rewrite set_caller_lookup by done.
  destruct s as [q l sm st mx ws cs pu po fi]. unfold lock.
  destruct pc; try destruct l; pool_simpl; cbn; unfold set_caller, push, set_lock, set_sem;
    pool_simpl; by rewrite ?list_insert_insert_eq.
Qed.

Lemma run_append_at f i pc s :
  i < length (callers s) -> (forall b, pc <> CReturn b) ->
  run_append (S f) i (set_caller i pc s)
  = (append_step i (set_caller i pc s) ≫= run_append f i).
Proof.
  intros Hi Hpc. cbn [run_append]. rewrite set_caller_lookup by done.
  destruct pc; done || by destruct (Hpc b).
Qed.

Lemma run_append_return f i b s :
  i < length (callers s) ->
  run_append f i (set_caller i (CReturn b) s) = Some (set_caller i (CReturn b) s).
Proof. intros Hi. destruct f; [done|]. cbn [run_append]. by rewrite set_caller_lookup. Qed.

Lemma append_run i r s :
  callers s !! i = Some CIdle -> m_queuelocker s = None ->
  append i r s = Some
    (if decide (m_maxrequestnum s < length (m_workqueue s))
     then set_caller i (CReturn false) (set_lock None s)
     else set_caller i (CReturn true) (post (set_lock None (push r s)))).
Proof.
  intros Hc Hl. assert (i < length (callers s)) as Hi by by eapply lookup_lt_Some.
  unfold append, call. rewrite Hc. cbn [mbind option_bind].
  rewrite run_append_at, append_step_at by done. rewrite Hl. cbn [mbind option_bind].
  rewrite run_append_at, append_step_at by done. cbn [mbind option_bind].
  change (m_maxrequestnum (set_lock _ s)) with (m_maxrequestnum s).
  change (m_workqueue (set_lock _ s)) with (m_workqueue s).
  case_decide; (rewrite run_append_at, append_step_at by done); cbn [mbind option_bind].
  - by rewrite run_append_return.
  - rewrite run_append_at, append_step_at by done. cbn [mbind option_bind].
    rewrite run_append_at, append_step_at by done. cbn [mbind option_bind].
    by rewrite run_append_return.
Qed.

(** [append] on an idle pool: a queue longer than the maximum is refused and
    left alone; otherwise the request goes to the end of the queue and the
    semaphore is posted once. *)
Theorem append_spec i r s :
  callers s !! i = Some CIdle -> m_queuelocker s = None ->
  exists s', append i r s = Some s' /\ rtc step s s' /\ m_queuelocker s' = None /\
  if decide (m_maxrequestnum s < length (m_workqueue s))
  then callers s' !! i = Some (CReturn false) /\ m_workqueue s' = m_workqueue s
       /\ m_queuestat s' = m_queuestat s
  else callers s' !! i = Some (CReturn true) /\ m_workqueue s' = m_workqueue s ++ [r]
       /\ m_queuestat s' = S (m_queuestat s).
Proof.
  intros Hc Hl. pose proof (append_run i r s Hc Hl) as Ha. eexists. split; [exact Ha|].
  assert (forall s1 pc, i < length (callers s1) -> callers (set_caller i pc s1) !! i = Some pc)
    as Hi by (intros; by apply list_lookup_insert_eq).
  assert (i < length (callers s)) as Hlen by by eapply lookup_lt_Some.
  split.
  - unfold append in Ha. destruct (call i r s) as [s1|] eqn:Ecall; [|done].
    cbn [mbind option_bind] in Ha. eapply rtc_l; [by eapply step_call|].
    exact (run_append_steps _ _ _ _ Ha).
  - case_decide; (split; [done|]); rewrite Hi by done; done.
Qed.

(** The queue never holds more than one request above [m_maxrequestnum]... *)
Lemma pool_bound n k max s :
  reachable n k max s ->
  m_maxrequestnum s = max -> length (m_workqueue s) <= S max.
Proof. intros Hs%inv_reachable <-. by apply i_size. Qed.

(** ... and reaches it: the test is [size() > max], so [max + 1] requests are
    accepted, one more than the documented capacity. *)
Theorem pool_over_max max :
  exists s, reachable 1 1 max s /\ length (m_workqueue s) = S max.
Proof.
  assert (forall m, m <= S max -> exists s, reachable 1 1 max s /\ m_queuelocker s = None
    /\ callers s !! 0 = Some CIdle /\ m_maxrequestnum s = max /\ length (m_workqueue s) = m)
    as H.
  { induction m as [|m IH]; intros Hm.
    { exists (start 1 1 max). split_and!; try done. constructor. }
    destruct IH as (s & Hs & Hl & Hc & Hmax & Hlen); [lia|].
    pose proof (append_run 0 None s Hc Hl) as Ha. rewrite decide_False in Ha by lia.
    set (s1 := set_caller 0 (CReturn true) _) in Ha.
    assert (callers s1 !! 0 = Some (CReturn true)) as Hc1
      by (apply set_caller_lookup; by apply lookup_lt_Some in Hc).
    exists (set_caller 0 CIdle s1). split_and!; try done.
    - unfold reachable in *. etrans; [exact Hs|]. unfold append in Ha.
      destruct (call 0 None s) as [s0|] eqn:Ecall; [|done].
      cbn [mbind option_bind] in Ha. eapply rtc_l; [by eapply step_call|].
      etrans; [exact (run_append_steps _ _ _ _ Ha)|]. apply rtc_once.
      apply (step_append _ 0). unfold append_step. by rewrite Hc1.
    - apply set_caller_lookup. by apply lookup_lt_Some in Hc1.
    - pool_simpl. unfold s1. pool_simpl. rewrite length_app, Hlen. simpl. lia. }
  destruct (H (S max)) as (s & Hs & _ & _ & _ & Hlen); [lia|]. by exists s.
Qed.

(** The constructor starts exactly the requested number of threads when the
    arguments are positive and every creation succeeds; otherwise it throws,
    and the threads started before the failure keep running on the object
    whose construction failed. *)
Theorem threadpool_new_spec n max create detach :
  threadpool_new n max create detach =
    match decide (0 < n /\ 0 < max)%Z with
    | left _ =>
        match list_find (fun i => create i <> 0 \/ detach i <> 0)%Z (seq 0 (Z.to_nat n)) with
        | None => Built (Z.to_nat n)
        | Some (_, i) => Threw (if decide (create i <> 0)%Z then i else S i)
        end
    | right _ => Threw 0
    end.
Proof.
  unfold threadpool_new. case_decide as H; case_decide as H'; [lia|done| |lia].
  assert (forall m k, start_threads create detach k m =
    match list_find (fun i => create i <> 0 \/ detach i <> 0)%Z (seq k m) with
    | None => Built (k + m)
    | Some (_, i) => Threw (if decide (create i <> 0)%Z then i else S i)
    end) as Hgen; [|by rewrite Hgen].
  induction m as [|m IH]; intros k; simpl; [f_equal; lia|].
  destruct (decide (create k <> 0)%Z) as [Hc|Hc].
  { rewrite decide_True by (by left). by rewrite decide_True. }
  destruct (decide (detach k <> 0)%Z) as [Hd|Hd].
  { rewrite decide_True by (by right). by rewrite decide_False. }
  rewrite decide_False by tauto. rewrite IH.
  destruct (list_find _ (seq (S k) m)) as [[]|]; simpl; [done | f_equal; lia].
Qed.

(** The destructor wakes nobody: once [m_stop] is set, a worker that waits for
    the semaphore with no request posted waits forever, however the workers
    run on (the threads are detached and nothing joins them). *)
Theorem stopped_worker_waits s s' i :
  m_queuestat s = 0 -> workers s !! i = Some WWait ->
  rtc (fun a b => exists j, run_step j a = Some b) (set_stop true s) s' ->
  workers s' !! i = Some WWait.
Proof.
  intros Hsem Hi H.
  assert (m_queuestat (set_stop true s) = 0 /\ workers (set_stop true s) !! i = Some WWait)
    as H0 by done.
  revert H0. induction H as [|s1 s2 s3 [j Hj] H2 IH]; [by intros [_ ?]|].
  intros [H0 H1]. apply IH. unfold run_step in Hj.
  destruct (decide (j = i)) as [->|Hne].
  { rewrite H1 in Hj. cbn in Hj. unfold wait in Hj. by rewrite H0 in Hj. }
  destruct (workers s1 !! j) as [pc|]; [|done]. cbn [mbind option_bind] in Hj.
  assert (exists pc' s0, s2 = set_worker j pc' s0 /\ workers s0 = workers s1
    /\ m_queuestat s0 = m_queuestat s1) as (pc' & s0 & -> & Ew & Es).
  { unfold lock, wait in Hj. rewrite H0 in Hj.
    destruct pc; repeat case_match; simplify_eq/=; eauto. }
  pool_simpl. rewrite Es, Ew. split; [done|]. by rewrite list_lookup_insert_ne.
Qed.
End ThreadPool.

(** ** The theorems at concrete interleavings *)

(** One worker, one caller, room for one request: a request has been appended,
    the worker holds the lock and is about to pop it. *)
Definition sample_pool : option (@pool nat) :=
  schedule [ECall 0 (Some 7); EAppend 0; EAppend 0; EAppend 0; EAppend 0; EAppend 0;
    ERun 0; ERun 0; ERun 0; ERun 0] (start 1 1 1).

Lemma sample_pool_reachable s : sample_pool = Some s -> reachable 1 1 1 s.
Proof. apply schedule_steps. Qed.

Lemma pool_mutual_exclusion_witness :
  exists s, sample_pool = Some s /\ forall u, in_section s u -> u = Worker 0.
Proof.
  destruct sample_pool as [s|] eqn:E; [|vm_compute in E; discriminate].
  exists s. split; [reflexivity|]. intros u Hu.
  apply (pool_mutual_exclusion 1 1 1 s).
  - apply sample_pool_reachable. exact E.
  - exact Hu.
  - exists WPop. vm_compute in E. injection E as <-. split; reflexivity.
Defined.


Lemma pool_never_empty_witness :
  exists s, sample_pool = Some s /\ weight woken (workers s) <= length (m_workqueue s).
Proof.
  destruct sample_pool as [s|] eqn:E; [|vm_compute in E; discriminate].
  exists s. split; [reflexivity|].
  destruct (pool_never_empty 1 1 1 s) as [H _]; [apply sample_pool_reachable; exact E|].
  lia.
Defined.

Lemma pool_progress_witness :
  exists s, sample_pool = Some s
    /\ exists i s', run_step i s = Some s' \/ append_step i s = Some s'.
Proof.
  destruct sample_pool as [s|] eqn:E; [|vm_compute in E; discriminate].
  exists s. split; [reflexivity|]. apply (pool_progress 1 1 1 s).
  - apply sample_pool_reachable. exact E.
  - vm_compute in E. injection E as <-. reflexivity.
  - vm_compute in E. injection E as <-. apply Nat.lt_0_1.
  - vm_compute in E. injection E as <-. discriminate.
Defined.

Lemma append_spec_witness :
  exists s', append 0 (Some 7) (start 1 1 1) = Some s' /\ m_workqueue s' = [Some 7].
Proof.
  destruct (append_spec 0 (Some 7) (start 1 1 1)) as (s' & H & _ & _ & H').
  - reflexivity.
  - reflexivity.
  - exists s'. split; [exact H|]. destruct H' as (_ & Hq & _). exact Hq.
Defined.

Lemma pool_bound_witness :
  exists s, sample_pool = Some s /\ length (m_workqueue s) <= 2.
Proof.
  destruct sample_pool as [s|] eqn:E; [|vm_compute in E; discriminate].
  exists s. split; [reflexivity|]. apply (pool_bound 1 1 1 s).
  - apply sample_pool_reachable. exact E.
  - vm_compute in E. injection E as <-. reflexivity.
Defined.

Lemma stopped_worker_waits_witness :
  exists s : @pool nat, schedule [ERun 0] (start 1 1 1) = Some s
    /\ workers (set_stop true s) !! 0 = Some WWait.
Proof.
  destruct (schedule [ERun 0] (start 1 1 1)) as [s|] eqn:E;
    [|vm_compute in E; discriminate].
  exists s. split; [reflexivity|]. vm_compute in E. injection E as <-.
  apply (stopped_worker_waits (MkPool [] None 0 false 1 [WWait] [CIdle] [] [] [])).
  - reflexivity.
  - reflexivity.
  - constructor.
Defined.
