(* ===== verification/Proactor.v ===== *)
(** * [1. Proactor/main.cpp]: the event loop

    The array of connections, the dispatch of one [epoll] event, and the loop
    over the events [epoll_wait] returns, composed with the connection's
    operations ([HttpConn], [HttpReply]) and with the pool's queue.  What the
    kernel answers to the calls an event causes is an argument. *)

From S2P Require Import Prelude CBase HttpConn HttpParse HttpSpec HttpReply.

Definition MAX_FD : Z := 65535.

(** [users] with its [MAX_FD] elements (a lookup outside is the undefined
    access), [http_conn::m_user_count], and the descriptors in the pool's
    queue, of capacity [m_maxrequestnum]. *)
Record server := MkServer {
  users : gmap Z http_conn;
  m_user_count : Z;
  work : list Z;
  max_request : nat
}.

Definition set_user (i : Z) (c : http_conn) (s : server) : server :=
  MkServer (<[i := c]> (users s)) (m_user_count s) (work s) (max_request s).
Definition set_count (n : Z) (s : server) : server :=
  MkServer (users s) n (work s) (max_request s).
Definition set_work (w : list Z) (s : server) : server :=
  MkServer (users s) (m_user_count s) w (max_request s).

Definition user_at (i : Z) (s : server) : res http_conn := of_option (users s !! i).

(** The effects of an operation of [users[i]] on the static counter and on
    the element that follows it. *)
Definition effect (i : Z) (a : action) (s : server) : res server :=
  match a with
  | UserInc => Ok (set_count (m_user_count s + 1) s)
  | UserDec => Ok (set_count (m_user_count s - 1) s)
  | ZeroNext n =>
      let* c := user_at (i + 1) s in Ok (set_user (i + 1) (zero_range 0 n c) s)
  | _ => Ok s
  end.

Fixpoint effects (i : Z) (acts : list action) (s : server) : res server :=
  match acts with
  | [] => Ok s
  | a :: acts => let* s := effect i a s in effects i acts s
  end.

(** Stores the new value of [users[i]], then the effects. *)
Definition update (i : Z) (c : http_conn) (acts : list action) (s : server)
    : res (server * list action) :=
  let* s := effects i acts (set_user i c s) in Ok (s, acts).

(** [pool->append], as [ThreadPool.append_spec] describes it. *)
Definition pool_append (x : Z) (s : server) : bool * server :=
  if decide (max_request s < length (work s)) then (false, s)
  else (true, set_work (work s ++ [x]) s).

Definition close_user (i : Z) (s : server) : res (server * list action) :=
  let* c := user_at i s in
  let '(c, acts) := closeconn c in update i c acts s.

(** What the calls an event causes answer. *)
Record answers := MkAnswers {
  a_accept : Z;
  a_addr : list char;
  a_recv : list recv_result;
  a_writev : list writev_result
}.

(** The body of the [for] loop, for an event [mask] on [sockfd]. *)
Definition handle (lfd sockfd mask : Z) (ans : answers) (s : server)
    : res (server * list action) :=
  if decide (sockfd = lfd) then
    let connfd := a_accept ans in
    if decide (MAX_FD <= m_user_count s)%Z then Ok (s, [Close connfd])
    else
      let* c := user_at connfd s in
      let '(c, acts) := init connfd (a_addr ans) c in
      update connfd c acts s
  else if decide (Z.land mask (Z.lor EPOLLRDHUP (Z.lor EPOLLHUP EPOLLERR)) <> 0)%Z then
    close_user sockfd s
  else if decide (Z.land mask EPOLLIN <> 0)%Z then
    let* c := user_at sockfd s in
    let* '(ok, c) := read (a_recv ans) c in
    let s := set_user sockfd c s in
    if ok : bool then
      (* the result of append is ignored *)
      let '(_, s) := pool_append sockfd s in Ok (s, [])
    else close_user sockfd s
  else if decide (Z.land mask EPOLLOUT <> 0)%Z then
    let* c := user_at sockfd s in
    let* '(ok, c, acts) := write (a_writev ans) c in
    let* '(s, acts) := update sockfd c acts s in
    if ok : bool then Ok (s, acts)
    else let* '(s, acts') := close_user sockfd s in Ok (s, acts ++ acts')
  else Ok (s, []).

(** The events of one [epoll_wait], in order. *)
Fixpoint handle_all (lfd : Z) (evs : list (Z * Z * answers)) (s : server)
    : res (server * list action) :=
  match evs with
  | [] => Ok (s, [])
  | (sockfd, mask, ans) :: evs =>
      let* '(s, acts) := handle lfd sockfd mask ans s in
      let* '(s, acts') := handle_all lfd evs s in
      Ok (s, acts ++ acts')
  end.

(** A worker that takes the first request of the queue and processes it. *)
Definition serve (E : sysenv) (s : server) : res (server * list action) :=
  match work s with
  | [] => Ok (s, [])
  | fd :: w =>
      let s := set_work w s in
      let* c := user_at fd s in
      let* '(c, acts) := process E c in
      update fd c acts s
  end.

(** ** The overrun of [init] *)

(** What the [bzero] of a neighbour's [init] leaves of an object. *)
Definition overrun (c : http_conn) : http_conn := zero_range 0 824 c.

Lemma overrun_eq c :
  sized c ->
  overrun c = set_m_sockfd 0 (set_m_address (replicate 16 NUL)
    (set_m_read_buf (replicate 804 NUL ++ drop 804 (m_read_buf c)) c)).
Proof.
  intros Hc. destruct (sized_lengths c Hc) as (Hr & Hw & Hf & Ha). unfold overrun.
  destruct c as [fd addr rb ri ci sl cs url ver me ho li cl rf wb wi fa fs iv ic].
  conn_simpl. unfold zero_range. eval_layout. conn_simpl. cbv beta iota zeta.
  rewrite (zero_bytes_all _ _ _ addr), (zero_bytes_prefix 824 20 rb 804),
    (zero_bytes_none _ _ _ rf), (zero_bytes_none _ _ _ wb) by lia.
  by rewrite Ha.
Qed.

Lemma overrun_sized c : sized c -> sized (overrun c).
Proof.
  intros Hc. rewrite overrun_eq by done.
  destruct (sized_lengths c Hc) as (Hr & Hw & Hf & Ha).
  split_and!; conn_simpl; try done. rewrite length_app, length_replicate, length_drop, Hr.
  done.
Qed.

(** The actions of [init] on the socket [fd]. *)
Definition init_actions (fd : Z) : list action :=
  [SetReuseAddr fd; EpollAdd fd client_events; SetNonblocking fd; UserInc; ZeroNext 824].

Section Loop.
Implicit Types (s : server) (c d : http_conn) (fd lfd mask : Z) (ans : answers).

Lemma user_at_Some fd s c : users s !! fd = Some c -> user_at fd s = Ok c.
Proof. intros H. unfold user_at. by rewrite H. Qed.

Lemma lookup_next fd c s : users (set_user fd c s) !! (fd + 1)%Z = users s !! (fd + 1)%Z.
Proof. apply lookup_insert_ne. lia. Qed.

(** Effects that only reach the kernel. *)
Definition quiet (a : action) : bool :=
  match a with UserInc | UserDec | ZeroNext _ => false | _ => true end.

Lemma effects_app i xs ys s :
  effects i (xs ++ ys) s = (let* s := effects i xs s in effects i ys s).
Proof.
  revert s. induction xs as [|x xs IH]; intros s; simpl; [done|].
  destruct (effect i x s); simpl; [apply IH | done..].
Qed.

Lemma effects_quiet i xs s : forallb quiet xs = true -> effects i xs s = Ok s.
Proof.
  induction xs as [|x xs IH]; simpl; [done|]. intros [Hx Hxs]%andb_prop.
  destruct x; try done; simpl; by apply IH.
Qed.

(** A new connection on the descriptor [fd]. *)
Lemma accept_run lfd mask ans s c d :
  let fd := a_accept ans in
  (m_user_count s < MAX_FD)%Z -> length (a_addr ans) = 16 ->
  users s !! fd = Some c -> sized c -> users s !! (fd + 1)%Z = Some d ->
  handle lfd lfd mask ans s =
    Ok (MkServer (<[fd + 1 := overrun d]> (<[fd := fresh_conn fd (a_addr ans)]> (users s)))
          (m_user_count s + 1) (work s) (max_request s), init_actions fd)%Z.
Proof.
  intros fd Hn Ha Hc Hs Hd. unfold handle. rewrite decide_True by done.
  rewrite decide_False by lia. fold fd. rewrite (user_at_Some _ _ _ Hc). cbn [res_bind].
  destruct (init_run fd (a_addr ans) c Hs Ha) as [-> _].
  unfold update. cbn [effects effect res_bind].
  unfold user_at. change (users (set_count _ ?x)) with (users x).
  rewrite lookup_next, Hd. reflexivity.
Qed.

(** Accepting a connection on [fd] leaves a fresh object in [users[fd]] and
    counts it; the other connections are untouched, except the next one in
    the array, which the overrun of [init] reaches. *)
Theorem accept_spec lfd mask ans s c d :
  let fd := a_accept ans in
  (m_user_count s < MAX_FD)%Z -> length (a_addr ans) = 16 ->
  users s !! fd = Some c -> sized c -> users s !! (fd + 1)%Z = Some d ->
  exists s', handle lfd lfd mask ans s = Ok (s', init_actions fd)
    /\ users s' !! fd = Some (fresh_conn fd (a_addr ans))
    /\ users s' !! (fd + 1)%Z = Some (overrun d)
    /\ (forall i, i <> fd -> i <> (fd + 1)%Z -> users s' !! i = users s !! i)
    /\ m_user_count s' = (m_user_count s + 1)%Z /\ work s' = work s.
Proof.
  intros fd Hn Ha Hc Hs Hd. eexists. split; [by apply (accept_run lfd mask ans s c d)|].
  fold fd. cbn [users m_user_count work]. split_and!; try done.
  - rewrite lookup_insert_ne by lia. apply lookup_insert_eq.
  - apply lookup_insert_eq.
  - intros i H1 H2. by rewrite !lookup_insert_ne by done.
Qed.

(** A new connection on [fd] disconnects the open connection on [fd + 1]: the
    overrun clears its descriptor, so the hang-up of its peer closes
    descriptor 0 and the socket [fd + 1] is never closed nor removed. *)
Theorem accept_breaks_neighbour lfd mask ans s c d ans' :
  let fd := a_accept ans in
  (m_user_count s < MAX_FD)%Z -> length (a_addr ans) = 16 ->
  users s !! fd = Some c -> sized c ->
  users s !! (fd + 1)%Z = Some d -> sized d -> m_sockfd d = (fd + 1)%Z ->
  (fd + 1)%Z <> lfd ->
  exists s', handle_all lfd [(lfd, mask, ans); ((fd + 1)%Z, EPOLLHUP, ans')] s =
    Ok (s', init_actions fd ++ [EpollDel 0; Close 0; UserDec]).
Proof.
  intros fd Hn Ha Hc Hs Hd Hsd Hfd Hlfd. cbn [handle_all].
  rewrite (accept_run lfd mask ans s c d) by done. fold fd. cbn [res_bind].
  set (s1 := MkServer _ _ _ _).
  assert (handle lfd (fd + 1) EPOLLHUP ans' s1 = close_user (fd + 1) s1) as ->.
  { unfold handle. rewrite decide_False by done. by rewrite decide_True. }
  unfold close_user. rewrite (user_at_Some _ _ (overrun d)) by apply lookup_insert_eq.
  cbn [res_bind]. unfold closeconn. rewrite overrun_eq by done. conn_simpl.
  rewrite decide_False by done. unfold update.
  rewrite effects_app, effects_quiet by done. eexists. reflexivity.
Qed.

(** With [MAX_FD] connections counted, a new one is only closed. *)
Lemma accept_full lfd mask ans s :
  (MAX_FD <= m_user_count s)%Z ->
  handle lfd lfd mask ans s = Ok (s, [Close (a_accept ans)]).
Proof. intros Hn. unfold handle. rewrite decide_True by done. by rewrite decide_True. Qed.

(** The result of [accept] is used as an index unchecked: when it fails with
    -1 (and -1 is not an element of the array), the access is outside. *)
Lemma accept_failure_ub lfd mask ans s :
  (m_user_count s < MAX_FD)%Z -> a_accept ans = (-1)%Z -> users s !! (-1)%Z = None ->
  handle lfd lfd mask ans s = UB.
Proof.
  intros Hn Ha Hu. unfold handle. rewrite decide_True by done. rewrite decide_False by lia.
  rewrite Ha. unfold user_at. by rewrite Hu.
Qed.

(** Readable and writable events, without an error bit. *)
Lemma handle_in lfd fd ans s c :
  fd <> lfd -> users s !! fd = Some c ->
  handle lfd fd EPOLLIN ans s =
    (let* '(ok, c) := read (a_recv ans) c in
     let s := set_user fd c s in
     if ok : bool then let '(_, s) := pool_append fd s in Ok (s, []) else close_user fd s).
Proof.
  intros Hne Hc. unfold handle. rewrite decide_False by done.
  rewrite decide_False by (vm_compute; tauto).
  rewrite decide_True by (vm_compute; discriminate). by rewrite (user_at_Some _ _ _ Hc).
Qed.

Lemma handle_out lfd fd ans s c :
  fd <> lfd -> users s !! fd = Some c ->
  handle lfd fd EPOLLOUT ans s =
    (let* '(ok, c, acts) := write (a_writev ans) c in
     let* '(s, acts) := update fd c acts s in
     if ok : bool then Ok (s, acts)
     else let* '(s, acts') := close_user fd s in Ok (s, acts ++ acts')).
Proof.
  intros Hne Hc. unfold handle. rewrite decide_False by done.
  rewrite decide_False by (vm_compute; tauto).
  rewrite decide_False by (vm_compute; tauto).
  rewrite decide_True by (vm_compute; discriminate). by rewrite (user_at_Some _ _ _ Hc).
Qed.

(** A request that finds the queue full is lost: it is read, [append]'s
    refusal is ignored, and the one-shot socket is neither rearmed nor closed. *)
Theorem full_queue_drops lfd fd ans s c :
  fd <> lfd -> users s !! fd = Some c -> conn_ok c -> m_read_idx c < READ_BUFFER_SIZE ->
  recvs_ok (READ_BUFFER_SIZE - m_read_idx c) (a_recv ans) ->
  read_end (a_recv ans) = Some true -> max_request s < length (work s) ->
  handle lfd fd EPOLLIN ans s = Ok (set_user fd (feed (received (a_recv ans)) c) s, []).
Proof.
  intros Hne Hc Hok Hi Hrs Hend Hfull. rewrite (handle_in lfd fd ans s c) by done.
  destruct (read_run (a_recv ans) c true) as [-> _]; try done. cbn [res_bind].
  unfold pool_append. by rewrite decide_True.
Qed.

(** One piece of data, then [EAGAIN]. *)
Definition one_packet (bytes : list char) : answers :=
  MkAnswers 0 [] [RecvData bytes; RecvAgain] [].
Definition one_writev (n : Z) : answers := MkAnswers 0 [] [] [WvSent n].

Lemma one_packet_read bytes c :
  conn_ok c -> m_read_idx c = 0 -> 0 < length bytes < READ_BUFFER_SIZE ->
  read [RecvData bytes; RecvAgain] c = Ok (true, feed bytes c).
Proof.
  intros Hc Hi Hb. destruct bytes as [|x bytes]; [simpl in Hb; lia|].
  destruct (read_run [RecvData (x :: bytes); RecvAgain] c true) as [Hr _]; try done.
  - lia.
  - simpl in *. split; [lia | done].
  - rewrite Hr. cbn [received]. by rewrite app_nil_r.
Qed.

(** Accepting, then receiving a first packet. *)
Lemma accept_receive lfd mask ans s c d bytes :
  let fd := a_accept ans in
  (m_user_count s < MAX_FD)%Z -> length (a_addr ans) = 16 -> fd <> lfd ->
  users s !! fd = Some c -> sized c -> users s !! (fd + 1)%Z = Some d -> work s = [] ->
  0 < length bytes < READ_BUFFER_SIZE ->
  exists s1, handle_all lfd [(lfd, mask, ans); (fd, EPOLLIN, one_packet bytes)] s
    = Ok (s1, init_actions fd)
  /\ users s1 !! fd = Some (feed bytes (fresh_conn fd (a_addr ans)))
  /\ users s1 !! (fd + 1)%Z = Some (overrun d) /\ work s1 = [fd].
Proof.
  intros fd Hn Ha Hne Hc Hs Hd Hw Hb. cbn [handle_all].
  rewrite (accept_run lfd mask ans s c d) by done. fold fd. cbn [res_bind].
  set (s1 := MkServer _ _ _ _).
  assert (users s1 !! fd = Some (fresh_conn fd (a_addr ans))) as H1.
  { unfold s1. cbn [users]. rewrite lookup_insert_ne by lia. apply lookup_insert_eq. }
  assert (users s1 !! (fd + 1)%Z = Some (overrun d)) as H2 by apply lookup_insert_eq.
  rewrite (handle_in lfd fd _ s1 _ Hne H1). cbn [a_recv one_packet].
  rewrite one_packet_read by (done || by apply fresh_conn_ok). cbn [res_bind].
  unfold pool_append. change (work (set_user fd _ s1)) with (work s). rewrite Hw.
  rewrite decide_False by (simpl; lia). cbn [res_bind]. rewrite app_nil_r.
  eexists. split; [done|]. cbn [users set_work set_user]. split_and!;
    [apply lookup_insert_eq | by rewrite lookup_insert_ne by lia | done].
Qed.

Lemma feed_fresh_unread bytes fd addr :
  length addr = 16 -> length bytes <= READ_BUFFER_SIZE ->
  unread (feed bytes (fresh_conn fd addr)) = bytes.
Proof.
  intros Ha Hb. rewrite unread_feed.
  - unfold unread. simpl. done.
  - by apply fresh_conn_ok.
  - done.
Qed.

(** A worker on the only request of the queue. *)
Lemma serve_run E s fd w c c' acts :
  work s = fd :: w -> users s !! fd = Some c -> process E c = Ok (c', acts) ->
  forallb quiet acts = true ->
  serve E s = Ok (set_user fd c' (set_work w s), acts).
Proof.
  intros Hw Hc Hp Hq. unfold serve. rewrite Hw, (user_at_Some _ (set_work w s) c Hc).
  cbn [res_bind]. rewrite Hp. cbn [res_bind]. unfold update. by rewrite effects_quiet.
Qed.

Lemma handle_out_whole lfd fd s c d (n : nat) :
  fd <> lfd -> users s !! fd = Some c -> users s !! (fd + 1)%Z = Some d ->
  conn_ok c -> m_sockfd c = fd -> fd <> (-1)%Z ->
  0 < m_write_idx c -> m_write_idx c <= n ->
  exists s' acts, handle lfd fd EPOLLOUT (one_writev (Z.of_nat n)) s =
      Ok (s', calls c [Z.of_nat n] ++ acts)
  /\ if m_linger c
     then users s' !! fd = Some (fresh_conn fd (m_address c))
     else Close fd ∈ acts /\ exists c', users s' !! fd = Some c' /\ m_sockfd c' = (-1)%Z.
Proof.
  intros Hne Hc Hd Hok Hfd Hfd1 Hpos Hle. rewrite (handle_out lfd fd _ s c Hne Hc).
  cbn [a_writev one_writev].
  assert (write [WvSent (Z.of_nat n)] c
    = Ok (let '(b, c', acts) := reply_done c in (b, c', calls c [Z.of_nat n] ++ acts))) as ->.
  { apply (write_run [] (WvSent (Z.of_nat n)) [] c Hpos);
      [constructor | simpl; lia | intros k [= <-]; simpl; lia]. }
  unfold reply_done. destruct (unmap_same c) as [Hl Hf]. cbn [app].
  assert (m_address (unmap c).1 = m_address c) as Had by (unfold unmap; by case_decide).
  assert (sized (unmap c).1) as Hsz.
  { unfold unmap. case_decide; by destruct (conn_ok_sized c Hok) as (? & ? & ? & ?). }
  assert (forallb quiet (unmap c).2 = true) as Hq by (unfold unmap; by case_decide).
  destruct (m_linger c); cbn [res_bind].
  - rewrite (init_state_eq _ Hsz), Hf, Had, Hfd. cbn [fst snd]. unfold update.
    rewrite effects_app, (effects_quiet _ (calls c [_])) by done. cbn [res_bind].
    rewrite effects_app, effects_quiet by done. cbn [res_bind].
    cbn [effects effect res_bind app]. unfold user_at. rewrite lookup_next, Hd.
    cbn [of_option res_bind]. rewrite effects_quiet by done. cbn [res_bind].
    do 2 eexists. split; [reflexivity|]. cbn [users set_user].
    rewrite lookup_insert_ne by lia. apply lookup_insert_eq.
  - unfold update. rewrite effects_app, (effects_quiet _ (calls c [_])) by done.
    cbn [res_bind]. rewrite effects_app, effects_quiet by done. cbn [res_bind].
    rewrite effects_quiet by done. cbn [res_bind].
    unfold close_user. rewrite (user_at_Some _ _ (unmap c).1) by apply lookup_insert_eq.
    cbn [res_bind]. unfold closeconn. rewrite Hf, Hfd, decide_False by done.
    unfold update. rewrite effects_app, effects_quiet by done. cbn [res_bind].
    cbn [effects effect res_bind]. do 2 eexists. split; [by rewrite <- app_assoc|].
    split.
    + rewrite !elem_of_app. right. simpl. set_solver.
    + eexists. split; [apply lookup_insert_eq | done].
Qed.

End Loop.

(** ** The theorems at concrete events *)

Definition blank_conn : http_conn := fresh_conn (-1) (replicate 16 NUL).
Definition sample_server : server :=
  MkServer (<[5%Z := blank_conn]> (<[6%Z := set_m_sockfd 6 blank_conn]> ∅)) 0 [] 100.
Definition sample_accept : answers := MkAnswers 5 (replicate 16 NUL) [] [].

Lemma blank_sized : sized blank_conn.
Proof. split_and!; apply length_replicate. Qed.

Lemma accept_spec_witness :
  exists s', handle 3 3 EPOLLIN sample_accept sample_server = Ok (s', init_actions 5)
    /\ users s' !! 5%Z = Some (fresh_conn 5 (replicate 16 NUL)).
Proof.
  destruct (accept_spec 3 EPOLLIN sample_accept sample_server blank_conn
    (set_m_sockfd 6 blank_conn)) as (s' & H1 & H2 & _).
  - reflexivity.
  - reflexivity.
  - reflexivity.
  - apply blank_sized.
  - reflexivity.
  - exists s'. split; [exact H1 | exact H2].
Defined.

Lemma accept_breaks_neighbour_witness :
  exists s', handle_all 3 [(3%Z, EPOLLIN, sample_accept); (6%Z, EPOLLHUP, sample_accept)]
    sample_server = Ok (s', init_actions 5 ++ [EpollDel 0; Close 0; UserDec]).
Proof.
  apply (accept_breaks_neighbour 3 EPOLLIN sample_accept sample_server blank_conn
    (set_m_sockfd 6 blank_conn) sample_accept).
  - reflexivity.
  - reflexivity.
  - reflexivity.
  - apply blank_sized.
  - reflexivity.
  - apply blank_sized.
  - reflexivity.
  - discriminate.
Defined.

Lemma accept_full_witness :
  handle 3 3 EPOLLIN sample_accept (set_count 65535 sample_server)
  = Ok (set_count 65535 sample_server, [Close 5]).
Proof. apply accept_full. discriminate. Defined.

Lemma accept_failure_ub_witness :
  handle 3 3 EPOLLIN (MkAnswers (-1) (replicate 16 NUL) [] []) sample_server = UB.
Proof. apply accept_failure_ub; reflexivity. Defined.

Lemma full_queue_drops_witness :
  exists s', handle 3 6 EPOLLIN (one_packet (lit "GET / HTTP/1.1"))
    (MkServer (users sample_server) 1 [5%Z] 0) = Ok (s', []).
Proof.
  eexists. apply (full_queue_drops 3 6 _ _ (set_m_sockfd 6 blank_conn)).
  - discriminate.
  - reflexivity.
  - destruct (fresh_conn_ok (-1) (replicate 16 NUL) eq_refl). split; assumption.
  - concrete.
  - split; [concrete | exact I].
  - reflexivity.
  - exact (Nat.lt_0_1).
Defined.

