(* ===== verification/ServerLoop.v ===== *)
(** * [1. Proactor/main.cpp]: the program as a whole

    The main thread's events and the workers' requests in any order, from the
    array [main] allocates: what every object keeps, and that the event loop
    stays inside its arrays and buffers whatever the clients do. *)

From S2P Require Import Prelude CBase Frame HttpConn HttpParse HttpSpec HttpReply Proactor.

Implicit Types (c d : http_conn) (s : server) (fd lfd mask : Z) (ans : answers).

(** ** The reply functions keep the object well formed *)

Lemma ready_write_buf b n c :
  length b = WRITE_BUFFER_SIZE -> n < WRITE_BUFFER_SIZE -> ready c ->
  ready (set_m_write_idx n (set_m_write_buf b c)).
Proof. intros Hb Hn [[] Hp]. split; [split|]; conn_simpl; done. Qed.

Lemma ready_same_write c b :
  length b = WRITE_BUFFER_SIZE -> ready c -> ready (set_m_write_buf b c).
Proof. intros Hb [[] Hp]. split; [split|]; conn_simpl; done. Qed.

Lemma vsnprintf_length pos size text buf :
  pos <= length buf -> length (vsnprintf pos size text buf) = length buf.
Proof. intros H. unfold vsnprintf. destruct size; [done|]. by apply length_blit. Qed.

Lemma add_response_ready text c : ready c -> ready (add_response text c).2.
Proof.
  intros Hr. pose proof (ok_write_buf c (proj1 Hr)) as Hb.
  pose proof (ok_write_idx c (proj1 Hr)) as Hi. unfold add_response.
  rewrite decide_False by lia.
  assert (forall size, length (vsnprintf (m_write_idx c) size text (m_write_buf c))
    = WRITE_BUFFER_SIZE) as Hl by (intros; rewrite vsnprintf_length by lia; done).
  case_decide as Hs; cbn [snd].
  - by apply ready_same_write.
  - apply ready_write_buf; [done| |done]. conn_simpl. lia.
Qed.

Lemma add_headers_ready n c : ready c -> ready (add_headers n c).
Proof. intros Hr. unfold add_headers. by repeat apply add_response_ready. Qed.

Lemma error_reply_ready status title form c :
  ready c -> ready (error_reply status title form c).2.
Proof.
  intros Hr. unfold error_reply. apply add_response_ready, add_headers_ready.
  by apply add_response_ready.
Qed.

Lemma ready_iv i v c : ready c -> ready (set_m_iv (<[i := v]> (m_iv c)) c).
Proof. intros [[] Hp]. split; [split|]; conn_simpl; rewrite ?length_insert; done. Qed.

Lemma ready_iv_count n c : ready c -> ready (set_m_iv_count n c).
Proof. intros [[] Hp]. split; [split|]; done. Qed.

Lemma process_write_ready ret c : ready c -> ready (process_write ret c).2.
Proof.
  intros Hr. unfold process_write. destruct ret; try exact Hr;
    try (match goal with |- context [error_reply ?a ?t ?f c] =>
      pose proof (error_reply_ready a t f c Hr) as He;
      destruct (error_reply a t f c) as [[] c1]; cbn [negb snd] in *;
      [by apply ready_iv_count, ready_iv | exact He] end).
  cbn [snd]. apply ready_iv_count, ready_iv, ready_iv, add_headers_ready.
  by apply add_response_ready.
Qed.

(** ** One operation *)

Lemma overrun_ready c : ready c -> ready (overrun c).
Proof.
  intros Hr. pose proof Hr as [Hc Hp]. rewrite overrun_eq by by apply conn_ok_sized.
  pose proof (ok_read_buf c Hc) as Hl. set (b := _ ++ drop 804 (m_read_buf c)).
  assert (length b = READ_BUFFER_SIZE) as Hb.
  { unfold b. rewrite length_app, length_replicate, length_drop, Hl. done. }
  assert (forall i, b !! i = m_read_buf c !! i \/ b !! i = Some NUL) as Hz.
  { intros i. unfold b. destruct (decide (i < 804)) as [Hi|Hi].
    - right. rewrite lookup_app_l by (rewrite length_replicate; lia).
      by apply lookup_replicate_2.
    - left. rewrite lookup_app_r, length_replicate, lookup_drop by (rewrite length_replicate; lia).
      f_equal. lia. }
  clearbody b. destruct Hc. split; [split|]; conn_simpl; try done.
  - intros i Hi. destruct (Hz i) as [->| ->]; [by apply ok_zero | done].
  - intros Hi. cbv beta. conn_simpl. destruct (Hz (m_checked_index c - 1)) as [->| ->];
      [by apply Hp | done].
Qed.

Lemma init_state_ready c : ready c -> ready (init_state c).1.
Proof.
  intros [Hc _]. rewrite init_state_eq by by apply conn_ok_sized.
  apply fresh_ready, ok_address, Hc.
Qed.

(** Effects that stay in the array: at most the 824 bytes of the next object. *)
Definition mild (a : action) : Prop := forall n, a = ZeroNext n -> n = 824%Z.

Lemma quiet_mild acts : forallb quiet acts = true -> Forall mild acts.
Proof.
  induction acts as [|a acts IH]; [done|]. cbn [forallb]. intros [Ha Hs]%andb_prop.
  constructor; [|by apply IH]. intros n ->. discriminate Ha.
Qed.

Lemma init_state_mild c : ready c -> Forall mild (init_state c).2.
Proof.
  intros [Hc _]. rewrite init_state_eq by by apply conn_ok_sized. constructor; [|constructor].
  by intros n [= <-].
Qed.

Lemma unmap_ready c : ready c -> ready (unmap c).1 /\ Forall mild (unmap c).2.
Proof.
  intros [[] Hp]. unfold unmap. case_decide; cbn [fst snd].
  - split; [by split; [split|]|by apply quiet_mild].
  - split; [by split; [split|]|constructor].
Qed.

Lemma closeconn_ready c : ready c -> ready (closeconn c).1 /\ Forall mild (closeconn c).2.
Proof.
  intros Hr. unfold closeconn. case_decide; cbn [fst snd]; [by split; [|constructor]|].
  destruct Hr as [[] Hp]. split; [by split; [split|]|].
  repeat constructor; by intros n.
Qed.

(** The answers of [writev] that end a call of [write]. *)
Definition writev_ok (c : http_conn) (rs : list writev_result) : Prop :=
  Forall (fun r => forall n, r = WvSent n -> (1 <= n)%Z) rs
  /\ m_write_idx c <= 2 * length rs /\ 0 < length rs.

Lemma write_loop_ready rs to have c :
  ready c -> (to - have <= 2 * Z.of_nat (length rs))%Z -> 0 < length rs ->
  Forall (fun r => forall n, r = WvSent n -> (1 <= n)%Z) rs ->
  exists b c' acts, write_loop rs to have c = Ok (b, c', acts) /\ ready c' /\ Forall mild acts.
Proof.
  intros Hr. revert to have. induction rs as [|r rs IH]; intros to have Hl H0 Hrs; [simpl in H0; lia|].
  apply Forall_cons in Hrs as [Hn Hrs]. destruct (unmap_ready c Hr) as [Hu1 Hu2].
  assert (forall fd ev, Forall mild (modifyfd fd ev)) as Hmod by (intros; by apply quiet_mild).
  destruct r as [n| |]; cbn [write_loop].
  - specialize (Hn n eq_refl). case_decide as Hd.
    + destruct (unmap c) as [c1 un]. cbn [fst snd] in *.
      assert (mild (Writev (take (Z.to_nat (m_iv_count c)) (m_iv c)) n)) as Hw by by intros m.
      destruct (m_linger c1).
      * pose proof (init_state_ready c1 Hu1). pose proof (init_state_mild c1 Hu1).
        destruct (init_state c1) as [c2 inits]. eexists _, _, _. split; [reflexivity|].
        split; [done|]. constructor; [done|]. by repeat apply Forall_app_2.
      * eexists _, _, _. split; [reflexivity|]. split; [done|]. constructor; [done|].
        by apply Forall_app_2.
    + change (length (WvSent n :: rs)) with (S (length rs)) in Hl.
      destruct (IH (to - n) (have + n))%Z as (b & c' & acts & -> & Hc' & Ha); [lia| |done|].
      { destruct rs; [exfalso; simpl in Hl; lia | simpl; lia]. }
      cbn [res_bind]. eexists _, _, _. split; [reflexivity|]. split; [done|].
      constructor; [by intros m | done].
  - eexists _, _, _. split; [reflexivity|]. by split.
  - destruct (unmap c) as [c1 un]. eexists _, _, _. split; [reflexivity|]. by split.
Qed.

Lemma write_ready rs c :
  ready c -> writev_ok c rs ->
  exists b c' acts, write rs c = Ok (b, c', acts) /\ ready c' /\ Forall mild acts.
Proof.
  intros Hr (Hrs & Hl & H0). unfold write. case_decide.
  - pose proof (init_state_ready c Hr). pose proof (init_state_mild c Hr).
    destruct (init_state c) as [c1 inits]. eexists _, _, _. split; [reflexivity|].
    split; [done|]. apply Forall_app_2; [by apply quiet_mild | done].
  - apply write_loop_ready; [done|lia|done|done].
Qed.

Lemma read_ready rs c b :
  ready c -> recvs_ok (READ_BUFFER_SIZE - m_read_idx c) rs -> read_end rs = Some b ->
  exists b' c', read rs c = Ok (b', c') /\ ready c'.
Proof.
  intros Hr Hrs Hb. unfold read. case_decide; [by exists false, c|].
  destruct (read_loop_spec rs c b (proj1 Hr) Hrs Hb) as [-> _].
  exists b, (feed (received rs) c). split; [done|]. apply feed_ready; [done|].
  pose proof (recvs_ok_length _ _ Hrs). lia.
Qed.

Lemma process_ready E c c' acts :
  ready c -> process E c = Ok (c', acts) -> ready c' /\ Forall mild acts.
Proof.
  intros Hr H. unfold process in H. apply res_bind_Ok_inv in H as ([ret c1] & Hp & H).
  pose proof (process_read_loop_kept _ _ _ _ _ _ Hr Hp) as [Hk _].
  pose proof (kept_ready _ _ Hk Hr) as Hr1. case_decide.
  { injection H as <- <-. split; [done | by apply quiet_mild]. }
  pose proof (process_write_ready ret c1 Hr1) as Hr2.
  destruct (process_write ret c1) as [ok c2]. cbn [snd] in Hr2.
  destruct (closeconn_ready c2 Hr2) as [Hc1 Hc2]. destruct ok; cbn [negb] in H.
  - injection H as <- <-. split; [done | by apply quiet_mild].
  - destruct (closeconn c2). injection H as <- <-. split; [done|].
    apply Forall_app_2; [done | by apply quiet_mild].
Qed.

(** ** The array

    [A] are the descriptors accepted so far; the objects of the others are those of
    [new http_conn[MAX_FD]], which initialises nothing. *)
Definition has_next (fd : Z) : Prop := (0 <= fd < MAX_FD - 1)%Z.

Record server_ok (A : gset Z) s : Prop := {
  so_users i : is_Some (users s !! i) <-> (0 <= i < MAX_FD)%Z;
  so_sized i c : users s !! i = Some c -> sized c;
  so_ready i c : i ∈ A -> users s !! i = Some c -> ready c;
  so_accepted i : i ∈ A -> has_next i;
  so_work i : i ∈ work s -> i ∈ A
}.

Definition initial s : Prop :=
  (forall i, is_Some (users s !! i) <-> (0 <= i < MAX_FD)%Z)
  /\ (forall i c, users s !! i = Some c -> sized c) /\ work s = [].

Lemma initial_ok s : initial s -> server_ok ∅ s.
Proof.
  intros (Hu & Hs & Hw). split; [done|done| | |].
  - intros i c Hi. by apply not_elem_of_empty in Hi.
  - intros i Hi. by apply not_elem_of_empty in Hi.
  - intros i Hi. rewrite Hw in Hi. by apply not_elem_of_nil in Hi.
Qed.

Lemma ready_sized c : ready c -> sized c.
Proof. intros [Hc _]. by apply conn_ok_sized. Qed.

(** A new value of one object: kept ready when it was accepted. *)
Lemma set_user_ok A i c s :
  server_ok A s -> (0 <= i < MAX_FD)%Z -> sized c -> (i ∈ A -> ready c) ->
  server_ok A (set_user i c s).
Proof.
  intros [Hu Hs Hr Ha Hw] Hi Hc Hrc. split; cbn [users work set_user]; try done.
  - intros j. destruct (decide (i = j)) as [->|Hne].
    + rewrite lookup_insert_eq. split; [done|]. by eexists.
    + by rewrite lookup_insert_ne by done.
  - intros j d. destruct (decide (i = j)) as [->|Hne].
    + rewrite lookup_insert_eq. by intros [= <-].
    + rewrite lookup_insert_ne by done. apply Hs.
  - intros j d Hj. destruct (decide (i = j)) as [->|Hne].
    + rewrite lookup_insert_eq. intros [= <-]. by apply Hrc.
    + rewrite lookup_insert_ne by done. by apply Hr.
Qed.

Lemma accepted_ok A fd c s :
  server_ok A s -> has_next fd -> ready c -> users s !! fd = Some c ->
  server_ok ({[fd]} ∪ A) s.
Proof.
  intros [Hu Hs Hr Ha Hw] Hfd Hc Hl. split; try done.
  - intros i d [->%elem_of_singleton|Hi]%elem_of_union Hd; [congruence | by eapply Hr].
  - intros i [->%elem_of_singleton|Hi]%elem_of_union; [done | by apply Ha].
  - intros i Hi. apply elem_of_union. right. by apply Hw.
Qed.

Lemma count_ok A n s : server_ok A s -> server_ok A (set_count n s).
Proof. by intros []; split. Qed.

Lemma effects_ok A i acts s :
  server_ok A s -> has_next i -> Forall mild acts ->
  exists s', effects i acts s = Ok s' /\ server_ok A s' /\ work s' = work s
    /\ (forall j, j <> (i + 1)%Z -> users s' !! j = users s !! j).
Proof.
  intros Hs Hi. revert s Hs. induction acts as [|a acts IH]; intros s Hs Ha; [by exists s|].
  apply Forall_cons in Ha as [Ha Has]. cbn [effects].
  assert (exists s1, effect i a s = Ok s1 /\ server_ok A s1 /\ work s1 = work s
    /\ (forall j, j <> (i + 1)%Z -> users s1 !! j = users s !! j))
    as (s1 & -> & Hs1 & Hw1 & Hu1).
  { destruct a; cbn [effect]; try (by exists s);
      try (eexists; split; [reflexivity|]; split; [by apply count_ok | done]).
    pose proof (Ha n eq_refl) as ->. unfold has_next in Hi.
    destruct (proj2 (so_users A s Hs (i + 1)%Z) ltac:(lia)) as [d Hd].
    rewrite (user_at_Some _ _ _ Hd). cbn [res_bind]. eexists. split; [reflexivity|].
    split; [|split; [done|]].
    - apply set_user_ok; [done|lia| |].
      + apply overrun_sized. by eapply so_sized.
      + intros Hj. apply overrun_ready. by eapply so_ready.
    - intros j Hj. by apply lookup_insert_ne. }
  cbn [res_bind]. destruct (IH s1 Hs1 Has) as (s' & -> & Hs' & Hw' & Hu').
  exists s'. split_and!; try done; [congruence|]. intros j Hj. by rewrite Hu', Hu1.
Qed.

Lemma update_ok A i c acts s :
  server_ok A s -> has_next i -> ready c -> Forall mild acts ->
  exists s', update i c acts s = Ok (s', acts) /\ server_ok A s' /\ work s' = work s
    /\ users s' !! i = Some c.
Proof.
  intros Hs Hi Hc Ha. unfold update.
  destruct (effects_ok A i acts (set_user i c s)) as (s' & -> & Hs' & Hw & Hu); [|done..|].
  - apply set_user_ok; [done|unfold has_next in Hi; lia|by apply ready_sized|done].
  - exists s'. split_and!; try done. rewrite Hu by lia. apply lookup_insert_eq.
Qed.

Lemma accepted_user A fd s :
  server_ok A s -> fd ∈ A -> exists c, users s !! fd = Some c /\ ready c /\ has_next fd.
Proof.
  intros Hs Hfd. pose proof (so_accepted A s Hs fd Hfd) as Hn. unfold has_next in Hn.
  destruct (proj2 (so_users A s Hs fd) ltac:(lia)) as [c Hc]. exists c. split; [done|].
  split; [by eapply so_ready | done].
Qed.

Lemma close_user_ok A fd s :
  server_ok A s -> fd ∈ A ->
  exists s' acts, close_user fd s = Ok (s', acts) /\ server_ok A s' /\ work s' = work s.
Proof.
  intros Hs Hfd. destruct (accepted_user A fd s Hs Hfd) as (c & Hc & Hr & Hn).
  unfold close_user. rewrite (user_at_Some _ _ _ Hc). cbn [res_bind].
  destruct (closeconn_ready c Hr) as [H1 H2]. destruct (closeconn c) as [c' acts].
  destruct (update_ok A fd c' acts s Hs Hn H1 H2) as (s' & -> & Hs' & Hw & _).
  by exists s', acts.
Qed.

(** ** The events *)

(** What the kernel guarantees of an event: [accept] gives a descriptor below the
    last one; the others are on accepted sockets, and the calls they cause get
    answers that POSIX allows and that end their loops. *)
Record event_ok lfd (A : gset Z) fd mask ans s : Prop := {
  ev_accept : fd = lfd -> length (a_addr ans) = 16 /\ has_next (a_accept ans);
  ev_accepted : fd <> lfd -> fd ∈ A;
  ev_recv c : fd <> lfd -> Z.land mask EPOLLIN <> 0%Z -> users s !! fd = Some c ->
    recvs_ok (READ_BUFFER_SIZE - m_read_idx c) (a_recv ans)
    /\ is_Some (read_end (a_recv ans));
  ev_writev c : fd <> lfd -> Z.land mask EPOLLIN = 0%Z -> users s !! fd = Some c ->
    writev_ok c (a_writev ans)
}.

(** The descriptors accepted after an event. *)
Definition accepted lfd (A : gset Z) fd ans s : gset Z :=
  if decide (fd = lfd /\ (m_user_count s < MAX_FD)%Z) then {[a_accept ans]} ∪ A else A.

Lemma append_ok A fd s :
  server_ok A s -> fd ∈ A -> server_ok A (pool_append fd s).2.
Proof.
  intros [Hu Hs Hr Ha Hw] Hfd. unfold pool_append. case_decide; split; try done.
  cbn [snd set_work work]. intros i [Hi| ->%list_elem_of_singleton]%elem_of_app; [by apply Hw|done].
Qed.

Lemma handle_ok lfd A fd mask ans s :
  server_ok A s -> event_ok lfd A fd mask ans s ->
  exists s' acts, handle lfd fd mask ans s = Ok (s', acts)
    /\ server_ok (accepted lfd A fd ans s) s'.
Proof.
  intros Hs [Hacc Hin Hrecv Hwr]. unfold handle, accepted. destruct (decide (fd = lfd)) as [Hfd|Hfd].
  - destruct (Hacc Hfd) as [Haddr Hn]. destruct (decide (MAX_FD <= m_user_count s)%Z) as [Hf|Hf].
    { rewrite decide_False by lia. by eexists _, _. }
    rewrite decide_True by lia. pose proof Hn as Hn'. unfold has_next in Hn'.
    destruct (proj2 (so_users A s Hs (a_accept ans)) ltac:(lia)) as [c Hc].
    rewrite (user_at_Some _ _ _ Hc). cbn [res_bind].
    destruct (init_run (a_accept ans) (a_addr ans) c) as [-> _]; [by eapply so_sized|done|].
    pose proof (fresh_ready (a_accept ans) (a_addr ans) Haddr) as Hf'.
    destruct (update_ok A (a_accept ans) (fresh_conn (a_accept ans) (a_addr ans))
      (init_actions (a_accept ans)) s) as (s' & Hup & Hs' & _ & Hu); [done..| |].
    { repeat constructor; intros n Hn1; try discriminate Hn1. by injection Hn1 as <-. }
    unfold init_actions in Hup. rewrite Hup. eexists _, _. split; [done|].
    by eapply accepted_ok.
  - rewrite (decide_False (P := fd = lfd /\ _)) by tauto. specialize (Hin Hfd).
    destruct (accepted_user A fd s Hs Hin) as (c & Hc & Hr & Hn).
    destruct (decide (Z.land mask (Z.lor _ _) <> 0)%Z).
    { destruct (close_user_ok A fd s Hs Hin) as (s' & acts & -> & Hs' & _). by eexists _, _. }
    destruct (decide (Z.land mask EPOLLIN <> 0)%Z) as [Hm|Hm].
    + destruct (Hrecv c Hfd Hm Hc) as [Hrs [b Hb]].
      destruct (read_ready _ c b Hr Hrs Hb) as (ok & c' & Hrd & Hr').
      rewrite (user_at_Some _ _ _ Hc). cbn [res_bind]. rewrite Hrd. cbn [res_bind].
      assert (server_ok A (set_user fd c' s)) as Hs1.
      { apply set_user_ok; [done|unfold has_next in Hn; lia|by apply ready_sized|done]. }
      destruct ok.
      * pose proof (append_ok A fd _ Hs1 Hin). destruct (pool_append fd _) as [b' s']. by eexists _, _.
      * destruct (close_user_ok A fd _ Hs1 Hin) as (s' & acts & -> & Hs' & _). by eexists _, _.
    + destruct (decide (Z.land mask EPOLLOUT <> 0)%Z); [|by eexists _, _].
      assert (Z.land mask EPOLLIN = 0)%Z as Hm0 by (destruct (decide (Z.land mask EPOLLIN = 0)%Z); tauto).
      destruct (write_ready _ c Hr (Hwr c Hfd Hm0 Hc)) as (ok & c' & acts & Hwrite & Hr' & Ha).
      rewrite (user_at_Some _ _ _ Hc). cbn [res_bind]. rewrite Hwrite. cbn [res_bind].
      destruct (update_ok A fd c' acts s Hs Hn Hr' Ha) as (s1 & -> & Hs1 & _ & _).
      cbn [res_bind]. destruct ok; [by eexists _, _|].
      destruct (close_user_ok A fd s1 Hs1 Hin) as (s2 & acts2 & -> & Hs2 & _).
      cbn [res_bind]. by eexists _, _.
Qed.

(** The request a worker takes. *)
Lemma next_request A fd w s :
  server_ok A s -> work s = fd :: w ->
  server_ok A (set_work w s) /\
  exists c, user_at fd (set_work w s) = Ok c /\ ready c /\ has_next fd.
Proof.
  intros Hs Ew.
  assert (fd ∈ A) as Hfd by (apply (so_work A s Hs); rewrite Ew; apply elem_of_cons; by left).
  destruct (accepted_user A fd s Hs Hfd) as (c & Hc & Hr & Hn). split.
  - destruct Hs as [? ? ? ? Hw]. split; try done. cbn [set_work work]. intros i Hi. apply Hw.
    rewrite Ew. apply elem_of_cons. by right.
  - exists c. split; [|done]. by apply user_at_Some.
Qed.

Lemma serve_ok A E s s' acts : server_ok A s -> serve E s = Ok (s', acts) -> server_ok A s'.
Proof.
  intros Hs H. unfold serve in H. destruct (work s) as [|fd w] eqn:Ew; [by injection H as <- <-|].
  destruct (next_request A fd w s Hs Ew) as (Hs1 & c & Hc & Hr & Hn). cbv zeta in H.
  rewrite Hc in H. cbn [res_bind] in H. apply res_bind_Ok_inv in H as ([c' acts'] & Hp & H).
  destruct (process_ready E c c' acts' Hr Hp) as [Hr' Ha].
  destruct (update_ok A fd c' acts' (set_work w s) Hs1 Hn Hr' Ha) as (s1 & Hu & Hs2 & _).
  rewrite Hu in H. by injection H as <- <-.
Qed.

Lemma process_fuel E c : ready c -> process E c <> OutOfFuel.
Proof.
  intros Hr. unfold process. apply res_bind_fuel.
  - by destruct (runs_process_read E c Hr) as (f & _ & H).
  - intros [ret c1] _. case_decide; [done|]. destruct (process_write ret c1) as [ok c2].
    by destruct (if negb ok then _ else _).
Qed.

Lemma serve_fuel A E s : server_ok A s -> serve E s <> OutOfFuel.
Proof.
  intros Hs. unfold serve. destruct (work s) as [|fd w] eqn:Ew; [done|].
  destruct (next_request A fd w s Hs Ew) as (Hs1 & c & Hc & Hr & Hn). cbv zeta.
  rewrite Hc. cbn [res_bind]. apply res_bind_fuel; [by apply process_fuel|].
  intros [c' acts] Hp. destruct (process_ready E c c' acts Hr Hp) as [Hr' Ha].
  by destruct (update_ok A fd c' acts (set_work w s) Hs1 Hn Hr' Ha) as (s1 & -> & _).
Qed.

(** ** The program

    The main thread handles an event, or a worker a request; an object is with one
    of them at a time, its socket being registered one-shot. *)
Inductive program_step lfd : gset Z * server -> gset Z * server -> Prop :=
| step_event A s fd mask ans s' acts :
    event_ok lfd A fd mask ans s -> handle lfd fd mask ans s = Ok (s', acts) ->
    program_step lfd (A, s) (accepted lfd A fd ans s, s')
| step_worker A s E s' acts :
    serve E s = Ok (s', acts) -> program_step lfd (A, s) (A, s').

Lemma program_ok lfd p p' :
  rtc (program_step lfd) p p' -> server_ok p.1 p.2 -> server_ok p'.1 p'.2.
Proof.
  induction 1 as [|p1 p2 p3 Hstep _ IH]; [done|]. intros Hs. apply IH. clear IH.
  destruct Hstep as [A s fd mask ans s' acts Hev Hh|A s E s' acts Hserve]; cbn [fst snd] in *.
  - destruct (handle_ok lfd A fd mask ans s Hs Hev) as (s2 & acts2 & Hh2 & Hs2).
    rewrite Hh in Hh2. by injection Hh2 as <- <-.
  - by eapply serve_ok.
Qed.


(** An array whose objects are all the same. *)
Lemma array_exists n c :
  exists us : gmap Z http_conn,
    forall i, us !! i = if decide (0 <= i < n)%Z then Some c else None.
Proof.
  exists (gset_to_gmap c (list_to_set (seqZ 0 n))). intros i.
  assert (i ∈@{gset Z} list_to_set (seqZ 0 n) <-> (0 <= i < n)%Z) as Hi
    by (rewrite elem_of_list_to_set, elem_of_seqZ; lia).
  case_decide; [apply lookup_gset_to_gmap_Some | apply lookup_gset_to_gmap_None]; tauto.
Qed.

Lemma array_initial us n :
  (forall i, us !! i = if decide (0 <= i < MAX_FD)%Z then Some blank_conn else None) ->
  initial (MkServer us 0 [] n).
Proof.
  intros Hus. split_and!; [| |done].
  - intros i. cbn [users]. rewrite Hus. case_decide as Hi.
    + split; [done|]. intros _. by eexists.
    + split; [by intros [? ?] | done].
  - intros i c. cbn [users]. rewrite Hus. case_decide; [|done]. intros [= <-]. apply blank_sized.
Qed.


(** ** [main]

    What [main] does before the loop, from its arguments after the program's name and
    what its calls answer. *)
Record setup := MkSetup {
  args : list (list char);
  pool_created : bool;            (* new threadpool<http_conn> does not throw *)
  r_socket : Z;
  r_bind : Z;
  r_listen : Z;
  r_epoll : Z
}.

Definition SIGPIPE : Z := 13.

(** Its calls; [sin_port] as its two bytes in memory. *)
Inductive setup_call :=
| IgnoreSignal (sig : Z)
| NewPool
| Socket
| ReuseAddr (fd : Z)
| Bind (fd : Z) (sin_port : list char)
| Listen (fd backlog : Z)
| EpollCreate (size : Z)
| Add (a : action).

Definition addsig (sig : Z) : list setup_call := [IgnoreSignal sig].

(** [inl]: the exit code; [inr]: the listening socket and the epoll descriptor the
    loop runs on. *)
Definition main_setup (m : setup) : res (list setup_call * (Z + Z * Z)) :=
  match args m with
  | [] => Ok ([], inl (-1)%Z)
  | arg :: _ =>
      let* port := atoi (arg ++ [NUL]) in
      let calls := addsig SIGPIPE ++ [NewPool] in
      if negb (pool_created m) then Ok (calls, inl (-1)%Z)
      else
        let lfd := r_socket m in
        let calls := calls ++ [Socket] in
        if decide (lfd = -1)%Z then Ok (calls, inl (-1)%Z)
        else
          let calls := calls ++ [ReuseAddr lfd;
                                 Bind lfd (store16 (host_to_network_short port))] in
          if decide (r_bind m = -1)%Z then Ok (calls, inl (-1)%Z)
          else
            let calls := calls ++ [Listen lfd 5] in
            if decide (r_listen m = -1)%Z then Ok (calls, inl (-1)%Z)
            else
              let epollfd := r_epoll m in
              Ok (calls ++ EpollCreate 5 :: (Add <$> addfd lfd false), inr (lfd, epollfd))
  end.

(** The places of a call in a list of calls. *)
Ltac in_calls H :=
  repeat (apply elem_of_cons in H as [H|H];
    [first [discriminate H | injection H as -> ->; split; reflexivity]|]);
  try apply elem_of_nil in H.

(** The port listened on is the number the argument begins with, modulo 65536, in
    network order; every failure ends the program with code -1 before it
    listens. *)
Theorem main_listens m arg rest port :
  args m = arg :: rest -> atoi (arg ++ [NUL]) = Ok port ->
  exists calls r, main_setup m = Ok (calls, r)
  /\ (forall fd p, Bind fd p ∈ calls -> fd = r_socket m /\ p = be16 (port mod 65536))
  /\ (r = inl (-1)%Z /\ (forall a, Add a ∉ calls)
      \/ r = inr (r_socket m, r_epoll m) /\ Listen (r_socket m) 5 ∈ calls
         /\ calls = [IgnoreSignal SIGPIPE; NewPool; Socket; ReuseAddr (r_socket m);
                     Bind (r_socket m) (be16 (port mod 65536)); Listen (r_socket m) 5;
                     EpollCreate 5] ++ (Add <$> addfd (r_socket m) false)).
Proof.
  intros Ha Hp. unfold main_setup. rewrite Ha, Hp. cbn [res_bind].
  rewrite store_network. change (to_uint16 port) with (port mod 65536)%Z.
  destruct (pool_created m); cbn [negb]; repeat case_decide;
    (eexists _, _; split; [reflexivity|]); cbn [addsig app];
    (split; [intros fd p Hin; by in_calls Hin|]);
    try (left; split; [done|]; intros a Hin; by in_calls Hin).
  right. split; [done|]. split; [do 5 right; left|done].
Qed.

Definition EINTR : Z := 4.

(** What [epoll_wait] answers: events, or a negative number and [errno]. *)
Inductive epoll_result :=
| Ready (evs : list (Z * Z * answers))
| Failed (errno : Z).

(** The loop; the flag says that it was left. *)
Fixpoint main_loop lfd (epollfd : Z) (rs : list epoll_result) s
    : res (server * list action * bool) :=
  match rs with
  | [] => Ok (s, [], false)
  | Failed errno :: rs =>
      if decide (errno <> EINTR) then Ok (s, [Close epollfd; Close lfd], true)
      else main_loop lfd epollfd rs s
  | Ready evs :: rs =>
      let* '(s, acts) := handle_all lfd evs s in
      let* '(s, acts', broke) := main_loop lfd epollfd rs s in
      Ok (s, acts ++ acts', broke)
  end.

Definition events (rs : list epoll_result) : list (Z * Z * answers) :=
  concat ((fun r => match r with Ready evs => evs | Failed _ => [] end) <$> rs).

Lemma handle_all_app lfd es1 es2 s :
  handle_all lfd (es1 ++ es2) s
  = (let* '(s, acts) := handle_all lfd es1 s in
     let* '(s, acts') := handle_all lfd es2 s in Ok (s, acts ++ acts')).
Proof.
  revert s. induction es1 as [|[[fd mask] ans] es1 IH]; intros s; cbn [app handle_all].
  - cbn [res_bind]. by destruct (handle_all lfd es2 s) as [[]| |].
  - destruct (handle lfd fd mask ans s) as [[s1 acts]| |]; cbn [res_bind]; [|done..].
    rewrite IH. destruct (handle_all lfd es1 s1) as [[s2 acts2]| |]; cbn [res_bind]; [|done..].
    destruct (handle_all lfd es2 s2) as [[s3 acts3]| |]; cbn [res_bind]; [|done..].
    by rewrite app_assoc.
Qed.

(** How the kernel groups the events does not matter, an interrupted wait neither;
    any other error leaves the loop and closes its two descriptors. *)
Theorem main_loop_spec lfd epollfd rs errno rest s :
  Forall (fun r => forall e, r = Failed e -> e = EINTR) rs -> errno <> EINTR ->
  main_loop lfd epollfd (rs ++ Failed errno :: rest) s
  = (let* '(s, acts) := handle_all lfd (events rs) s in
     Ok (s, acts ++ [Close epollfd; Close lfd], true)).
Proof.
  intros Hrs He. revert s. induction Hrs as [|r rs Hr Hrs IH]; intros s.
  - cbn. by rewrite decide_True.
  - unfold events. cbn [fmap list_fmap concat app main_loop]. fold (events rs).
    destruct r as [evs|e].
    + rewrite handle_all_app. destruct (handle_all lfd evs s) as [[s1 acts]| |]; cbn [res_bind];
        [|done..].
      rewrite IH. destruct (handle_all lfd (events rs) s1) as [[s2 acts2]| |]; cbn [res_bind];
        [|done..]. by rewrite app_assoc.
    + rewrite decide_False by (intros Hn; by apply Hn, Hr). apply IH.
Qed.

Lemma main_loop_spec_witness :
  main_loop 3 4 [Failed EINTR; Ready []; Failed EINTR; Failed 9; Ready []] sample_server
  = Ok (sample_server, [Close 4; Close 3], true).
Proof.
  apply (main_loop_spec 3 4 [Failed EINTR; Ready []; Failed EINTR] 9 [Ready []] sample_server).
  - repeat constructor; intros e He; by inversion He.
  - discriminate.
Defined.

Lemma main_listens_witness :
  let m := MkSetup [lit "70000"] true 3 0 0 4 in
  atoi (lit "70000" ++ [NUL]) = Ok 70000%Z
  /\ exists calls, main_setup m = Ok (calls, inr (3, 4)%Z) /\ Bind 3 (be16 4464) ∈ calls.
Proof.
  intros m. split; [reflexivity|].
  destruct (main_listens m (lit "70000") [] 70000 eq_refl eq_refl) as (calls & r & Hr & _ & H).
  destruct H as [[Hc _]|(Hc & _ & Hcs)].
  - rewrite Hc in Hr. vm_compute in Hr. discriminate Hr.
  - exists calls. rewrite Hc in Hr. split; [exact Hr|]. rewrite Hcs. do 4 right. left.
Defined.
