(* ===== verification/WebBench.v ===== *)
(** * The benchmark client: [1. Proactor/webbench-1.5/webbench.c]

    The options of [main], [build_request] on its fixed arrays, the loop of a child
    ([benchcore]) on what its system calls return, and the parent that adds up what
    its children report ([bench]).  The strings of [argv] are lists without a NUL. *)

From S2P Require Import Prelude CBase.

Definition METHOD_GET : Z := 0.
Definition METHOD_HEAD : Z := 1.
Definition METHOD_OPTIONS : Z := 2.
Definition METHOD_TRACE : Z := 3.
Definition MAXHOSTNAMELEN : nat := 64.
Definition REQUEST_SIZE : nat := 2048.

Definition COLON : char := ":"%char.

(** The global variables. *)
Record globals := MkGlobals {
  timerexpired : bool;
  speed : Z;
  failed : Z;
  bytes : Z;
  http10 : Z;
  method : Z;
  clients : Z;
  force : bool;
  force_reload : bool;
  proxyport : Z;
  proxyhost : option (list char);
  benchtime : Z;
  host : list char;
  request : list char
}.

Definition initial : globals :=
  MkGlobals false 0 0 0 1 METHOD_GET 1 false false 80 None 30
    (replicate MAXHOSTNAMELEN NUL) (replicate REQUEST_SIZE NUL).

Definition set_timer b g := MkGlobals b (speed g) (failed g) (bytes g) (http10 g) (method g)
  (clients g) (force g) (force_reload g) (proxyport g) (proxyhost g) (benchtime g) (host g) (request g).
Definition set_counts s f b g := MkGlobals (timerexpired g) s f b (http10 g) (method g)
  (clients g) (force g) (force_reload g) (proxyport g) (proxyhost g) (benchtime g) (host g) (request g).
Definition set_http10 v g := MkGlobals (timerexpired g) (speed g) (failed g) (bytes g) v (method g)
  (clients g) (force g) (force_reload g) (proxyport g) (proxyhost g) (benchtime g) (host g) (request g).
Definition set_method v g := MkGlobals (timerexpired g) (speed g) (failed g) (bytes g) (http10 g) v
  (clients g) (force g) (force_reload g) (proxyport g) (proxyhost g) (benchtime g) (host g) (request g).
Definition set_clients v g := MkGlobals (timerexpired g) (speed g) (failed g) (bytes g) (http10 g)
  (method g) v (force g) (force_reload g) (proxyport g) (proxyhost g) (benchtime g) (host g) (request g).
Definition set_force v g := MkGlobals (timerexpired g) (speed g) (failed g) (bytes g) (http10 g)
  (method g) (clients g) v (force_reload g) (proxyport g) (proxyhost g) (benchtime g) (host g) (request g).
Definition set_reload v g := MkGlobals (timerexpired g) (speed g) (failed g) (bytes g) (http10 g)
  (method g) (clients g) (force g) v (proxyport g) (proxyhost g) (benchtime g) (host g) (request g).
Definition set_proxy h p g := MkGlobals (timerexpired g) (speed g) (failed g) (bytes g) (http10 g)
  (method g) (clients g) (force g) (force_reload g) p h (benchtime g) (host g) (request g).
Definition set_benchtime v g := MkGlobals (timerexpired g) (speed g) (failed g) (bytes g) (http10 g)
  (method g) (clients g) (force g) (force_reload g) (proxyport g) (proxyhost g) v (host g) (request g).
Definition set_host v g := MkGlobals (timerexpired g) (speed g) (failed g) (bytes g) (http10 g)
  (method g) (clients g) (force g) (force_reload g) (proxyport g) (proxyhost g) (benchtime g) v (request g).
Definition set_request v g := MkGlobals (timerexpired g) (speed g) (failed g) (bytes g) (http10 g)
  (method g) (clients g) (force g) (force_reload g) (proxyport g) (proxyhost g) (benchtime g) (host g) v.

(** ** String functions *)

(** [strrchr]: the last occurrence. *)
Fixpoint find_last (x : char) (w : list char) : option nat :=
  match w with
  | [] => None
  | c :: w =>
      match find_last x w with
      | Some k => Some (S k)
      | None => if decide (c = x) then Some 0 else None
      end
  end.

(** [strstr]. *)
Fixpoint find_sub (p w : list char) : option nat :=
  if decide (take (length p) w = p) then Some 0
  else match w with [] => None | _ :: w => S <$> find_sub p w end.

(** [strcpy] and [strcat] of a string [d] to an array, [strncpy] to its start. *)
Definition strcpy (buf d : list char) : res (list char) := put 0 (d ++ [NUL]) buf.

Definition strcat (buf d : list char) : res (list char) :=
  let* w := of_option (cstr buf) in put (length w) (d ++ [NUL]) buf.

Definition strncpy (buf src : list char) (n : nat) : res (list char) :=
  let* d := strncpy_bytes src n in put 0 d buf.

(** ** [main] before the benchmark

    What [getopt_long] returns: it stores a flag itself, or gives an option and its
    argument. *)
Inductive option_read :=
| FlagForce | FlagReload | FlagMethod (m : Z)
| Opt (c : char) (optarg : list char).

(** [inl]: the program ends with this code. *)
Definition main_option (o : option_read) (g : globals) : res (Z + globals) :=
  match o with
  | FlagForce => Ok (inr (set_force true g))
  | FlagReload => Ok (inr (set_reload true g))
  | FlagMethod m => Ok (inr (set_method m g))
  | Opt "f" _ => Ok (inr (set_force true g))
  | Opt "r" _ => Ok (inr (set_reload true g))
  | Opt "9" _ => Ok (inr (set_http10 0 g))
  | Opt "1" _ => Ok (inr (set_http10 1 g))
  | Opt "2" _ => Ok (inr (set_http10 2 g))
  | Opt "V" _ => Ok (inl 0%Z)
  | Opt "t" optarg => let* v := atoi (optarg ++ [NUL]) in Ok (inr (set_benchtime v g))
  | Opt "p" optarg =>
      match find_last COLON optarg with
      | None => Ok (inr (set_proxy (Some optarg) (proxyport g) g))
      | Some tmp =>
          if decide (tmp = 0) then Ok (inl 2%Z)
          else if decide (tmp = length optarg - 1) then Ok (inl 2%Z)
          else
            let* p := atoi (drop (S tmp) optarg ++ [NUL]) in
            Ok (inr (set_proxy (Some (take tmp optarg)) p g))
      end
  | Opt ":" _ | Opt "h" _ | Opt "?" _ => Ok (inl 2%Z)
  | Opt "c" optarg => let* v := atoi (optarg ++ [NUL]) in Ok (inr (set_clients v g))
  | Opt _ _ => Ok (inr g)
  end.

Fixpoint main_options (os : list option_read) (g : globals) : res (Z + globals) :=
  match os with
  | [] => Ok (inr g)
  | o :: os =>
      let* r := main_option o g in
      match r with inl code => Ok (inl code) | inr g => main_options os g end
  end.

(** ** [build_request] *)

Definition method_name (m : Z) : list char :=
  if decide (m = METHOD_HEAD) then lit "HEAD"
  else if decide (m = METHOD_OPTIONS) then lit "OPTIONS"
  else if decide (m = METHOD_TRACE) then lit "TRACE"
  else lit "GET".

(** [if (P && http10 < v) http10 = v;] *)
Definition raise_to (v : Z) (P : Prop) `{!Decision P} (g : globals) : globals :=
  if decide (P /\ (http10 g < v)%Z) then set_http10 v g else g.

(** The version a proxy or a method needs. *)
Definition raise_version (g : globals) : globals :=
  let g := raise_to 1 (force_reload g = true /\ proxyhost g <> None) g in
  let g := raise_to 1 (method g = METHOD_HEAD) g in
  let g := raise_to 2 (method g = METHOD_OPTIONS) g in
  raise_to 2 (method g = METHOD_TRACE) g.

(** The arrays are zeroed and the version is raised. *)
Definition cleared (g : globals) : globals :=
  raise_version (set_host (replicate MAXHOSTNAMELEN NUL) (set_request (replicate REQUEST_SIZE NUL) g)).

(** Host and port of [rest], the URL from its host on, [slash] the offset of its
    first slash. *)
Definition split_host (rest : list char) (slash : nat) (g : globals) : res globals :=
  match find_any [COLON] rest with
  | Some colon =>
      if decide (colon < slash) then
        let* h := strncpy (host g) (rest ++ [NUL]) colon in
        let* tmp := strncpy (replicate 10 NUL) (drop (S colon) rest ++ [NUL]) (slash - colon - 1) in
        let* p := atoi tmp in
        Ok (set_proxy (proxyhost g) (if decide (p = 0%Z) then 80%Z else p) (set_host h g))
      else
        let* h := strncpy (host g) (rest ++ [NUL]) slash in Ok (set_host h g)
  | None => let* h := strncpy (host g) (rest ++ [NUL]) slash in Ok (set_host h g)
  end.

(** The lines after the target. *)
Definition request_lines (g : globals) (r : list char) : res (list char) :=
  let* r := if decide (http10 g = 1%Z) then strcat r (lit " HTTP/1.0")
            else if decide (http10 g = 2%Z) then strcat r (lit " HTTP/1.1") else Ok r in
  let* r := strcat r CRLF in
  let* r := if decide (0 < http10 g)%Z then strcat r (lit "User-Agent: WebBench 1.5" ++ CRLF)
            else Ok r in
  let* r := if decide (proxyhost g = None /\ (0 < http10 g)%Z) then
              let* r := strcat r (lit "Host: ") in
              let* h := of_option (cstr (host g)) in
              let* r := strcat r h in
              strcat r CRLF
            else Ok r in
  let* r := if decide (force_reload g = true /\ proxyhost g <> None)
            then strcat r (lit "Pragma: no-cache" ++ CRLF) else Ok r in
  let* r := if decide (1 < http10 g)%Z then strcat r (lit "Connection: close" ++ CRLF)
            else Ok r in
  if decide (0 < http10 g)%Z then strcat r CRLF else Ok r.

Definition build_request (url : list char) (g : globals) : res (Z + globals) :=
  let g := cleared g in
  let* r := strcpy (request g) (method_name (method g)) in
  let* r := strcat r [SP] in
  match find_sub (lit "://") url with
  | None => Ok (inl 2%Z)
  | Some k =>
      if decide (1500 < length url) then Ok (inl 2%Z)
      else
        let* is_http := strncasecmp_eq (url ++ [NUL]) (lit "http://") 7 in
        if decide (proxyhost g = None /\ is_http = false) then Ok (inl 2%Z)
        else
          let rest := drop (k + 3) url in
          match find_any [SLASH] rest with
          | None => Ok (inl 2%Z)
          | Some slash =>
              let* '(g, r) :=
                match proxyhost g with
                | None =>
                    let* g := split_host rest slash g in
                    let* r := strcat r (drop slash rest) in Ok (g, r)
                | Some _ => let* r := strcat r url in Ok (g, r)
                end in
              let* r := request_lines g r in
              Ok (inr (set_request r g))
          end
  end.

(** [main] up to [bench]: the options, then the arguments. *)
Definition main_setup (os : list option_read) (args : list (list char)) (g : globals)
    : res (Z + globals) :=
  if decide (os = [] /\ args = []) then Ok (inl 2%Z)
  else
    let* r := main_options os g in
    match r with
    | inl code => Ok (inl code)
    | inr g =>
        match args with
        | [] => Ok (inl 2%Z)
        | url :: _ =>
            let g := if decide (clients g = 0%Z) then set_clients 1 g else g in
            let g := if decide (benchtime g = 0%Z) then set_benchtime 60 g else g in
            build_request url g
        end
    end.

(** ** The loop of a child

    What the calls of one turn return.  In the loop of reads, [Expired]: the alarm came
    before the next [read]; when no more reads are given, the alarm interrupts one. *)
Inductive read_event := Expired | Got (n : Z).

Record attempt := MkAttempt {
  a_socket : Z;
  a_write : Z;
  a_shutdown : Z;
  a_reads : list read_event;
  a_close : Z
}.

Definition count_failed (g : globals) : res globals :=
  let* f := int_add (failed g) 1 in Ok (set_counts (speed g) f (bytes g) g).
Definition count_speed (g : globals) : res globals :=
  let* s := int_add (speed g) 1 in Ok (set_counts s (failed g) (bytes g) g).
Definition count_bytes (n : Z) (g : globals) : res globals :=
  let* b := int_add (bytes g) n in Ok (set_counts (speed g) (failed g) b g).

(** [true]: the loop of reads was left by [break]. *)
Fixpoint read_loop (rs : list read_event) (g : globals) : res (bool * globals) :=
  if timerexpired g then Ok (true, g)
  else
    match rs with
    | [] => let* g := count_failed (set_timer true g) in Ok (false, g)
    | Expired :: _ => Ok (true, set_timer true g)
    | Got i :: rs =>
        if decide (i < 0)%Z then let* g := count_failed g in Ok (false, g)
        else if decide (i = 0)%Z then Ok (true, g)
        else let* g := count_bytes i g in read_loop rs g
    end.

(** One turn of [while(1)], [rlen] the length of the request. *)
Definition attempt_run (rlen : Z) (a : attempt) (g : globals) : res globals :=
  if decide (a_socket a < 0)%Z then count_failed g
  else if decide (rlen <> a_write a) then count_failed g
  else if decide (http10 g = 0%Z /\ a_shutdown a <> 0%Z) then count_failed g
  else
    let* '(ok, g) := if force g then Ok (true, g) else read_loop (a_reads a) g in
    if ok : bool then
      if decide (a_close a <> 0%Z) then count_failed g else count_speed g
    else Ok g.

(** [benchcore]; the alarm comes after the attempts, unless it came during one. *)
Definition bench_end (g : globals) : res globals :=
  if decide (0 < failed g)%Z then
    let* f := int_add (failed g) (-1) in Ok (set_counts (speed g) f (bytes g) g)
  else Ok g.

Fixpoint benchcore (rlen : Z) (ats : list attempt) (g : globals) : res globals :=
  if timerexpired g then bench_end g
  else
    match ats with
    | [] => bench_end (set_timer true g)
    | a :: ats => let* g := attempt_run rlen a g in benchcore rlen ats g
    end.

(** ** The parent

    The reports [fscanf] reads; the pipe ends when the children are gone.  The result
    is what [bench] returns: [i]. *)
Fixpoint collect (rs : list (Z * Z * Z)) (i : Z) (g : globals) : res (Z * globals) :=
  match rs with
  | [] => Ok (i, g)
  | (i, j, k) :: rs =>
      let* s := int_add (speed g) i in
      let* f := int_add (failed g) j in
      let* b := int_add (bytes g) k in
      let* c := int_add (clients g) (-1) in
      let g := set_clients c (set_counts s f b g) in
      if decide (c = 0%Z) then Ok (i, g) else collect rs i g
  end.

Definition bench_parent (rs : list (Z * Z * Z)) (g : globals) : res (Z * globals) :=
  collect rs (clients g) (set_counts 0 0 0 g).

(** ** The arrays

    A string [w] in an array of [cap] bytes that was zeroed. *)
Definition padded (cap : nat) (w : list char) : list char := w ++ replicate (cap - length w) NUL.

Lemma padded_cons cap w :
  length w < cap -> padded cap w = w ++ NUL :: replicate (cap - S (length w)) NUL.
Proof.
  intros H. unfold padded. by replace (cap - length w) with (S (cap - S (length w))) by lia.
Qed.

Lemma cstr_array cap w : (NUL ∉ w) -> length w < cap -> cstr (padded cap w) = Some w.
Proof. intros Hn Hl. rewrite padded_cons by done. by apply cstr_app. Qed.

Lemma length_padded cap w : length w <= cap -> length (padded cap w) = cap.
Proof. intros H. unfold padded. rewrite length_app, length_replicate. lia. Qed.

Lemma put_padded cap w d :
  length w + length d < cap -> put (length w) (d ++ [NUL]) (padded cap w) = Ok (padded cap (w ++ d)).
Proof.
  intros H. rewrite put_ok by (rewrite length_padded, length_app; simpl; lia). f_equal.
  rewrite blit_in_range by (rewrite length_padded, length_app; simpl; lia).
  unfold padded. rewrite take_app_length, length_app. cbn [length].
  rewrite drop_app_ge by lia. rewrite drop_replicate, <- !app_assoc. do 2 f_equal.
  rewrite length_app.
  replace (cap - (length w + length d)) with (S (cap - length w - (length w + (length d + 1) - length w)))
    by lia. done.
Qed.

Lemma strcpy_run cap d : length d < cap -> strcpy (replicate cap NUL) d = Ok (padded cap d).
Proof.
  intros H. pose proof (put_padded cap [] d) as Hp. unfold padded at 1 in Hp.
  cbn [length app] in Hp. rewrite Nat.sub_0_r in Hp. by apply Hp.
Qed.

Lemma strcat_run cap w d :
  (NUL ∉ w) -> length w + length d < cap -> strcat (padded cap w) d = Ok (padded cap (w ++ d)).
Proof.
  intros Hn Hl. unfold strcat. rewrite cstr_array by (done || lia). cbn [of_option res_bind].
  by apply put_padded.
Qed.

Lemma strcat_if (P : Prop) `{!Decision P} cap w d :
  (NUL ∉ w) -> (P -> length w + length d < cap) ->
  (if decide P then strcat (padded cap w) d else Ok (padded cap w))
  = Ok (padded cap (w ++ if decide P then d else [])).
Proof.
  intros Hn Hl. case_decide as H; [by apply strcat_run; auto|]. by rewrite app_nil_r.
Qed.

(** [strncpy] of the first [n] characters of a longer string. *)
Lemma strncpy_run cap src n :
  (NUL ∉ src) -> n <= length src -> n <= cap ->
  strncpy (replicate cap NUL) (src ++ [NUL]) n = Ok (padded cap (take n src)).
Proof.
  intros Hn Hl Hc. unfold strncpy. rewrite strncpy_bytes_spec by done. cbn [res_bind].
  rewrite take_app_le by done.
  rewrite put_ok by (rewrite length_take, length_replicate; lia). f_equal.
  rewrite blit_in_range by (rewrite length_take, length_replicate; lia).
  rewrite take_0, drop_replicate. unfold padded. rewrite length_take. done.
Qed.

Lemma strncpy_overflow cap src n :
  (NUL ∉ src) -> cap < n -> strncpy (replicate cap NUL) (src ++ [NUL]) n = UB.
Proof.
  intros Hn Hl. unfold strncpy. rewrite strncpy_bytes_spec by done. cbn [res_bind].
  apply put_overflow. rewrite length_take, length_app, !length_replicate. lia.
Qed.

(** Several [strcat]s. *)
Fixpoint strcats (r : list char) (ds : list (list char)) : res (list char) :=
  match ds with
  | [] => Ok r
  | d :: ds => let* r := strcat r d in strcats r ds
  end.

Lemma strcats_app r ds ds' :
  strcats r (ds ++ ds') = (let* r := strcats r ds in strcats r ds').
Proof.
  revert r. induction ds as [|d ds IH]; intros r; [done|]. cbn [app strcats].
  by destruct (strcat r d); cbn [res_bind].
Qed.

Lemma strcats_if (P : Prop) `{!Decision P} r d :
  strcats r (if decide P then [d] else []) = if decide P then strcat r d else Ok r.
Proof. case_decide; cbn; [by destruct (strcat r d)|done]. Qed.

Lemma not_elem_of_concat (x : char) ds : Forall (fun d => x ∉ d) ds -> x ∉ concat ds.
Proof.
  induction 1 as [|d ds Hd _ IH]; cbn [concat]; [apply not_elem_of_nil|by apply not_elem_of_app].
Qed.

Lemma strcats_run cap w ds :
  (NUL ∉ w) -> Forall (fun d => NUL ∉ d) ds -> length w + length (concat ds) < cap ->
  strcats (padded cap w) ds = Ok (padded cap (w ++ concat ds)).
Proof.
  intros Hw Hds. revert w Hw. induction Hds as [|d ds Hd _ IH]; intros w Hw Hl.
  { cbn. by rewrite app_nil_r. }
  cbn [strcats concat] in *. rewrite length_app in Hl. rewrite strcat_run by (done || lia).
  cbn [res_bind]. rewrite IH; [by rewrite app_assoc|by apply not_elem_of_app|].
  rewrite length_app. lia.
Qed.

(** ** The text of a request *)

(** What follows the target; [h] is the host's name. *)
Definition tail_pieces (g : globals) (h : list char) : list (list char) :=
  (if decide (http10 g = 1%Z) then [lit " HTTP/1.0"]
   else if decide (http10 g = 2%Z) then [lit " HTTP/1.1"] else [])
  ++ [CRLF]
  ++ (if decide (0 < http10 g)%Z then [lit "User-Agent: WebBench 1.5" ++ CRLF] else [])
  ++ (if decide (proxyhost g = None /\ (0 < http10 g)%Z) then [lit "Host: "; h; CRLF] else [])
  ++ (if decide (force_reload g = true /\ proxyhost g <> None)
      then [lit "Pragma: no-cache" ++ CRLF] else [])
  ++ (if decide (1 < http10 g)%Z then [lit "Connection: close" ++ CRLF] else [])
  ++ (if decide (0 < http10 g)%Z then [CRLF] else []).

Definition tail_text (g : globals) (h : list char) : list char := concat (tail_pieces g h).

Lemma request_lines_pieces g h r :
  (proxyhost g = None -> cstr (host g) = Some h) ->
  request_lines g r = strcats r (tail_pieces g h).
Proof.
  intros Hh. unfold request_lines, tail_pieces. rewrite !strcats_app.
  assert (strcats r (if decide (http10 g = 1%Z) then [lit " HTTP/1.0"]
     else if decide (http10 g = 2%Z) then [lit " HTTP/1.1"] else [])
    = if decide (http10 g = 1%Z) then strcat r (lit " HTTP/1.0")
      else if decide (http10 g = 2%Z) then strcat r (lit " HTTP/1.1") else Ok r) as ->.
  { case_decide; [by cbn; destruct (strcat _ _)|]. apply strcats_if. }
  destruct (if decide (http10 g = 1%Z) then _ else _) as [r1| |]; cbn [res_bind]; try done.
  rewrite strcats_app. cbn [strcats]. destruct (strcat r1 CRLF) as [r2| |]; cbn [res_bind]; try done.
  rewrite strcats_app, strcats_if.
  destruct (if decide (0 < http10 g)%Z then _ else _) as [r3| |]; cbn [res_bind]; try done.
  rewrite strcats_app. case_decide as Hp; [destruct Hp as [Hp _]; rewrite (Hh Hp)|];
    cbn [strcats of_option res_bind].
  - destruct (strcat r3 (lit "Host: ")) as [r4| |]; cbn [res_bind]; try done.
    destruct (strcat r4 h) as [r5| |]; cbn [res_bind]; try done.
    destruct (strcat r5 CRLF) as [r6| |]; cbn [res_bind]; try done.
    rewrite !strcats_app, strcats_if. destruct (if decide _ then _ else _) as [r7| |]; try done.
    cbn [res_bind]. rewrite strcats_app, strcats_if.
    destruct (if decide (1 < http10 g)%Z then _ else _) as [r8| |]; try done.
    cbn [res_bind]. by rewrite strcats_if.
  - rewrite !strcats_app, strcats_if. destruct (if decide _ then _ else _) as [r7| |]; try done.
    cbn [res_bind]. rewrite strcats_app, strcats_if.
    destruct (if decide (1 < http10 g)%Z then _ else _) as [r8| |]; try done.
    cbn [res_bind]. by rewrite strcats_if.
Qed.

Ltac no_nul := apply (bool_decide_unpack _); vm_compute; exact I.

Lemma piece_length (P : Prop) `{!Decision P} (d : list char) :
  length (concat (if decide P then [d] else [])) <= length d.
Proof. case_decide; simpl; [rewrite app_nil_r|]; lia. Qed.

(** The lines have no NUL and take at most 90 bytes besides the host's name. *)
Lemma tail_pieces_ok g h :
  (NUL ∉ h) -> Forall (fun d => NUL ∉ d) (tail_pieces g h) /\ length (tail_text g h) <= 90 + length h.
Proof.
  intros Hh. unfold tail_text, tail_pieces. split.
  - rewrite !Forall_app. split_and!; repeat case_decide;
      repeat (apply Forall_cons; split; [first [exact Hh | no_nul]|]); apply Forall_nil; exact I.
  - rewrite !concat_app, !length_app.
    pose proof (piece_length (0 < http10 g)%Z (lit "User-Agent: WebBench 1.5" ++ CRLF)) as H1.
    pose proof (piece_length (force_reload g = true /\ proxyhost g <> None)
      (lit "Pragma: no-cache" ++ CRLF)) as H2.
    pose proof (piece_length (1 < http10 g)%Z (lit "Connection: close" ++ CRLF)) as H3.
    pose proof (piece_length (0 < http10 g)%Z CRLF) as H4.
    change (length (lit "User-Agent: WebBench 1.5" ++ CRLF)) with 26 in H1.
    change (length (lit "Pragma: no-cache" ++ CRLF)) with 18 in H2.
    change (length (lit "Connection: close" ++ CRLF)) with 19 in H3.
    change (length CRLF) with 2 in H4. change (length (concat [CRLF])) with 2.
    assert (length (concat (if decide (proxyhost g = None /\ (0 < http10 g)%Z)
      then [lit "Host: "; h; CRLF] else [])) <= 8 + length h) as H5.
    { destruct (decide (proxyhost g = None /\ _)); [|simpl; lia]. cbn [concat].
      rewrite !length_app. change (length (lit "Host: ")) with 6.
      change (length CRLF) with 2. simpl. lia. }
    assert (length (concat (if decide (http10 g = 1%Z) then [lit " HTTP/1.0"]
      else if decide (http10 g = 2%Z) then [lit " HTTP/1.1"] else [])) <= 9) as H6.
    { destruct (decide (http10 g = 1%Z)); [apply Nat.leb_le; reflexivity|].
      pose proof (piece_length (http10 g = 2%Z) (lit " HTTP/1.1")) as H.
      change (length (lit " HTTP/1.1")) with 9 in H. exact H. }
    lia.
Qed.

(** ** URLs of a server *)

Definition authority (h : list char) (p : option (list char)) : list char :=
  h ++ match p with Some p => COLON :: p | None => [] end.

Definition direct_url (h : list char) (p : option (list char)) (path : list char) : list char :=
  lit "http://" ++ authority h p ++ path.

(** A host, a port and a path in a URL that is not too long. *)
Record url_parts (h : list char) (p : option (list char)) (path : list char) : Prop := {
  u_nul : NUL ∉ direct_url h p path;
  u_host : (COLON ∉ h) /\ (SLASH ∉ h);
  u_port : SLASH ∉ default [] p;
  u_path : head path = Some SLASH;
  u_length : length (direct_url h p path) <= 1500
}.

Definition port_of (p : option (list char)) (g : globals) : Z :=
  match p with
  | Some p => let v := to_int (atol_val p) in if decide (v = 0%Z) then 80%Z else v
  | None => proxyport g
  end.

Lemma find_any_first x w w' : (x ∉ w) -> find_any [x] (w ++ x :: w') = Some (length w).
Proof.
  intros Hw. apply find_any_app; [|by left]. apply find_any_None. intros c Hc Hx.
  apply list_elem_of_singleton in Hx as ->. done.
Qed.

Lemma take_drop_authority h p path :
  take (length h) (authority h p ++ path) = h
  /\ drop (length (authority h p)) (authority h p ++ path) = path.
Proof.
  split; [unfold authority; rewrite <- app_assoc; apply take_app_length|apply drop_app_length].
Qed.

Lemma split_host_run h p path g :
  url_parts h p path -> host g = replicate MAXHOSTNAMELEN NUL ->
  split_host (authority h p ++ path) (length (authority h p)) g
  = (let* hs := if decide (MAXHOSTNAMELEN < length h) then UB else Ok (padded MAXHOSTNAMELEN h) in
     match p with
     | None => Ok (set_host hs g)
     | Some p =>
         let* tmp := if decide (10 < length p) then UB else Ok (padded 10 p) in
         let* v := atoi tmp in
         Ok (set_proxy (proxyhost g) (if decide (v = 0%Z) then 80%Z else v) (set_host hs g))
     end).
Proof.
  intros [Hn [Hc Hs] Hp Hpath Hl] Hg. destruct path as [|x path]; [done|]. injection Hpath as ->.
  set (rest := authority h p ++ SLASH :: path) in *.
  assert (NUL ∉ rest) as Hnr by (intros H; apply Hn; unfold direct_url; apply elem_of_app; by right).
  assert (strncpy (host g) (rest ++ [NUL]) (length h)
    = if decide (MAXHOSTNAMELEN < length h) then UB else Ok (padded MAXHOSTNAMELEN h)) as Hcopy.
  { rewrite Hg. case_decide; [by apply strncpy_overflow|].
    assert (length h <= length rest)
      by (unfold rest, authority; rewrite !length_app; lia).
    rewrite strncpy_run by (done || lia). f_equal. f_equal.
    apply (take_drop_authority h p (SLASH :: path)). }
  unfold split_host. fold rest. destruct p as [p|].
  - assert (find_any [COLON] rest = Some (length h)) as ->.
    { unfold rest, authority. rewrite <- app_assoc. by apply find_any_first. }
    unfold authority. rewrite length_app. cbn [length]. rewrite decide_True by lia.
    rewrite Hcopy. destruct (if decide _ then _ else _) as [hs| |]; cbn [res_bind]; try done.
    assert (drop (S (length h)) rest = p ++ SLASH :: path) as ->.
    { unfold rest, authority. rewrite <- app_assoc. cbn [app].
      replace (S (length h)) with (length (h ++ [COLON])) by (rewrite length_app; simpl; lia).
      change (COLON :: p ++ SLASH :: path) with ([COLON] ++ (p ++ SLASH :: path)).
      by rewrite app_assoc, drop_app_length. }
    replace (length h + S (length p) - length h - 1) with (length p) by lia.
    assert (NUL ∉ p ++ SLASH :: path) as Hnp.
    { intros H. apply Hnr. unfold rest, authority. rewrite <- app_assoc.
      apply elem_of_app. right. by right. }
    destruct (decide (10 < length p)) as [H10|H10].
    + by rewrite strncpy_overflow by (done || lia).
    + rewrite strncpy_run by (done || rewrite ?length_app; simpl; lia).
      by rewrite take_app_length.
  - assert (authority h None = h) as Ha by (unfold authority; apply app_nil_r).
    rewrite Ha, Hcopy. destruct (find_any [COLON] rest) as [colon|] eqn:Ec; [|done].
    rewrite decide_False; [done|]. intros Hlt.
    apply find_any_Some in Ec as (w1 & c & w2 & Hr & <- & ->%list_elem_of_singleton & _).
    unfold rest in Hr. rewrite Ha in Hr.
    assert (COLON ∈ take (length h) (h ++ SLASH :: path)) as Hin.
    { rewrite Hr, take_app_ge by lia. apply elem_of_app. right.
      destruct (length h - length w1) eqn:E; [lia|]. left. }
    rewrite take_app_length in Hin. done.
Qed.

(** ** [build_request] on such a URL *)

Lemma raise_to_no v (P : Prop) `{!Decision P} g : (P -> (v <= http10 g)%Z) -> raise_to v P g = g.
Proof. intros H. unfold raise_to. rewrite decide_False; [done|]. intros [HP ?]. specialize (H HP). lia. Qed.

Lemma raise_version_get g :
  method g = METHOD_GET -> proxyhost g = None -> raise_version g = g.
Proof.
  intros Hm Hp. unfold raise_version.
  rewrite (raise_to_no 1 _ g) by (intros [_ ?]; done). cbv zeta.
  rewrite (raise_to_no 1 _ g) by (rewrite Hm; done).
  rewrite (raise_to_no 2 _ g) by (rewrite Hm; done).
  by rewrite (raise_to_no 2 _ g) by (rewrite Hm; done).
Qed.

(** Only [http10] changes. *)
Lemma raise_to_eq v (P : Prop) `{!Decision P} g g0 :
  g0 = set_http10 (http10 g0) g -> raise_to v P g0 = set_http10 (http10 (raise_to v P g0)) g.
Proof. intros H. unfold raise_to. case_decide; [|done]. rewrite H. by destruct g. Qed.

Lemma raise_version_eq g :
  exists v, raise_version g = set_http10 v g /\ v = http10 (raise_version g).
Proof.
  exists (http10 (raise_version g)). split; [|done].
  unfold raise_version. do 4 apply raise_to_eq. by destruct g.
Qed.

(** It changes as the options say. *)
Lemma raise_to_http v (P P' : Prop) `{!Decision P, !Decision P'} g g' :
  (P <-> P') -> http10 g = http10 g' -> http10 (raise_to v P g) = http10 (raise_to v P' g').
Proof.
  intros HP H. unfold raise_to. destruct (decide (P /\ _)) as [[H1 H2]|H1].
  - rewrite decide_True; [done|]. rewrite <- H. by split; [apply HP|].
  - rewrite decide_False; [done|]. rewrite <- H. intros [? ?]. apply H1. by split; [apply HP|].
Qed.

Lemma raise_to_method v (P : Prop) `{!Decision P} g : method (raise_to v P g) = method g.
Proof. unfold raise_to. by case_decide. Qed.

Lemma raise_version_http g g' :
  http10 g = http10 g' -> method g = method g' -> force_reload g = force_reload g' ->
  proxyhost g = proxyhost g' -> http10 (raise_version g) = http10 (raise_version g').
Proof.
  intros H1 H2 H3 H4. unfold raise_version.
  repeat (apply raise_to_http; [rewrite ?raise_to_method, ?H2, ?H3, ?H4; done|]). exact H1.
Qed.

Lemma method_name_ok m : (NUL ∉ method_name m) /\ length (method_name m) <= 7.
Proof. unfold method_name. repeat case_decide; (split; [no_nul|apply Nat.leb_le; reflexivity]). Qed.

Lemma raise_fields x y g :
  let g' := raise_version (set_host x (set_request y g)) in
  proxyhost g' = proxyhost g /\ method g' = method g
  /\ proxyport g' = proxyport g /\ host g' = x
  /\ request g' = y /\ force_reload g' = force_reload g
  /\ http10 g' = http10 (raise_version g).
Proof.
  cbv zeta. destruct (raise_version_eq (set_host x (set_request y g))) as (v & E & Hv).
  rewrite E. rewrite (raise_version_http _ g) in Hv by done. rewrite <- Hv.
  cbn [set_http10 set_host set_request proxyhost method proxyport host request force_reload http10].
  by split_and!.
Qed.

Lemma cleared_fields g :
  proxyhost (cleared g) = proxyhost g /\ method (cleared g) = method g
  /\ proxyport (cleared g) = proxyport g /\ host (cleared g) = replicate MAXHOSTNAMELEN NUL
  /\ request (cleared g) = replicate REQUEST_SIZE NUL /\ force_reload (cleared g) = force_reload g
  /\ http10 (cleared g) = http10 (raise_version g).
Proof. exact (raise_fields (replicate MAXHOSTNAMELEN NUL) (replicate REQUEST_SIZE NUL) g). Qed.

Lemma build_request_run h p path g :
  url_parts h p path -> proxyhost g = None ->
  build_request (direct_url h p path) g
  = (let* g1 := split_host (authority h p ++ path) (length (authority h p)) (cleared g) in
     let* r := request_lines g1 (padded REQUEST_SIZE (method_name (method g) ++ [SP] ++ path)) in
     Ok (inr (set_request r g1))).
Proof.
  intros Hu Hp. pose proof Hu as [Hn [Hc Hs] Hps Hpath Hl]. unfold build_request.
  destruct (cleared_fields g) as (E1 & E2 & _ & _ & E5 & _ & _).
  rewrite E2, E5. destruct (method_name_ok (method g)) as [Hm Hml].
  rewrite strcpy_run by (unfold REQUEST_SIZE; lia). cbn [res_bind].
  rewrite strcat_run by (done || (change (length [SP]) with 1; unfold REQUEST_SIZE; lia)).
  cbn [res_bind].
  assert (find_sub (lit "://") (direct_url h p path) = Some 4) as -> by reflexivity.
  rewrite decide_False by lia.
  assert (strncasecmp_eq (direct_url h p path ++ [NUL]) (lit "http://") 7 = Ok true) as ->.
  { rewrite (strncasecmp_spec (lit "http://")) by no_nul. by f_equal. }
  cbn [res_bind]. rewrite decide_False by (intros [_ ?]; done).
  change (drop (4 + 3) (direct_url h p path)) with (authority h p ++ path).
  destruct path as [|x path]; [done|]. injection Hpath as ->.
  rewrite find_any_first; cycle 1.
  { unfold authority. apply not_elem_of_app. split; [done|]. destruct p as [p|]; [|apply not_elem_of_nil].
    apply not_elem_of_cons. by split. }
  rewrite E1, Hp. rewrite (proj2 (take_drop_authority h p (SLASH :: path))).
  destruct (split_host _ _ _) as [g1| |]; cbn [res_bind]; try done.
  assert (NUL ∉ SLASH :: path) as Hnp.
  { intros H. apply Hn. unfold direct_url. rewrite !elem_of_app. auto. }
  rewrite strcat_run; [cbn [res_bind]; by rewrite <- app_assoc| |].
  - apply not_elem_of_app. split; [done|]. no_nul.
  - rewrite length_app. unfold direct_url in Hl. rewrite !length_app in Hl.
    change (length (lit "http://")) with 7 in Hl.
    change (length [SP]) with 1. unfold REQUEST_SIZE. lia.
Qed.

(** The request for [path] on host [h], version and method as given and raised. *)
Definition request_text (g : globals) (h path : list char) : list char :=
  method_name (method g) ++ [SP] ++ path ++ tail_text (raise_version g) h.

Lemma tail_text_ext g g' h :
  http10 g = http10 g' -> proxyhost g = proxyhost g' -> force_reload g = force_reload g' ->
  tail_text g h = tail_text g' h.
Proof. intros H1 H2 H3. unfold tail_text, tail_pieces. by rewrite H1, H2, H3. Qed.

Ltac globals_simpl := cbn [set_http10 set_host set_request set_proxy proxyhost method proxyport
  host request force_reload http10].

(** The lines are appended to what [strcat] has built. *)
Lemma request_lines_text h path g g1 :
  (NUL ∉ h) -> (NUL ∉ path) -> length h < MAXHOSTNAMELEN -> length path <= 1493 ->
  host g1 = padded MAXHOSTNAMELEN h -> http10 g1 = http10 (raise_version g) ->
  proxyhost g1 = proxyhost g -> force_reload g1 = force_reload g ->
  exists r, request_lines g1 (padded REQUEST_SIZE (method_name (method g) ++ [SP] ++ path)) = Ok r
    /\ cstr r = Some (request_text g h path).
Proof.
  intros Hnh Hnp Hh Hpa H1 H2 H3 H4. destruct (tail_pieces_ok g1 h Hnh) as [Ht Htl].
  destruct (method_name_ok (method g)) as [Hm Hml].
  assert (length (method_name (method g) ++ [SP] ++ path) <= 1501) as Hw
    by (rewrite !length_app; change (length [SP]) with 1; lia).
  unfold MAXHOSTNAMELEN in Hh.
  assert (NUL ∉ method_name (method g) ++ [SP] ++ path) as Hnw
    by (rewrite !not_elem_of_app; split_and!; [done|no_nul|done]).
  rewrite (request_lines_pieces g1 h)
    by (intros _; rewrite H1; apply cstr_array; [done|unfold MAXHOSTNAMELEN; lia]).
  rewrite strcats_run; [|done|done|unfold tail_text in Htl; unfold REQUEST_SIZE; lia].
  eexists. split; [reflexivity|]. fold (tail_text g1 h). rewrite cstr_array.
  - unfold request_text. rewrite <- !app_assoc. do 4 f_equal.
    destruct (raise_version_eq g) as (v & E & Ev). rewrite E. rewrite <- Ev in H2.
    apply tail_text_ext; cbn [set_http10 http10 proxyhost force_reload]; congruence.
  - apply not_elem_of_app. split; [done|]. by apply not_elem_of_concat.
  - rewrite length_app. unfold REQUEST_SIZE. lia.
Qed.

Lemma url_parts_nul h p path :
  url_parts h p path ->
  (NUL ∉ h) /\ (NUL ∉ path) /\ (NUL ∉ default [] p) /\ length path <= 1493.
Proof.
  intros [Hn _ _ _ Hl]. unfold direct_url, authority in *. rewrite !not_elem_of_app in Hn.
  destruct Hn as (_ & [Hh Hp] & Hpa). rewrite !length_app in Hl.
  change (length (lit "http://")) with 7 in Hl. split_and!; [done|done| |lia].
  destruct p; [|apply not_elem_of_nil]. by apply not_elem_of_cons in Hp as [_ ?].
Qed.

(** What the URL of a server gives, when its parts fit their arrays. *)
Lemma build_request_text h p path g :
  url_parts h p path -> proxyhost g = None ->
  length h < MAXHOSTNAMELEN -> length (default [] p) < 10 ->
  exists g', build_request (direct_url h p path) g = Ok (inr g')
    /\ cstr (request g') = Some (request_text g h path)
    /\ cstr (host g') = Some h /\ proxyport g' = port_of p g
    /\ http10 g' = http10 (raise_version g).
Proof.
  intros Hu Hp Hh Hpl. rewrite build_request_run by done.
  destruct (cleared_fields g) as (E1 & _ & E3 & E4 & _ & E6 & Ehttp).
  generalize dependent (cleared g). intros gc E1 E3 E4 E6 Ehttp.
  rewrite split_host_run by done. rewrite decide_False by lia. cbn [res_bind].
  destruct (url_parts_nul h p path Hu) as (Hnh & Hnp & Hnd & Hpa).
  destruct p as [p|]; cbn [default from_option id res_bind] in *.
  - rewrite decide_False by lia. cbn [res_bind]. unfold atoi. rewrite padded_cons by done.
    rewrite atol_app. cbn [res_bind].
    match goal with |- context [request_lines ?x _] => set (gx := x) end.
    destruct (request_lines_text h path g gx) as (r & Hr1 & Hr);
      [done|done|done|done|unfold gx; globals_simpl; congruence..|].
    rewrite Hr1. cbn [res_bind]. exists (set_request r gx). split; [reflexivity|].
    unfold gx. globals_simpl. split_and!; [exact Hr|by apply cstr_array|reflexivity|exact Ehttp].
  - match goal with |- context [request_lines ?x _] => set (gx := x) end.
    destruct (request_lines_text h path g gx) as (r & Hr1 & Hr);
      [done|done|done|done|unfold gx; globals_simpl; congruence..|].
    rewrite Hr1. cbn [res_bind]. exists (set_request r gx). split; [reflexivity|].
    unfold gx. globals_simpl. split_and!; [exact Hr|by apply cstr_array|exact E3|exact Ehttp].
Qed.

Lemma digits_val_fuel s a : digits_val s a <> OutOfFuel.
Proof. revert a. induction s as [|c s IH]; intros a; simpl; [done|]. destruct (isdigit c); [apply IH|done]. Qed.

Lemma atoi_fuel s : atoi s <> OutOfFuel.
Proof.
  unfold atoi. apply res_bind_fuel; [|done]. induction s as [|c s IH]; cbn [atol]; [done|].
  destruct (isspace c); [done|].
  repeat case_decide; (apply res_bind_fuel; [apply digits_val_fuel|done]).
Qed.

Ltac lit_lia :=
  rewrite ?length_app;
  repeat match goal with
    | |- context [length (lit ?s)] =>
        let n := eval vm_compute in (length (lit s)) in change (length (lit s)) with n
    | |- context [length CRLF] => change (length CRLF) with 2
    | |- context [length [?x]] => change (length [x]) with 1
    end; lia.

(** A host name that fills its array has no end. *)
Lemma request_lines_unterminated g w :
  (NUL ∉ w) -> length w + 100 < REQUEST_SIZE -> proxyhost g = None -> (0 < http10 g)%Z ->
  cstr (host g) = None -> request_lines g (padded REQUEST_SIZE w) = UB.
Proof.
  unfold REQUEST_SIZE. intros Hw Hlen Hp Hv Hh. unfold request_lines.
  assert (exists w1, (NUL ∉ w1) /\ length w1 <= length w + 9 /\
    (if decide (http10 g = 1%Z) then strcat (padded 2048 w) (lit " HTTP/1.0")
     else if decide (http10 g = 2%Z) then strcat (padded 2048 w) (lit " HTTP/1.1")
     else Ok (padded 2048 w)) = Ok (padded 2048 w1)) as (w1 & Hn1 & Hl1 & ->).
  { destruct (decide (http10 g = 1%Z)); [|destruct (decide (http10 g = 2%Z))].
    1, 2: eexists; (split; [|split; [|apply strcat_run; [done|lit_lia]]]);
      [apply not_elem_of_app; split; [done|no_nul]|lit_lia].
    exists w. split_and!; [done|lia|done]. }
  cbn [res_bind]. rewrite strcat_run by (done || lit_lia). cbn [res_bind].
  assert (NUL ∉ w1 ++ CRLF) as Hn2 by (apply not_elem_of_app; split; [done|no_nul]).
  rewrite decide_True by done. rewrite strcat_run; [|done|lit_lia].
  cbn [res_bind]. rewrite decide_True by done. rewrite strcat_run.
  - cbn [res_bind]. by rewrite Hh.
  - apply not_elem_of_app. split; [done|no_nul].
  - lit_lia.
Qed.

Lemma build_request_overflow h p path g :
  url_parts h p path -> proxyhost g = None -> (0 < http10 (raise_version g))%Z ->
  MAXHOSTNAMELEN <= length h \/ 10 < length (default [] p) ->
  build_request (direct_url h p path) g = UB.
Proof.
  intros Hu Hp Hv Hbig. rewrite build_request_run by done.
  destruct (cleared_fields g) as (E1 & _ & E3 & E4 & _ & E6 & Ehttp).
  generalize dependent (cleared g). intros gc E1 E3 E4 E6 Ehttp.
  rewrite split_host_run by done.
  destruct (url_parts_nul h p path Hu) as (Hnh & Hnp & Hnd & Hpa).
  destruct (method_name_ok (method g)) as [Hm Hml].
  assert (forall g1, host g1 = padded MAXHOSTNAMELEN h -> proxyhost g1 = proxyhost gc ->
    http10 g1 = http10 gc -> length h = MAXHOSTNAMELEN ->
    request_lines g1 (padded REQUEST_SIZE (method_name (method g) ++ [SP] ++ path)) = UB) as Hub.
  { intros g1 H1 H2 H3 H4. apply request_lines_unterminated; [| |congruence|congruence|].
    - rewrite !not_elem_of_app. split_and!; [done|no_nul|done].
    - rewrite !length_app. change (length [SP]) with 1. unfold REQUEST_SIZE. lia.
    - rewrite H1. unfold padded. rewrite H4, Nat.sub_diag, app_nil_r.
      destruct (cstr h) eqn:E; [|done]. exfalso. apply Hnh. apply cstr_is_Some. by eexists. }
  destruct (decide (MAXHOSTNAMELEN < length h)) as [Hh|Hh]; [done|]. cbn [res_bind].
  destruct p as [p|]; cbn [default from_option id] in *.
  - destruct (decide (10 < length p)) as [Hl|Hl]; [done|]. cbn [res_bind].
    destruct (atoi (padded 10 p)) as [v| |] eqn:Ea; cbn [res_bind]; [|done|by apply atoi_fuel in Ea].
    rewrite Hub; [done|reflexivity|reflexivity|reflexivity|lia].
  - cbn [length res_bind] in *. rewrite Hub; [done|reflexivity|reflexivity|reflexivity|lia].
Qed.

(** ** The properties *)

(** For the URL of a server, [build_request] writes the request line for the path,
    the version asked for or the one the method needs, and the header lines of that
    version; host and port are those of the URL (80 when the port is 0). *)
Theorem build_request_direct h p path g :
  url_parts h p path -> proxyhost g = None ->
  length h < MAXHOSTNAMELEN -> length (default [] p) < 10 ->
  exists g', build_request (direct_url h p path) g = Ok (inr g')
    /\ cstr (request g') = Some (request_text g h path)
    /\ cstr (host g') = Some h /\ proxyport g' = port_of p g.
Proof.
  intros H1 H2 H3 H4. destruct (build_request_text h p path g H1 H2 H3 H4) as (g' & ? & ? & ? & ? & _).
  by exists g'.
Qed.

Lemma build_request_direct_witness :
  exists g', build_request (direct_url (lit "h") (Some (lit "90")) (lit "/a")) initial = Ok (inr g')
    /\ cstr (request g') = Some (lit "GET /a HTTP/1.0" ++ CRLF ++ lit "User-Agent: WebBench 1.5" ++ CRLF
                                 ++ lit "Host: h" ++ CRLF ++ CRLF)
    /\ proxyport g' = 90%Z.
Proof.
  destruct (build_request_direct (lit "h") (Some (lit "90")) (lit "/a") initial) as (g' & H & Hr & _ & Hp).
  - split; no_nul.
  - reflexivity.
  - apply Nat.ltb_lt. reflexivity.
  - apply Nat.ltb_lt. reflexivity.
  - exists g'. split; [exact H|]. split; [exact Hr|exact Hp].
Defined.



Lemma find_last_none x w : (x ∉ w) -> find_last x w = None.
Proof.
  induction w as [|c w IH]; [done|]. intros [Hc Hw]%not_elem_of_cons. cbn [find_last].
  rewrite IH by done. by rewrite decide_False by congruence.
Qed.

Lemma find_last_app x w w' : (x ∉ w') -> find_last x (w ++ x :: w') = Some (length w).
Proof.
  intros Hw. induction w as [|c w IH]; cbn [app find_last length].
  - rewrite find_last_none by done. by rewrite decide_True.
  - by rewrite IH.
Qed.

(** The option [--proxy] takes what follows the last colon as the port; a missing host
    or port ends the program with code 2, and without a colon the port stays. *)
Theorem proxy_option h p g :
  (COLON ∉ p) ->
  main_option (Opt "p" (h ++ COLON :: p)) g
  = (if decide (h = [] \/ p = []) then Ok (inl 2%Z)
     else Ok (inr (set_proxy (Some h) (to_int (atol_val p)) g)))
  /\ main_option (Opt "p" p) g = Ok (inr (set_proxy (Some p) (proxyport g) g)).
Proof.
  intros Hp. unfold main_option. rewrite find_last_app, find_last_none by done.
  split; [|done]. rewrite length_app. cbn [length].
  destruct (decide (length h = 0)) as [Hh|Hh].
  { apply nil_length_inv in Hh as ->. by rewrite decide_True by (by left). }
  destruct (decide (length h = length h + S (length p) - 1)) as [Hl|Hl].
  { rewrite decide_True; [done|]. right. apply nil_length_inv. lia. }
  rewrite decide_False by (intros [->| ->]; simpl in *; lia).
  replace (S (length h)) with (length (h ++ [COLON])) by (rewrite length_app; simpl; lia).
  change (COLON :: p) with ([COLON] ++ p). rewrite app_assoc, drop_app_length.
  rewrite <- app_assoc, take_app_length. unfold atoi.
  pose proof (atol_app p []) as Ha. rewrite Ha. reflexivity.
Qed.

(** ** Counting *)

(** The bytes the reads of an attempt return. *)
Definition received (rs : list read_event) : Z :=
  foldr (fun r n => match r with Got i => Z.max 0 i + n | Expired => n end)%Z 0%Z rs.

Definition received_all (ats : list attempt) : Z :=
  foldr (fun a n => received (a_reads a) + n)%Z 0%Z ats.

(** [n] attempts are counted, none twice. *)
Definition counts (n : Z) (g : globals) : Prop :=
  (0 <= speed g)%Z /\ (0 <= failed g)%Z /\ (speed g + failed g = n)%Z /\ (0 <= bytes g)%Z.

Ltac counts_simpl := cbn [set_counts set_timer speed failed bytes timerexpired] in *.

Lemma received_pos rs : (0 <= received rs)%Z.
Proof. unfold received. induction rs as [|[|i] rs IH]; cbn [foldr]; lia. Qed.

Lemma received_all_pos ats : (0 <= received_all ats)%Z.
Proof.
  unfold received_all. induction ats as [|a ats IH]; cbn [foldr]; [lia|].
  pose proof (received_pos (a_reads a)). lia.
Qed.

Lemma int_add_ok a b : (INT_MIN <= a + b <= INT_MAX)%Z -> int_add a b = Ok (a + b)%Z.
Proof. intros. unfold int_add. by rewrite decide_True. Qed.

Lemma count_failed_ok n g :
  counts n g -> (n < INT_MAX)%Z ->
  exists g', count_failed g = Ok g' /\ counts (n + 1) g' /\ bytes g' = bytes g
    /\ timerexpired g' = timerexpired g.
Proof.
  intros (H1 & H2 & H3 & H4) Hn. unfold count_failed. unfold INT_MAX in Hn.
  rewrite int_add_ok by (unfold INT_MIN, INT_MAX; lia). eexists. split; [reflexivity|].
  unfold counts. counts_simpl. split_and!; done || lia.
Qed.

Lemma read_loop_ok n rs g :
  counts n g -> (n < INT_MAX)%Z -> (bytes g + received rs <= INT_MAX)%Z ->
  exists ok g', read_loop rs g = Ok (ok, g') /\ counts (if ok : bool then n else n + 1) g'
    /\ (bytes g' <= bytes g + received rs)%Z.
Proof.
  revert g. induction rs as [|r rs IH]; intros g Hg Hn Hb; cbn [read_loop];
    (destruct (timerexpired g);
     [exists true, g; split_and!; [done..|];
      match goal with |- context [received ?l] => pose proof (received_pos l) end; lia|]).
  - destruct (count_failed_ok n (set_timer true g) Hg Hn) as (g' & -> & Hc & Hbt & _).
    exists false, g'. split_and!; [done..|]. rewrite Hbt. counts_simpl. cbn [received foldr]. lia.
  - destruct r as [|i]; cbn [received foldr] in *; fold (received rs) in *;
      pose proof (received_pos rs) as Hp.
    + exists true, (set_timer true g). split_and!; [done..|]. counts_simpl. lia.
    + destruct (decide (i < 0)%Z) as [Hi|Hi].
      { destruct (count_failed_ok n g Hg Hn) as (g' & -> & Hc & Hbt & _).
        exists false, g'. split_and!; [done..|]. rewrite Hbt. lia. }
      destruct (decide (i = 0)%Z) as [->|H0]; [exists true, g; split_and!; [done..|lia]|].
      destruct Hg as (H1 & H2 & H3 & H4). unfold count_bytes.
      rewrite int_add_ok by (unfold INT_MIN; lia). cbn [res_bind].
      destruct (IH (set_counts (speed g) (failed g) (bytes g + i) g)) as (ok & g' & Hr & Hc & Hbt).
      * unfold counts. counts_simpl. split_and!; done || lia.
      * done.
      * counts_simpl. lia.
      * exists ok, g'. split_and!; [done..|]. counts_simpl. lia.
Qed.

Lemma attempt_ok n rlen a g :
  counts n g -> (n < INT_MAX)%Z -> (bytes g + received (a_reads a) <= INT_MAX)%Z ->
  exists g', attempt_run rlen a g = Ok g' /\ counts (n + 1) g'
    /\ (bytes g' <= bytes g + received (a_reads a))%Z.
Proof.
  intros Hg Hn Hb. pose proof (received_pos (a_reads a)) as Hp. unfold attempt_run.
  assert (exists g', count_failed g = Ok g' /\ counts (n + 1) g'
    /\ (bytes g' <= bytes g + received (a_reads a))%Z) as Hfail.
  { destruct (count_failed_ok n g Hg Hn) as (g' & -> & Hc & Hbt & _). exists g'.
    split_and!; [done..|lia]. }
  repeat (case_decide; [done|]).
  assert (exists ok g1, (if force g then Ok (true, g) else read_loop (a_reads a) g) = Ok (ok, g1)
    /\ counts (if ok : bool then n else n + 1) g1
    /\ (bytes g1 <= bytes g + received (a_reads a))%Z) as (ok & g1 & -> & Hc & Hbt).
  { destruct (force g); [exists true, g; split_and!; [done..|lia]|by apply read_loop_ok]. }
  cbn [res_bind]. destruct ok; [|by exists g1]. case_decide.
  - destruct (count_failed_ok n g1 Hc Hn) as (g' & -> & Hc' & Hbt' & _). exists g'.
    split_and!; [done..|lia].
  - destruct Hc as (Hs1 & Hf1 & Hsum & Hby). unfold count_speed. unfold INT_MAX in Hn.
    rewrite int_add_ok by (unfold INT_MIN, INT_MAX; lia). eexists. split; [reflexivity|].
    unfold counts. counts_simpl. split_and!; done || lia.
Qed.

Lemma bench_end_ok n g :
  counts n g -> (n <= INT_MAX)%Z ->
  exists g', bench_end g = Ok g' /\ speed g' = speed g /\ bytes g' = bytes g
    /\ failed g' = (if decide (0 < failed g)%Z then failed g - 1 else failed g)%Z.
Proof.
  intros (H1 & H2 & H3 & H4) Hn. unfold bench_end. case_decide; [|by eexists].
  unfold INT_MAX in Hn. rewrite int_add_ok by (unfold INT_MIN, INT_MAX; lia). by eexists.
Qed.

Lemma benchcore_run rlen ats n g :
  counts n g -> (n + Z.of_nat (length ats) <= INT_MAX)%Z ->
  (bytes g + received_all ats <= INT_MAX)%Z ->
  exists m g1 g', (n <= m <= n + Z.of_nat (length ats))%Z /\ counts m g1
    /\ benchcore rlen ats g = Ok g'
    /\ speed g' = speed g1 /\ bytes g' = bytes g1
    /\ failed g' = (if decide (0 < failed g1)%Z then failed g1 - 1 else failed g1)%Z
    /\ (bytes g1 <= bytes g + received_all ats)%Z.
Proof.
  revert n g. induction ats as [|a ats IH]; intros n g Hg Hn Hb; cbn [benchcore].
  - cbn [length received_all foldr] in *.
    assert (exists g', (if timerexpired g then bench_end g else bench_end (set_timer true g)) = Ok g'
      /\ speed g' = speed g /\ bytes g' = bytes g
      /\ failed g' = (if decide (0 < failed g)%Z then failed g - 1 else failed g)%Z)
      as (g' & -> & ? & ? & ?).
    { destruct (timerexpired g);
        [apply (bench_end_ok n g)|apply (bench_end_ok n (set_timer true g))]; done || lia. }
    exists n, g, g'. split_and!; done || lia.
  - cbn [length received_all foldr] in *. fold (received_all ats) in *.
    assert (0 <= received_all ats)%Z as Hpos.
    { apply received_all_pos. }
    pose proof (received_pos (a_reads a)) as Hp.
    destruct (timerexpired g).
    + destruct (bench_end_ok n g Hg) as (g' & -> & ? & ? & ?); [lia|].
      exists n, g, g'. split_and!; done || lia.
    + destruct (attempt_ok n rlen a g Hg) as (g1 & -> & Hc & Hbt); [lia|lia|]. cbn [res_bind].
      destruct (IH (n + 1)%Z g1 Hc) as (m & g2 & g' & Hm & Hc2 & Hr & ? & ? & ? & Hb2); [lia|lia|].
      exists m, g2, g'. split_and!; done || lia.
Qed.

(** Every attempt of a child is counted once, as served or as failed; when the alarm
    comes one failure is taken back.  As long as attempts and bytes fit an [int]
    nothing overflows. *)
Theorem benchcore_counts rlen ats g :
  speed g = 0%Z -> failed g = 0%Z -> bytes g = 0%Z ->
  (Z.of_nat (length ats) <= INT_MAX)%Z -> (received_all ats <= INT_MAX)%Z ->
  exists m f g', benchcore rlen ats g = Ok g' /\ (0 <= m <= Z.of_nat (length ats))%Z
    /\ (speed g' + f = m)%Z /\ (0 <= speed g')%Z
    /\ failed g' = (if decide (0 < f)%Z then f - 1 else f)%Z
    /\ (0 <= bytes g' <= received_all ats)%Z.
Proof.
  intros H1 H2 H3 Hn Hb.
  destruct (benchcore_run rlen ats 0 g) as (m & g1 & g' & Hm & (Hs0 & Hf0 & Hs & Hp) & Hr & E1 & E2 & E3 & E4).
  - unfold counts. rewrite H1, H2, H3. split_and!; done || lia.
  - lia.
  - lia.
  - exists m, (failed g1), g'. split; [done|]. split_and!; try done; try lia.
Qed.

Lemma benchcore_counts_witness :
  exists g', benchcore 10 [MkAttempt 3 10 0 [Got 500; Got 20; Got 0] 0; MkAttempt (-1) 0 0 [] 0;
      MkAttempt 3 10 0 [Got 100] 0; MkAttempt 3 10 0 [] 0] initial = Ok g'
    /\ speed g' = 1%Z /\ failed g' = 1%Z /\ (0 <= bytes g' <= 620)%Z.
Proof.
  destruct (benchcore_counts 10 [MkAttempt 3 10 0 [Got 500; Got 20; Got 0] 0; MkAttempt (-1) 0 0 [] 0;
      MkAttempt 3 10 0 [Got 100] 0; MkAttempt 3 10 0 [] 0] initial) as (m & f & g' & H & _ & _ & _ & _ & Hb).
  - reflexivity.
  - reflexivity.
  - reflexivity.
  - vm_compute. discriminate.
  - vm_compute. discriminate.
  - exists g'. split; [exact H|]. vm_compute in H. injection H as <-.
    split; [reflexivity|]. split; [reflexivity|exact Hb].
Defined.

(** ** The parent's sums *)

Definition total (f : Z * Z * Z -> Z) (rs : list (Z * Z * Z)) : Z :=
  foldr (fun r n => f r + n)%Z 0%Z rs.

Definition report_ok (r : Z * Z * Z) : Prop := (0 <= r.1.1 /\ 0 <= r.1.2 /\ 0 <= r.2)%Z.

Lemma total_app f rs rs' : total f (rs ++ rs') = (total f rs + total f rs')%Z.
Proof. unfold total. induction rs as [|r rs IH]; cbn [app foldr]; lia. Qed.

Lemma total_pos f rs : Forall (fun r => 0 <= f r)%Z rs -> (0 <= total f rs)%Z.
Proof. unfold total. induction 1; cbn [foldr]; lia. Qed.

Lemma reports_pos rs :
  Forall report_ok rs ->
  (0 <= total (fun r => r.1.1) rs /\ 0 <= total (fun r => r.1.2) rs /\ 0 <= total (fun r => r.2) rs)%Z.
Proof.
  intros H. split_and!; apply total_pos; eapply Forall_impl; try exact H; intros r (? & ? & ?); done.
Qed.

Lemma collect_run rs last i0 g :
  let all := rs ++ [last] in
  clients g = Z.of_nat (length all) -> (Z.of_nat (length all) <= INT_MAX)%Z ->
  Forall report_ok all -> (0 <= speed g /\ 0 <= failed g /\ 0 <= bytes g)%Z ->
  (speed g + total (fun r => r.1.1) all <= INT_MAX)%Z ->
  (failed g + total (fun r => r.1.2) all <= INT_MAX)%Z ->
  (bytes g + total (fun r => r.2) all <= INT_MAX)%Z ->
  exists g', collect all i0 g = Ok (last.1.1, g')
    /\ speed g' = (speed g + total (fun r => r.1.1) all)%Z
    /\ failed g' = (failed g + total (fun r => r.1.2) all)%Z
    /\ bytes g' = (bytes g + total (fun r => r.2) all)%Z /\ clients g' = 0%Z.
Proof.
  cbv zeta. revert i0 g. induction rs as [|[[i j] k] rs IH]; intros i0 g Hc Hn Hok Hg H1 H2 H3.
  - destruct last as [[i j] k]. cbn [app length total foldr fst snd] in *.
    apply Forall_cons in Hok as [(O1 & O2 & O3) _]. cbn [fst snd] in *. cbn [collect].
    rewrite !int_add_ok by (unfold INT_MIN, INT_MAX in *; lia). cbn [res_bind].
    rewrite decide_True by lia. eexists. split; [reflexivity|].
    cbn [set_clients set_counts speed failed bytes clients]. split_and!; lia.
  - cbn [app] in *. apply Forall_cons in Hok as [(O1 & O2 & O3) Hok].
    cbn [length total foldr fst snd] in *. pose proof (reports_pos _ Hok) as (P1 & P2 & P3).
    unfold total in *. cbn [collect].
    rewrite !int_add_ok by (unfold INT_MIN, INT_MAX in *; lia). cbn [res_bind].
    rewrite length_app in *. cbn [length] in *.
    rewrite decide_False by lia.
    match goal with |- context [collect _ _ ?x] => destruct (IH i x) as (g' & Hr & E1 & E2 & E3 & E4) end;
      cbn [set_clients set_counts speed failed bytes clients] in *; try done; try lia.
    exists g'. split; [exact Hr|]. split_and!; try done; lia.
Qed.

(** The parent adds up the reports of all its children; what it returns, and [main]
    after it, is the number of pages of the child that reported last. *)
Theorem bench_parent_sums rs last g :
  let all := rs ++ [last] in
  clients g = Z.of_nat (length all) -> (Z.of_nat (length all) <= INT_MAX)%Z ->
  Forall report_ok all -> (total (fun r => r.1.1) all <= INT_MAX)%Z ->
  (total (fun r => r.1.2) all <= INT_MAX)%Z -> (total (fun r => r.2) all <= INT_MAX)%Z ->
  exists g', bench_parent all g = Ok (last.1.1, g')
    /\ speed g' = total (fun r => r.1.1) all /\ failed g' = total (fun r => r.1.2) all
    /\ bytes g' = total (fun r => r.2) all.
Proof.
  cbv zeta. intros Hc Hn Hok H1 H2 H3. unfold bench_parent.
  destruct (collect_run rs last (clients g) (set_counts 0 0 0 g)) as (g' & Hr & E1 & E2 & E3 & _);
    cbn [set_clients set_counts speed failed bytes clients] in *; try done; try lia.
  exists g'. split; [exact Hr|]. split_and!; lia.
Qed.

Lemma bench_parent_sums_witness :
  exists g', bench_parent ([(5, 1, 300)%Z] ++ [(7, 0, 400)%Z]) (set_clients 2 initial) = Ok (7%Z, g')
    /\ speed g' = 12%Z.
Proof.
  destruct (bench_parent_sums [(5, 1, 300)%Z] (7, 0, 400)%Z (set_clients 2 initial)) as (g' & H & Hs & _).
  - reflexivity.
  - vm_compute. discriminate.
  - repeat (apply Forall_cons; split; [split_and!; vm_compute; discriminate|]). apply Forall_nil. exact I.
  - vm_compute. discriminate.
  - vm_compute. discriminate.
  - vm_compute. discriminate.
  - exists g'. split; [exact H|exact Hs].
Defined.

Lemma proxy_option_witness :
  main_option (Opt "p" (lit "127.0.0.1" ++ COLON :: lit "8080")) initial
  = Ok (inr (set_proxy (Some (lit "127.0.0.1")) 8080 initial)).
Proof.
  destruct (proxy_option (lit "127.0.0.1") (lit "8080") initial) as [H _]; [no_nul|exact H].
Defined.
