(* ===== verification/WebBenchRun.v ===== *)
(** * A whole benchmark: [bench] of [1. Proactor/webbench-1.5/webbench.c]

    [bench] probes the server, makes the pipe and forks the clients; each child
    runs [benchcore] and writes its counts to the pipe, the parent adds them up.
    What the calls return is an argument. *)

From S2P Require Import Prelude CBase WebBench.

Record bench_env := MkBenchEnv {
  b_socket : Z;                  (* Socket(...) of the probe *)
  b_pipe : bool;                 (* pipe() succeeds *)
  b_fork : nat -> Z;             (* what the i-th fork() returns *)
  b_fdopen : bool;               (* fdopen() succeeds *)
  b_attempts : list attempt;     (* benchcore, in a child *)
  b_reports : list (Z * Z * Z)   (* what the parent reads from the pipe *)
}.

(** What a process does: its exit code, the report it writes to the pipe, and the counts
    it prints (served, failed, bytes). *)
Record outcome := MkOutcome {
  o_code : Z;
  o_report : option (Z * Z * Z);
  o_printed : option (Z * Z * Z)
}.

Definition ends_with (code : Z) : outcome := MkOutcome code None None.

Definition counters (g : globals) : Z * Z * Z := (speed g, failed g, bytes g).

(** [for(i=0;i<clients;i++)], [n] turns from [i] on; [pid] is 0 before the first. *)
Fixpoint fork_loop (n i : nat) (fork : nat -> Z) (pid : Z) : Z :=
  match n with
  | O => pid
  | S n => let pid := fork i in if decide (pid <= 0)%Z then pid else fork_loop n (S i) fork pid
  end.

(** After the forks: what a child does. *)
Definition bench_child (E : bench_env) (g : globals) : res (outcome * globals) :=
  let* req := of_option (cstr (request g)) in
  let* g := benchcore (Z.of_nat (length req)) (b_attempts E) g in
  if b_fdopen E then Ok (MkOutcome 0 (Some (counters g)) None, g) else Ok (ends_with 3, g).

Definition bench (E : bench_env) (g : globals) : res (outcome * globals) :=
  if decide (b_socket E < 0)%Z then Ok (ends_with 1, g)
  else if negb (b_pipe E) then Ok (ends_with 3, g)
  else
    let pid := fork_loop (Z.to_nat (clients g)) 0 (b_fork E) 0 in
    if decide (pid < 0)%Z then Ok (ends_with 3, g)
    else if decide (pid = 0)%Z then bench_child E g
    else if b_fdopen E then
      let* '(i, g) := bench_parent (b_reports E) g in
      Ok (MkOutcome i None (Some (counters g)), g)
    else Ok (ends_with 3, g).

(** [main]. *)
Definition main (os : list option_read) (args : list (list char)) (E : bench_env) (g : globals)
    : res (outcome * globals) :=
  let* r := main_setup os args g in
  match r with inl code => Ok (ends_with code, g) | inr g => bench E g end.

(** ** The forks *)

Lemma fork_parent n i fork pid :
  (forall j, i <= j < i + n -> (0 < fork j)%Z) -> 0 < n \/ (0 < pid)%Z ->
  (0 < fork_loop n i fork pid)%Z.
Proof.
  revert i pid. induction n as [|n IH]; intros i pid H Hn; cbn [fork_loop]; [lia|].
  assert (0 < fork i)%Z as Hi by (apply H; lia). rewrite decide_False by lia.
  apply IH; [|by right]. intros j Hj. apply H. lia.
Qed.

(** Child [k] has seen the forks before its own. *)
Definition forks_of (k i : nat) : Z := if decide (i < k) then 1 else 0.

Lemma fork_child k n i pid : i <= k < i + n -> fork_loop n i (forks_of k) pid = 0%Z.
Proof.
  revert i pid. induction n as [|n IH]; intros i pid H; [lia|]. cbn [fork_loop].
  destruct (decide (i < k)) as [Hi|Hi].
  - assert (forks_of k i = 1%Z) as -> by (unfold forks_of; by rewrite decide_True).
    rewrite decide_False by lia. apply IH. lia.
  - assert (forks_of k i = 0%Z) as -> by (unfold forks_of; by rewrite decide_False).
    by rewrite decide_True by lia.
Qed.

(** ** The whole benchmark *)

Definition child_env (s : Z) (k : nat) (ats : list attempt) : bench_env :=
  MkBenchEnv s true (forks_of k) true ats [].
Definition parent_env (s : Z) (rs : list (Z * Z * Z)) : bench_env :=
  MkBenchEnv s true (fun _ => 1%Z) true [] rs.

(** What child [k] reports: no failure is counted twice, and at most one not. *)
Definition report_of (ats : list attempt) (r : Z * Z * Z) : Prop :=
  report_ok r /\ (r.1.1 + r.1.2 <= Z.of_nat (length ats))%Z /\ (r.2 <= received_all ats)%Z.

Lemma bench_child_run s k ats g :
  (0 <= s)%Z -> k < Z.to_nat (clients g) \/ (clients g <= 0)%Z -> NUL ∈ request g ->
  speed g = 0%Z -> failed g = 0%Z -> bytes g = 0%Z ->
  (Z.of_nat (length ats) <= INT_MAX)%Z -> (received_all ats <= INT_MAX)%Z ->
  exists r g', bench (child_env s k ats) g = Ok (MkOutcome 0 (Some r) None, g') /\ report_of ats r.
Proof.
  intros Hs Hk Hreq H1 H2 H3 Hn Hb. unfold bench. cbn [child_env b_socket b_pipe b_fork negb].
  rewrite decide_False by lia.
  assert (fork_loop (Z.to_nat (clients g)) 0 (forks_of k) 0 = 0%Z) as ->.
  { destruct Hk as [Hk|Hk]; [apply fork_child; lia|]. by replace (Z.to_nat (clients g)) with 0 by lia. }
  rewrite decide_False by lia. rewrite decide_True by done. unfold bench_child.
  cbn [child_env b_attempts b_fdopen].
  apply cstr_is_Some in Hreq as [req Hreq]. rewrite Hreq. cbn [of_option res_bind].
  destruct (benchcore_run (Z.of_nat (length req)) ats 0 g)
    as (m & g1 & g' & Hm & (Hs0 & Hf0 & Hsum & Hp) & -> & E1 & E2 & E3 & E4); [|lia|lia|].
  { unfold counts. rewrite H1, H2, H3. split_and!; done || lia. }
  cbn [res_bind]. exists (counters g'), g'. split; [done|].
  unfold report_of, report_ok, counters. cbn [fst snd]. rewrite E1, E2, E3.
  case_decide; split_and!; lia.
Qed.

Lemma bench_parent_run s rs last g :
  let all := rs ++ [last] in
  (0 <= s)%Z -> clients g = Z.of_nat (length all) -> (Z.of_nat (length all) <= INT_MAX)%Z ->
  Forall report_ok all -> (total (fun r => r.1.1) all <= INT_MAX)%Z ->
  (total (fun r => r.1.2) all <= INT_MAX)%Z -> (total (fun r => r.2) all <= INT_MAX)%Z ->
  exists g', bench (parent_env s all) g
    = Ok (MkOutcome last.1.1 None (Some (total (fun r => r.1.1) all, total (fun r => r.1.2) all,
                                         total (fun r => r.2) all)), g').
Proof.
  cbv zeta. intros Hs Hc Hn Hok H1 H2 H3. unfold bench.
  cbn [parent_env b_socket b_pipe b_fork b_fdopen b_reports negb].
  rewrite decide_False by lia.
  assert (0 < fork_loop (Z.to_nat (clients g)) 0 (fun _ => 1%Z) 0)%Z as Hpid.
  { apply fork_parent; [done|]. left. rewrite Hc, length_app. simpl. lia. }
  rewrite !decide_False by lia. unfold bench_parent.
  destruct (collect_run rs last (clients g) (set_counts 0 0 0 g)) as (g' & -> & E1 & E2 & E3 & _);
    cbn [set_clients set_counts speed failed bytes clients] in *; try done; try lia.
  exists g'. cbn [res_bind]. unfold counters. by rewrite E1, E2, E3.
Qed.

Lemma total_perm f rs rs' : rs ≡ₚ rs' -> total f rs = total f rs'.
Proof. unfold total. induction 1; cbn [foldr]; lia. Qed.

(** The attempts and the bytes of all children. *)
Definition all_attempts (cs : list (list attempt)) : Z :=
  foldr (fun ats n => Z.of_nat (length ats) + n)%Z 0%Z cs.
Definition all_received (cs : list (list attempt)) : Z :=
  foldr (fun ats n => received_all ats + n)%Z 0%Z cs.

Lemma reports_bounds cs rs :
  Forall2 report_of cs rs ->
  Forall report_ok rs
  /\ (total (fun r => r.1.1) rs + total (fun r => r.1.2) rs <= all_attempts cs)%Z
  /\ (total (fun r => r.2) rs <= all_received cs)%Z.
Proof.
  unfold total, all_attempts, all_received.
  induction 1 as [|ats r cs rs (Hok & Hc & Hb) _ (IH1 & IH2 & IH3)]; cbn [foldr].
  - split; [done|]. lia.
  - split; [by apply Forall_cons|]. lia.
Qed.

Lemma children_bounds ats cs :
  ats ∈ cs -> (0 <= Z.of_nat (length ats) <= all_attempts cs)%Z
    /\ (0 <= received_all ats <= all_received cs)%Z.
Proof.
  unfold all_attempts, all_received. intros H.
  assert (forall l : list (list attempt),
    0 <= foldr (fun ats n => Z.of_nat (length ats) + n)%Z 0%Z l
    /\ 0 <= foldr (fun ats n => received_all ats + n)%Z 0%Z l)%Z as Hpos.
  { induction l as [|x l IH]; cbn [foldr]; [lia|]. pose proof (received_all_pos x). lia. }
  induction H as [ats cs|ats x cs _ IH]; cbn [foldr].
  - pose proof (Hpos cs). pose proof (received_all_pos ats). lia.
  - pose proof (received_all_pos x). lia.
Qed.

(** The children's reports, one each. *)
Lemma children_report s g cs :
  (0 <= s)%Z -> NUL ∈ request g -> speed g = 0%Z -> failed g = 0%Z -> bytes g = 0%Z ->
  length cs <= Z.to_nat (clients g) ->
  (all_attempts cs <= INT_MAX)%Z -> (all_received cs <= INT_MAX)%Z ->
  exists rs, Forall2 report_of cs rs
    /\ forall k ats r, cs !! k = Some ats -> rs !! k = Some r ->
       exists g', bench (child_env s k ats) g = Ok (MkOutcome 0 (Some r) None, g').
Proof.
  intros Hs Hreq H1 H2 H3 Hlen Ha Hb.
  assert (forall k ats, cs !! k = Some ats -> exists r g',
    bench (child_env s k ats) g = Ok (MkOutcome 0 (Some r) None, g') /\ report_of ats r) as Hrun.
  { intros k ats Hk. pose proof (lookup_lt_Some _ _ _ Hk).
    destruct (children_bounds ats cs) as [? ?]; [by eapply list_elem_of_lookup_2|].
    apply bench_child_run; try done; lia. }
  clear Hlen Ha Hb.
  induction cs as [|ats cs IH] using rev_ind.
  { exists []. split; [constructor|]. intros k ats r Hk. by rewrite lookup_nil in Hk. }
  destruct IH as (rs & Hrs & Hall).
  { intros k ats' Hk. apply Hrun. by apply lookup_app_l_Some. }
  destruct (Hrun (length cs) ats) as (r & g' & Hr & Hok); [by apply list_lookup_middle|].
  exists (rs ++ [r]). split; [apply Forall2_app; [done|by constructor]|].
  pose proof (Forall2_length _ _ _ Hrs) as Hl.
  intros k a r' Hk Hk'. apply lookup_app_Some in Hk as [Hk|[Hge Hk]].
  - apply (Hall k a r' Hk). rewrite lookup_app_l in Hk'; [done|].
    rewrite <- Hl. by eapply lookup_lt_Some.
  - apply list_lookup_singleton_Some in Hk as [Hz <-].
    assert (k = length cs) as -> by lia. rewrite Hl in Hk'.
    rewrite lookup_app_r, Nat.sub_diag in Hk' by lia. injection Hk' as <-. by exists g'.
Qed.

(** ** What [main] hands to [bench] *)

Lemma strcat_nul buf d r : strcat buf d = Ok r -> NUL ∈ r.
Proof.
  unfold strcat, put. destruct (cstr buf) as [w|]; [|done]. cbn [of_option res_bind].
  case_decide; [|done]. intros [= <-]. rewrite blit_in_range by lia.
  apply elem_of_app. right. apply elem_of_app. left. apply elem_of_app. right. left.
Qed.

(** An optional [strcat]. *)
Lemma strcat_if_nul (P : Prop) `{!Decision P} buf d r :
  NUL ∈ buf -> (if decide P then strcat buf d else Ok buf) = Ok r -> NUL ∈ r.
Proof. intros H. case_decide; [apply strcat_nul|by intros [= <-]]. Qed.

Lemma request_lines_nul g r r' : request_lines g r = Ok r' -> NUL ∈ r'.
Proof.
  unfold request_lines. intros H.
  apply res_bind_Ok_inv in H as (r1 & _ & H). apply res_bind_Ok_inv in H as (r2 & H2 & H).
  apply strcat_nul in H2. apply res_bind_Ok_inv in H as (r3 & H3 & H).
  apply strcat_if_nul in H3; [|done]. apply res_bind_Ok_inv in H as (r4 & H4 & H).
  assert (NUL ∈ r4) as Hr4.
  { clear H. case_decide; [|by injection H4 as <-]. apply res_bind_Ok_inv in H4 as (? & _ & H4).
    apply res_bind_Ok_inv in H4 as (? & _ & H4). apply res_bind_Ok_inv in H4 as (? & _ & H4).
    by apply strcat_nul in H4. }
  apply res_bind_Ok_inv in H as (r5 & H5 & H). apply strcat_if_nul in H5; [|done].
  apply res_bind_Ok_inv in H as (r6 & H6 & H). apply strcat_if_nul in H6; [|done].
  by apply strcat_if_nul in H.
Qed.

(** The counters and the number of clients are left alone. *)
Definition same_counts (g g' : globals) : Prop :=
  counters g' = counters g /\ clients g' = clients g.

Lemma raise_to_counts v (P : Prop) `{!Decision P} g : same_counts g (raise_to v P g).
Proof. unfold raise_to. by case_decide. Qed.

Lemma cleared_counts g : same_counts g (cleared g).
Proof.
  unfold cleared, raise_version.
  repeat match goal with
  | |- context [raise_to ?v ?P ?g] =>
      lazymatch g with raise_to _ _ _ => fail | _ => idtac end;
      let H := fresh in pose proof (raise_to_counts v P g) as H; revert H;
      generalize (raise_to v P g); intros ? ?
  end.
  unfold same_counts, counters in *. cbn in *. intuition congruence.
Qed.

Lemma split_host_counts rest slash g g' : split_host rest slash g = Ok g' -> same_counts g g'.
Proof.
  unfold split_host. intros H. destruct (find_any _ _); [case_decide|];
    repeat (apply res_bind_Ok_inv in H as (? & _ & H)); by injection H as <-.
Qed.

Lemma build_request_leaves url g g' :
  build_request url g = Ok (inr g') -> NUL ∈ request g' /\ same_counts g g'.
Proof.
  unfold build_request. pose proof (cleared_counts g) as Hc.
  generalize dependent (cleared g). intros g0 Hc H.
  do 2 apply res_bind_Ok_inv in H as (? & _ & H).
  destruct (find_sub _ _); [|done]. case_decide; [done|].
  apply res_bind_Ok_inv in H as (? & _ & H). case_decide; [done|].
  destruct (find_any _ _); [|done]. apply res_bind_Ok_inv in H as ([g1 r1] & Hg & H).
  apply res_bind_Ok_inv in H as (r & Hr & H). apply request_lines_nul in Hr.
  injection H as <-. split; [done|].
  assert (same_counts g0 g1) as Hs1.
  { destruct (proxyhost g0); apply res_bind_Ok_inv in Hg as (? & Hg & Hg').
    - by injection Hg' as <- <-.
    - apply res_bind_Ok_inv in Hg' as (? & _ & Hg'). injection Hg' as <- <-.
      by eapply split_host_counts. }
  destruct Hc as [E1 E2], Hs1 as [E3 E4]. split; [exact (eq_trans E3 E1)|exact (eq_trans E4 E2)].
Qed.

Lemma main_option_counters o g g' :
  main_option o g = Ok (inr g') -> counters g' = counters g.
Proof.
  destruct o as [| |m|c optarg]; cbn [main_option]; try by intros [= <-].
  intros H. destruct c as [[] [] [] [] [] [] [] []]; simplify_eq; try done.
  all: try (apply res_bind_Ok_inv in H as (? & _ & H); by injection H as <-).
  destruct (find_last _ _); [|by injection H as <-]. do 2 (case_decide; [done|]).
  apply res_bind_Ok_inv in H as (? & _ & H). by injection H as <-.
Qed.

Lemma main_options_counters os g g' :
  main_options os g = Ok (inr g') -> counters g' = counters g.
Proof.
  revert g. induction os as [|o os IH]; intros g H; cbn [main_options] in H; [by injection H as <-|].
  apply res_bind_Ok_inv in H as ([|g1] & H1 & H); [done|].
  rewrite (IH g1 H). by eapply main_option_counters.
Qed.

Lemma main_setup_leaves os args g g' :
  main_setup os args g = Ok (inr g') -> NUL ∈ request g' /\ counters g' = counters g.
Proof.
  unfold main_setup. case_decide; [done|]. intros H1.
  apply res_bind_Ok_inv in H1 as ([|g1] & H1 & H2); [done|].
  apply main_options_counters in H1. rewrite <- H1. destruct args as [|url args]; [done|].
  apply build_request_leaves in H2 as [Hn [Hc _]]. split; [done|].
  rewrite Hc. repeat case_decide; done.
Qed.

Lemma main_initial os args g :
  main_setup os args initial = Ok (inr g) ->
  NUL ∈ request g /\ speed g = 0%Z /\ failed g = 0%Z /\ bytes g = 0%Z
  /\ forall E, main os args E initial = bench E g.
Proof.
  intros H. destruct (main_setup_leaves _ _ _ _ H) as [Hn [= E1 E2 E3]].
  split_and!; try done. intros E. unfold main. by rewrite H.
Qed.

(** C40: a whole benchmark, from the command line on, one child per client: every child
    ends with code 0 and reports its counts; in whatever order the reports
    arrive, the parent prints their sums, which count no attempt twice, and
    exits with the pages of the child that reported last. *)
Theorem benchmark_totals os args s g cs :
  main_setup os args initial = Ok (inr g) ->
  (0 <= s)%Z -> clients g = Z.of_nat (length cs) -> (clients g <= INT_MAX)%Z ->
  (all_attempts cs <= INT_MAX)%Z -> (all_received cs <= INT_MAX)%Z ->
  exists rs, length rs = length cs
  /\ (forall k ats r, cs !! k = Some ats -> rs !! k = Some r ->
       exists g', main os args (child_env s k ats) initial = Ok (MkOutcome 0 (Some r) None, g'))
  /\ (total (fun r => r.1.1) rs + total (fun r => r.1.2) rs <= all_attempts cs)%Z
  /\ (total (fun r => r.2) rs <= all_received cs)%Z
  /\ forall before last, before ++ [last] ≡ₚ rs ->
     exists g', main os args (parent_env s (before ++ [last])) initial
       = Ok (MkOutcome last.1.1 None (Some (total (fun r => r.1.1) rs, total (fun r => r.1.2) rs,
                                            total (fun r => r.2) rs)), g').
Proof.
  intros Hm Hs Hc Hmax Ha Hb. destruct (main_initial os args g Hm) as (Hreq & H1 & H2 & H3 & Hmain).
  destruct (children_report s g cs) as (rs & Hrs & Hall); try done; [lia|].
  pose proof (Forall2_length _ _ _ Hrs) as Hl.
  destruct (reports_bounds cs rs Hrs) as (Hok & Hsum & Hby).
  pose proof (reports_pos rs Hok) as (P1 & P2 & P3).
  exists rs. split; [done|].
  split; [intros k ats r Hk Hr; rewrite Hmain; by apply Hall|]. split; [done|]. split; [done|].
  intros before last Hperm. rewrite Hmain, <- !(total_perm _ _ _ Hperm).
  pose proof (Permutation_length Hperm) as Hpl.
  apply bench_parent_run; rewrite ?(total_perm _ _ _ Hperm), ?Hpl; try done; try lia.
  by rewrite Hperm.
Qed.

(** With a negative number of clients ([-c -1]) nothing is forked: the program itself
    becomes the child that reports to the pipe, ends with code 0 and prints
    nothing. *)
Theorem negative_clients os args s g ats :
  main_setup os args initial = Ok (inr g) -> (clients g < 0)%Z -> (0 <= s)%Z ->
  (Z.of_nat (length ats) <= INT_MAX)%Z -> (received_all ats <= INT_MAX)%Z ->
  exists r g', main os args (child_env s 0 ats) initial = Ok (MkOutcome 0 (Some r) None, g').
Proof.
  intros Hm Hneg Hs Hl Hb. destruct (main_initial os args g Hm) as (Hreq & H1 & H2 & H3 & Hmain).
  destruct (bench_child_run s 0 ats g) as (r & g' & Hr & _); try done; [right; lia|].
  exists r, g'. by rewrite Hmain.
Qed.

(** ** Examples *)
Definition sample_args : list (list char) := [lit "http://a:8080/"].
Definition sample_attempts : list attempt :=
  [MkAttempt 3 53 0 [Got 500; Got 0] 0; MkAttempt (-1) 0 0 [] 0; MkAttempt 3 53 0 [Got 20] 0].

Lemma benchmark_totals_witness :
  exists g', main [Opt "c" (lit "2")] sample_args (parent_env 3 [(1, 1, 520); (0, 0, 0)]%Z) initial
    = Ok (MkOutcome 0 None (Some (1, 1, 520)%Z), g').
Proof.
  destruct (main_setup [Opt "c" (lit "2")] sample_args initial) as [[|g]| |] eqn:E;
    try (vm_compute in E; discriminate).
  destruct (benchmark_totals [Opt "c" (lit "2")] sample_args 3 g [sample_attempts; []] E)
    as (rs & Hl & Hch & _ & _ & Hp).
  - vm_compute. discriminate.
  - vm_compute in E. injection E as <-. reflexivity.
  - vm_compute in E. injection E as <-. vm_compute. discriminate.
  - vm_compute. discriminate.
  - vm_compute. discriminate.
  - clear E. destruct rs as [|r0 [|r1 [|]]]; try discriminate Hl.
    destruct (Hch 0 _ r0 eq_refl eq_refl) as (g0 & H0). destruct (Hch 1 _ r1 eq_refl eq_refl) as (g1 & H1).
    vm_compute in H0. injection H0 as <- _. vm_compute in H1. injection H1 as <- _.
    destruct (Hp [(1, 1, 520)%Z] (0, 0, 0)%Z) as (g' & Hg); [reflexivity|]. exists g'. exact Hg.
Defined.

Lemma negative_clients_witness :
  exists r g', main [Opt "c" (lit "-1")] sample_args (child_env 3 0 sample_attempts) initial
    = Ok (MkOutcome 0 (Some r) None, g').
Proof.
  destruct (main_setup [Opt "c" (lit "-1")] sample_args initial) as [[|g]| |] eqn:E;
    try (vm_compute in E; discriminate).
  apply (negative_clients [Opt "c" (lit "-1")] sample_args 3 g sample_attempts E).
  - vm_compute in E. injection E as <-. vm_compute. reflexivity.
  - vm_compute. discriminate.
  - vm_compute. discriminate.
  - vm_compute. discriminate.
Defined.
