(* ===== verification/WebBenchServer.v ===== *)
(** * The benchmark client against the server of its directory

    The request [webbench] builds, received by an [http_conn] of [1. Proactor]: with
    [-2] it is answered like any other request; as it comes, in HTTP/1.0, every
    request gets the reply to a bad request. *)

From S2P Require Import Prelude CBase HttpConn HttpParse HttpSpec HttpReply Proactor WebBench.

(** The first line of a GET request in version [v]. *)
Definition bench_line (v path : list char) : list char := lit "GET " ++ path ++ lit " HTTP/" ++ v.

(** A path the server reads as it is written. *)
Definition plain_path (path : list char) : Prop :=
  head path = Some SLASH /\ clean path /\ find_any blanks path = None.

Definition bench_headers (h : list char) : list (list char) :=
  [lit "User-Agent: WebBench 1.5"; lit "Host: " ++ h; lit "Connection: close"].

Lemma get_line_target v path :
  plain_path path -> (forall c, c ∈ v -> c ∉ blanks) ->
  request_target (bench_line v path)
  = if ieq (lit "HTTP/" ++ v) (lit "HTTP/1.1") then Some path else None.
Proof.
  intros (Hh & _ & Hb) Hv. unfold request_target, bench_line.
  change (lit "GET " ++ path ++ lit " HTTP/" ++ v)
    with (lit "GET" ++ SP :: (path ++ SP :: (lit "HTTP/" ++ v))).
  rewrite find_any_app; [|reflexivity|by left]. cbn [mbind option_bind].
  change (length (lit "GET")) with 3.
  change (drop 4 (lit "GET" ++ SP :: (path ++ SP :: (lit "HTTP/" ++ v))))
    with (path ++ SP :: (lit "HTTP/" ++ v)).
  rewrite find_any_app; [|done|by left]. cbn [mbind option_bind].
  change (take 3 (lit "GET" ++ _)) with (lit "GET").
  assert (ieq (lit "GET") (lit "GET") = true) as -> by reflexivity. cbn [andb].
  rewrite take_app_length.
  replace (S (length path)) with (length (path ++ [SP])) by (rewrite length_app; simpl; lia).
  change (path ++ SP :: (lit "HTTP/" ++ v)) with (path ++ [SP] ++ (lit "HTTP/" ++ v)).
  rewrite app_assoc, drop_app_length. destruct (ieq _ _); [|done].
  destruct path as [|x path]; [done|]. injection Hh as ->.
  assert (iprefix (lit "http://") (SLASH :: path) = false) as -> by reflexivity.
  cbn [mbind option_bind]. by rewrite decide_True.
Qed.

(** What an HTTP/1.1 GET of [webbench] is on the wire. *)
Lemma bench_text g h path :
  method g = METHOD_GET -> proxyhost g = None -> http10 g = 2%Z ->
  request_text g h path = wire (bench_line (lit "1.1") path) (bench_headers h).
Proof.
  intros Hm Hp Hv. unfold request_text, tail_text, tail_pieces.
  rewrite raise_version_get by done.
  rewrite Hm, Hp, Hv. rewrite decide_False by done. rewrite decide_True by done.
  rewrite decide_True by lia. rewrite decide_True by (split; [done|lia]).
  rewrite decide_False by (intros [_ ?]; done). rewrite decide_True by lia.
  rewrite decide_True by lia.
  unfold wire, bench_line, header_bytes, bench_headers. cbn [app concat fmap list_fmap].
  rewrite <- !app_assoc. reflexivity.
Qed.

Lemma clean_app l1 l2 : clean (l1 ++ l2) <-> clean l1 /\ clean l2.
Proof. unfold clean. rewrite !not_elem_of_app. tauto. Qed.

Ltac clean_lit := apply (bool_decide_unpack _); vm_compute; exact I.

Lemma bench_headers_ok h : clean h -> Forall header_line (bench_headers h).
Proof.
  intros Hh. unfold bench_headers. apply Forall_cons; split; [clean_lit|].
  apply Forall_cons; split; [|apply Forall_cons; split; [clean_lit|done]].
  split; [apply clean_app; split; [clean_lit|done]|done].
Qed.

Lemma bench_headers_effects h : header_effects (bench_headers h) (false, 0%Z) = (false, 0%Z).
Proof. reflexivity. Qed.

Lemma get_line_clean v path : clean v -> clean path -> clean (bench_line v path).
Proof.
  intros Hv Hp. unfold bench_line. rewrite !clean_app. split_and!; [clean_lit|done|clean_lit|done].
Qed.

(** What is received fits the read buffer. *)
Lemma bench_received fd addr d :
  length addr = 16 -> length d < READ_BUFFER_SIZE ->
  let c := feed d (fresh_conn fd addr) in
  ready c /\ unread c = d /\ m_read_idx c < READ_BUFFER_SIZE.
Proof.
  intros Ha Hd c. split_and!.
  - apply feed_ready; [by apply fresh_ready|]. cbn. lia.
  - apply feed_fresh_unread; [done|lia].
  - done.
Qed.

(** An HTTP/1.0 or other request starts with its first line. *)
Lemma bench_text_10 g h path :
  method g = METHOD_GET -> proxyhost g = None -> http10 g = 1%Z ->
  exists rest, request_text g h path = bench_line (lit "1.0") path ++ CRLF ++ rest.
Proof.
  intros Hm Hp Hv. unfold request_text, tail_text, tail_pieces.
  rewrite raise_version_get by done. rewrite Hm, Hp, Hv.
  rewrite decide_True by done. cbn [concat app]. unfold bench_line.
  eexists. rewrite <- !app_assoc. reflexivity.
Qed.

Lemma request_text_length g h p path :
  url_parts h p path -> length h < MAXHOSTNAMELEN ->
  length (request_text g h path) < READ_BUFFER_SIZE.
Proof.
  intros Hu Hh. destruct (url_parts_nul h p path Hu) as (Hn & _ & _ & Hl).
  destruct (tail_pieces_ok (raise_version g) h Hn) as [_ Ht].
  destruct (method_name_ok (method g)) as [_ Hm]. unfold request_text.
  rewrite !length_app. change (length [SP]) with 1.
  unfold MAXHOSTNAMELEN, READ_BUFFER_SIZE in *. lia.
Qed.

(** C32: a GET of [webbench -2] is answered by the server of its directory: the request
    built for a URL, received by a connection that was just accepted, arms the socket
    for writing with the reply expected for the URL's path, and the connection is not
    kept. *)
Theorem bench_http11_served E mem g h p path fd addr :
  method g = METHOD_GET -> proxyhost g = None -> http10 g = 2%Z ->
  url_parts h p path -> clean h -> plain_path path ->
  length h < MAXHOSTNAMELEN -> length (default [] p) < 10 -> length addr = 16 ->
  exists g' text c', build_request (direct_url h p path) g = Ok (inr g')
    /\ cstr (request g') = Some text
    /\ process E (feed text (fresh_conn fd addr)) = Ok (c', modifyfd fd EPOLLOUT)
    /\ message mem c' = expected_reply E mem (resource path) false.
Proof.
  intros Hm Hp Hv Hu Hch Hpath Hh Hpl Ha.
  destruct (build_request_text h p path g Hu Hp Hh Hpl) as (g' & Hb & Hr & _).
  exists g', (request_text g h path).
  destruct (bench_received fd addr (request_text g h path) Ha (request_text_length g h p path Hu Hh))
    as (Hready & Hun & Hroom).
  rewrite (bench_text g h path Hm Hp Hv) in *. set (d := wire _ _) in *.
  destruct (process_request_run E mem (feed d (fresh_conn fd addr)) (bench_line (lit "1.1") path)
    (bench_headers h) path [] []) as (c' & Hpr & Hmsg & _); try done.
  - apply get_line_clean; [clean_lit|apply Hpath].
  - by apply bench_headers_ok.
  - rewrite get_line_target by (done || (intros c; revert c; apply Forall_forall; clean_lit)).
    reflexivity.
  - rewrite Hun. unfold d. by rewrite app_nil_r.
  - exists c'. split_and!; [exact Hb|exact Hr|exact Hpr|exact Hmsg].
Qed.

(** [webbench] as it comes asks in HTTP/1.0, and the server refuses that version:
    whatever the path, every request is answered as a bad request. *)
Theorem bench_http10_rejected E mem g h p path fd addr :
  method g = METHOD_GET -> proxyhost g = None -> http10 g = 1%Z ->
  url_parts h p path -> plain_path path ->
  length h < MAXHOSTNAMELEN -> length (default [] p) < 10 -> length addr = 16 ->
  exists g' text c', build_request (direct_url h p path) g = Ok (inr g')
    /\ cstr (request g') = Some text
    /\ process E (feed text (fresh_conn fd addr)) = Ok (c', modifyfd fd EPOLLOUT)
    /\ message mem c' = head_text 400 error_400_title (Z.of_nat (length error_400_form)) false
                        ++ error_400_form.
Proof.
  intros Hm Hp Hv Hu Hpath Hh Hpl Ha.
  destruct (build_request_text h p path g Hu Hp Hh Hpl) as (g' & Hb & Hr & _).
  exists g', (request_text g h path).
  destruct (bench_received fd addr (request_text g h path) Ha (request_text_length g h p path Hu Hh))
    as (Hready & Hun & _).
  destruct (bench_text_10 g h path Hm Hp Hv) as (rest & Ht). rewrite Ht in *.
  set (d := bench_line _ _ ++ _) in *.
  destruct (bad_request_run E mem (feed d (fresh_conn fd addr)) (bench_line (lit "1.0") path) rest)
    as (c' & Hpr & Hmsg); try done.
  - apply get_line_clean; [clean_lit|apply Hpath].
  - by rewrite get_line_target by (done || (intros c; revert c; apply Forall_forall; clean_lit)).
  - exists c'. split_and!; [exact Hb|exact Hr|exact Hpr|exact Hmsg].
Qed.

Lemma bench_http11_served_witness :
  exists text c', process sample_env (feed text (fresh_conn 5 (replicate 16 NUL)))
      = Ok (c', modifyfd 5 EPOLLOUT)
    /\ message sample_file c' = head_text 200 ok_200_title 12 false ++ lit "hello, world".
Proof.
  destruct (bench_http11_served sample_env sample_file (set_http10 2 initial) (lit "h") None
    (lit "/a") 5 (replicate 16 NUL)) as (g' & text & c' & _ & _ & H & Hm).
  - reflexivity.
  - reflexivity.
  - reflexivity.
  - split; clean_lit.
  - clean_lit.
  - split; [reflexivity|]. split; [clean_lit|reflexivity].
  - apply Nat.ltb_lt. reflexivity.
  - apply Nat.ltb_lt. reflexivity.
  - reflexivity.
  - exists text, c'. split; [exact H|]. rewrite Hm. vm_compute. reflexivity.
Defined.

Lemma bench_http10_rejected_witness :
  exists text c', process sample_env (feed text (fresh_conn 5 (replicate 16 NUL)))
      = Ok (c', modifyfd 5 EPOLLOUT)
    /\ message sample_file c' = head_text 400 error_400_title 68 false ++ error_400_form.
Proof.
  destruct (bench_http10_rejected sample_env sample_file initial (lit "h") (Some (lit "9006"))
    (lit "/a") 5 (replicate 16 NUL)) as (g' & text & c' & _ & _ & H & Hm).
  - reflexivity.
  - reflexivity.
  - reflexivity.
  - split; clean_lit.
  - split; [reflexivity|]. split; [clean_lit|reflexivity].
  - apply Nat.ltb_lt. reflexivity.
  - apply Nat.ltb_lt. reflexivity.
  - reflexivity.
  - exists text, c'. split; [exact H|exact Hm].
Defined.
