(* ===== verification/WebBenchSocket.v ===== *)
(** * Connecting: [Socket] of [1. Proactor/webbench-1.5/socket.c]

    The address [connect] is given, and the descriptors [Socket] opens.  What the
    resolver and [connect] answer are arguments; [socket] is a parameter that
    opens a descriptor while fewer than [limit] are open.  [benchcore] is run with
    the results of [Socket] in place of given ones. *)

From S2P Require Import Prelude CBase Frame WebBench.

Definition AF_INET : Z := 2.
Definition INADDR_NONE : Z := 2 ^ 32 - 1.

(** The answers to one call: [inet_addr] of the host, the address bytes ([h_addr],
    [h_length]) of [gethostbyname], and what [connect] returns. *)
Record net := MkNet {
  n_inet_addr : Z;
  n_gethostbyname : option (list char);
  n_connect : Z
}.

(** The bytes of an integer of [n] bytes in memory. *)
Definition le_bytes (n : nat) (v : Z) : list char :=
  (fun i => byte_char (Z.shiftr v (8 * Z.of_nat i))) <$> seq 0 n.

(** One turn of [benchcore]'s loop: the answers to [Socket] and to the calls after it. *)
Record turn := MkTurn { u_net : net; u_rest : attempt }.

Definition with_socket (s : Z) (a : attempt) : attempt :=
  MkAttempt s (a_write a) (a_shutdown a) (a_reads a) (a_close a).

Section Descriptors.
Context (limit : nat) (socket : gset nat -> option nat).
Context (socket_free : forall fds fd, socket fds = Some fd -> fd ∉ fds).
Context (socket_room : forall fds, is_Some (socket fds) <-> size fds < limit).
Implicit Types (E : net) (fds : gset nat) (t : turn) (ts : list turn) (g : globals).

(** The result, the open descriptors, and the 16 bytes of [ad] if they came to
    [connect]: family, port and address at 0, 2 and 4. *)
Definition Socket E (clientPort : Z) fds : res (Z * gset nat * option (list char)) :=
  let ad := replicate 16 NUL in
  let* ad := put 0 (store16 AF_INET) ad in
  let inaddr := n_inet_addr E in
  let* o :=
    if decide (inaddr <> INADDR_NONE) then
      let* ad := put 4 (le_bytes 8 inaddr) ad in Ok (Some ad)
    else
      match n_gethostbyname E with
      | None => Ok None
      | Some h => let* ad := put 4 h ad in Ok (Some ad)
      end in
  match o with
  | None => Ok ((-1)%Z, fds, None)
  | Some ad =>
      let* ad := put 2 (store16 (host_to_network_short clientPort)) ad in
      match socket fds with
      | None => Ok ((-1)%Z, fds, None)
      | Some sock =>
          let fds := {[sock]} ∪ fds in
          if decide (n_connect E < 0)%Z then Ok ((-1)%Z, fds, Some ad)
          else Ok (Z.of_nat sock, fds, Some ad)
      end
  end.

(** The turns of [benchcore] with the sockets they get; every way through a turn
    closes the socket [Socket] returned. *)
Fixpoint attempts_of (port : Z) ts fds : res (list attempt) :=
  match ts with
  | [] => Ok []
  | t :: ts =>
      let* '(s, fds, _) := Socket (u_net t) port fds in
      let fds := if decide (s < 0)%Z then fds else fds ∖ {[Z.to_nat s]} in
      let* ats := attempts_of port ts fds in
      Ok (with_socket s (u_rest t) :: ats)
  end.

Definition benchcore_net (rlen port : Z) ts fds g : res globals :=
  let* ats := attempts_of port ts fds in benchcore rlen ats g.

(** ** The address *)

(** The address the host's name stands for. *)
Definition address E : option (list char) :=
  if decide (n_inet_addr E <> INADDR_NONE) then Some (le_bytes 4 (n_inet_addr E))
  else n_gethostbyname E.

(** [inet_addr] gives 32 bits, and [gethostbyname] addresses of 4 bytes. *)
Definition net_ok E : Prop :=
  (0 <= n_inet_addr E < 2 ^ 32)%Z /\ forall h, n_gethostbyname E = Some h -> length h = 4.

Definition sockaddr (port : Z) (addr : list char) : list char :=
  store16 AF_INET ++ be16 port ++ addr ++ replicate 8 NUL.

Lemma le_bytes_high v :
  (0 <= v < 2 ^ 32)%Z -> le_bytes 8 v = le_bytes 4 v ++ replicate 4 NUL.
Proof.
  intros Hv. unfold le_bytes. change (seq 0 8) with (seq 0 4 ++ seq 4 4). rewrite fmap_app.
  f_equal. assert (forall i, 4 <= i -> byte_char (Z.shiftr v (8 * Z.of_nat i)) = NUL) as H.
  { intros i Hi. rewrite Z.shiftr_div_pow2 by lia. rewrite Z.div_small; [done|].
    split; [lia|]. eapply Z.lt_le_trans; [apply Hv|]. apply Z.pow_le_mono_r; lia. }
  cbn [seq fmap list_fmap replicate]. by rewrite !H by lia.
Qed.

(** [Socket] up to [socket]. *)
Lemma Socket_run E port fds :
  net_ok E -> (0 <= port < 65536)%Z ->
  Socket E port fds
  = Ok (match address E, socket fds with
        | Some addr, Some sock =>
            (if decide (n_connect E < 0)%Z then (-1)%Z else Z.of_nat sock, {[sock]} ∪ fds,
             Some (sockaddr port addr))
        | _, _ => ((-1)%Z, fds, None)
        end).
Proof.
  intros [Hn Hh] Hp. unfold Socket, address.
  assert (store16 (host_to_network_short port) = be16 port) as ->.
  { rewrite store_network. unfold to_uint16, wrap_u. by rewrite Z.mod_small by lia. }
  change (put 0 (store16 AF_INET) (replicate 16 NUL))
    with (Ok (store16 AF_INET ++ replicate 14 NUL)). cbn [res_bind].
  assert (forall a, length a = 4 ->
    put 2 (be16 port) (store16 AF_INET ++ [NUL; NUL] ++ a ++ replicate 8 NUL)
    = Ok (sockaddr port a)) as Hput.
  { intros [|a [|b [|c [|d []]]]] H; try discriminate H. reflexivity. }
  case_decide as Ha.
  - rewrite (le_bytes_high _ Hn).
    assert (put 4 (le_bytes 4 (n_inet_addr E) ++ replicate 4 NUL)
              (store16 AF_INET ++ replicate 14 NUL)
            = Ok (store16 AF_INET ++ [NUL; NUL] ++ le_bytes 4 (n_inet_addr E) ++ replicate 8 NUL))
      as -> by reflexivity.
    cbn [res_bind]. rewrite Hput by done. cbn [res_bind].
    destruct (socket fds); [by case_decide|done].
  - destruct (n_gethostbyname E) as [h|] eqn:Eh; [|done].
    assert (put 4 h (store16 AF_INET ++ replicate 14 NUL)
            = Ok (store16 AF_INET ++ [NUL; NUL] ++ h ++ replicate 8 NUL)) as ->.
    { specialize (Hh h eq_refl). destruct h as [|a [|b [|c [|d []]]]]; try discriminate Hh.
      reflexivity. }
    cbn [res_bind]. rewrite Hput by by apply Hh. cbn [res_bind].
    destruct (socket fds); [by case_decide|done].
Qed.

(** ** Refused connections *)

Lemma socket_full fds : limit <= size fds -> socket fds = None.
Proof.
  intros H. destruct (socket fds) as [fd|] eqn:E; [|done].
  assert (size fds < limit) by (apply socket_room; by eexists). lia.
Qed.

(** The connection is refused, with a host that resolves. *)
Definition refused t : Prop :=
  net_ok (u_net t) /\ is_Some (address (u_net t)) /\ (n_connect (u_net t) < 0)%Z.

Definition no_socket (a : attempt) : Prop := (a_socket a < 0)%Z.

(** Without a descriptor left every turn fails. *)
Lemma attempts_full port ts fds :
  (0 <= port < 65536)%Z -> Forall (fun t => net_ok (u_net t)) ts -> limit <= size fds ->
  exists ats, attempts_of port ts fds = Ok ats /\ length ats = length ts /\ Forall no_socket ats.
Proof.
  intros Hp Hts Hf. induction Hts as [|t ts Ht _ IH]; [by exists []|].
  destruct IH as (ats & IH & Hl & Ha). cbn [attempts_of].
  rewrite (Socket_run _ _ _ Ht Hp), (socket_full fds Hf).
  destruct (address (u_net t)); cbn [res_bind]; rewrite decide_True, IH by done;
    (eexists; split; [done|]; split; [cbn; lia|]; by constructor).
Qed.

(** Every refused connection leaves its descriptor open. *)
Lemma attempts_leak port down up fds :
  (0 <= port < 65536)%Z -> Forall refused down -> Forall (fun t => net_ok (u_net t)) up ->
  limit <= size fds + length down ->
  exists ats, attempts_of port (down ++ up) fds = Ok ats
    /\ length ats = length (down ++ up) /\ Forall no_socket ats.
Proof.
  intros Hp Hd Hu. revert fds. induction Hd as [|t down (Hn & [addr Ha] & Hc) Hd IH]; intros fds Hl.
  { apply attempts_full; [done|done|]. cbn in Hl. lia. }
  destruct (decide (limit <= size fds)) as [Hf|Hf].
  { apply attempts_full; [done| |done]. apply Forall_app. split; [|done].
    constructor; [done|]. by eapply Forall_impl; [exact Hd|intros ? []]. }
  destruct (proj2 (socket_room fds)) as [fd Hfd]; [lia|].
  destruct (IH ({[fd]} ∪ fds)) as (ats & H & Hlen & Hall).
  { rewrite size_union, size_singleton; [cbn in Hl; lia|].
    apply disjoint_singleton_l. by apply socket_free. }
  cbn [attempts_of app]. rewrite (Socket_run _ _ _ Hn Hp), Ha, Hfd. cbn [res_bind].
  rewrite (decide_True (P := (n_connect (u_net t) < 0)%Z)), decide_True, H by done. cbn [res_bind].
  eexists. split; [done|]. split; [cbn; by rewrite Hlen|]. by constructor.
Qed.

Lemma benchcore_no_socket rlen ats g :
  Forall no_socket ats -> timerexpired g = false ->
  (0 <= failed g)%Z -> (failed g + Z.of_nat (length ats) <= INT_MAX)%Z ->
  exists g', benchcore rlen ats g = Ok g' /\ speed g' = speed g /\ bytes g' = bytes g
    /\ failed g' = Z.max 0 (failed g + Z.of_nat (length ats) - 1).
Proof.
  intros Hats. revert g. induction Hats as [|a ats Ha _ IH]; intros g Hg H0 Hm; cbn [benchcore];
    rewrite Hg; unfold INT_MAX in *.
  - unfold bench_end. cbn [failed set_timer length] in *. case_decide.
    + rewrite int_add_ok by (unfold INT_MIN, INT_MAX; lia). eexists. split; [done|].
      split; [done|]. split; [done|]. cbn [res_bind failed set_counts]. lia.
    + eexists. split; [done|]. split; [done|]. split; [done|]. cbn [failed set_timer]. lia.
  - unfold attempt_run. unfold no_socket in Ha. rewrite decide_True by done.
    cbn [length] in Hm. unfold count_failed.
    rewrite int_add_ok by (unfold INT_MIN, INT_MAX; lia). cbn [res_bind].
    destruct (IH (set_counts (speed g) (failed g + 1) (bytes g) g)) as (g' & H & H1 & H2 & H3);
      cbn [failed timerexpired set_counts] in *; [done|lia|lia|].
    exists g'. split; [done|]. split; [done|]. split; [done|]. rewrite H3. cbn [length]. lia.
Qed.

(** C38: [Socket] gives [connect] the address of the host and the port in network order,
    and returns the new descriptor when it connects; when it does not, -1 is returned
    and the descriptor stays open.  So once as many connections were refused as
    descriptors were left, all the later attempts of the child fail, whether the
    server is up again or not. *)
Theorem socket_leak port fds :
  (0 <= port < 65536)%Z ->
  (forall E addr sock, net_ok E -> address E = Some addr -> socket fds = Some sock ->
     Socket E port fds
     = Ok (if decide (n_connect E < 0)%Z then (-1)%Z else Z.of_nat sock, {[sock]} ∪ fds,
           Some (sockaddr port addr)))
  /\ (forall rlen down up g,
     Forall refused down -> Forall (fun t => net_ok (u_net t)) up ->
     limit <= size fds + length down ->
     timerexpired g = false -> (0 <= failed g)%Z ->
     (failed g + Z.of_nat (length (down ++ up)) <= INT_MAX)%Z ->
     exists g', benchcore_net rlen port (down ++ up) fds g = Ok g'
       /\ speed g' = speed g /\ bytes g' = bytes g
       /\ failed g' = Z.max 0 (failed g + Z.of_nat (length (down ++ up)) - 1)).
Proof.
  intros Hp. split.
  - intros E addr sock Hn Ha Hs. by rewrite (Socket_run E port fds Hn Hp), Ha, Hs.
  - intros rlen down up g Hd Hu Hl Hg H0 Hm. unfold benchcore_net.
    destruct (attempts_leak port down up fds Hp Hd Hu Hl) as (ats & -> & Hlen & Hall).
    cbn [res_bind]. rewrite <- Hlen in Hm |- *. by apply benchcore_no_socket.
Qed.
End Descriptors.

(** ** Examples

    A process with 0, 1 and 2 open that may open four. *)
Definition first_free (limit : nat) (fds : gset nat) : option nat :=
  if decide (size fds < limit) then Some (fresh fds) else None.

Lemma first_free_free limit fds fd : first_free limit fds = Some fd -> fd ∉ fds.
Proof. unfold first_free. case_decide; [|done]. intros [= <-]. apply is_fresh. Qed.

Lemma first_free_room limit fds : is_Some (first_free limit fds) <-> size fds < limit.
Proof.
  unfold first_free. by case_decide; split; intros H'.
Qed.

(** The third connection would have worked. *)
Lemma socket_leak_witness :
  let up := MkTurn (MkNet 16777343 None 0) (MkAttempt 0 10 0 [Got 5; Got 0] 0) in
  let down := MkTurn (MkNet 16777343 None (-1)) (MkAttempt 0 0 0 [] 0) in
  exists g', benchcore_net (first_free 4) 10 80 [down; down; up] {[0; 1; 2]} initial = Ok g'
    /\ speed g' = 0%Z /\ failed g' = 2%Z
    /\ sockaddr 80 (le_bytes 4 16777343)
       = byte_char <$> [2; 0; 0; 80; 127; 0; 0; 1; 0; 0; 0; 0; 0; 0; 0; 0]%Z.
Proof.
  intros up down.
  destruct (proj2 (socket_leak 4 (first_free 4) (first_free_free 4) (first_free_room 4) 80
    {[0; 1; 2]} ltac:(lia)) 10%Z [down; down] [up] initial) as (g' & H & Hs & _ & Hf).
  - repeat constructor; try done; by eexists.
  - repeat constructor; done.
  - vm_compute. lia.
  - reflexivity.
  - vm_compute. discriminate.
  - vm_compute. discriminate.
  - exists g'. split; [exact H|]. split; [exact Hs|]. split; [exact Hf|reflexivity].
Defined.
