(* ===== verification/MsgNode.v ===== *)
(** * The message nodes

    [MsgNode] of [2. AsyncServer/inc/AsyncServer.h] (a 2-byte head), and
    [MsgNode], [RecvNode], [SendNode] of [3. AsyncServerIOservicepool] and
    [4. CoroutineAsyncServer] (a 4-byte head: id, length).  A constructor answers
    [None] when its [new] throws. *)

From S2P Require Import Prelude CBase Frame.

Record MsgNode := MkNode {
  _total_len : Z;
  _cur_len : Z;
  _data : list char
}.

#[export] Instance MsgNode_eq_dec : EqDecision MsgNode.
Proof. solve_decision. Defined.

Definition set_data (d : list char) (n : MsgNode) : MsgNode :=
  MkNode (_total_len n) (_cur_len n) d.

(** [memcpy(_data + pos, d, length d)] *)
Definition copy_in (pos : nat) (d : list char) (n : MsgNode) : res MsgNode :=
  if decide (pos + length d <= length (_data n))
  then Ok (set_data (blit pos d (_data n)) n) else UB.

(** [memcpy] of [len] bytes from the memory [src]; a negative length is a huge
    [size_t]. *)
Definition read_bytes (len : Z) (src : list char) : res (list char) :=
  if decide (0 <= len <= Z.of_nat (length src))%Z
  then Ok (take (Z.to_nat len) src) else UB.

(** The bytes [asio::buffer(_data, _total_len)] names. *)
Definition node_bytes (n : MsgNode) : list char := take (Z.to_nat (_total_len n)) (_data n).

(** [Clear()] *)
Definition Clear (n : MsgNode) : res MsgNode :=
  let* n := copy_in 0 (replicate (Z.to_nat (_total_len n)) NUL) n in
  Ok (MkNode (_total_len n) 0 (_data n)).

(** ** The 2-byte head ([2. AsyncServer]) *)
Module Echo.
Definition HEAD_SIZE : Z := 2.

(** [MsgNode(char *msg, int max_len)]: [new char] of uninitialised bytes
    ([junk]), the length in network order, the message, a NUL. *)
Definition MsgNode_send (junk msg : list char) (max_len : Z) : res (option MsgNode) :=
  let* total := int_add max_len HEAD_SIZE in
  let* size := int_add total 1 in
  if decide (size < 0)%Z then Ok None
  else
    let n := MkNode total 0 (take (Z.to_nat size) junk) in
    let* n := copy_in 0 (store16 (host_to_network_short (to_uint16 max_len))) n in
    let* d := read_bytes max_len msg in
    let* n := copy_in 2 d n in
    let* n := copy_in (Z.to_nat total) [NUL] n in
    Ok (Some n).

(** [MsgNode(int max_len)] *)
Definition MsgNode_recv (max_len : Z) : res (option MsgNode) :=
  let* size := int_add max_len 1 in
  if decide (size < 0)%Z then Ok None
  else Ok (Some (MkNode max_len 0 (replicate (Z.to_nat size) NUL))).
End Echo.

(** ** The 4-byte head ([3. AsyncServerIOservicepool], [4. CoroutineAsyncServer]) *)
Module Pool.
Definition HEAD_TOTAL_LEN : Z := 4.
Definition HEAD_ID_LEN : Z := 2.
Definition HEAD_DATA_LEN : Z := 2.

(** [MsgNode(short max_len)]: zeroed bytes, and a NUL at [_total_len], which is
    before the array when [_total_len] is -1. *)
Definition MsgNode_new (max_len : Z) : res (option MsgNode) :=
  if decide (max_len + 1 < 0)%Z then Ok None
  else if decide (max_len < 0)%Z then UB
  else Ok (Some (MkNode max_len 0 (replicate (Z.to_nat (max_len + 1)) NUL))).

Record RecvNode := MkRecv { recv_node : MsgNode; recv_msg_id : Z }.

Definition RecvNode_new (max_len msg_id : Z) : res (option RecvNode) :=
  let* o := MsgNode_new max_len in
  Ok ((fun n => MkRecv n msg_id) <$> o).

Definition GetMsgId (n : RecvNode) : Z := recv_msg_id n.

(** [SendNode(const char *msg, short max_len, short msg_id)] *)
Definition SendNode_new (msg : list char) (max_len msg_id : Z) : res (option MsgNode) :=
  let* o := MsgNode_new (to_short (max_len + HEAD_TOTAL_LEN)) in
  match o with
  | None => Ok None
  | Some n =>
      let msg_id_host := to_short (host_to_network_short msg_id) in
      let* n := copy_in 0 (store16 (to_uint16 msg_id_host)) n in
      let max_len_host := to_short (host_to_network_short max_len) in
      let* n := copy_in 2 (store16 (to_uint16 max_len_host)) n in
      let* d := read_bytes max_len msg in
      let* n := copy_in 4 d n in
      Ok (Some n)
  end.
End Pool.

(** ** What the nodes hold *)

Lemma copy_in_ok pos d n :
  pos + length d <= length (_data n) ->
  copy_in pos d n = Ok (set_data (blit pos d (_data n)) n).
Proof. intros H. unfold copy_in. by rewrite decide_True. Qed.

Lemma read_bytes_ok len src :
  (0 <= len <= Z.of_nat (length src))%Z ->
  read_bytes len src = Ok (take (Z.to_nat len) src).
Proof. intros H. unfold read_bytes. by rewrite decide_True. Qed.

Lemma store16_length v : length (store16 v) = 2.
Proof. done. Qed.
Lemma be16_length v : length (be16 v) = 2.
Proof. done. Qed.

(** Three successive copies that fill a buffer up to its last byte. *)
Lemma blit_chain {A} (h1 h2 d l : list A) :
  length h1 + length h2 + length d <= length l ->
  blit (length h1 + length h2) d (blit (length h1) h2 (blit 0 h1 l))
  = h1 ++ h2 ++ d ++ drop (length h1 + length h2 + length d) l.
Proof.
  intros H. change (blit (length h1) h2 (blit 0 h1 l))
    with (blit (0 + length h1) h2 (blit 0 h1 l)).
  rewrite (blit_app 0 h1 h2 l) by lia.
  rewrite <- (length_app h1 h2).
  change (blit (length (h1 ++ h2)) d (blit 0 (h1 ++ h2) l))
    with (blit (0 + length (h1 ++ h2)) d (blit 0 (h1 ++ h2) l)).
  rewrite (blit_app 0 (h1 ++ h2) d l) by (rewrite length_app; lia).
  rewrite blit_in_range by (rewrite !length_app; lia). 
  rewrite take_0, app_nil_l, <- !app_assoc. do 4 f_equal. rewrite !length_app. lia.
Qed.

(** A zeroed node that takes a body keeps its final NUL. *)
Lemma blit_body (body : list char) n : length body = n -> blit 0 body (replicate (S n) NUL) = body ++ [NUL].
Proof.
  intros <-. rewrite blit_in_range by (rewrite length_replicate; lia).
  rewrite take_0, app_nil_l. f_equal. rewrite drop_replicate.
  by replace (S (length body) - (0 + length body)) with 1 by lia.
Qed.

Lemma to_uint16_short v : to_uint16 (to_short v) = to_uint16 v.
Proof. apply wrap_u_wrap_s. lia. Qed.

Lemma to_uint16_id v : (0 <= v < 65536)%Z -> to_uint16 v = v.
Proof. intros. by apply wrap_u_id. Qed.

Lemma to_uint16_range v : (0 <= to_uint16 v < 65536)%Z.
Proof. unfold to_uint16, wrap_u. apply Z.mod_pos_bound. lia. Qed.

Lemma network_range v : (0 <= host_to_network_short v < 65536)%Z.
Proof.
  unfold host_to_network_short. pose proof (to_uint16_range v) as Hv.
  rewrite swap16_eq by done. set (u := to_uint16 v) in *.
  pose proof (Z.mod_pos_bound u 256 ltac:(lia)).
  assert (0 <= u / 256 < 256)%Z
    by (split; [apply Z.div_pos; lia | apply Z.div_lt_upper_bound; lia]). lia.
Qed.

(** What [memcpy] of a converted [short] stores. *)
Lemma store_short v :
  store16 (to_uint16 (to_short (host_to_network_short v))) = be16 (to_uint16 v).
Proof.
  rewrite to_uint16_short, to_uint16_id by apply network_range. apply store_network.
Qed.

Lemma store_uint16 v :
  store16 (host_to_network_short (to_uint16 v)) = be16 (to_uint16 v).
Proof. rewrite store_network. by rewrite (to_uint16_id (to_uint16 v)) by apply to_uint16_range. Qed.

(** ** The frames the constructors build *)

(** The bytes of a message on the wire. *)
Definition echo_frame (body : list char) : list char :=
  be16 (to_uint16 (Z.of_nat (length body))) ++ body.
Definition frame (id : Z) (body : list char) : list char :=
  be16 (to_uint16 id) ++ be16 (to_uint16 (Z.of_nat (length body))) ++ body.

Lemma Echo_MsgNode_send_run junk body rest :
  (Z.of_nat (length body) + 3 <= INT_MAX)%Z -> length body + 3 <= length junk ->
  exists n, Echo.MsgNode_send junk (body ++ rest) (Z.of_nat (length body)) = Ok (Some n)
    /\ _total_len n = (Z.of_nat (length body) + 2)%Z
    /\ _data n = echo_frame body ++ [NUL] /\ node_bytes n = echo_frame body.
Proof.
  intros Hb Hj. unfold Echo.MsgNode_send, Echo.HEAD_SIZE, int_add, INT_MIN in *.
  rewrite decide_True by lia. cbn [res_bind]. rewrite decide_True by lia. cbn [res_bind].
  rewrite decide_False by lia. rewrite store_uint16.
  set (h := be16 _). assert (length h = 2) as Hh by done.
  set (m := take _ junk).
  assert (length m = length body + 3) as Hm by (unfold m; rewrite length_take; lia).
  rewrite copy_in_ok by (cbn [_data]; lia). cbn [res_bind].
  rewrite read_bytes_ok by (rewrite length_app; lia). rewrite Nat2Z.id, take_app_length.
  cbn [res_bind]. unfold set_data. cbn [_data _total_len _cur_len].
  rewrite copy_in_ok by (cbn [_data]; rewrite length_blit; lia). cbn [res_bind].
  unfold set_data. cbn [_data _total_len _cur_len].
  replace (Z.to_nat (Z.of_nat (length body) + 2)) with (2 + length body) by lia.
  assert (blit (2 + length body) [NUL] (blit 2 body (blit 0 h m)) = h ++ body ++ [NUL])
    as Hd.
  { rewrite <- Hh. rewrite blit_chain by (simpl; lia). rewrite drop_ge by (simpl; lia).
    by rewrite app_nil_r. }
  rewrite copy_in_ok by (cbn [_data]; rewrite !length_blit by (rewrite ?length_blit; lia);
    simpl; lia).
  cbn [res_bind]. unfold set_data. cbn [_data _total_len _cur_len]. rewrite Hd.
  eexists. split; [done|]. cbn [_total_len _data]. split; [done|]. unfold echo_frame.
  fold h. rewrite <- app_assoc. split; [done|]. unfold node_bytes. cbn [_total_len _data].
  rewrite app_assoc. apply take_app_length'. rewrite length_app. lia.
Qed.

Lemma SendNode_new_run body rest id :
  (Z.of_nat (length body) <= 32763)%Z ->
  exists n, Pool.SendNode_new (body ++ rest) (Z.of_nat (length body)) id = Ok (Some n)
    /\ _total_len n = (Z.of_nat (length body) + 4)%Z
    /\ _data n = frame id body ++ [NUL] /\ node_bytes n = frame id body.
Proof.
  intros Hb. unfold Pool.SendNode_new, Pool.HEAD_TOTAL_LEN.
  rewrite to_short_id by lia. unfold Pool.MsgNode_new.
  rewrite decide_False by lia. rewrite decide_False by lia. cbn [res_bind].
  rewrite !store_short. unfold frame. set (h1 := be16 (to_uint16 id)).
  set (h2 := be16 _). assert (length h1 = 2) as Hh1 by done.
  assert (length h2 = 2) as Hh2 by done.
  set (m := replicate _ NUL).
  assert (length m = length body + 5) as Hm by (unfold m; rewrite length_replicate; lia).
  rewrite copy_in_ok by (cbn [_data]; lia). cbn [res_bind].
  unfold set_data. cbn [_data _total_len _cur_len].
  rewrite copy_in_ok by (cbn [_data]; rewrite length_blit; lia). cbn [res_bind].
  unfold set_data. cbn [_data _total_len _cur_len].
  rewrite read_bytes_ok by (rewrite length_app; lia). rewrite Nat2Z.id, take_app_length.
  cbn [res_bind].
  rewrite copy_in_ok by (cbn [_data]; rewrite !length_blit by (rewrite ?length_blit; lia); lia).
  cbn [res_bind]. unfold set_data. cbn [_data _total_len _cur_len].
  assert (blit 4 body (blit 2 h2 (blit 0 h1 m)) = h1 ++ h2 ++ body ++ [NUL]) as Hd.
  { change 4 with (length h1 + length h2). change 2 with (length h1).
    rewrite blit_chain by lia. do 3 f_equal. unfold m. rewrite drop_replicate.
    by replace (Z.to_nat (Z.of_nat (length body) + 4 + 1)
      - (length h1 + length h2 + length body)) with 1 by lia. }
  rewrite Hd. eexists. split; [done|]. cbn [_total_len _data]. split; [done|].
  rewrite <- !app_assoc. split; [done|]. unfold node_bytes. cbn [_total_len _data].
  rewrite (app_assoc h2), (app_assoc h1). apply take_app_length'. rewrite !length_app. lia.
Qed.

(** A length that does not fit: what [SendNode] does with the converted
    [short]. *)
Lemma SendNode_new_negative msg len id :
  (-32768 <= len < -5)%Z \/ (32763 < len <= 32767)%Z ->
  Pool.SendNode_new msg len id = Ok None.
Proof.
  intros H. unfold Pool.SendNode_new, Pool.HEAD_TOTAL_LEN.
  assert (to_short (len + 4) < -1)%Z as Hn.
  { destruct H as [H|H]; [rewrite to_short_id by lia; lia|].
    unfold to_short, wrap_s. change (2 ^ 16)%Z with 65536%Z.
    change (2 ^ (16 - 1))%Z with 32768%Z.
    replace (len + 4 + 32768)%Z with (len - 32764 + 1 * 65536)%Z by lia.
    rewrite Z.mod_add, Z.mod_small by lia. lia. }
  unfold Pool.MsgNode_new. by rewrite decide_True by lia.
Qed.
