(* ===== verification/SendQueue.v ===== *)
(** * Send queues

    Every session of the asio and beast servers sends through a queue: a message
    is written at once when the queue was empty, otherwise when the completion of
    the write before it starts the next one.  [SendQueue] is what such a session
    promises; [sq_fifo] is what its users rely on, proved against the promise.
    The instances are in [EchoServer], [PoolServer] and [WebSocket]. *)

From S2P Require Import Prelude.

(** [sq_send m q] and [sq_done q] give the queue after a call of [Send] and after
    a write that completed, with the message whose write they start. *)
Class SendQueue (M Q : Type) := {
  sq_queue : Q -> list M;
  sq_full : Q -> bool;
  sq_send : M -> Q -> Q * option M;
  sq_done : Q -> Q * option M;
  sq_send_full m q : sq_full q = true -> sq_send m q = (q, None);
  sq_send_room m q :
    sq_full q = false ->
    sq_queue (sq_send m q).1 = sq_queue q ++ [m]
    /\ (sq_send m q).2 = if decide (sq_queue q = []) then Some m else None;
  sq_done_next m ms q :
    sq_queue q = m :: ms -> sq_queue (sq_done q).1 = ms /\ (sq_done q).2 = head ms
}.

Section Fifo.
Context {M Q : Type} `{!EqDecision M} `{S : !SendQueue M Q}.
Implicit Types (q : Q) (m : M).

(** A connection: the queue, the write in progress, and the history. *)
Record line := MkLine {
  l_queue : Q;
  l_writing : option M;
  l_accepted : list M;
  l_written : list M
}.

Inductive sq_event := EvSend (m : M) | EvWritten.

(** [EvWritten] needs a write in progress. *)
Definition sq_step (e : sq_event) (l : line) : option line :=
  match e with
  | EvSend m =>
      let '(q, w) := sq_send m (l_queue l) in
      let acc := if sq_full (l_queue l) then l_accepted l else l_accepted l ++ [m] in
      match l_writing l, w with
      | Some _, Some _ => None
      | cur, None => Some (MkLine q cur acc (l_written l))
      | None, w => Some (MkLine q w acc (l_written l))
      end
  | EvWritten =>
      match l_writing l with
      | None => None
      | Some m =>
          let '(q, w) := sq_done (l_queue l) in
          Some (MkLine q w (l_accepted l) (l_written l ++ [m]))
      end
  end.

Fixpoint sq_run (es : list sq_event) (l : line) : option line :=
  match es with
  | [] => Some l
  | e :: es => l' ← sq_step e l; sq_run es l'
  end.

(** The write in progress is the front of the queue, and the accepted messages
    are the ones written followed by the queue. *)
Definition line_ok (l : line) : Prop :=
  l_writing l = head (sq_queue (l_queue l))
  /\ l_accepted l = l_written l ++ sq_queue (l_queue l).

Lemma sq_step_ok e l :
  line_ok l ->
  match e with
  | EvSend _ => exists l', sq_step e l = Some l' /\ line_ok l'
  | EvWritten => forall l', sq_step e l = Some l' -> line_ok l'
  end.
Proof.
  intros [Hw Ha]. destruct e as [m|].
  - unfold sq_step. destruct (sq_full (l_queue l)) eqn:Ef.
    + rewrite (sq_send_full m _ Ef). destruct (l_writing l) eqn:El;
        (eexists; split; [done|]; split; [done|]; done).
    + destruct (sq_send_room m _ Ef) as [Hq Ho].
      destruct (sq_send m (l_queue l)) as [q w]. simpl in Hq, Ho.
      destruct (sq_queue (l_queue l)) as [|m0 ms] eqn:Eq; simpl in *.
      * rewrite Hw, Ho. eexists. split; [done|]. split; simpl.
        -- by rewrite Hq.
        -- by rewrite Ha, Hq, app_nil_r.
      * rewrite Hw, Ho. eexists. split; [done|]. split; simpl.
        -- by rewrite Hq.
        -- by rewrite Ha, Hq, <- app_assoc.
  - intros l' Hl'. unfold sq_step in Hl'.
    destruct (sq_queue (l_queue l)) as [|m ms] eqn:Eq; simpl in Hw; rewrite Hw in Hl';
      [done|].
    destruct (sq_done_next m ms _ Eq) as [Hq Ho].
    destruct (sq_done (l_queue l)) as [q w]. simplify_eq/=. split; simpl; [done|].
    by rewrite Ha, <- app_assoc.
Qed.

Lemma sq_run_ok es l l' : line_ok l -> sq_run es l = Some l' -> line_ok l'.
Proof.
  revert l. induction es as [|e es IH]; intros l Hl; simpl; [by intros [= <-]|].
  destruct (sq_step e l) as [l1|] eqn:E; [|done]. simpl. apply IH.
  pose proof (sq_step_ok e l Hl) as H. destruct e.
  - destruct H as (l2 & H & Hok). congruence.
  - by apply H.
Qed.

(** As many completions as the queue is long write everything accepted. *)
Lemma sq_drain l :
  line_ok l ->
  exists l', sq_run (replicate (length (sq_queue (l_queue l))) EvWritten) l = Some l'
    /\ l_written l' = l_accepted l /\ sq_queue (l_queue l') = [] /\ l_writing l' = None.
Proof.
  remember (sq_queue (l_queue l)) as ms eqn:Eq. symmetry in Eq.
  revert l Eq. induction ms as [|m ms IH]; intros l Eq [Hw Ha].
  - rewrite Eq in Hw, Ha. exists l. rewrite app_nil_r in Ha. by split_and!.
  - rewrite Eq in Hw, Ha. simpl in Hw. cbn [length replicate sq_run].
    assert (exists l1, sq_step EvWritten l = Some l1 /\ sq_queue (l_queue l1) = ms
      /\ l_accepted l1 = l_accepted l) as (l1 & Hl1 & Hq1 & Ha1).
    { unfold sq_step. rewrite Hw. destruct (sq_done_next m ms _ Eq) as [Hq _].
      destruct (sq_done (l_queue l)) as [q w]. by eexists. }
    assert (line_ok l) as Hok by (split; by rewrite Eq).
    pose proof (sq_step_ok EvWritten l Hok l1 Hl1) as Hok1.
    destruct (IH l1 Hq1 Hok1) as (l2 & Hr & Hwr & He). exists l2.
    rewrite Hl1. simpl. rewrite Hr, Hwr, Ha1. done.
Qed.
End Fifo.

Arguments line M Q : clear implicits.
Arguments sq_event M : clear implicits.

(** ** A connection that may fail

    What a session's invariant says of its queue: the front is being written; after a
    write that failed nothing is, and the queue keeps the message of that write. *)
Section Writes.
Context {M Q B A : Type} `{SQ : !SendQueue M Q} (bytes : M -> B) (enc : A -> B) (max : nat).
Implicit Types (q : Q) (m : M) (wr : option B).

Definition writing_ok (failed : bool) wr (ms : list M) : Prop :=
  if failed then wr = None /\ ms <> [] else wr = head (bytes <$> ms).

(** What was written and what is queued are the encodings of messages received, in
    order: of all of them when there were at most [max]. *)
Definition out_ok (received : list A) (written : list B) (ms : list M) : Prop :=
  exists accepted, sublist accepted received
    /\ written ++ (bytes <$> ms) = enc <$> accepted
    /\ (length received <= max -> accepted = received).

(** The write that is started; [None] when one is in progress. *)
Definition begin_write wr (w : option M) : option (option B) :=
  match w, wr with
  | None, _ => Some wr
  | Some m, None => Some (Some (bytes m))
  | Some _, Some _ => None
  end.

Lemma out_ok_length received written ms :
  out_ok received written ms -> length ms <= length received.
Proof.
  intros (acc & Hs%sublist_length & Ho & _). apply (f_equal length) in Ho.
  rewrite length_app, !length_fmap in Ho. lia.
Qed.

Lemma send_out f wr q m x received written :
  (sq_full q = true -> max <= length (sq_queue q)) -> bytes m = enc x ->
  writing_ok f wr (sq_queue q) -> out_ok received written (sq_queue q) ->
  exists wr', begin_write wr (sq_send m q).2 = Some wr'
    /\ writing_ok f wr' (sq_queue (sq_send m q).1)
    /\ out_ok (received ++ [x]) written (sq_queue (sq_send m q).1).
Proof.
  intros Hfull Hm Hw Ho. pose proof (out_ok_length _ _ _ Ho) as Hlen.
  destruct Ho as (acc & Hsub & Hout & Hall). destruct (sq_full q) eqn:Ef.
  - rewrite (sq_send_full m q Ef). exists wr. split; [done|]. split; [done|].
    exists acc. split; [by apply sublist_inserts_r|]. split; [done|].
    intros Hr. rewrite length_app in Hr. simpl in Hr. specialize (Hfull eq_refl). lia.
  - destruct (sq_send_room m q Ef) as [Hq ->]. rewrite Hq. unfold writing_ok in *.
    assert (out_ok (received ++ [x]) written (sq_queue q ++ [m])) as Hout'.
    { exists (acc ++ [x]). split; [by apply sublist_app|].
      rewrite !fmap_app, app_assoc, Hout. split; [by cbn; rewrite Hm|].
      intros Hr. f_equal. apply Hall. rewrite length_app in Hr. simpl in Hr. lia. }
    destruct (sq_queue q) as [|m0 ms]; cbn [decide].
    + rewrite decide_True by done. destruct f; [by destruct Hw|].
      rewrite Hw. by eexists.
    + rewrite decide_False by done. exists wr. split; [by destruct wr|]. split; [|done].
      destruct f; [by destruct Hw|exact Hw].
Qed.

Lemma done_out d q received written :
  writing_ok false (Some d) (sq_queue q) -> out_ok received written (sq_queue q) ->
  exists wr, begin_write None (sq_done q).2 = Some wr
    /\ sq_queue q <> [] /\ length (sq_queue q) = S (length (sq_queue (sq_done q).1))
    /\ writing_ok false wr (sq_queue (sq_done q).1)
    /\ out_ok received (written ++ [d]) (sq_queue (sq_done q).1).
Proof.
  intros Hw Ho. destruct (sq_queue q) as [|m ms] eqn:Eq; [discriminate Hw|].
  destruct (sq_done_next m ms q Eq) as [-> ->]. injection Hw as ->.
  exists (head (bytes <$> ms)). split; [by destruct ms|]. split_and!; try done.
  destruct Ho as (acc & Hsub & Hout & Hall). exists acc. split; [done|].
  split; [|done]. by rewrite <- app_assoc.
Qed.
End Writes.
