(* ===== verification/SendThreads.v ===== *)
(** * [Send] and the completion handler, statement by statement

    In every server a session's send queue is used by the threads that call [Send]
    and by those that run the handler of a completed write; a mutex guards the
    queue.  [2. AsyncServer], [3. AsyncServerIOservicepool] and
    [4. CoroutineAsyncServer] start a write while they hold it, the connection
    of [6. WebSocketServer] after it has released it ([early]).  The threads are
    interleaved here at every statement on the shared state; to its users the
    queue is the [SendQueue] the other files take it to be. *)

From S2P Require Import Prelude SendQueue.

Section Threads.
Context {M : Type} `{!EqDecision M}.
(** The longest queue [Send] pushes to; and whether the mutex is released before
    the write is started. *)
Context (limit : option nat) (early : bool).
Implicit Types (m : M) (i n : nat).

(** Where a thread stands; [SLock] to [STest] are in [Send], [HLock] to [HTest] in
    the handler, what starts a write is in both. *)
Inductive pc :=
| Idle
| SLock m              (* lock_guard(_send_lock) *)
| SSize m              (* send_que_size = _send_que.size() *)
| SFull n m            (* if (send_que_size > MAX_SENDQUE) *)
| SPush n m            (* _send_que.push(...) *)
| STest n m            (* if (send_que_size > 0) *)
| Front                (* msgnode = _send_que.front() *)
| UnlockWrite m        (* the mutex is released before the write *)
| Write m              (* async_write(msgnode) *)
| Unlock
| HLock                (* lock_guard(_send_lock) *)
| HPop                 (* _send_que.pop() *)
| HTest.               (* if (!_send_que.empty()) *)

(** [wire] are the messages given to [async_write], [pushed] and [popped] those put
    into the queue and taken out. *)
Record state := MkState {
  que : list M;
  mutex : option nat;
  writing : option M;          (* the async_write in progress *)
  failed : bool;               (* a write failed *)
  threads : list pc;
  wire : list M;
  pushed : list M;
  popped : list M
}.
Implicit Types s : state.

Definition goto i (p : pc) s := MkState (que s) (mutex s) (writing s) (failed s)
  (<[i:=p]> (threads s)) (wire s) (pushed s) (popped s).
Definition set_mutex o s := MkState (que s) o (writing s) (failed s) (threads s) (wire s)
  (pushed s) (popped s).
Definition set_writing o s := MkState (que s) (mutex s) o (failed s) (threads s) (wire s)
  (pushed s) (popped s).

Definition push m s := MkState (que s ++ [m]) (mutex s) (writing s) (failed s) (threads s)
  (wire s) (pushed s ++ [m]) (popped s).

(** [front] and [pop] of an empty queue are undefined, and so is [async_write] while
    another one is in progress. *)
Definition front s : res M := match que s with [] => UB | m :: _ => Ok m end.
Definition pop s : res state :=
  match que s with
  | [] => UB
  | m :: q => Ok (MkState q (mutex s) (writing s) (failed s) (threads s) (wire s) (pushed s)
                    (popped s ++ [m]))
  end.
Definition async_write m s : res state :=
  match writing s with
  | Some _ => UB
  | None => Ok (MkState (que s) (mutex s) (Some m) (failed s) (threads s) (wire s ++ [m])
                  (pushed s) (popped s))
  end.

Definition full n : bool := match limit with Some l => bool_decide (l < n) | None => false end.

(** The next statement of thread [i]; [None] when it waits for the mutex or is not in
    one of the two functions. *)
Definition thread_step i s : option (res state) :=
  p ← threads s !! i;
  match p with
  | Idle => None
  | SLock m => match mutex s with
               | None => Some (Ok (goto i (SSize m) (set_mutex (Some i) s)))
               | Some _ => None
               end
  | SSize m => Some (Ok (goto i (SFull (length (que s)) m) s))
  | SFull n m => Some (Ok (goto i (if full n then Unlock else SPush n m) s))
  | SPush n m => Some (Ok (goto i (STest n m) (push m s)))
  | STest n m =>
      Some (Ok (goto i (if decide (0 < n) then Unlock
                        else if early then UnlockWrite m else Front) s))
  | Front => Some (let* m := front s in Ok (goto i (if early then UnlockWrite m else Write m) s))
  | UnlockWrite m => Some (Ok (goto i (Write m) (set_mutex None s)))
  | Write m => Some (let* s := async_write m s in Ok (goto i (if early then Idle else Unlock) s))
  | Unlock => Some (Ok (goto i Idle (set_mutex None s)))
  | HLock => match mutex s with
             | None => Some (Ok (goto i HPop (set_mutex (Some i) s)))
             | Some _ => None
             end
  | HPop => Some (let* s := pop s in Ok (goto i HTest s))
  | HTest => Some (Ok (goto i (if decide (que s = []) then Unlock else Front) s))
  end.

(** A thread that is free calls [Send], or runs the handler of the write that
    completed; a write that fails leaves the queue as it is. *)
Inductive step s : state -> Prop :=
| step_thread i s' : thread_step i s = Some (Ok s') -> step s s'
| step_send i m : threads s !! i = Some Idle -> step s (goto i (SLock m) s)
| step_written i m : threads s !! i = Some Idle -> writing s = Some m ->
    step s (goto i HLock (set_writing None s))
| step_fails m : writing s = Some m ->
    step s (MkState (que s) (mutex s) None true (threads s) (wire s) (pushed s) (popped s)).

Definition start (k : nat) : state := MkState [] None None false (replicate k Idle) [] [] [].

Definition reachable (k : nat) : state -> Prop := rtc step (start k).

(** ** The invariant *)

Definition crit (p : pc) : bool :=
  match p with
  | SSize _ | SFull _ _ | SPush _ _ | STest _ _ | Front | UnlockWrite _ | Unlock => true
  | HPop | HTest => true
  | Write _ => negb early
  | _ => false
  end.

(** The thread will start a write, unless it finds the queue empty. *)
Definition starts (p : pc) : nat :=
  match p with
  | STest n _ => if decide (0 < n) then 0 else 1
  | Front | UnlockWrite _ | Write _ | HTest => 1
  | _ => 0
  end.

(** The thread will pop the message whose write completed. *)
Definition pops (p : pc) : nat := match p with HLock | HPop => 1 | _ => 0 end.

Definition owes (p : pc) : nat := starts p + pops p.

Definition busy s : nat :=
  (if writing s is Some _ then 1 else 0) + (if failed s then 1 else 0).

(** Who takes care of the front of the queue: a thread, a write in progress, or nobody
    any more after a failure. *)
Definition owners s : nat := weight owes (threads s) + busy s.

Definition knows s (p : pc) : Prop :=
  match p with
  | SFull n _ => n = length (que s)
  | SPush n _ => n = length (que s) /\ full n = false
  | STest n m => length (que s) = S n /\ last (que s) = Some m
  | Front | HLock | HPop => que s <> []
  | UnlockWrite m => early = true /\ head (que s) = Some m
  | Write m => head (que s) = Some m
  | _ => True
  end.

(** The front of the queue is on the wire unless a thread is about to put it there. *)
Definition on_wire s : list M :=
  if decide (weight starts (threads s) = 0) then take 1 (que s) else [].

Record inv s : Prop := {
  v_lock : forall i p, threads s !! i = Some p -> (crit p = true <-> mutex s = Some i);
  v_mutex : forall i, mutex s = Some i -> is_Some (threads s !! i);
  v_knows : forall i p, threads s !! i = Some p -> knows s p;
  v_one : owners s <= 1;
  v_owed : que s <> [] -> owners s = 1;
  v_writing : forall m, writing s = Some m -> head (que s) = Some m;
  v_failed : failed s = true -> que s <> [];
  v_fifo : pushed s = popped s ++ que s;
  v_wire : wire s = popped s ++ on_wire s
}.

Lemma send_inv_start k : inv (start k).
Proof.
  assert (forall i p, replicate k Idle !! i = Some p -> p = Idle) as Hp
    by (intros i p [? _]%lookup_replicate; done).
  split; try done.
  - intros i p H. by rewrite (Hp i p H).
  - intros i p H. by rewrite (Hp i p H).
  - unfold owners, start. cbn [threads busy]. rewrite weight_replicate.
    change (owes Idle) with 0. unfold busy. cbn. lia.
  - unfold on_wire. cbn. by case_decide.
Qed.

(** A thread that is in the critical section excludes the others. *)
Lemma crit_alone s i j p q :
  inv s -> threads s !! i = Some p -> crit p = true -> threads s !! j = Some q -> crit q = true ->
  i = j.
Proof.
  intros Hs Hi Hp Hj Hq. apply (v_lock s Hs i p Hi) in Hp. apply (v_lock s Hs j q Hj) in Hq.
  congruence.
Qed.

Lemma owes_starts l : weight starts l <= weight owes l.
Proof.
  induction l as [|p l IH]; [done|].
  change (starts p + weight starts l <= starts p + pops p + weight owes l). lia.
Qed.

Lemma owner_weight s i p : threads s !! i = Some p -> owes p <= weight owes (threads s).
Proof. intros H. by eapply weight_lookup. Qed.

(** A thread that owes something is the only one, and no write is in progress. *)
Lemma sole_owner s i p :
  inv s -> threads s !! i = Some p -> owes p = 1 ->
  writing s = None /\ failed s = false
  /\ forall j q, threads s !! j = Some q -> j <> i -> owes q = 0.
Proof.
  intros Hs Hi Hp. pose proof (v_one s Hs) as H1. pose proof (owner_weight s i p Hi) as H2.
  unfold owners, busy in H1. destruct (writing s), (failed s); try lia.
  split; [done|]. split; [done|]. intros j q Hj Hne.
  pose proof (weight_insert owes (threads s) i p Idle Hi) as H3. cbn in H3.
  assert (owes q <= weight owes (<[i:=Idle]> (threads s))) as H4
    by (eapply weight_lookup; by rewrite list_lookup_insert_ne).
  lia.
Qed.

(** Inside the critical section with an empty queue, nobody else owes a write. *)
Lemma empty_owners s i p :
  inv s -> threads s !! i = Some p -> crit p = true -> owes p = 0 -> que s = [] -> owners s = 0.
Proof.
  intros Hs Hi Hp Ho Hq. unfold owners.
  assert (busy s = 0) as ->.
  { unfold busy. destruct (writing s) as [m|] eqn:Ew.
    - pose proof (v_writing s Hs m Ew) as H. by rewrite Hq in H.
    - destruct (failed s) eqn:Ef; [|done]. by pose proof (v_failed s Hs Ef). }
  destruct (decide (weight owes (threads s) = 0)) as [->|Hne]; [done|].
  destruct (weight_pos owes (threads s)) as (j & q & Hj & Hq'); [lia|].
  pose proof (v_knows s Hs j q Hj) as Hk.
  assert (crit q = true) as Hc.
  { destruct q; try done; exfalso; unfold owes in Hq'; cbn in Hq', Hk; rewrite ?Hq in Hk;
      done || lia. }
  assert (i = j) as <- by by eapply crit_alone.
  rewrite Hi in Hj. injection Hj as <-. lia.
Qed.

(** ** The moves

    Thread [i] goes from [p] to [p'].  [Hbal]: with what the others owe, the one that
    takes care of the front stays one. *)
Lemma send_inv_move i p p' s s' :
  inv s -> threads s !! i = Some p -> threads s' = <[i:=p']> (threads s) ->
  lock_move i (crit p) (crit p') (mutex s) (mutex s') ->
  (forall j q, threads s !! j = Some q -> j <> i -> knows s' q) -> knows s' p' ->
  (forall r, r + owes p + busy s = owners s ->
     r + owes p' + busy s' <= 1 /\ (que s' <> [] -> r + owes p' + busy s' = 1)) ->
  (forall m, writing s' = Some m -> head (que s') = Some m) ->
  (failed s' = true -> que s' <> []) ->
  pushed s' = popped s' ++ que s' ->
  (forall r, r + owes p + busy s <= owners s ->
     wire s = popped s ++ (if decide (r + starts p = 0) then take 1 (que s) else []) ->
     wire s' = popped s' ++ (if decide (r + starts p' = 0) then take 1 (que s') else [])) ->
  inv s'.
Proof.
  intros Hs Hi Ht Hlock Hoth Hself Hbal Hw Hf Hfifo Hwire.
  pose proof (weight_insert owes (threads s) i p p' Hi) as E1.
  pose proof (weight_insert starts (threads s) i p p' Hi) as E2.
  pose proof (weight_insert owes (threads s) i p Idle Hi) as E3.
  pose proof (weight_insert starts (threads s) i p Idle Hi) as E4.
  pose proof (owes_starts (<[i:=Idle]> (threads s))) as E5.
  change (owes Idle) with 0 in E3. change (starts Idle) with 0 in E4.
  set (ro := weight owes (<[i:=Idle]> (threads s))) in *.
  set (rs := weight starts (<[i:=Idle]> (threads s))) in *.
  destruct (Hbal ro) as [B1 B2]; [unfold owners; lia|].
  split; try done.
  - intros j q Hj. rewrite Ht in Hj. moved Hj.
    { eapply lock_move_self; [exact Hlock|by eapply v_lock]. }
    eapply lock_move_other; [exact Hlock|congruence|by eapply v_lock].
  - intros j Hj. rewrite Ht, list_lookup_insert_is_Some.
    destruct Hlock as [[_ H]|[(_ & H & _)|(_ & H & _)]]; rewrite H in Hj;
      [by apply (v_mutex s Hs)|injection Hj as <-; by eexists|done].
  - intros j q Hj. rewrite Ht in Hj. moved Hj; [done|]. by eapply Hoth.
  - unfold owners. rewrite Ht. lia.
  - intros Hq. specialize (B2 Hq). unfold owners. rewrite Ht. lia.
  - unfold on_wire. rewrite Ht. replace (weight starts _) with (rs + starts p') by lia.
    apply Hwire; [unfold owners; lia|]. rewrite (v_wire s Hs). unfold on_wire.
    by replace (weight starts (threads s)) with (rs + starts p) by lia.
Qed.

(** The same when queue, writes and histories stay. *)
Lemma send_inv_goto i p p' o s :
  inv s -> threads s !! i = Some p -> lock_move i (crit p) (crit p') (mutex s) o ->
  knows s p' -> owes p' = owes p -> starts p' = starts p -> inv (goto i p' (set_mutex o s)).
Proof.
  intros Hs Hi Hlock Hk Ho Hst.
  apply (send_inv_move i p p' s); try done.
  - intros j q Hj _. by apply (v_knows s Hs j).
  - intros r Hr. rewrite Ho. change (busy (goto i p' (set_mutex o s))) with (busy s). rewrite Hr.
    split; [apply (v_one s Hs)|apply (v_owed s Hs)].
  - apply (v_writing s Hs).
  - apply (v_failed s Hs).
  - apply (v_fifo s Hs).
  - intros r _. by rewrite Hst.
Qed.

(** ** The statements *)

Lemma owners_split s : owners s = weight owes (threads s) + busy s.
Proof. done. Qed.

Lemma push_inv i n m s :
  inv s -> threads s !! i = Some (SPush n m) -> inv (goto i (STest n m) (push m s)).
Proof.
  intros Hs Hi. pose proof (v_knows s Hs i _ Hi) as [Hn _].
  assert (0 < n \/ n = 0 /\ que s = [] /\ owners s = 0) as Hcase.
  { destruct (decide (0 < n)); [by left|right].
    assert (que s = []) by (by apply nil_length_inv; lia).
    split; [lia|]. split; [done|]. by apply (empty_owners s i (SPush n m)). }
  assert (take 1 (que s ++ [m]) = if decide (0 < n) then take 1 (que s) else [m]) as Htake.
  { rewrite Hn. destruct (que s) as [|m0 q]; [done|]. by rewrite decide_True by (simpl; lia). }
  apply (send_inv_move i (SPush n m) (STest n m) s); try done;
    cbn [que goto push writing popped pushed wire failed].
  - by left.
  - intros j q Hj Hne. pose proof (v_knows s Hs j q Hj) as Hk.
    assert (crit q = true -> i = j) as Hc by (intros Hc; by eapply crit_alone).
    destruct q; try (destruct Hne; symmetry; by apply Hc); cbn in Hk |- *; try done.
    + destruct early eqn:Ee; [|by destruct Hne; symmetry; apply Hc; cbn; rewrite Ee].
      by destruct (que s).
    + by destruct (que s).
  - cbn. rewrite length_app, last_snoc. simpl. split; [lia|done].
  - intros r Hr. unfold owes in *. cbn [starts pops] in *. change (busy (goto _ _ _)) with (busy s).
    destruct Hcase as [Hpos|(-> & Hq & H0)].
    + rewrite decide_True by done.
      assert (que s <> []) as Hne by (intros E; rewrite E in Hn; simpl in Hn; lia).
      pose proof (v_owed s Hs Hne). lia.
    + rewrite decide_False by lia. lia.
  - intros m0 Hw. apply (v_writing s Hs) in Hw. by destruct (que s).
  - intros _. by destruct (que s).
  - by rewrite (v_fifo s Hs), app_assoc.
  - intros r Hr Hw. rewrite Htake. cbn [starts] in *. unfold owes in Hr. cbn [starts pops] in Hr.
    destruct Hcase as [Hpos|(-> & Hq & H0)].
    + by rewrite !(decide_True (P := 0 < n)) by done.
    + rewrite !(decide_False (P := 0 < 0)) by lia. rewrite Hw, Hq.
      rewrite (decide_False (P := r + 1 = 0)) by lia. by case_decide.
Qed.

Lemma write_inv i m s :
  inv s -> threads s !! i = Some (Write m) ->
  exists s', async_write m s = Ok s' /\ inv (goto i (if early then Idle else Unlock) s').
Proof.
  intros Hs Hi. pose proof (v_knows s Hs i _ Hi) as Hn. cbn in Hn.
  destruct (sole_owner s i (Write m) Hs Hi eq_refl) as (Hw & Hf & _).
  pose proof (v_one s Hs) as H1. pose proof (owner_weight s i _ Hi) as H2.
  unfold async_write. rewrite Hw. eexists. split; [reflexivity|].
  eapply (send_inv_move i (Write m) (if early then Idle else Unlock) s); try done;
    cbn [que goto writing popped pushed wire failed].
  - left. split; [|done]. unfold crit. by destruct early.
  - intros j q Hj _. by apply (v_knows s Hs j).
  - by destruct early.
  - intros r Hr. assert (owes (if early then Idle else Unlock) = 0) as -> by by destruct early.
    unfold busy in *. cbn [writing failed goto] in *. rewrite Hw, Hf in *.
    unfold owes in *. cbn [starts pops] in *. split; [lia|]. intros _.
    rewrite <- (v_owed s Hs); [lia|]. intros E. by rewrite E in Hn.
  - intros m0 [= <-]. done.
  - apply (v_failed s Hs).
  - apply (v_fifo s Hs).
  - intros r Hr ->. assert (starts (if early then Idle else Unlock) = 0) as -> by by destruct early.
    unfold busy, owes in Hr. cbn [starts pops] in *. rewrite (decide_False (P := r + 1 = 0)) by lia.
    rewrite decide_True by lia. rewrite app_nil_r. f_equal.
    destruct (que s); [done|]. by injection Hn as ->.
Qed.

Lemma pop_inv i s :
  inv s -> threads s !! i = Some HPop -> exists s', pop s = Ok s' /\ inv (goto i HTest s').
Proof.
  intros Hs Hi. pose proof (v_knows s Hs i _ Hi) as Hn. cbn in Hn.
  destruct (sole_owner s i HPop Hs Hi eq_refl) as (Hw & Hf & Hoth).
  pose proof (v_one s Hs) as H1. unfold pop. destruct (que s) as [|m q] eqn:Eq; [done|].
  eexists. split; [reflexivity|].
  eapply (send_inv_move i HPop HTest s); try done;
    cbn [que goto writing popped pushed wire failed].
  - by left.
  - intros j p Hj Hne. pose proof (Hoth j p Hj Hne) as H0.
    assert (crit p = true -> i = j) as Hc by (intros Hc; by eapply crit_alone).
    destruct p; try (destruct Hne; symmetry; by apply Hc); try done;
      unfold owes in H0; cbn in H0; lia.
  - intros r Hr. unfold busy, owes in *. cbn [writing failed goto starts pops] in *.
    rewrite Hw, Hf in *. lia.
  - intros m0 H. congruence.
  - intros H. congruence.
  - rewrite (v_fifo s Hs), Eq, <- app_assoc. done.
  - intros r Hr ->. unfold owes in Hr. cbn [starts pops] in *.
    rewrite (decide_False (P := r + 1 = 0)) by lia. rewrite decide_True by lia.
    rewrite Eq, app_nil_r. done.
Qed.

(** Every statement a thread gets to is defined and keeps the invariant. *)
Lemma send_inv_thread i s r :
  inv s -> thread_step i s = Some r -> exists s', r = Ok s' /\ inv s'.
Proof.
  intros Hs H. unfold thread_step in H. destruct (threads s !! i) as [p|] eqn:Hi; [|done].
  cbn [mbind option_bind] in H. pose proof (proj1 (v_lock s Hs i p Hi)) as Hc.
  pose proof (v_knows s Hs i p Hi) as Hk.
  destruct p as [|m|m|n m|n m|n m| |m|m| | | |]; cbn in Hc, Hk; try discriminate H.
  - destruct (mutex s) eqn:Em; [done|]. injection H as <-. eexists. split; [done|].
    apply (send_inv_goto i (SLock m)); try done. right. by left.
  - injection H as <-. eexists. split; [done|].
    by apply (send_inv_goto i (SSize m) (SFull _ m) (mutex s)); [| |left|..].
  - injection H as <-. eexists. split; [done|].
    destruct (full n) eqn:Ef; [apply (send_inv_goto i (SFull n m) Unlock (mutex s))
      |apply (send_inv_goto i (SFull n m) (SPush n m) (mutex s))]; try done; by left.
  - injection H as <-. eexists. split; [done|]. by apply push_inv.
  - injection H as <-. eexists. split; [done|]. destruct (decide (0 < n)) as [Hn|Hn].
    + apply (send_inv_goto i (STest n m) Unlock (mutex s)); try done; [by left|..];
        unfold owes; cbn; by rewrite decide_True.
    + assert (que s = [m]) as Hq.
      { destruct Hk as [Hl Hm]. destruct (que s) as [|x [|y q]]; simpl in Hl; try lia.
        by injection Hm as ->. }
      destruct early eqn:Ee;
        [apply (send_inv_goto i (STest n m) (UnlockWrite m) (mutex s))
        |apply (send_inv_goto i (STest n m) Front (mutex s))]; try done; cbn; rewrite ?Hq; try done;
        try (by left); unfold owes; cbn; by rewrite decide_False.
  - injection H as <-. unfold front. destruct (que s) as [|m q] eqn:Eq; [done|]. cbn [res_bind].
    eexists. split; [done|]. destruct early eqn:Ee;
      [apply (send_inv_goto i Front (UnlockWrite m) (mutex s))
      |apply (send_inv_goto i Front (Write m) (mutex s))]; try done; cbn; rewrite ?Eq; try done;
      left; cbn; by rewrite ?Ee.
  - injection H as <-. eexists. split; [done|]. destruct Hk as [Ee Hk].
    apply (send_inv_goto i (UnlockWrite m) (Write m)); try done. right. right.
    rewrite Hc by done. cbn. by rewrite Ee.
  - injection H as <-. destruct (write_inv i m s Hs Hi) as (s' & -> & Hs'). by eexists.
  - injection H as <-. eexists. split; [done|]. apply (send_inv_goto i Unlock Idle); try done.
    right. right. by rewrite Hc.
  - destruct (mutex s) eqn:Em; [done|]. injection H as <-. eexists. split; [done|].
    apply (send_inv_goto i HLock HPop); try done. right. by left.
  - injection H as <-. destruct (pop_inv i s Hs Hi) as (s' & -> & Hs'). by eexists.
  - injection H as <-. eexists. split; [done|]. destruct (decide (que s = [])) as [Hq|Hq];
      [|by apply (send_inv_goto i HTest Front (mutex s)); [| |left|..]].
    apply (send_inv_move i HTest Unlock s); try done.
    + by left.
    + intros j q Hj _. by apply (v_knows s Hs j).
    + intros r Hr. pose proof (v_one s Hs). change (busy (goto _ _ _)) with (busy s).
      unfold owes in *. cbn in *. split; [lia|done].
    + apply (v_writing s Hs).
    + apply (v_failed s Hs).
    + apply (v_fifo s Hs).
    + intros r _ Hwr. cbn [wire popped que goto]. rewrite Hwr, Hq. by do 2 case_decide.
Qed.

Lemma send_inv_step s s' : inv s -> step s s' -> inv s'.
Proof.
  intros Hs [i s1 H|i m Hi|i m Hi Hw|m Hw].
  - destruct (send_inv_thread i s _ Hs H) as (s2 & [= ->] & ?). done.
  - apply (send_inv_goto i Idle (SLock m) (mutex s)); try done. by left.
  - pose proof (v_writing s Hs m Hw) as Hq. pose proof (v_one s Hs) as H1.
    apply (send_inv_move i Idle HLock s); try done.
    + by left.
    + intros j q Hj _. by apply (v_knows s Hs j).
    + cbn. intros E. by rewrite E in Hq.
    + intros r Hr. unfold owners, busy, owes in *.
      cbn [writing failed goto set_writing starts pops] in *.
      rewrite Hw in *. destruct (failed s); [lia|]. split; [lia|]. intros _.
      assert (que s <> []) as Hne by (intros E; by rewrite E in Hq).
      pose proof (v_owed s Hs Hne) as H2. unfold owners, busy in H2. rewrite Hw in H2. lia.
    + apply (v_failed s Hs).
    + apply (v_fifo s Hs).
  - pose proof (v_writing s Hs m Hw) as Hq. pose proof (v_one s Hs) as H1.
    assert (que s <> []) as Hne by (intros E; by rewrite E in Hq).
    pose proof (v_owed s Hs Hne) as H2.
    unfold owners, busy in H1, H2. rewrite Hw in H1, H2.
    split; try apply Hs; try done; unfold owners, busy;
      cbn [writing failed threads]; destruct (failed s); lia.
Qed.

Lemma send_inv_reachable k s : reachable k s -> inv s.
Proof.
  intros H. unfold reachable in H. assert (inv (start k)) as Hs by apply send_inv_start.
  induction H as [|s s1 s2 Hst _ IH]; [done|]. apply IH. by eapply send_inv_step.
Qed.

(** ** The queue the users see *)

Definition thread_push m (q : list M) : list M * option M :=
  if full (length q) then (q, None) else (q ++ [m], if decide (q = []) then Some m else None).

#[refine, local] Instance thread_queue : SendQueue M (list M) := {|
  sq_queue q := q;
  sq_full q := full (length q);
  sq_send := thread_push;
  sq_done q := (tail q, head (tail q));
  sq_send_full := _;
  sq_send_room := _;
  sq_done_next := _
|}.
Proof.
  - intros m q H. unfold thread_push. by rewrite H.
  - intros m q H. unfold thread_push. by rewrite H.
  - intros m ms q ->. by split.
Defined.

(** The state as the users see it: the front of the queue is what is being written. *)
Definition line_of s : line M (list M) := MkLine (que s) (head (que s)) (pushed s) (popped s).

Lemma sq_run_app es1 es2 (l : line M (list M)) :
  sq_run (S := thread_queue) (es1 ++ es2) l
  = l' ← sq_run (S := thread_queue) es1 l; sq_run (S := thread_queue) es2 l'.
Proof.
  revert l. induction es1 as [|e es1 IH]; intros l; [done|]. cbn [app sq_run].
  destruct (sq_step e l) as [l1|]; [exact (IH l1)|done].
Qed.

Lemma line_push m s :
  full (length (que s)) = false ->
  sq_step (S := thread_queue) (EvSend m) (line_of s) = Some (line_of (push m s)).
Proof.
  intros Hf. unfold sq_step, line_of. cbn. unfold thread_push. rewrite Hf.
  destruct (que s) as [|m0 q]; [done|]. by rewrite decide_False.
Qed.

Lemma line_popped s s' :
  pop s = Ok s' -> sq_step (S := thread_queue) EvWritten (line_of s) = Some (line_of s').
Proof.
  unfold pop, sq_step, line_of. destruct (que s) as [|m q]; [done|]. by intros [= <-].
Qed.

(** A step is at most one event of the queue. *)
Lemma step_line s s' :
  inv s -> step s s' -> exists es, sq_run (S := thread_queue) es (line_of s) = Some (line_of s').
Proof.
  intros Hs [i s1 H|i m Hi|i m Hi Hw|m Hw]; try (by exists []).
  unfold thread_step in H. destruct (threads s !! i) as [p|] eqn:Hi; [|done].
  cbn [mbind option_bind] in H. pose proof (v_knows s Hs i p Hi) as Hk.
  destruct p as [|m|m|n m|n m|n m| |m|m| | | |]; try discriminate H;
    try (by injection H as <-; exists []).
  - destruct (mutex s); [done|]. injection H as <-. by exists [].
  - injection H as <-. destruct Hk as [-> Hf]. exists [EvSend m]. cbn [sq_run].
    by rewrite line_push.
  - unfold front in H. destruct (que s); [done|]. injection H as <-. by exists [].
  - unfold async_write in H. destruct (writing s); [done|]. injection H as <-. by exists [].
  - destruct (mutex s); [done|]. injection H as <-. by exists [].
  - destruct (pop s) as [s2| |] eqn:Ep; try done. injection H as <-.
    exists [EvWritten]. cbn [sq_run]. by rewrite (line_popped s s2).
Qed.

Lemma reachable_line k s :
  reachable k s ->
  exists es, sq_run (S := thread_queue) es (MkLine [] None [] []) = Some (line_of s).
Proof.
  intros H. unfold reachable in H. change (MkLine [] None [] []) with (line_of (start k)).
  assert (inv (start k)) as Hs by apply send_inv_start.
  induction H as [s|s s1 s2 Hst _ IH]; [by exists []|].
  destruct (step_line s s1 Hs Hst) as [es1 H1].
  destruct (IH (send_inv_step s s1 Hs Hst)) as [es2 H2]. exists (es1 ++ es2).
  by rewrite sq_run_app, H1.
Qed.

(** A thread inside the critical section is never stuck. *)
Lemma crit_steps i p s :
  threads s !! i = Some p -> crit p = true -> is_Some (thread_step i s).
Proof.
  intros Hi Hp. unfold thread_step. rewrite Hi. cbn [mbind option_bind].
  destruct p; try done; by eexists.
Qed.

(** While messages wait, a write is in progress or a thread can go on. *)
Lemma send_progress s :
  inv s -> que s <> [] -> failed s = false ->
  is_Some (writing s) \/ exists i s', thread_step i s = Some (Ok s').
Proof.
  intros Hs Hq Hf. destruct (writing s) as [m|] eqn:Ew; [by left; eexists|right].
  assert (exists i, is_Some (thread_step i s)) as (i & r & Hr).
  { pose proof (v_owed s Hs Hq) as H1. unfold owners, busy in H1. rewrite Ew, Hf in H1.
    destruct (weight_pos owes (threads s)) as (j & p & Hj & Hp); [lia|].
    destruct (mutex s) as [i|] eqn:Em.
    - destruct (v_mutex s Hs i Em) as [p' Hi]. exists i.
      apply (crit_steps i p' s Hi).
      by apply (v_lock s Hs i p' Hi).
    - exists j. unfold thread_step. rewrite Hj. cbn [mbind option_bind].
      destruct p; rewrite ?Em; try (by eexists); unfold owes in Hp; cbn in Hp; lia. }
  destruct (send_inv_thread i s r Hs Hr) as (s' & -> & _). by exists i, s'.
Qed.

Lemma wire_pushed s : inv s -> wire s `prefix_of` pushed s.
Proof.
  intros Hs. rewrite (v_wire s Hs), (v_fifo s Hs). apply prefix_app. unfold on_wire.
  case_decide; [|apply prefix_nil]. exists (drop 1 (que s)). by rewrite take_drop.
Qed.

(** Only [Send] adds to the queue, and only below the limit. *)
Lemma bound_step l s s' :
  limit = Some l -> inv s -> step s s' -> length (que s) <= S l -> length (que s') <= S l.
Proof.
  intros Hl Hs [i s1 H|i m Hi|i m Hi Hw|m Hw] Hq; try exact Hq.
  unfold thread_step in H. destruct (threads s !! i) as [p|] eqn:Hi; [|done].
  cbn [mbind option_bind] in H. pose proof (v_knows s Hs i p Hi) as Hk.
  destruct p; try discriminate H; try (by injection H as <-).
  - destruct (mutex s); [done|]. by injection H as <-.
  - injection H as <-. destruct Hk as [-> Hf]. unfold full in Hf. rewrite Hl in Hf.
    apply bool_decide_eq_false in Hf. cbn [que goto push]. rewrite length_app. simpl. lia.
  - destruct (front s); try discriminate H. by injection H as <-.
  - unfold async_write in H. destruct (writing s); [done|]. by injection H as <-.
  - destruct (mutex s); [done|]. by injection H as <-.
  - unfold pop in H. destruct (que s) as [|m q]; [done|]. injection H as <-. cbn in Hq |- *. lia.
Qed.

Lemma reachable_bound l k s : limit = Some l -> reachable k s -> length (que s) <= S l.
Proof.
  intros Hl H. unfold reachable in H. assert (inv (start k)) as Hs by apply send_inv_start.
  assert (length (que (start k)) <= S l) as Hq by (simpl; lia).
  induction H as [|s s1 s2 Hst _ IH]; [done|].
  apply IH; [by eapply send_inv_step|by eapply bound_step].
Qed.

(** With no thread about to write or pop, what is being written is the front. *)
Lemma settled_writing s :
  inv s -> failed s = false -> weight owes (threads s) = 0 -> writing s = head (que s).
Proof.
  intros Hs Hf H0. destruct (writing s) as [m|] eqn:Ew; [symmetry; by apply (v_writing s Hs)|].
  destruct (que s) as [|m q] eqn:Eq; [done|].
  assert (owners s = 1) as H1 by (apply (v_owed s Hs); by rewrite Eq).
  unfold owners, busy in H1. rewrite Ew, Hf, H0 in H1. discriminate H1.
Qed.

(** C17: whatever the threads of [Send] and of the completion handler interleave, with the
    write started inside or outside the critical section: no statement of theirs is
    undefined (the queue is never empty at [front] and [pop], no second write is started
    while one is in progress); the queue is the send queue the sessions are proved with,
    and what is being written is its front once the threads are out; what is written is
    written in the order it was queued, each message once; and while messages wait and no
    write failed, a write is in progress or a thread can go on.  The queue never holds
    more than one message above the limit of [Send]. *)
Theorem send_threads_refine k s :
  reachable k s ->
  (forall i r, thread_step i s = Some r -> exists s', r = Ok s')
  /\ (exists es l, sq_run (S := thread_queue) es (MkLine [] None [] []) = Some l
       /\ l_queue l = que s /\ l_accepted l = pushed s /\ l_written l = popped s
       /\ (failed s = false -> Forall (eq Idle) (threads s) -> l_writing l = writing s))
  /\ wire s `prefix_of` pushed s
  /\ (que s <> [] -> failed s = false ->
      is_Some (writing s) \/ exists i s', thread_step i s = Some (Ok s'))
  /\ (forall l, limit = Some l -> length (que s) <= S l).
Proof.
  intros Hr. pose proof (send_inv_reachable k s Hr) as Hs. split_and!.
  - intros i r H. destruct (send_inv_thread i s r Hs H) as (s' & -> & _). by exists s'.
  - destruct (reachable_line k s Hr) as [es He]. exists es, (line_of s). split_and!; try done.
    intros Hf Hidle. symmetry. apply settled_writing; [done..|].
    induction Hidle as [|p l <- _ IH]; [done|exact IH].
  - by apply wire_pushed.
  - by apply send_progress.
  - intros l Hl. by apply (reachable_bound l k).
Qed.

(** What happens, by name: a statement of a thread, a call, a completion, a failure. *)
Inductive move := MThread i | MSend i m | MWritten i | MFails.

Fixpoint moves (ms : list move) s : option state :=
  match ms with
  | [] => Some s
  | mv :: ms =>
      s' ← match mv with
           | MThread i => match thread_step i s with Some (Ok s') => Some s' | _ => None end
           | MSend i m =>
               match threads s !! i with Some Idle => Some (goto i (SLock m) s) | _ => None end
           | MWritten i =>
               match threads s !! i, writing s with
               | Some Idle, Some _ => Some (goto i HLock (set_writing None s))
               | _, _ => None
               end
           | MFails =>
               match writing s with
               | Some _ => Some (MkState (que s) (mutex s) None true (threads s) (wire s)
                                   (pushed s) (popped s))
               | None => None
               end
           end;
      moves ms s'
  end.

Lemma send_moves_steps ms s s' : moves ms s = Some s' -> rtc step s s'.
Proof.
  revert s. induction ms as [|mv ms IH]; intros s H; [by injection H as ->|].
  destruct mv as [i|i m|i|]; cbn [moves] in H.
  - destruct (thread_step i s) as [[s1| |]|] eqn:E; try done.
    eapply rtc_l; [by eapply step_thread|by apply IH].
  - destruct (threads s !! i) as [[]|] eqn:E; try done.
    eapply rtc_l; [by eapply step_send|by apply IH].
  - destruct (threads s !! i) as [[]|] eqn:E; try done. destruct (writing s) eqn:Ew; [|done].
    eapply rtc_l; [by eapply step_written|by apply IH].
  - destruct (writing s) eqn:Ew; [|done]. eapply rtc_l; [by eapply step_fails|by apply IH].
Qed.
End Threads.

Arguments state M : clear implicits.
Arguments pc M : clear implicits.

(** On the connection of 6, thread 1 queues its message after thread 0 has released the
    mutex and before it has started its write. *)
Lemma send_threads_refine_witness :
  exists s : state nat, reachable None true 2 s
    /\ que s = [7; 8] /\ writing s = None /\ threads s = [Write 7; Idle]
    /\ wire s `prefix_of` pushed s
    /\ (is_Some (writing s) \/ exists i s', thread_step None true i s = Some (Ok s')).
Proof.
  destruct (moves None true ([MSend 0 7; MSend 1 8] ++ replicate 6 (MThread 0)
              ++ replicate 6 (MThread 1)) (start 2)) as [s|] eqn:E;
    [|vm_compute in E; discriminate E].
  pose proof (send_moves_steps None true _ _ _ E) as Hr.
  destruct (send_threads_refine None true 2 s Hr) as (_ & _ & Hp & Hg & _).
  vm_compute in E. injection E as E. exists s. split; [exact Hr|].
  clear Hr. subst s. split; [done|]. split; [done|]. split; [done|]. split; [exact Hp|].
  apply Hg; [discriminate|reflexivity].
Defined.
