(* ===== verification/PoolServer.v ===== *)
(** * [3. AsyncServerIOservicepool]: the session and the server

    [Session] (its reading handlers and its send queue) and [Server].  An
    asynchronous operation that is started, and the calls that leave the
    session, are [op]s; the completion handlers get what the operation
    completed with. *)

From S2P Require Import Prelude CBase Frame MsgNode SendQueue.

Definition MAX_LENGTH : Z := 2048.
Definition MAX_SENDQUE : Z := 1000.

(** [async_read] into the head or the body, [async_write] of a node, the
    socket's [close], [_server->ClearSession(_uuid)] and
    [LogicSystem::PostMsgToQue]. *)
Inductive op :=
| AsyncReadHead (n : nat)
| AsyncReadBody (n : nat)
| AsyncWrite (d : list char)
| SocketClose
| ClearSession
| PostMsgToQue (n : Pool.RecvNode).

Record Session := MkSession {
  _b_close : bool;
  _send_que : list MsgNode;
  _recv_msg_node : option Pool.RecvNode;
  _recv_head_node : MsgNode
}.

Definition set_close (b : bool) (s : Session) : Session :=
  MkSession b (_send_que s) (_recv_msg_node s) (_recv_head_node s).
Definition set_que (q : list MsgNode) (s : Session) : Session :=
  MkSession (_b_close s) q (_recv_msg_node s) (_recv_head_node s).
Definition set_msg (n : option Pool.RecvNode) (s : Session) : Session :=
  MkSession (_b_close s) (_send_que s) n (_recv_head_node s).
Definition set_head (n : MsgNode) (s : Session) : Session :=
  MkSession (_b_close s) (_send_que s) (_recv_msg_node s) n.

(** The constructor. *)
Definition Session_new : res Session :=
  let* o := Pool.MsgNode_new Pool.HEAD_TOTAL_LEN in
  let* n := of_option o in
  Ok (MkSession false [] None n).

Definition Start (s : Session) : res (Session * list op) :=
  let* n := Clear (_recv_head_node s) in
  Ok (set_head n s, [AsyncReadHead (Z.to_nat Pool.HEAD_TOTAL_LEN)]).

Definition Close (s : Session) : Session * list op := (set_close true s, [SocketClose]).

(** [Close(); _server->ClearSession(_uuid)] *)
Definition close_and_clear (s : Session) : Session * list op :=
  let '(s, ops) := Close s in (s, ops ++ [ClearSession]).

(** ** Sending *)

(** The push and what follows it, [send_que_size] being the size before. *)
Definition push_send (n : MsgNode) (s : Session) : Session * option MsgNode :=
  let send_que_size := Z.of_nat (length (_send_que s)) in
  let s := set_que (_send_que s ++ [n]) s in
  (s, if decide (send_que_size > 0)%Z then None else head (_send_que s)).

Definition que_full (s : Session) : bool :=
  bool_decide (Z.of_nat (length (_send_que s)) > MAX_SENDQUE)%Z.

Definition enqueue (n : MsgNode) (s : Session) : Session * option MsgNode :=
  if que_full s then (s, None) else push_send n s.

Definition write_op (o : option MsgNode) : list op :=
  match o with Some n => [AsyncWrite (node_bytes n)] | None => [] end.

(** [Send(char* msg, short max_length, short msgid)]; [None]: it throws. *)
Definition Send_buffer (msg : list char) (max_length msgid : Z) (s : Session)
    : res (option (Session * list op)) :=
  if que_full s then Ok (Some (s, []))
  else
    let* o := Pool.SendNode_new msg max_length msgid in
    Ok ((fun n => let '(s, w) := push_send n s in (s, write_op w)) <$> o).

(** [Send(std::string msg, short msgid)]: [c_str()] is the bytes and a NUL, the
    length becomes a [short]. *)
Definition Send (msg : list char) (msgid : Z) (s : Session)
    : res (option (Session * list op)) :=
  Send_buffer (msg ++ [NUL]) (to_short (Z.of_nat (length msg))) (to_short msgid) s.

Definition HandleWrite_done (s : Session) : Session * option MsgNode :=
  let s := set_que (tail (_send_que s)) s in (s, head (_send_que s)).

(** Popping an empty queue is undefined. *)
Definition HandleWrite (error : option asio_error) (s : Session)
    : res (Session * list op) :=
  match error with
  | None =>
      if decide (_send_que s = []) then UB
      else let '(s, w) := HandleWrite_done s in Ok (s, write_op w)
  | Some _ => Ok (close_and_clear s)
  end.

(** ** Receiving *)

(** [async_read] stores into the node it was given. *)
Definition fill (d : list char) (n : MsgNode) : res MsgNode := copy_in 0 d n.

Definition HandleReadHead (error : option asio_error) (bytes_transferred : nat)
    (s : Session) : res (Session * list op) :=
  match error with
  | Some _ => Ok (close_and_clear s)
  | None =>
      if decide (Z.of_nat bytes_transferred <> Pool.HEAD_TOTAL_LEN)%Z
      then Ok (close_and_clear s)
      else
        let* msg_id_net := load16 (_data (_recv_head_node s)) in
        let msg_id := to_short (network_to_host_short msg_id_net) in
        if decide (msg_id <= 0 \/ msg_id > MAX_LENGTH)%Z then Ok (close_and_clear s)
        else
          let* msg_len_net := load16 (drop 2 (_data (_recv_head_node s))) in
          let msg_len := to_short (network_to_host_short msg_len_net) in
          if decide (msg_len <= 0 \/ msg_len > MAX_LENGTH)%Z then Ok (close_and_clear s)
          else
            let* o := Pool.RecvNode_new msg_len msg_id in
            match o with
            | None => Ok (s, [])  (* the exception is caught and logged *)
            | Some n => Ok (set_msg (Some n) s, [AsyncReadBody (Z.to_nat msg_len)])
            end
  end.

Definition HandleReadBody (error : option asio_error) (bytes_transferred : nat)
    (s : Session) : res (Session * list op) :=
  match error with
  | Some _ => Ok (close_and_clear s)
  | None =>
      let* m := of_option (_recv_msg_node s) in
      let n := Pool.recv_node m in
      if decide (Z.of_nat bytes_transferred <> _total_len n)%Z then Ok (close_and_clear s)
      else
        let n := MkNode (_total_len n) (_total_len n) (_data n) in
        let* n := copy_in (Z.to_nat (_total_len n)) [NUL] n in
        let m := Pool.MkRecv n (Pool.recv_msg_id m) in
        let s := set_msg (Some m) s in
        let* h := Clear (_recv_head_node s) in
        Ok (set_head h s,
          [PostMsgToQue m; AsyncReadHead (Z.to_nat Pool.HEAD_TOTAL_LEN)])
  end.

(** ** A connection that sends the bytes of [stream] and then ends

    The reads complete one after the other; [fuel] bounds their number. *)
Fixpoint next_read (ops : list op) : option op :=
  match ops with
  | [] => None
  | AsyncReadHead n :: _ => Some (AsyncReadHead n)
  | AsyncReadBody n :: _ => Some (AsyncReadBody n)
  | _ :: ops => next_read ops
  end.

(** The read [rd] completes on the peer's remaining bytes: its handler. *)
Definition read_done (rd : op) (stream : list char) (s : Session)
    : res (Session * list op * list char) :=
  match rd with
  | AsyncReadHead n =>
      let '(err, d, stream) := async_read n stream in
      let* h := fill d (_recv_head_node s) in
      let* '(s, ops) := HandleReadHead err (length d) (set_head h s) in
      Ok (s, ops, stream)
  | AsyncReadBody n =>
      let '(err, d, stream) := async_read n stream in
      let* m := of_option (_recv_msg_node s) in
      let* b := fill d (Pool.recv_node m) in
      let s := set_msg (Some (Pool.MkRecv b (Pool.recv_msg_id m))) s in
      let* '(s, ops) := HandleReadBody err (length d) s in
      Ok (s, ops, stream)
  | _ => Ok (s, [], stream)
  end.

Fixpoint receive (fuel : nat) (rd : op) (stream : list char) (s : Session)
    : res (Session * list op) :=
  match fuel with
  | O => OutOfFuel
  | S f =>
      let* '(s, ops, stream) := read_done rd stream s in
      match next_read ops with
      | Some rd => let* '(s, ops') := receive f rd stream s in Ok (s, ops ++ ops')
      | None => Ok (s, ops)
      end
  end.

(** ** The frame format of the server *)
Definition parse_head (hd : list char) : option (Z * nat) :=
  match load16 hd, load16 (drop 2 hd) with
  | Ok id_net, Ok len_net =>
      let id := to_short (network_to_host_short id_net) in
      let len := to_short (network_to_host_short len_net) in
      if decide (0 < id <= MAX_LENGTH /\ 0 < len <= MAX_LENGTH)%Z
      then Some (id, Z.to_nat len) else None
  | _, _ => None
  end.

Definition valid_message (id : Z) (body : list char) : Prop :=
  (0 < id <= MAX_LENGTH)%Z /\ (0 < Z.of_nat (length body) <= MAX_LENGTH)%Z.

Lemma parse_head_frame id body :
  valid_message id body ->
  parse_head (be16 (to_uint16 id) ++ be16 (to_uint16 (Z.of_nat (length body))))
  = Some (id, length body).
Proof.
  unfold valid_message, MAX_LENGTH. intros [Hid Hlen]. unfold parse_head.
  set (hi := to_uint16 id). set (hl := to_uint16 _).
  assert (hi = id) as Ei by (apply to_uint16_id; lia).
  assert (hl = Z.of_nat (length body)) as El by (apply to_uint16_id; lia).
  assert (0 <= hi < 65536)%Z as Ri by lia. assert (0 <= hl < 65536)%Z as Rl by lia.
  pose proof (load_network hi (be16 hl) Ri) as H1.
  destruct (load16 (be16 hi ++ be16 hl)) as [x| |] eqn:Ex; try discriminate H1.
  injection H1 as H1.
  pose proof (load_network hl [] Rl) as H2. rewrite app_nil_r in H2.
  change (drop 2 (be16 hi ++ be16 hl)) with (be16 hl).
  destruct (load16 (be16 hl)) as [y| |] eqn:Ey; try discriminate H2.
  injection H2 as H2.
  rewrite H1, H2, Ei, El. rewrite !to_short_id by (unfold MAX_LENGTH; lia).
  unfold MAX_LENGTH. rewrite decide_True by lia. by rewrite Nat2Z.id.
Qed.

#[refine, export] Instance pool_format : FrameFormat Z := {|
  ff_head := 4;
  ff_parse := parse_head;
  ff_encode := frame;
  ff_valid := valid_message;
  ff_head_pos := _;
  ff_encode_parse := _
|}.
Proof.
  - lia.
  - intros id body Hv.
    exists (be16 (to_uint16 id) ++ be16 (to_uint16 (Z.of_nat (length body)))).
    split; [by unfold frame; rewrite <- app_assoc|]. split; [done|].
    by apply parse_head_frame.
Defined.

(** ** The reading handlers against the frame format *)

(** The head node between reads: four bytes and its NUL. *)
Definition head_ok (n : MsgNode) : Prop := _total_len n = 4%Z /\ length (_data n) = 5.

(** The messages posted to the logic system, as its callback sees them. *)
Definition posted (o : op) : option (Z * list char) :=
  match o with
  | PostMsgToQue m =>
      let n := Pool.recv_node m in
      Some (Pool.GetMsgId m, take (Z.to_nat (_cur_len n)) (_data n))
  | _ => None
  end.

(** A node whose [_cur_len] bytes are there. *)
Definition node_full (m : Pool.RecvNode) : Prop :=
  (0 <= _cur_len (Pool.recv_node m) <= Z.of_nat (length (_data (Pool.recv_node m))))%Z.

Definition post_full (o : op) : Prop :=
  match o with PostMsgToQue m => node_full m | _ => True end.

(** The operations end the session: the last two close it, once. *)
Definition ends_closed (ops : list op) : Prop :=
  exists l, ops = l ++ [SocketClose; ClearSession]
    /\ (SocketClose ∉ l) /\ (ClearSession ∉ l).

Lemma Session_new_run :
  exists s, Session_new = Ok s /\ _b_close s = false /\ _send_que s = []
    /\ head_ok (_recv_head_node s).
Proof. eexists. by split_and!. Qed.

Lemma Clear_run n :
  head_ok n -> exists n', Clear n = Ok n' /\ head_ok n'.
Proof.
  intros [Ht Hl]. unfold Clear. rewrite Ht.
  rewrite copy_in_ok by (rewrite length_replicate, Hl; simpl; lia). cbn [res_bind].
  eexists. split; [done|]. split; [done|]. unfold set_data. cbn [_data _total_len].
  by rewrite length_blit by lia.
Qed.

Lemma fill_run d n :
  length d <= length (_data n) -> fill d n = Ok (set_data (blit 0 d (_data n)) n).
Proof. intros H. apply copy_in_ok. lia. Qed.

Lemma load16_blit d l :
  2 <= length d -> length d <= length l -> load16 (blit 0 d l) = load16 d.
Proof.
  intros Hd Hl. rewrite blit_in_range by lia.
  destruct d as [|x [|y d]]; simpl in *; [lia..|done].
Qed.

Lemma load16_blit_2 d l :
  4 <= length d -> length d <= length l ->
  load16 (drop 2 (blit 0 d l)) = load16 (drop 2 d).
Proof.
  intros Hd Hl. rewrite blit_in_range by lia.
  destruct d as [|x [|y [|z [|w d]]]]; simpl in *; [lia..|done].
Qed.

(** A whole head: what the handler starts. *)
Lemma HandleReadHead_run hd s :
  length hd = 4 -> head_ok (_recv_head_node s) ->
  HandleReadHead None 4
    (set_head (set_data (blit 0 hd (_data (_recv_head_node s))) (_recv_head_node s)) s)
  = Ok (let s := set_head (set_data (blit 0 hd (_data (_recv_head_node s)))
                   (_recv_head_node s)) s in
        match parse_head hd with
        | Some (id, n) =>
            (set_msg (Some (Pool.MkRecv
               (MkNode (Z.of_nat n) 0 (replicate (S n) NUL)) id)) s, [AsyncReadBody n])
        | None => close_and_clear s
        end).
Proof.
  intros Hd [Ht Hl]. unfold HandleReadHead, Pool.HEAD_TOTAL_LEN.
  rewrite decide_False by lia. cbn [_data _recv_head_node set_head set_data].
  rewrite load16_blit, load16_blit_2 by lia. unfold parse_head.
  destruct hd as [|x [|y [|z [|w [|]]]]]; simpl in Hd; try lia.
  cbn [load16 drop res_bind].
  set (id := to_short (network_to_host_short (Z.lor (char_byte x) _))).
  set (len := to_short (network_to_host_short (Z.lor (char_byte z) _))).
  unfold MAX_LENGTH. destruct (decide (id <= 0 \/ id > 2048)%Z) as [Hid|Hid].
  { by rewrite decide_False by lia. }
  destruct (decide (len <= 0 \/ len > 2048)%Z) as [Hlen|Hlen].
  { by rewrite decide_False by lia. }
  rewrite decide_True by lia. unfold Pool.RecvNode_new, Pool.MsgNode_new.
  rewrite decide_False by lia. rewrite decide_False by lia. cbn.
  rewrite Z2Nat.id by lia. by replace (Z.to_nat (len + 1)) with (S (Z.to_nat len)) by lia.
Qed.

(** A whole body: it is posted and the next head is awaited. *)
Lemma HandleReadBody_run body id s :
  head_ok (_recv_head_node s) ->
  let n := MkNode (Z.of_nat (length body)) 0 (body ++ [NUL]) in
  exists s' m, HandleReadBody None (length body) (set_msg (Some (Pool.MkRecv n id)) s)
      = Ok (s', [PostMsgToQue m; AsyncReadHead 4])
    /\ posted (PostMsgToQue m) = Some (id, body) /\ node_full m
    /\ head_ok (_recv_head_node s').
Proof.
  intros Hh n. unfold HandleReadBody, Pool.HEAD_TOTAL_LEN.
  cbn [_recv_msg_node set_msg of_option res_bind Pool.recv_node].
  rewrite decide_False by (subst n; cbn [_total_len]; lia).
  cbn [_total_len _data n]. rewrite Nat2Z.id.
  rewrite copy_in_ok by (cbn [_data]; rewrite length_app; simpl; lia). cbn [res_bind].
  unfold set_data. cbn [_data _total_len _cur_len _recv_head_node set_msg].
  destruct (Clear_run _ Hh) as (h & Hc & Hok). rewrite Hc. cbn [res_bind].
  do 2 eexists. split; [reflexivity|]. unfold node_full.
  cbn [posted Pool.GetMsgId Pool.recv_msg_id Pool.recv_node _cur_len _data].
  split; [|split; [rewrite length_blit; rewrite ?length_app; simpl; lia | done]].
  rewrite Nat2Z.id. do 2 f_equal.
  rewrite blit_in_range by (rewrite length_app; simpl; lia).
  rewrite take_app_le by (rewrite length_take, length_app; simpl; lia).
  rewrite take_take, Nat.min_id. apply take_app_length.
Qed.

Lemma async_read_ok n s : n <= length s -> async_read n s = (None, take n s, drop n s).
Proof. intros. unfold async_read. by rewrite decide_False by lia. Qed.

Lemma async_read_eof n s : length s < n -> async_read n s = (Some eof, s, []).
Proof. intros. unfold async_read. by rewrite decide_True. Qed.

Lemma blit_whole {A} (d l : list A) x :
  length l = S (length d) -> last l = Some x -> blit 0 d l = d ++ [x].
Proof.
  intros Hl Hx. rewrite blit_in_range by lia. simpl. f_equal.
  rewrite last_lookup in Hx. rewrite Hl in Hx. simpl in Hx.
  rewrite (drop_S _ x) by done. by rewrite drop_ge by lia.
Qed.

Ltac not_in := repeat (apply not_elem_of_cons; split; [done|]); apply not_elem_of_nil.

(** The operations of one turn, before those of the turns that follow. *)
Lemma ends_closed_cons ops ops' :
  (SocketClose ∉ ops) -> (ClearSession ∉ ops) -> ends_closed ops' -> ends_closed (ops ++ ops').
Proof.
  intros H1 H2 (l & -> & H3 & H4). exists (ops ++ l). rewrite <- app_assoc.
  split_and!; [done|..]; rewrite not_elem_of_app; done.
Qed.

Lemma ends_closed_now : ends_closed [SocketClose; ClearSession].
Proof. exists []. split_and!; [done|..]; apply not_elem_of_nil. Qed.

(** The completion of the head's read, then of the body's. *)
Lemma read_head_eof stream s :
  length stream < 4 -> head_ok (_recv_head_node s) ->
  exists h, read_done (AsyncReadHead 4) stream s
    = Ok (set_close true (set_head h s), [SocketClose; ClearSession], []) /\ head_ok h.
Proof.
  intros Hs [Ht Hl]. cbn [read_done]. rewrite async_read_eof by done.
  rewrite fill_run by lia. eexists. split; [done|]. split; [done|]. cbn.
  by rewrite length_blit by lia.
Qed.

Lemma read_head_run stream s :
  4 <= length stream -> head_ok (_recv_head_node s) ->
  exists h, head_ok h /\ read_done (AsyncReadHead 4) stream s
    = Ok (match parse_head (take 4 stream) with
          | Some (id, n) =>
              (set_msg (Some (Pool.MkRecv (MkNode (Z.of_nat n) 0 (replicate (S n) NUL)) id))
                 (set_head h s), [AsyncReadBody n])
          | None => (set_close true (set_head h s), [SocketClose; ClearSession])
          end, drop 4 stream).
Proof.
  intros Hs Hh.
  assert (length (take 4 stream) = 4) as Hlen by (rewrite length_take; lia).
  exists (set_data (blit 0 (take 4 stream) (_data (_recv_head_node s))) (_recv_head_node s)).
  split.
  - destruct Hh as [Ht Hl]. split; [done|]. unfold set_data. cbn [_data].
    by rewrite length_blit by lia.
  - cbn [read_done]. rewrite async_read_ok by done.
    rewrite fill_run by (destruct Hh; lia). cbn [res_bind]. rewrite Hlen.
    rewrite HandleReadHead_run by done. by destruct (parse_head _) as [[id n]|].
Qed.

Lemma read_body_eof stream s id n :
  length stream < n -> head_ok (_recv_head_node s) ->
  _recv_msg_node s = Some (Pool.MkRecv (MkNode (Z.of_nat n) 0 (replicate (S n) NUL)) id) ->
  exists m, read_done (AsyncReadBody n) stream s
    = Ok (set_close true (set_msg m s), [SocketClose; ClearSession], []).
Proof.
  intros Hs Hh Hm. cbn [read_done]. rewrite async_read_eof by done. rewrite Hm.
  cbn [of_option res_bind Pool.recv_node].
  rewrite fill_run by (cbn [_data]; rewrite length_replicate; lia). by eexists.
Qed.

Lemma read_body_run stream s id n :
  n <= length stream -> head_ok (_recv_head_node s) ->
  _recv_msg_node s = Some (Pool.MkRecv (MkNode (Z.of_nat n) 0 (replicate (S n) NUL)) id) ->
  exists s1 m, read_done (AsyncReadBody n) stream s
    = Ok (s1, [PostMsgToQue m; AsyncReadHead 4], drop n stream)
    /\ posted (PostMsgToQue m) = Some (id, take n stream) /\ node_full m
    /\ head_ok (_recv_head_node s1).
Proof.
  intros Hs Hh Hm.
  assert (length (take n stream) = n) as Hlen by (rewrite length_take; lia).
  destruct (HandleReadBody_run (take n stream) id s Hh) as (s1 & m & Hb & Hp & Hf & Hh1).
  exists s1, m. split; [|done]. cbn [read_done]. rewrite async_read_ok by done. rewrite Hm.
  cbn [of_option res_bind Pool.recv_node].
  rewrite fill_run by (cbn [_data]; rewrite length_replicate; lia). cbn [res_bind].
  unfold set_data. cbn [_data _total_len _cur_len].
  rewrite (blit_body (take n stream) n) by done.
  rewrite Hlen in *. cbn [Pool.recv_msg_id]. by rewrite Hb.
Qed.

(** The whole life of a reading session. *)
Lemma receive_run k f stream s :
  length stream <= k -> 2 * k + 1 < f -> head_ok (_recv_head_node s) ->
  exists s' ops, receive f (AsyncReadHead 4) stream s = Ok (s', ops)
    /\ omap posted ops = (cut stream).1 /\ ends_closed ops /\ _b_close s' = true
    /\ Forall post_full ops.
Proof.
  revert f stream s. induction k as [k IH] using lt_wf_ind. intros f stream s Hk Hf Hh.
  destruct f as [|[|f]]; [lia..|]. cbn [receive].
  destruct (decide (length stream < 4)) as [Hlen|Hlen].
  { destruct (read_head_eof stream s Hlen Hh) as (h & -> & _). cbn [res_bind next_read].
    do 2 eexists. split; [done|]. rewrite (cut_short stream) by exact Hlen.
    split_and!; [done | apply ends_closed_now | done | by repeat constructor]. }
  destruct (read_head_run stream s) as (h & Hh1 & ->); [lia|done|]. cbn [res_bind].
  destruct (parse_head (take 4 stream)) as [[id n]|] eqn:Hp; cbn [next_read]; cycle 1.
  { do 2 eexists. split; [done|].
    rewrite (cut_rejected stream) by (done || exact (proj1 (Nat.nlt_ge _ _) Hlen)).
    split_and!; [done | apply ends_closed_now | done | by repeat constructor]. }
  destruct (decide (length (drop 4 stream) < n)) as [Hn|Hn].
  { destruct (read_body_eof (drop 4 stream) (set_msg (Some (Pool.MkRecv
      (MkNode (Z.of_nat n) 0 (replicate (S n) NUL)) id)) (set_head h s)) id n Hn Hh1 eq_refl)
      as (m & ->). cbn [res_bind next_read].
    do 2 eexists. split; [done|]. rewrite length_drop in Hn.
    rewrite (cut_short_body stream id n);
      [|exact (proj1 (Nat.nlt_ge _ _) Hlen)|exact Hp|change ff_head with 4; lia].
    split_and!; [done| |done|by repeat constructor].
    apply (ends_closed_cons [AsyncReadBody n]); [not_in..|apply ends_closed_now]. }
  destruct (read_body_run (drop 4 stream) (set_msg (Some (Pool.MkRecv
      (MkNode (Z.of_nat n) 0 (replicate (S n) NUL)) id)) (set_head h s)) id n)
    as (s1 & m & -> & Hpost & Hfull & Hh2); [lia|done|done|]. cbn [res_bind next_read].
  rewrite length_drop in Hn. rewrite drop_drop.
  destruct (IH (k - 4)) with (f := f) (stream := drop (4 + n) stream) (s := s1)
    as (s' & ops & Hrec & Hom & Hend & Hc & Hall); [lia | rewrite length_drop; lia | lia | done |].
  exists s', (AsyncReadBody n :: PostMsgToQue m :: AsyncReadHead 4 :: ops).
  rewrite Hrec. split; [done|].
  rewrite (cut_frame (F := pool_format) stream id n Hp) by (change ff_head with 4; lia).
  change ff_head with 4. destruct (cut (drop (4 + n) stream)) as [ms e]. cbn [fst] in *.
  split; [|split; [|split; [done|]]].
  - cbn [omap list_omap]. change (posted (AsyncReadBody n)) with (@None (Z * list char)).
    rewrite Hpost. cbn. by rewrite Hom.
  - apply (ends_closed_cons [AsyncReadBody n; PostMsgToQue m; AsyncReadHead 4]);
      [not_in..|done].
  - apply Forall_cons; split; [done|]. apply Forall_cons; split; [done|].
    by apply Forall_cons.
Qed.

(** ** The send queue *)
#[refine, export] Instance pool_queue : SendQueue MsgNode Session := {|
  sq_queue := _send_que;
  sq_full := que_full;
  sq_send := enqueue;
  sq_done := HandleWrite_done;
  sq_send_full := _;
  sq_send_room := _;
  sq_done_next := _
|}.
Proof.
  - intros m q H. unfold enqueue. by rewrite H.
  - intros m q H. unfold enqueue. rewrite H. unfold push_send. cbn [fst snd _send_que set_que].
    split; [done|]. destruct (_send_que q) as [|m0 ms]; [done|].
    rewrite decide_True by (cbn [length]; lia). done.
  - intros m ms q H. unfold HandleWrite_done. rewrite H. by split.
Defined.

(** [Send] is the queue's send of the node it builds. *)
Lemma Send_buffer_enqueue msg len id s n :
  que_full s = true \/ Pool.SendNode_new msg len id = Ok (Some n) ->
  Send_buffer msg len id s = Ok (Some (let '(s', w) := enqueue n s in (s', write_op w))).
Proof.
  intros H. unfold Send_buffer, enqueue. destruct (que_full s); [done|].
  destruct H as [?| ->]; [done|]. done.
Qed.

Lemma Send_run msg id s :
  (Z.of_nat (length msg) <= 32763)%Z ->
  exists n, Send msg id s = Ok (Some (let '(s', w) := enqueue n s in (s', write_op w)))
    /\ node_bytes n = frame (to_short id) msg.
Proof.
  intros Hl. unfold Send. rewrite to_short_id by lia.
  destruct (SendNode_new_run msg [NUL] (to_short id) Hl) as (n & Hn & _ & _ & Hb).
  exists n. split; [|done]. apply Send_buffer_enqueue. by right.
Qed.

Lemma frame_short id msg : frame (to_short id) msg = frame id msg.
Proof. unfold frame. by rewrite to_uint16_short. Qed.

(** C10: the session cuts the stream it receives into messages exactly as the frame
    format says, whatever the bytes: it posts these messages to the logic
    system in order, and whether the stream ends inside a frame or at a head
    that is not acceptable, the session is closed and removed, once. *)
Theorem receive_cut stream :
  exists s0 s1 ops0, Session_new = Ok s0 /\ Start s0 = Ok (s1, ops0)
    /\ ops0 = [AsyncReadHead 4]
    /\ exists s' ops, receive (2 * length stream + 2) (AsyncReadHead 4) stream s1 = Ok (s', ops)
       /\ omap posted ops = (cut stream).1 /\ ends_closed ops /\ _b_close s' = true.
Proof.
  destruct Session_new_run as (s0 & Hn & _ & _ & Hh). exists s0.
  destruct (Clear_run _ Hh) as (h & Hc & Hh1).
  exists (set_head h s0), [AsyncReadHead 4]. split; [done|].
  split; [unfold Start; by rewrite Hc|]. split; [done|].
  destruct (receive_run (length stream) (2 * length stream + 2) stream (set_head h s0))
    as (s' & ops & Hr & Ho & He & Hb & _); [done | lia | done | by exists s', ops].
Qed.

(** C19: messages sent as frames arrive as they were sent: for any valid messages,
    followed by any bytes that hold no further frame, the session posts
    exactly these messages. *)
Theorem receive_messages ms rest s :
  head_ok (_recv_head_node s) ->
  Forall (fun '(id, body) => valid_message id body) ms -> (cut (H := Z) rest).1 = [] ->
  let stream := concat ((fun '(id, body) => frame id body) <$> ms) ++ rest in
  exists s' ops, receive (2 * length stream + 2) (AsyncReadHead 4) stream s = Ok (s', ops)
    /\ omap posted ops = ms.
Proof.
  intros Hh Hms Hrest stream.
  destruct (receive_run (length stream) (2 * length stream + 2) stream s)
    as (s' & ops & Hr & Ho & _); [done | lia | done|].
  exists s', ops. split; [done|]. rewrite Ho. unfold stream.
  pose proof (cut_encode (F := pool_format) ms rest Hms) as Hcut.
  change (ff_encode (H := Z)) with frame in Hcut. rewrite Hcut. cbn [fst].
  rewrite Hrest. apply app_nil_r.
Qed.

Lemma receive_messages_witness :
  exists s, Session_new = Ok s /\
  exists s' ops, receive 100 (AsyncReadHead 4)
      (concat ((fun '(id, body) => frame id body) <$> [(1001%Z, lit "hi"); (7%Z, lit "x")])
       ++ [NUL; NUL]) s = Ok (s', ops)
    /\ omap posted ops = [(1001%Z, lit "hi"); (7%Z, lit "x")].
Proof.
  destruct Session_new_run as (s & Hn & _ & _ & Hh). exists s. split; [exact Hn|].
  destruct (receive_messages [(1001%Z, lit "hi"); (7%Z, lit "x")] [NUL; NUL] s)
    as (s' & ops & Hr & Ho).
  - exact Hh.
  - repeat constructor; vm_compute; discriminate.
  - reflexivity.
  - vm_compute in Hn. injection Hn as <-. vm_compute in Hr. injection Hr as <- <-.
    do 2 eexists. split; [vm_compute; reflexivity | exact Ho].
Defined.

Lemma enqueue_bound n s :
  length (_send_que s) <= 1001 -> length (_send_que (enqueue n s).1) <= 1001.
Proof.
  intros H. unfold enqueue, que_full. case_bool_decide as Hf; [done|].
  unfold push_send. cbn [fst _send_que set_que]. rewrite length_app. simpl.
  unfold MAX_SENDQUE in Hf. lia.
Qed.

Lemma run_bound es l l' :
  sq_run (Q := Session) es l = Some l' -> length (_send_que (l_queue l)) <= 1001 ->
  length (_send_que (l_queue l')) <= 1001.
Proof.
  revert l. induction es as [|e es IH]; intros l; simpl; [by intros [= <-]|].
  intros H Hl. destruct (sq_step e l) as [l1|] eqn:E; [|done]. apply (IH l1 H).
  destruct e as [m|]; cbn [sq_step] in E.
  - pose proof (enqueue_bound m (l_queue l) Hl) as Hb.
    change (sq_send m (l_queue l)) with (enqueue m (l_queue l)) in E.
    destruct (enqueue m (l_queue l)) as [q w]. destruct (l_writing l), w; by simplify_eq.
  - change (sq_done (l_queue l)) with (HandleWrite_done (l_queue l)) in E.
    destruct (l_writing l); [|done]. unfold HandleWrite_done in E. simplify_eq/=.
    destruct (_send_que (l_queue l)); simpl in *; lia.
Qed.

(** Whatever the interleaving of [Send]s and write completions, there is at
    most one write in progress, it is the front of the queue, the messages
    accepted are written in the order they were accepted, none is lost, and
    the queue holds at most 1001. *)
Theorem send_fifo es s l :
  _send_que s = [] ->
  sq_run es (MkLine s None [] []) = Some l ->
  l_accepted l = l_written l ++ _send_que (l_queue l)
  /\ l_writing l = head (_send_que (l_queue l))
  /\ length (_send_que (l_queue l)) <= 1001.
Proof.
  intros Hs Hr.
  assert (line_ok (MkLine (M := MsgNode) s None [] [])) as H0 by (split; simpl; by rewrite Hs).
  destruct (sq_run_ok es _ _ H0 Hr) as [Hw Ha]. split; [exact Ha|]. split; [exact Hw|].
  eapply run_bound; [exact Hr|]. simpl. rewrite Hs. simpl. lia.
Qed.

Lemma send_fifo_witness :
  exists s l, Session_new = Ok s /\
    sq_run [EvSend (MkNode 1 0 [SP]); EvSend (MkNode 2 0 [SP]); EvWritten]
      (MkLine s None [] []) = Some l
    /\ l_accepted l = l_written l ++ _send_que (l_queue l).
Proof.
  destruct Session_new_run as (s & Hn & _ & Hq & _).
  destruct (sq_run [EvSend (MkNode 1 0 [SP]); EvSend (MkNode 2 0 [SP]); EvWritten]
    (MkLine s None [] [])) as [l|] eqn:E.
  - exists s, l. split; [exact Hn|]. split; [exact E|].
    apply (send_fifo _ s l Hq E).
  - vm_compute in Hn. injection Hn as <-. vm_compute in E. discriminate.
Defined.

(** [Send] of at most 32763 bytes: with more than 1000 messages waiting it is
    dropped; otherwise the frame of the message (id and length in network
    order, then the bytes) joins the queue, and its write starts at once when
    the queue was empty. *)
Theorem Send_spec msg id s :
  (Z.of_nat (length msg) <= 32763)%Z ->
  exists s' ops, Send msg id s = Ok (Some (s', ops)) /\
  if que_full s then s' = s /\ ops = []
  else (exists n, _send_que s' = _send_que s ++ [n] /\ node_bytes n = frame id msg)
       /\ ops = if decide (_send_que s = []) then [AsyncWrite (frame id msg)] else [].
Proof.
  intros Hl. destruct (Send_run msg id s Hl) as (n & -> & Hn). rewrite frame_short in Hn.
  unfold enqueue. destruct (que_full s) eqn:Ef.
  - do 2 eexists. by split.
  - destruct (sq_send_room (SendQueue := pool_queue) n s Ef) as [Hq Ho].
    change (sq_send n s) with (enqueue n s) in *. change (sq_queue s) with (_send_que s) in *.
    unfold enqueue in *. rewrite Ef in Hq, Ho. destruct (push_send n s) as [s' w].
    cbn [fst snd] in *. do 2 eexists. split; [done|].
    split; [exists n; by split|]. rewrite Ho. case_decide; [|done]. simpl. by rewrite Hn.
Qed.

Lemma Send_spec_witness :
  exists s s' ops, Session_new = Ok s /\ Send (lit "hi") 1001 s = Ok (Some (s', ops))
    /\ ops = [AsyncWrite (frame 1001 (lit "hi"))].
Proof.
  destruct Session_new_run as (s & Hn & _ & Hq & _).
  destruct (Send_spec (lit "hi") 1001 s) as (s' & ops & Hs & H); [vm_compute; discriminate|].
  exists s, s', ops. split; [exact Hn|]. split; [exact Hs|].
  vm_compute in Hn. injection Hn as <-. destruct H as [_ H]. exact H.
Defined.

(** The length of a message becomes a [short]: 65536 bytes and more are sent as a
    frame of the first bytes only, without an error. *)
Theorem Send_truncates msg id s n :
  Z.of_nat (length msg) = (65536 + Z.of_nat n)%Z -> (Z.of_nat n <= 32763)%Z ->
  que_full s = false -> _send_que s = [] ->
  exists s', Send msg id s = Ok (Some (s', [AsyncWrite (frame id (take n msg))])).
Proof.
  intros Hl Hn Hf Hq. unfold Send.
  assert (to_short (Z.of_nat (length msg)) = Z.of_nat n) as ->.
  { rewrite Hl. unfold to_short, wrap_s. change (2 ^ 16)%Z with 65536%Z.
    change (2 ^ (16 - 1))%Z with 32768%Z.
    replace (65536 + Z.of_nat n + 32768)%Z with (Z.of_nat n + 32768 + 1 * 65536)%Z by lia.
    rewrite Z.mod_add by lia. rewrite Z.mod_small by lia. lia. }
  assert (length (take n msg) = n) as Hlen by (rewrite length_take; lia).
  destruct (SendNode_new_run (take n msg) (drop n msg ++ [NUL]) (to_short id))
    as (nd & Hnd & _ & _ & Hb); [by rewrite Hlen|].
  rewrite Hlen, app_assoc, take_drop in Hnd.
  rewrite (Send_buffer_enqueue _ _ _ s nd) by (by right).
  unfold enqueue. rewrite Hf. unfold push_send. rewrite Hq. eexists. simpl.
  by rewrite Hb, frame_short.
Qed.

(** A message of 32764 to 65530 bytes makes [Send] throw (the node's length
    is negative), and nothing is queued. *)
Theorem Send_throws msg id s :
  (32763 < Z.of_nat (length msg) < 65531)%Z -> que_full s = false ->
  Send msg id s = Ok None.
Proof.
  intros Hl Hf. unfold Send, Send_buffer. rewrite Hf.
  rewrite SendNode_new_negative; [done|].
  destruct (decide (Z.of_nat (length msg) <= 32767)%Z) as [H|H].
  - right. rewrite to_short_id by lia. lia.
  - left. unfold to_short, wrap_s. change (2 ^ 16)%Z with 65536%Z.
    change (2 ^ (16 - 1))%Z with 32768%Z.
    replace (Z.of_nat (length msg) + 32768)%Z
      with (Z.of_nat (length msg) - 32768 + 1 * 65536)%Z by lia.
    rewrite Z.mod_add by lia. rewrite Z.mod_small by lia. lia.
Qed.

Lemma blanks_exist n : exists l : list char, Z.of_nat (length l) = Z.of_N n.
Proof. exists (replicate (N.to_nat n) SP). rewrite length_replicate. lia. Qed.

Lemma Send_truncates_witness :
  exists msg s s', Z.of_nat (length msg) = 65538%Z /\ Session_new = Ok s /\ Send msg 1001 s = Ok (Some (s', [AsyncWrite (frame 1001 (take 2 msg))])).
Proof.
  destruct Session_new_run as (s & Hn & _ & Hq & _).
  destruct (blanks_exist 65538) as (msg & Hl).
  destruct (Send_truncates msg 1001 s 2) as (s' & Hs).
  - exact Hl.
  - vm_compute. discriminate.
  - unfold que_full. rewrite Hq. reflexivity.
  - exact Hq.
  - exists msg, s, s'. split; [exact Hl|]. split; [exact Hn | exact Hs].
Defined.

Lemma Send_throws_witness :
  exists msg s, Z.of_nat (length msg) = 40000%Z /\ Session_new = Ok s /\ Send msg 1001 s = Ok None.
Proof.
  destruct Session_new_run as (s & Hn & _ & Hq & _).
  destruct (blanks_exist 40000) as (msg & Hl).
  exists msg, s. split; [exact Hl|]. split; [exact Hn|]. apply Send_throws.
  - rewrite Hl. split; reflexivity.
  - unfold que_full. rewrite Hq. reflexivity.
Defined.
