(* ===== verification/Singleton.v ===== *)
(** * [Singleton<T>::GetInstance] ([inc/Singleton.h] of the two pool servers)

    [AsioIOServicePool] and [LogicSystem] are reached through [GetInstance] from
    every thread.  [std::call_once] lets one caller into its function while the
    others wait; a function that throws leaves the flag as it was, and the next
    caller tries again. *)

From S2P Require Import Prelude.

Inductive once_flag := Fresh | Busy | Called.

(** Where a thread stands in [GetInstance]. *)
Inductive gpc :=
| GIdle
| GOnce                       (* std::call_once(s_flag, ...) *)
| GNew                        (* inside: new T *)
| GStore (x : nat)            (* inside: _instance = shared_ptr<T>(...) *)
| GReturn                     (* return _instance *)
| GReturned (p : option nat)  (* null is [None] *)
| GThrown.                    (* the exception of the constructor *)

(** [g_made] are the objects whose constructor has returned; the next object
    is at the address [length g_made]. *)
Record singleton := MkSingleton {
  s_flag : once_flag;
  _instance : option nat;
  g_made : list nat;
  g_threads : list gpc
}.
Implicit Types s : singleton.

Definition goto (i : nat) (pc : gpc) s : singleton :=
  MkSingleton (s_flag s) (_instance s) (g_made s) (<[i:=pc]> (g_threads s)).

(** The next step of thread [i], [None] when it is blocked or not inside;
    [ok]: the constructor, where it runs, returns. *)
Definition GetInstance (i : nat) (ok : bool) s : option singleton :=
  pc ← g_threads s !! i;
  match pc with
  | GOnce =>
      match s_flag s with
      | Fresh => Some (goto i GNew (MkSingleton Busy (_instance s) (g_made s) (g_threads s)))
      | Busy => None
      | Called => Some (goto i GReturn s)
      end
  | GNew =>
      if ok then
        let x := length (g_made s) in
        Some (goto i (GStore x)
          (MkSingleton (s_flag s) (_instance s) (g_made s ++ [x]) (g_threads s)))
      else
        Some (goto i GThrown (MkSingleton Fresh (_instance s) (g_made s) (g_threads s)))
  | GStore x =>
      Some (goto i GReturn (MkSingleton Called (Some x) (g_made s) (g_threads s)))
  | GReturn => Some (goto i (GReturned (_instance s)) s)
  | _ => None
  end.

(** A thread outside calls [GetInstance], for the first time or again. *)
Definition call (i : nat) s : option singleton :=
  pc ← g_threads s !! i;
  match pc with GIdle | GReturned _ | GThrown => Some (goto i GOnce s) | _ => None end.

Inductive step s : singleton -> Prop :=
| step_call i s' : call i s = Some s' -> step s s'
| step_in i ok s' : GetInstance i ok s = Some s' -> step s s'.

(** The program's start, with [k] threads. *)
Definition start (k : nat) : singleton := MkSingleton Fresh None [] (replicate k GIdle).

Definition reachable (k : nat) : singleton -> Prop := rtc step (start k).

(** ** The invariant *)
Definition inside (pc : gpc) : bool := match pc with GNew | GStore _ => true | _ => false end.

Definition calling (pc : gpc) : bool :=
  match pc with GOnce | GNew | GStore _ | GReturn => true | _ => false end.

(** What a thread knows of the flag and the instance. *)
Definition knows s (pc : gpc) : Prop :=
  match pc with
  | GNew => g_made s = []
  | GStore x => g_made s = [x]
  | GReturn => s_flag s = Called
  | GReturned p => s_flag s = Called /\ p = _instance s
  | _ => True
  end.

Record single_inv s : Prop := {
  si_busy : s_flag s = Busy <-> exists i pc, g_threads s !! i = Some pc /\ inside pc = true;
  si_one : forall i j pc pc', g_threads s !! i = Some pc -> inside pc = true ->
    g_threads s !! j = Some pc' -> inside pc' = true -> i = j;
  si_knows : forall i pc, g_threads s !! i = Some pc -> knows s pc;
  si_fresh : s_flag s = Fresh -> g_made s = [];
  si_called : s_flag s = Called -> exists x, g_made s = [x] /\ _instance s = Some x
}.

Lemma single_inv_start k : single_inv (start k).
Proof.
  assert (forall i pc, replicate k GIdle !! i = Some pc -> pc = GIdle) as H
    by (intros i pc [? _]%lookup_replicate; done).
  split; cbn; try done.
  - split; [done|]. intros (i & pc & Hi & Hin). by rewrite (H i pc Hi) in Hin.
  - intros i j pc pc' Hi Hin. by rewrite (H i pc Hi) in Hin.
  - intros i pc Hi. by rewrite (H i pc Hi).
Qed.

Lemma goto_lookup i pc s j pc' :
  i < length (g_threads s) -> g_threads (goto i pc s) !! j = Some pc' ->
  j = i /\ pc' = pc \/ j <> i /\ g_threads s !! j = Some pc'.
Proof.
  intros Hi. cbn [goto g_threads].
  intros [(-> & -> & _)|[? ?]]%list_lookup_insert_Some; [by left|]. right. by split.
Qed.

(** A thread that stays outside the function, the flag and the instance as they
    were. *)
Lemma single_inv_outside i pc0 pc s :
  single_inv s -> g_threads s !! i = Some pc0 -> inside pc0 = false -> inside pc = false ->
  knows s pc -> single_inv (goto i pc s).
Proof.
  intros [Hb Ho Hk Hf Hc] Hi H0 H1 Hpc.
  pose proof (lookup_lt_Some _ _ _ Hi) as Hl.
  assert (forall j pc', g_threads (goto i pc s) !! j = Some pc' -> inside pc' = true ->
    g_threads s !! j = Some pc') as Hold.
  { intros j pc' Hj Hin. destruct (goto_lookup i pc s j pc' Hl Hj) as [[-> ->]|[_ H]]; [|done].
    congruence. }
  split; try done.
  - change (s_flag (goto i pc s)) with (s_flag s). rewrite Hb. split.
    + intros (j & pc' & Hj & Hin). exists j, pc'. split; [|done].
      cbn. rewrite list_lookup_insert_ne; [done|]. congruence.
    + intros (j & pc' & Hj & Hin). exists j, pc'. split; [by apply Hold|done].
  - intros j j' pc1 pc2 Hj Hin Hj' Hin'.
    apply (Ho j j' pc1 pc2); [by apply Hold|done|by apply Hold|done].
  - intros j pc' Hj. destruct (goto_lookup i pc s j pc' Hl Hj) as [[_ ->]|[_ H]]; [done|].
    by apply (Hk j).
Qed.

(** The thread inside moves to [pc] and the shared state changes with it. *)
Lemma single_inv_inside i pc s s' :
  i < length (g_threads s) ->
  (forall j pc', j <> i -> g_threads s !! j = Some pc' -> inside pc' = false /\ knows s' pc') ->
  g_threads s' = <[i:=pc]> (g_threads s) -> knows s' pc ->
  (s_flag s' = Busy <-> inside pc = true) ->
  (s_flag s' = Fresh -> g_made s' = []) ->
  (s_flag s' = Called -> exists x, g_made s' = [x] /\ _instance s' = Some x) ->
  single_inv s'.
Proof.
  intros Hl Hoth Ht Hk Hb Hf Hc.
  assert (forall j pc', g_threads s' !! j = Some pc' -> inside pc' = true -> j = i /\ pc' = pc)
    as Hin.
  { intros j pc' Hj H. rewrite Ht in Hj.
    apply list_lookup_insert_Some in Hj as [(-> & -> & _)|[Hne Hj]]; [done|].
    destruct (Hoth j pc') as [? _]; congruence. }
  split; try done.
  - rewrite Hb. split.
    + intros H. exists i, pc. split; [|done]. rewrite Ht. by apply list_lookup_insert_eq.
    + intros (j & pc' & Hj & H). by destruct (Hin j pc' Hj H) as [_ ->].
  - intros j j' pc1 pc2 Hj H Hj' H'. destruct (Hin j pc1 Hj H), (Hin j' pc2 Hj' H'). congruence.
  - intros j pc' Hj. rewrite Ht in Hj.
    apply list_lookup_insert_Some in Hj as [(_ & <- & _)|[Hne Hj]]; [done|].
    by apply (Hoth j pc').
Qed.

(** The other threads when thread [i] is in the function, or nobody is. *)
Lemma others_outside i pc0 s j pc :
  single_inv s -> g_threads s !! i = Some pc0 -> inside pc0 = true ->
  j <> i -> g_threads s !! j = Some pc ->
  inside pc = false /\ (pc <> GReturn) /\ (forall p, pc <> GReturned p).
Proof.
  intros [Hb Ho Hk _ _] Hi Hin Hne Hj.
  assert (s_flag s = Busy) as Hf by (apply Hb; by exists i, pc0).
  pose proof (Hk j pc Hj) as H.
  split; [destruct (inside pc) eqn:E; [|done]; destruct Hne; by eapply Ho|].
  split; [intros ->; simpl in H|intros p ->; simpl in H; destruct H as [H _]]; congruence.
Qed.

Lemma single_inv_step s s' : single_inv s -> step s s' -> single_inv s'.
Proof.
  intros Hs [i s1 H|i ok s1 H].
  - unfold call in H. destruct (g_threads s !! i) as [pc|] eqn:Hi; [|done]. cbn in H.
    destruct pc; simplify_eq; by eapply single_inv_outside.
  - unfold GetInstance in H. destruct (g_threads s !! i) as [pc|] eqn:Hi; [|done]. cbn in H.
    pose proof (lookup_lt_Some _ _ _ Hi) as Hl. pose proof (si_knows s Hs i pc Hi) as Hpc.
    destruct pc as [| | |x| |p|]; try done; cbn in Hpc.
    + destruct (s_flag s) eqn:Ef; simplify_eq; [|by eapply single_inv_outside].
      eapply (single_inv_inside i GNew s); cbn; try done; [|by apply (si_fresh s Hs)].
      intros j pc' Hne Hj. pose proof (si_knows s Hs j pc' Hj) as Hk.
      assert (inside pc' = false) as Hin.
      { destruct (inside pc') eqn:E; [|done].
        assert (s_flag s = Busy) by (apply (si_busy s Hs); by exists j, pc'). congruence. }
      split; [done|]. destruct pc'; try done; cbn in Hk; [|destruct Hk]; congruence.
    + destruct ok; simplify_eq.
      * eapply (single_inv_inside i (GStore _) s); cbn; try done.
        -- intros j pc' Hne Hj.
           destruct (others_outside i GNew s j pc') as (H1 & H2 & H3); try done.
           split; [done|]. destruct pc'; try done. by destruct (H3 p).
        -- by rewrite Hpc.
        -- split; [done|]. intros _. apply (si_busy s Hs). by exists i, GNew.
        -- intros Hf. assert (s_flag s = Busy) by (apply (si_busy s Hs); by exists i, GNew).
           congruence.
        -- intros Hf. assert (s_flag s = Busy) by (apply (si_busy s Hs); by exists i, GNew).
           congruence.
      * eapply (single_inv_inside i GThrown s); cbn; try done.
        intros j pc' Hne Hj.
        destruct (others_outside i GNew s j pc') as (H1 & H2 & H3); try done.
        split; [done|]. destruct pc'; try done. by destruct (H3 p).
    + simplify_eq. eapply (single_inv_inside i GReturn s); cbn; try done; [|by exists x].
      intros j pc' Hne Hj.
      destruct (others_outside i (GStore x) s j pc') as (H1 & H2 & H3); try done.
      split; [done|]. destruct pc'; try done. by destruct (H3 p).
    + simplify_eq. by eapply single_inv_outside.
Qed.

Lemma single_inv_reachable k s : reachable k s -> single_inv s.
Proof.
  intros H. assert (single_inv (start k)) as Hs by apply single_inv_start.
  unfold reachable in H. induction H as [|s s1 s2 Hst _ IH]; [done|].
  apply IH. by eapply single_inv_step.
Qed.

(** C30: whatever the threads do, also after constructors that threw, at most one
    thread runs the constructor, at most one object is ever made, and every
    call that returns gives that object, never null; and a call is never stuck:
    while a thread is inside [GetInstance], some thread can move. *)
Theorem singleton_once k s :
  reachable k s ->
  (forall i j pc pc', g_threads s !! i = Some pc -> inside pc = true ->
     g_threads s !! j = Some pc' -> inside pc' = true -> i = j)
  /\ length (g_made s) <= 1
  /\ (forall i p, g_threads s !! i = Some (GReturned p) ->
        exists x, p = Some x /\ g_made s = [x])
  /\ (forall i pc, g_threads s !! i = Some pc -> calling pc = true ->
        exists j ok, is_Some (GetInstance j ok s)).
Proof.
  intros Hr. pose proof (single_inv_reachable k s Hr) as Hs.
  split; [apply (si_one s Hs)|]. split; [|split].
  - destruct (s_flag s) eqn:Ef.
    + rewrite (si_fresh s Hs Ef). simpl. lia.
    + apply (si_busy s Hs) in Ef as (i & pc & Hi & Hin).
      pose proof (si_knows s Hs i pc Hi) as Hk. destruct pc; try done; cbn in Hk;
        rewrite Hk; simpl; lia.
    + destruct (si_called s Hs Ef) as (x & -> & _). simpl. lia.
  - intros i p Hi. destruct (si_knows s Hs i _ Hi) as [Hf ->].
    destruct (si_called s Hs Hf) as (x & Hx & ->). by exists x.
  - assert (forall i pc, g_threads s !! i = Some pc -> inside pc = true ->
      is_Some (GetInstance i true s)) as Hgo.
    { intros i pc Hi Hin. unfold GetInstance. rewrite Hi. cbn. destruct pc; try done; by eexists. }
    intros i pc Hi Hc. destruct (inside pc) eqn:Hin; [exists i, true; by eapply Hgo|].
    destruct pc; try done.
    + destruct (s_flag s) eqn:Ef; cycle 1.
      * apply (si_busy s Hs) in Ef as (j & pc & Hj & Hin'). exists j, true. by eapply Hgo.
      * exists i, true. unfold GetInstance. rewrite Hi. cbn. rewrite Ef. by eexists.
      * exists i, true. unfold GetInstance. rewrite Hi. cbn. rewrite Ef. by eexists.
    + exists i, true. unfold GetInstance. rewrite Hi. by eexists.
Qed.

(** ** Examples: the first constructor throws while a second thread waits. *)
Inductive move := MCall (i : nat) | MIn (i : nat) (ok : bool).

Fixpoint moves (ms : list move) s : option singleton :=
  match ms with
  | [] => Some s
  | m :: ms =>
      s' ← match m with MCall i => call i s | MIn i ok => GetInstance i ok s end; moves ms s'
  end.

Lemma moves_steps ms s s' : moves ms s = Some s' -> rtc step s s'.
Proof.
  revert s. induction ms as [|m ms IH]; intros s H; [injection H as <-; constructor|].
  destruct m as [i|i ok]; cbn [moves] in H;
    [destruct (call i s) as [s1|] eqn:E | destruct (GetInstance i ok s) as [s1|] eqn:E]; try done;
    (eapply rtc_l; [|by apply IH]); by econstructor.
Qed.

Lemma singleton_once_witness :
  exists s, reachable 2 s /\ g_threads s = [GThrown; GReturned (Some 0)] /\ length (g_made s) <= 1.
Proof.
  destruct (moves [MCall 0; MCall 1; MIn 0 true; MIn 0 false; MIn 1 true; MIn 1 true; MIn 1 true;
                   MIn 1 true] (start 2)) as [s|] eqn:E; [|vm_compute in E; discriminate].
  assert (reachable 2 s) as Hr by exact (moves_steps _ _ _ E).
  destruct (singleton_once 2 s Hr) as (_ & Hl & _). exists s. split; [exact Hr|].
  split; [|exact Hl]. vm_compute in E. injection E as <-. reflexivity.
Defined.
