(* ===== verification/IOPool.v ===== *)
(** * The pools of [io_context]s and the accepting servers

    [AsioIOServicePool] of [3. AsyncServerIOservicepool] (module [Plain]) and of
    [4. CoroutineAsyncServer] (module [Locked]), and the [Server] both share
    line by line.  Sessions are identified by their addresses, here numbers. *)

From S2P Require Import Prelude.

(** What the pools use of asio's [io_context]: [run] returns when it was stopped,
    or when no work guard and no operation is left.  [io_pending] counts the
    operations in progress. *)
Record io_context := MkIo { io_work : bool; io_pending : nat; io_stopped : bool }.

Definition run_returned (c : io_context) : bool :=
  io_stopped c || (negb (io_work c) && (io_pending c =? 0)).

(** [_works[i]] is non-null when it holds its guard; [_threads[i]] is joinable. *)
Record AsioIOServicePool := MkIOPool {
  _ioServices : list io_context;
  _works : list bool;
  _threads : list bool;
  _nextIOService : nat
}.

Definition set_next (n : nat) (p : AsioIOServicePool) : AsioIOServicePool :=
  MkIOPool (_ioServices p) (_works p) (_threads p) n.

(** [Work(io_context)] and its [reset]. *)
Definition guard (b : bool) (c : io_context) : io_context :=
  MkIo b (io_pending c) (io_stopped c).
Definition io_stop (c : io_context) : io_context :=
  MkIo (io_work c) (io_pending c) true.

Definition reset_works (p : AsioIOServicePool) : AsioIOServicePool :=
  MkIOPool (zip_with (fun (w : bool) c => if w then guard false c else c) (_works p) (_ioServices p))
    ((fun _ => false) <$> _works p) (_threads p) (_nextIOService p).

(** How the joins of [Stop] end: thread [i] blocks them, or its [join] throws
    because it is not joinable. *)
Inductive joins := Joined | BlockedOn (i : nat) | ThrowsAt (i : nat).

(** A context with [n] operations pending and its guard. *)
Definition new_context : io_context := MkIo true 0 false.

(** ** [3. AsyncServerIOservicepool/src/IOservicePool.cpp] *)
Module Plain.
Definition new (size : nat) : AsioIOServicePool :=
  MkIOPool (replicate size new_context) (replicate size true) (replicate size true) 0.

(** [_ioServices[i]] outside the vector is undefined. *)
Definition GetIOService (p : AsioIOServicePool) : res (nat * AsioIOServicePool) :=
  let service := _nextIOService p in
  if decide (service < length (_ioServices p)) then
    let next := S service in
    Ok (service, set_next (if decide (next = length (_ioServices p)) then 0 else next) p)
  else UB.

Fixpoint join_all (i : nat) (cs : list io_context) (ts : list bool) : joins :=
  match cs, ts with
  | c :: cs, t :: ts =>
      if negb t then ThrowsAt i
      else if run_returned c then join_all (S i) cs ts else BlockedOn i
  | _, _ => Joined
  end.

Definition Stop (p : AsioIOServicePool) : joins * AsioIOServicePool :=
  let p := reset_works p in
  let r := join_all 0 (_ioServices p) (_threads p) in
  (r, match r with
      | Joined => MkIOPool (_ioServices p) (_works p) ((fun _ => false) <$> _threads p)
                    (_nextIOService p)
      | _ => p
      end).
End Plain.

(** ** [4. CoroutineAsyncServer/src/IOservicePool.cpp]

    [GetIOService] holds a mutex over the same steps. *)
Module Locked.
Definition new (size : nat) : AsioIOServicePool :=
  let size := if decide (size = 0) then 1 else size in
  MkIOPool (replicate size new_context) (replicate size true) (replicate size true) 0.

Definition GetIOService (p : AsioIOServicePool) : res (nat * AsioIOServicePool) :=
  let service := _nextIOService p in
  if decide (service < length (_ioServices p)) then
    let next := S service in
    Ok (service, set_next (if decide (next = length (_ioServices p)) then 0 else next) p)
  else UB.

Fixpoint join_all (i : nat) (cs : list io_context) (ts : list bool) : joins :=
  match cs, ts with
  | c :: cs, t :: ts =>
      if t then if run_returned c then join_all (S i) cs ts else BlockedOn i
      else join_all (S i) cs ts
  | _, _ => Joined
  end.

Definition Stop (p : AsioIOServicePool) : joins * AsioIOServicePool :=
  let p := reset_works p in
  let p := MkIOPool (io_stop <$> _ioServices p) (_works p) (_threads p) (_nextIOService p) in
  let r := join_all 0 (_ioServices p) (_threads p) in
  (r, match r with
      | Joined => MkIOPool (_ioServices p) (_works p) ((fun _ => false) <$> _threads p)
                    (_nextIOService p)
      | _ => p
      end).
End Locked.

(** ** Round robin

    What the servers use of a pool. *)
Class ServicePool (P : Type) := {
  sp_size : P -> nat;
  sp_next : P -> nat;
  sp_get : P -> res (nat * P);
  sp_get_run p :
    sp_next p < sp_size p ->
    exists p', sp_get p = Ok (sp_next p, p')
      /\ sp_next p' = S (sp_next p) mod sp_size p /\ sp_size p' = sp_size p
}.

Section RoundRobin.
Context {P : Type} `{!ServicePool P}.
Implicit Types p : P.

Fixpoint sp_calls (k : nat) (p : P) : res (list nat * P) :=
  match k with
  | O => Ok ([], p)
  | S k => let* '(i, p) := sp_get p in let* '(l, p) := sp_calls k p in Ok (i :: l, p)
  end.

Lemma sp_calls_run k p :
  sp_next p < sp_size p ->
  exists p', sp_calls k p
    = Ok ((fun i => (sp_next p + i) mod sp_size p) <$> seq 0 k, p')
  /\ sp_size p' = sp_size p /\ sp_next p' < sp_size p'.
Proof.
  revert p. induction k as [|k IH]; intros p Hp; [by exists p|].
  destruct (sp_get_run p Hp) as (p1 & Hg & Hn & Hs). cbn [sp_calls]. rewrite Hg.
  cbn [res_bind]. destruct (IH p1) as (p' & Hc & Hs' & Hb).
  { rewrite Hn, Hs. apply Nat.mod_upper_bound. lia. }
  rewrite Hc. cbn [res_bind]. exists p'. split; [|split; [congruence|done]].
  do 2 f_equal. cbn [seq fmap list_fmap]. f_equal.
  - by rewrite Nat.add_0_r, Nat.mod_small.
  - rewrite <- fmap_S_seq, <- list_fmap_compose. apply list_fmap_ext.
    intros ? i _. simpl. rewrite Hs, Hn, Nat.Div0.add_mod_idemp_l. f_equal. lia.
Qed.
End RoundRobin.

(** The next index, in the form the class states. *)
Lemma wrap_next next size :
  next < size -> (if decide (S next = size) then 0 else S next) = S next mod size.
Proof.
  intros H. case_decide as E; [|by rewrite Nat.mod_small by lia].
  subst size. by rewrite Nat.Div0.mod_same.
Qed.

#[refine, export] Instance plain_pool : ServicePool AsioIOServicePool := {|
  sp_size p := length (_ioServices p);
  sp_next := _nextIOService;
  sp_get := Plain.GetIOService
|}.
Proof.
  intros p Hp. unfold Plain.GetIOService. rewrite decide_True by done.
  eexists. split; [reflexivity|]. split; [by apply wrap_next | done].
Defined.

#[refine] Instance locked_pool : ServicePool AsioIOServicePool := {|
  sp_size p := length (_ioServices p);
  sp_next := _nextIOService;
  sp_get := Locked.GetIOService
|}.
Proof.
  intros p Hp. unfold Locked.GetIOService. rewrite decide_True by done.
  eexists. split; [reflexivity|]. split; [by apply wrap_next | done].
Defined.

(** ** The servers: [3 .../src/Server.cpp] and [4 .../src/Server.cpp]

    [_sessions] maps the uuid of a session to the session.  [map_insert] is
    [std::map::insert]: a key that is present keeps its value. *)
Module Server.
Record Server := MkServer { _sessions : gmap String.string nat }.

Definition map_insert (u : String.string) (x : nat) (m : gmap String.string nat) :=
  match m !! u with Some _ => m | None => <[u := x]> m end.

(** What the accepting side starts: [new_session->Start()] and
    [async_accept] for session [x] on the context of the given index. *)
Inductive op := SessionStart (x : nat) | AsyncAccept (service x : nat).

Section Accepting.
Context {P : Type} `{!ServicePool P}.

(** [fresh] is the session [make_shared] returns. *)
Definition StartAccept (fresh : nat) (p : P) : res (P * list op) :=
  let* '(service, p) := sp_get p in Ok (p, [AsyncAccept service fresh]).

Definition HandleAccept (error : bool) (u : String.string) (x fresh : nat)
    (s : Server) (p : P) : res (Server * P * list op) :=
  let '(s, ops) :=
    if error then (s, [])
    else (MkServer (map_insert u x (_sessions s)), [SessionStart x]) in
  let* '(p, ops') := StartAccept fresh p in
  Ok (s, p, ops ++ ops').
End Accepting.

Definition ClearSession (u : String.string) (s : Server) : Server :=
  MkServer (delete u (_sessions s)).

(** [Start] runs the session on a thread of the pool, so a [ClearSession] may come
    before the [insert] that follows [Start]: the map sees the two calls as
    separate events. *)
Inductive event := EvInsert (u : String.string) (x : nat) | EvClear (u : String.string).

#[export] Instance event_eq_dec : EqDecision event.
Proof. solve_decision. Defined.

Definition do_event (s : Server) (e : event) : Server :=
  match e with
  | EvInsert u x => MkServer (map_insert u x (_sessions s))
  | EvClear u => ClearSession u s
  end.

Definition run (es : list event) (s : Server) : Server := foldl do_event s es.

(** The uuids inserted; those of a run differ, [random_generator] made them. *)
Definition inserted (e : event) : option String.string :=
  match e with EvInsert u _ => Some u | EvClear _ => None end.
End Server.

(** ** Properties *)
Module PoolProps.
Import Server.

Lemma run_app es es' s : run (es ++ es') s = run es' (run es s).
Proof. unfold run. apply foldl_app. Qed.

Lemma run_keeps es u s :
  u ∉ omap inserted es -> EvClear u ∉ es -> _sessions (run es s) !! u = _sessions s !! u.
Proof.
  revert s. induction es as [|e es IH]; intros s Hi Hc; [done|].
  apply not_elem_of_cons in Hc as [Hc Hc']. cbn [run foldl].
  change (foldl do_event (do_event s e) es) with (run es (do_event s e)).
  destruct e as [v x|v]; cbn [omap list_omap inserted] in Hi.
  - apply not_elem_of_cons in Hi as [Hv Hi]. rewrite IH by done.
    cbn [do_event _sessions]. unfold map_insert. destruct (_sessions s !! v); [done|].
    by rewrite lookup_insert_ne.
  - rewrite IH by done. cbn [do_event ClearSession _sessions].
    apply lookup_delete_ne. congruence.
Qed.

Lemma run_absent es u s :
  u ∉ omap inserted es -> _sessions s !! u = None -> _sessions (run es s) !! u = None.
Proof.
  revert s. induction es as [|e es IH]; intros s Hi Hs; [done|]. cbn [run foldl].
  change (foldl do_event (do_event s e) es) with (run es (do_event s e)).
  destruct e as [v x|v]; cbn [omap list_omap inserted] in Hi.
  - apply not_elem_of_cons in Hi as [Hv Hi]. apply IH; [done|].
    cbn [do_event _sessions]. unfold map_insert. destruct (_sessions s !! v); [done|].
    by rewrite lookup_insert_ne.
  - apply IH; [done|]. cbn [do_event ClearSession _sessions].
    destruct (decide (u = v)) as [->|]; [apply lookup_delete_eq | by rewrite lookup_delete_ne].
Qed.

(** An accepted session is started and inserted, and the next one is awaited on
    the next context; a failed accept only awaits the next one. *)
Lemma HandleAccept_run error u x fresh s p :
  _nextIOService p < length (_ioServices p) ->
  exists p', HandleAccept (ServicePool0 := plain_pool) error u x fresh s p
    = Ok (if error then s else do_event s (EvInsert u x), p',
          (if error then [] else [SessionStart x])
          ++ [AsyncAccept (_nextIOService p) fresh])
  /\ _nextIOService p' = S (_nextIOService p) mod length (_ioServices p).
Proof.
  intros Hp. destruct (sp_get_run (ServicePool := plain_pool) p Hp) as (p' & Hg & Hn & _).
  exists p'. split; [|done]. unfold HandleAccept, StartAccept. destruct error; by rewrite Hg.
Qed.

(** What a session's insertion leaves at the end of the run. *)
Lemma run_inserted es1 es2 u x :
  NoDup (omap inserted (es1 ++ EvInsert u x :: es2)) ->
  _sessions (run (es1 ++ EvInsert u x :: es2) (MkServer ∅)) !! u
  = if decide (EvClear u ∈ es2) then None else Some x.
Proof.
  intros Hnd. rewrite omap_app in Hnd. cbn [omap list_omap inserted] in Hnd.
  apply NoDup_app in Hnd as (_ & Hd & Hnd). apply NoDup_cons in Hnd as [Hu2 _].
  assert (u ∉ omap inserted es1) as Hu1 by (intros H; apply (Hd u H); left).
  rewrite run_app. cbn [run foldl]. change (foldl do_event ?s es2) with (run es2 s).
  assert (_sessions (do_event (run es1 (MkServer ∅)) (EvInsert u x)) !! u = Some x) as Hx.
  { cbn [do_event _sessions]. unfold map_insert.
    rewrite run_absent by done. apply lookup_insert_eq. }
  case_decide as Hc; [|by rewrite run_keeps].
  apply list_elem_of_split in Hc as (l1 & l2 & ->).
  rewrite omap_app in Hu2. apply not_elem_of_app in Hu2 as [_ Hu2].
  rewrite run_app. cbn [run foldl]. change (foldl do_event ?s l2) with (run l2 s).
  apply run_absent; [done|]. apply lookup_delete_eq.
Qed.



(** The contexts are handed out in turn: call [i] on a new pool of [n] gives
    context [i mod n], in both servers; [4. CoroutineAsyncServer] takes 0
    for 1, while in [3. AsyncServerIOservicepool] a pool of 0 has no context
    and the first call is outside the vector. *)
Theorem GetIOService_round_robin n k :
  (0 < n -> exists p, sp_calls (ServicePool0 := plain_pool) k (Plain.new n)
                      = Ok ((fun i => i mod n) <$> seq 0 k, p))
  /\ (exists p, sp_calls (ServicePool0 := locked_pool) k (Locked.new n)
                = Ok ((fun i => i mod (n `max` 1)) <$> seq 0 k, p))
  /\ Plain.GetIOService (Plain.new 0) = UB.
Proof.
  split; [|split; [|done]].
  - intros Hn. destruct (sp_calls_run (ServicePool0 := plain_pool) k (Plain.new n))
      as (p & Hp & _); cbn [sp_size sp_next plain_pool Plain.new _ioServices] in *;
      rewrite length_replicate in *; [done|]. by exists p.
  - destruct (sp_calls_run (ServicePool0 := locked_pool) k (Locked.new n)) as (p & Hp & _);
      cbn [sp_size sp_next locked_pool Locked.new _ioServices _nextIOService] in *;
      rewrite length_replicate in *; [case_decide; lia|]. exists p. rewrite Hp. do 2 f_equal.
    apply list_fmap_ext. intros ? i _. simpl. f_equal. case_decide; lia.
Qed.

Lemma GetIOService_round_robin_witness :
  exists p, sp_calls (ServicePool0 := plain_pool) 5 (Plain.new 2) = Ok ([0; 1; 0; 1; 0], p).
Proof. destruct (GetIOService_round_robin 2 5) as [H _]. apply H. lia. Defined.

(** Joining: when every [run] has returned, and when one has not. *)
Lemma join_all_returned i cs ts :
  Forall (fun c => run_returned c = true) cs -> Locked.join_all i cs ts = Joined.
Proof.
  intros H. revert i ts. induction H as [|c cs Hc _ IH]; intros i [|[] ts]; simpl; try done.
  by rewrite Hc.
Qed.

Lemma plain_join i cs n :
  n = length cs ->
  Plain.join_all i cs (replicate n true)
  = match list_find (fun c => run_returned c = false) cs with
    | Some (j, _) => BlockedOn (i + j) | None => Joined end.
Proof.
  intros ->. revert i. induction cs as [|c cs IH]; intros i; simpl; [done|].
  destruct (run_returned c) eqn:E.
  - rewrite decide_False by done. rewrite IH.
    destruct (list_find _ cs) as [[]|]; simpl; [f_equal; lia | done].
  - rewrite decide_True by done. f_equal. lia.
Qed.

(** A pool at work: every thread runs and every guard is there. *)
Definition running (p : AsioIOServicePool) : Prop :=
  _works p = replicate (length (_ioServices p)) true
  /\ _threads p = replicate (length (_ioServices p)) true
  /\ Forall (fun c => io_stopped c = false) (_ioServices p).

Lemma reset_works_running p :
  running p -> _ioServices (reset_works p) = guard false <$> _ioServices p.
Proof.
  intros (Hw & _ & _). unfold reset_works. cbn [_ioServices]. rewrite Hw.
  clear Hw. induction (_ioServices p) as [|c cs IH]; simpl; [done|]. f_equal. exact IH.
Qed.

(** A context without its guard that was not stopped. *)
Definition unguarded (c : io_context) : Prop := io_work c = false /\ io_stopped c = false.

(** The first context that still has an operation in progress blocks the joins. *)
Definition waits_for (cs : list io_context) : joins :=
  match list_find (fun c => io_pending c <> 0) cs with
  | Some (i, _) => BlockedOn i
  | None => Joined
  end.

Lemma plain_join_waits cs :
  Forall unguarded cs -> Plain.join_all 0 cs (replicate (length cs) true) = waits_for cs.
Proof.
  intros H. rewrite plain_join by done. unfold waits_for.
  assert (list_find (fun c => run_returned c = false) cs
          = list_find (fun c => io_pending c <> 0) cs) as ->; [|done].
  induction H as [|c cs [Hw Hs] _ IH]; simpl; [done|].
  assert (run_returned c = (io_pending c =? 0)) as Hr
    by (unfold run_returned; by rewrite Hw, Hs).
  rewrite IH. destruct (Nat.eqb_spec (io_pending c) 0).
  - by rewrite !decide_False by congruence.
  - by rewrite !decide_True by congruence.
Qed.

Lemma unguarded_running p :
  running p -> Forall unguarded (guard false <$> _ioServices p).
Proof. intros (_ & _ & Hs). rewrite Forall_fmap. eapply Forall_impl; [exact Hs|]. by intros c H. Qed.

Lemma waits_for_guard cs : waits_for (guard false <$> cs) = waits_for cs.
Proof.
  unfold waits_for. rewrite list_find_fmap.
  rewrite (list_find_ext (_ ∘ guard false) (fun c => io_pending c <> 0)) by done.
  by destruct (list_find _ cs) as [[]|].
Qed.

Lemma plain_stop_run p :
  running p -> (Plain.Stop p).1 = waits_for (_ioServices p)
  /\ _ioServices (Plain.Stop p).2 = guard false <$> _ioServices p.
Proof.
  intros Hp. destruct (Hp) as (_ & Ht & _). unfold Plain.Stop. cbn [fst snd].
  rewrite reset_works_running by done. cbn [reset_works _threads]. rewrite Ht.
  rewrite <- (length_fmap (guard false)).
  rewrite plain_join_waits by (by apply unguarded_running). rewrite waits_for_guard.
  split; [done|]. rewrite <- reset_works_running by done. by destruct (waits_for _).
Qed.

(** [Stop] of [4. CoroutineAsyncServer] joins every thread whatever the
    sessions do, and a second [Stop] is harmless; [Stop] of
    [3. AsyncServerIOservicepool] does not stop the contexts: it waits for the
    first one that still has an operation in progress, so an idle client that
    stays connected keeps the server from stopping. *)
Theorem Stop_spec p :
  running p ->
  (Locked.Stop p).1 = Joined
  /\ (Locked.Stop (Locked.Stop p).2).1 = Joined
  /\ (Plain.Stop p).1
     = waits_for (_ioServices p).
Proof.
  intros Hp. split; [|split].
  - unfold Locked.Stop. cbn [fst _ioServices]. apply join_all_returned.
    rewrite Forall_fmap. by apply Forall_true.
  - unfold Locked.Stop at 1. cbn [fst _ioServices]. apply join_all_returned.
    rewrite Forall_fmap. by apply Forall_true.
  - by apply plain_stop_run.
Qed.

Lemma Stop_spec_witness :
  let p := MkIOPool [MkIo true 0 false; MkIo true 2 false] [true; true] [true; true] 0 in
  (Locked.Stop p).1 = Joined /\ (Plain.Stop p).1 = BlockedOn 1.
Proof.
  intros p. destruct (Stop_spec p) as (H1 & _ & H2).
  - split; [reflexivity|]. split; [reflexivity|]. repeat constructor.
  - split; [exact H1 | exact H2].
Defined.
End PoolProps.
