(* ===== verification/PoolProgram.v ===== *)
(** * The programs of [3. AsyncServerIOservicepool] and [4. CoroutineAsyncServer]

    [main] makes the pool, waits for SIGINT or SIGTERM, constructs the [Server]
    and runs its own [io_context]: the accepting side of [IOPool] and the
    contexts of the pool as one state.  What the sessions do is seen through the
    operations they start and complete on their contexts. *)

From S2P Require Import Prelude IOPool.
Import Server PoolProps.

(** The pool is the one of the program. *)
#[local] Remove Hints plain_pool locked_pool : typeclass_instances.

(** ** What the two pools offer [main] *)

(** What [main] does when its [Stop] is over or waits; [pg_ended p r] says what
    is known of the pool then. *)
Class PoolProgram := {
  pg_service :: ServicePool AsioIOServicePool;
  pg_new : nat -> AsioIOServicePool;
  pg_size : nat -> nat;            (* the contexts of [pg_new hw] *)
  pg_stop : AsioIOServicePool -> joins * AsioIOServicePool;
  pg_join : AsioIOServicePool -> joins;
  pg_ended : AsioIOServicePool -> joins -> Prop;
  pg_sizes p : sp_size p = length (_ioServices p);
  pg_next p : sp_next p = _nextIOService p;
  pg_get_run p : _nextIOService p < length (_ioServices p) ->
    sp_get p = Ok (_nextIOService p,
      set_next (S (_nextIOService p) mod length (_ioServices p)) p);
  pg_new_run hw : running (pg_new hw) /\ length (_ioServices (pg_new hw)) = pg_size hw
    /\ _nextIOService (pg_new hw) = 0;
  pg_stop_run p : running p ->
    let '(r, p') := pg_stop p in pg_ended p' r
      /\ length (_ioServices p') = length (_ioServices p)
      /\ _nextIOService p' = _nextIOService p
}.

(** A handler starts an operation on a context, or one completes.  Once [run] has
    returned, nothing happens there any more. *)
Definition begin_op (c : io_context) : io_context :=
  if run_returned c then c else MkIo (io_work c) (S (io_pending c)) (io_stopped c).
Definition end_op (c : io_context) : io_context :=
  if run_returned c then c else MkIo (io_work c) (pred (io_pending c)) (io_stopped c).

Definition on_context (i : nat) (f : io_context -> io_context) (p : AsioIOServicePool) :=
  MkIOPool (alter f i (_ioServices p)) (_works p) (_threads p) (_nextIOService p).

Record program := MkProgram {
  g_pool : AsioIOServicePool;
  g_server : Server.Server;
  g_accept : nat * nat;       (* the async_accept in progress: context and session *)
  g_home : list nat;          (* the context of each session made *)
  g_end : option joins        (* where [Stop] is, after the signal *)
}.
Implicit Types g : program.

(** An accept completes for the session with the given uuid; an operation starts or
    completes on a context; SIGINT or SIGTERM. *)
Inductive pevent :=
| PAccept (error : bool) (u : String.string)
| PStarted (i : nat)
| PCompleted (i : nat)
| PSignal.

#[export] Instance pevent_eq_dec : EqDecision pevent.
Proof. solve_decision. Defined.

Section Program.
Context `{PG : PoolProgram}.

(** The calls of the accepting side: [Start] posts the session's first operation to
    its context; the next accept is for a new session. *)
Definition accepting_op (o : Server.op) (g : program) : program :=
  match o with
  | SessionStart x =>
      match g_home g !! x with
      | Some i => MkProgram (on_context i begin_op (g_pool g)) (g_server g) (g_accept g)
                    (g_home g) (g_end g)
      | None => g
      end
  | AsyncAccept service x =>
      MkProgram (g_pool g) (g_server g) (service, x) (g_home g ++ [service]) (g_end g)
  end.

(** [main] up to [io_context.run()], on [hw] cores. *)
Definition main_start (hw : nat) : res program :=
  let* '(p, ops) := StartAccept 0 (pg_new hw) in
  Ok (foldl (flip accepting_op) (MkProgram p (MkServer ∅) (0, 0) [] None) ops).

(** The join of [Stop] that waits goes on when its thread is over. *)
Definition rejoin g : program :=
  match g_end g with
  | Some (BlockedOn _) =>
      MkProgram (g_pool g) (g_server g) (g_accept g) (g_home g) (Some (pg_join (g_pool g)))
  | _ => g
  end.

Definition context_event (i : nat) (f : io_context -> io_context) g : program :=
  rejoin (MkProgram (on_context i f (g_pool g)) (g_server g) (g_accept g) (g_home g) (g_end g)).

(** The signal's handler stops the context of [main], so no accept is handled after it. *)
Definition main_event (e : pevent) g : res program :=
  match e, g_end g with
  | PAccept error u, None =>
      let '(_, x) := g_accept g in
      let* '(s, p, ops) :=
        HandleAccept error u x (length (g_home g)) (g_server g) (g_pool g) in
      Ok (foldl (flip accepting_op) (MkProgram p s (g_accept g) (g_home g) None) ops)
  | PSignal, None =>
      let '(r, p) := pg_stop (g_pool g) in
      Ok (MkProgram p (g_server g) (g_accept g) (g_home g) (Some r))
  | PAccept _ _, Some _ | PSignal, Some _ => Ok g
  | PStarted i, _ => Ok (context_event i begin_op g)
  | PCompleted i, _ => Ok (context_event i end_op g)
  end.

Fixpoint main_events (es : list pevent) g : res program :=
  match es with
  | [] => Ok g
  | e :: es => let* g := main_event e g in main_events es g
  end.

Definition main_run (hw : nat) (es : list pevent) : res program :=
  let* g := main_start hw in main_events es g.

(** ** What [main] keeps true *)

(** Sessions go to the contexts in turn, the last one made being the one that is
    accepted next. *)
Record main_ok (n : nat) g : Prop := {
  mo_size : length (_ioServices (g_pool g)) = n;
  mo_home : forall x i, g_home g !! x = Some i -> i = x mod n;
  mo_next : _nextIOService (g_pool g) = length (g_home g) mod n;
  mo_accept : exists x, length (g_home g) = S x /\ g_accept g = (x mod n, x);
  mo_end : match g_end g with
           | None => running (g_pool g)
           | Some r => pg_ended (g_pool g) r
           end
}.

(** How the end of [Stop] reacts to the contexts. *)
Definition stays_ended : Prop :=
  forall p r i f, f = begin_op \/ f = end_op -> pg_ended p r ->
    pg_ended (on_context i f p)
      (match r with BlockedOn _ => pg_join (on_context i f p) | _ => r end).

Lemma running_context i f p :
  f = begin_op \/ f = end_op -> running p -> running (on_context i f p).
Proof.
  intros Hf (Hw & Ht & Hs). unfold running. cbn [on_context _ioServices _works _threads].
  rewrite length_alter. split_and!; try done. apply Forall_alter; [done|].
  intros c _ Hc. destruct Hf as [-> | ->]; unfold begin_op, end_op; by destruct (run_returned c).
Qed.

Lemma main_ok_context n i f g :
  stays_ended -> f = begin_op \/ f = end_op -> main_ok n g -> main_ok n (context_event i f g).
Proof.
  intros Hst Hf [Hn Hh Hx Ha He].
  set (p := on_context i f (g_pool g)).
  assert (match g_end g with
          | None => running p
          | Some r => pg_ended p (match r with BlockedOn _ => pg_join p | _ => r end)
          end) as He'.
  { destruct (g_end g) as [r|]; [by apply Hst|by apply running_context]. }
  unfold context_event, rejoin. cbn [g_end].
  destruct (g_end g) as [[|j|j]|]; (split; cbn; [by rewrite length_alter|done|done|done|done]).
Qed.

(** What a new accept adds. *)
Lemma main_ok_accept n error u g :
  0 < n -> main_ok n g -> g_end g = None ->
  exists g', main_event (PAccept error u) g = Ok g' /\ main_ok n g' /\ g_end g' = None
    /\ length (g_home g') = S (length (g_home g)).
Proof.
  intros Hpos [Hn Hh Hx (x & Hlen & Ha) He] Hend. unfold main_event. rewrite Hend, Ha.
  rewrite Hend in He.
  assert (_nextIOService (g_pool g) < length (_ioServices (g_pool g))) as Hlt
    by (rewrite Hx, Hn; apply Nat.mod_upper_bound; lia).
  set (p' := set_next (length (g_home g ++ [0]) mod n) (g_pool g)).
  assert (sp_get (g_pool g) = Ok (length (g_home g) mod n, p')) as Hg.
  { rewrite pg_get_run by done. subst p'. rewrite Hx, Hn, length_app. simpl.
    rewrite Nat.add_1_r, <- Nat.add_1_r, Nat.Div0.add_mod_idemp_l. by rewrite Nat.add_1_r. }
  assert (forall p h, length (_ioServices p) = n -> running p ->
    _nextIOService p = length (g_home g ++ [0]) mod n ->
    main_ok n (MkProgram p h (length (g_home g) mod n, length (g_home g))
      (g_home g ++ [length (g_home g) mod n]) None)) as Hok.
  { intros p h Hp Hrun Hnx. split; cbn; try done;
      [| |by exists (length (g_home g)); rewrite length_app; split; [simpl; lia|]].
    - intros y i Hy. apply lookup_app_Some in Hy as [Hy|[Hge Hy]]; [by apply Hh|].
      apply list_lookup_singleton_Some in Hy as [Hz <-]. f_equal. lia.
    - rewrite Hnx. f_equal. by rewrite !length_app. }
  assert (running p') as Hrun by done.
  unfold HandleAccept, StartAccept. rewrite Hg.
  destruct error; cbn [res_bind app foldl flip accepting_op].
  - eexists. split; [reflexivity|]. split; [by apply Hok|]. cbn. rewrite length_app.
    split; [done|simpl; lia].
  - cbn [g_home]. destruct (lookup_lt_is_Some_2 (g_home g) x) as [i Hi]; [lia|]. rewrite Hi.
    eexists. split; [reflexivity|]. cbn [g_pool g_server g_accept g_home g_end].
    split; [|rewrite length_app; split; [done|simpl; lia]].
    apply Hok; [cbn; by rewrite length_alter| |done]. apply running_context; [by left|done].
Qed.

Lemma main_ok_start hw :
  0 < pg_size hw -> exists g, main_start hw = Ok g /\ main_ok (pg_size hw) g /\ g_end g = None.
Proof.
  intros Hpos. destruct (pg_new_run hw) as (Hr & Hn & H0). unfold main_start, StartAccept.
  rewrite pg_get_run by lia. cbn [res_bind foldl flip accepting_op]. eexists.
  split; [reflexivity|]. split; [|done]. split; cbn; try done.
  - intros [|x] i Hx; [|done]. injection Hx as <-. by rewrite H0, Nat.Div0.mod_0_l.
  - by rewrite H0, Hn.
  - exists 0. by rewrite H0, Nat.Div0.mod_0_l.
Qed.

Definition accepted (e : pevent) : bool := match e with PAccept _ _ => true | _ => false end.

Lemma main_ok_event n e g :
  stays_ended -> 0 < n -> main_ok n g ->
  exists g', main_event e g = Ok g' /\ main_ok n g'
    /\ (is_Some (g_end g') <-> is_Some (g_end g) \/ e = PSignal).
Proof.
  intros Hst Hpos Hg.
  assert (forall i f, f = begin_op \/ f = end_op ->
    is_Some (g_end (context_event i f g)) <-> is_Some (g_end g)) as Hend.
  { intros i f _. unfold context_event, rejoin. cbn [g_end].
    destruct (g_end g) as [[]|]; split; intros H; done. }
  destruct e as [error u|i|i|].
  - destruct (g_end g) as [r|] eqn:E.
    + exists g. unfold main_event. rewrite E. split; [done|]. split; [done|].
      clear; intuition (congruence || eauto).
    + destruct (main_ok_accept n error u g Hpos Hg E) as (g' & Hrun & Hok & E' & _).
      exists g'. rewrite E'. split; [done|]. split; [done|].
      clear; intuition (congruence || eauto).
  - exists (context_event i begin_op g). split; [done|].
    split; [apply main_ok_context; auto|]. rewrite Hend by auto.
      clear; intuition (congruence || eauto).
  - exists (context_event i end_op g). split; [done|].
    split; [apply main_ok_context; auto|]. rewrite Hend by auto.
      clear; intuition (congruence || eauto).
  - unfold main_event. destruct (g_end g) as [r|] eqn:E.
    + exists g. split; [done|]. split; [done|]. rewrite E;
      clear; intuition (congruence || eauto).
    + destruct Hg as [Hn Hh Hx Ha He]. rewrite E in He. pose proof (pg_stop_run _ He) as Hs.
      destruct (pg_stop (g_pool g)) as [r p]. destruct Hs as (Hs & Hl & Hnx).
      eexists. split; [reflexivity|]. cbn [g_end]. split; [|clear; intuition (congruence || eauto)].
      split; cbn; [congruence|done|congruence|done|done].
Qed.

Lemma main_ok_events n es g :
  stays_ended -> 0 < n -> main_ok n g ->
  exists g', main_events es g = Ok g' /\ main_ok n g'
    /\ (is_Some (g_end g') <-> is_Some (g_end g) \/ PSignal ∈ es).
Proof.
  intros Hst Hpos. revert g. induction es as [|e es IH]; intros g Hg.
  - exists g. split; [done|]. split; [done|]. rewrite elem_of_nil. tauto.
  - destruct (main_ok_event n e g Hst Hpos Hg) as (g1 & Hr & Hg1 & He1).
    destruct (IH g1 Hg1) as (g' & Hr' & Hg' & He'). exists g'. cbn [main_events].
    rewrite Hr. split; [exact Hr'|]. split; [done|].
    rewrite He', He1, elem_of_cons.
    assert (e = PSignal <-> PSignal = e) by (split; congruence). tauto.
Qed.

Lemma main_ok_run hw es :
  stays_ended -> 0 < pg_size hw ->
  exists g, main_run hw es = Ok g /\ main_ok (pg_size hw) g
    /\ (is_Some (g_end g) <-> PSignal ∈ es).
Proof.
  intros Hst Hpos. destruct (main_ok_start hw Hpos) as (g & Hr & Hg & He).
  destruct (main_ok_events _ es g Hst Hpos Hg) as (g' & Hr' & Hg' & He').
  exists g'. unfold main_run. rewrite Hr. split; [exact Hr'|]. split; [done|].
  rewrite He', He. split; [by intros [[? ?]|?]|by right].
Qed.
End Program.

(** ** The two programs *)
#[refine] Instance program3 : PoolProgram := {|
  pg_service := plain_pool;
  pg_new := Plain.new;
  pg_size hw := hw;
  pg_stop := Plain.Stop;
  pg_join p := Plain.join_all 0 (_ioServices p) (_threads p);
  pg_ended p r := Forall unguarded (_ioServices p) /\ r = waits_for (_ioServices p)
    /\ (r <> Joined -> _threads p = replicate (length (_ioServices p)) true)
|}.
Proof.
  - done.
  - done.
  - intros p Hp. cbn. unfold Plain.GetIOService. rewrite decide_True by done.
    by rewrite wrap_next.
  - intros hw. cbn. unfold running. cbn. rewrite !length_replicate. split_and!; try done.
    by apply Forall_replicate.
  - intros p Hp. destruct (plain_stop_run p Hp) as [Hr Hc].
    pose proof (unguarded_running p Hp) as Hu. pose proof (waits_for_guard (_ioServices p)) as Hw.
    destruct (Hp) as (_ & Ht & _). unfold Plain.Stop in *. cbn [fst snd] in *.
    set (r := Plain.join_all _ _ _) in *. rewrite Hc. split; [|split].
    + split; [done|]. split; [congruence|]. intros Hne. rewrite length_fmap.
      destruct r; [done|..]; exact Ht.
    + by rewrite length_fmap.
    + by destruct r.
Defined.

#[refine] Instance program4 : PoolProgram := {|
  pg_service := locked_pool;
  pg_new := Locked.new;
  pg_size hw := hw `max` 1;
  pg_stop := Locked.Stop;
  pg_join p := Locked.join_all 0 (_ioServices p) (_threads p);
  pg_ended p r := r = Joined
|}.
Proof.
  - done.
  - done.
  - intros p Hp. cbn. unfold Locked.GetIOService. rewrite decide_True by done.
    by rewrite wrap_next.
  - intros hw. cbn. unfold running. cbn. rewrite !length_replicate.
    split; [split_and!; try done; by apply Forall_replicate|]. split; [|done].
    case_decide; lia.
  - intros p Hp. unfold Locked.Stop. cbn [fst snd _ioServices _nextIOService].
    rewrite join_all_returned; cbn [_ioServices _nextIOService].
    + split; [done|]. rewrite length_fmap, reset_works_running by done.
      by rewrite length_fmap.
    + rewrite Forall_fmap. by apply Forall_true.
Defined.

Lemma unguarded_op f c : f = begin_op \/ f = end_op -> unguarded c -> unguarded (f c).
Proof. intros [-> | ->]; unfold begin_op, end_op; by destruct (run_returned c). Qed.

(** Nothing waits for a context that is done, and it stays done. *)
Lemma waits_for_joined cs i f :
  f = begin_op \/ f = end_op -> Forall unguarded cs -> waits_for cs = Joined ->
  waits_for (alter f i cs) = Joined.
Proof.
  intros Hf Hu Hj. unfold waits_for in *.
  assert (list_find (fun c => io_pending c <> 0) cs = None) as Hnone
    by (destruct (list_find _ cs) as [[]|]; done).
  apply list_find_None in Hnone.
  assert (list_find (fun c => io_pending c <> 0) (alter f i cs) = None) as ->; [|done].
  apply list_find_None. apply Forall_alter; [done|]. intros c Hc Hp.
  apply list_elem_of_lookup_2 in Hc.
  assert (unguarded c) as [Hw _] by (eapply Forall_forall in Hu; done).
  assert (run_returned c = true) as Hr.
  { unfold run_returned. rewrite Hw. assert (io_pending c = 0) as -> by lia.
    by rewrite orb_true_r. }
  destruct Hf as [-> | ->]; unfold begin_op, end_op; by rewrite Hr.
Qed.

Lemma program3_stays : stays_ended (PG := program3).
Proof.
  intros p r i f Hf (Hu & -> & Ht). cbn [pg_ended program3 on_context _ioServices _threads].
  assert (Forall unguarded (alter f i (_ioServices p))) as Hu'.
  { apply Forall_alter; [done|]. intros c _. by apply unguarded_op. }
  split; [done|]. rewrite length_alter.
  destruct (waits_for (_ioServices p)) as [|j|j] eqn:E.
  - by rewrite (waits_for_joined _ i f Hf Hu E).
  - cbn [pg_join program3 on_context _ioServices _threads]. rewrite Ht by done.
    rewrite <- (length_alter f (_ioServices p) i), plain_join_waits by done. by split.
  - unfold waits_for in E. by destruct (list_find _ _) as [[]|].
Qed.

Lemma program4_stays : stays_ended (PG := program4).
Proof. by intros p r i f _ ->. Qed.

(** C29: the programs of the pool servers.  However accepts, sessions and the signal
    interleave, sessions run on the contexts in turn, and [main] leaves its
    loop exactly at the signal.  The program of [4] then always ends; the one of
    [3] waits for the first context that has an operation in progress, and ends as
    soon as none has; with no core reported it fails at once. *)
Theorem pool_programs_stop hw es :
  (exists g, main_run (PG := program4) hw es = Ok g
    /\ (forall x i, g_home g !! x = Some i -> i = x mod (hw `max` 1))
    /\ g_end g = if decide (PSignal ∈ es) then Some Joined else None)
  /\ (0 < hw ->
      exists g, main_run (PG := program3) hw es = Ok g
      /\ (forall x i, g_home g !! x = Some i -> i = x mod hw)
      /\ g_end g = if decide (PSignal ∈ es) then Some (waits_for (_ioServices (g_pool g)))
                   else None)
  /\ main_run (PG := program3) 0 es = UB.
Proof.
  split; [|split; [|done]].
  - destruct (main_ok_run (PG := program4) hw es program4_stays) as (g & Hr & [_ Hh _ _ He] & Hs);
      [cbn; lia|].
    exists g. split; [done|]. split; [exact Hh|].
    case_decide as Hin; [|destruct (g_end g); [|done]; by destruct Hin; apply Hs].
    apply Hs in Hin as [r Hg]. rewrite Hg in *. by rewrite He.
  - intros Hpos.
    destruct (main_ok_run (PG := program3) hw es program3_stays) as (g & Hr & [_ Hh _ _ He] & Hs);
      [done|].
    exists g. split; [done|]. split; [exact Hh|].
    case_decide as Hin; [|destruct (g_end g); [|done]; by destruct Hin; apply Hs].
    apply Hs in Hin as [r Hg]. rewrite Hg in *. by destruct He as (_ & -> & _).
Qed.

(** A client that stays connected keeps the program of [3] from ending. *)
Lemma pool_programs_stop_witness :
  let es := [PAccept false "a"; PSignal] in
  (exists g, main_run (PG := program3) 2 es = Ok g /\ g_end g = Some (BlockedOn 0))
  /\ (exists g, main_run (PG := program3) 2 (es ++ [PCompleted 0]) = Ok g
      /\ g_end g = Some Joined).
Proof.
  intros es. split.
  - destruct (pool_programs_stop 2 es) as (_ & H & _). destruct H as (g & Hr & _ & He); [lia|].
    exists g. split; [exact Hr|]. rewrite He. vm_compute in Hr. injection Hr as <-. reflexivity.
  - destruct (pool_programs_stop 2 (es ++ [PCompleted 0])) as (_ & H & _).
    destruct H as (g & Hr & _ & He); [lia|].
    exists g. split; [exact Hr|]. rewrite He. vm_compute in Hr. injection Hr as <-. reflexivity.
Defined.
