(* ===== verification/Logic.v ===== *)
(** * The logic system of the two pool servers

    [LogicSystem] of [3. AsyncServerIOservicepool/src/logicsystem.cpp] (the file
    of [4. CoroutineAsyncServer] is the same): its queue, the thread [DealMsg],
    the callers of [PostMsgToQue] and the destructor as interleaved steps.  What
    is done with a message is in [Callback]. *)

From S2P Require Import Prelude CBase Frame MsgNode SendQueue PoolServer.

Section Threads.
Context {T : Type}.
Implicit Types (m : T) (i : nat).

(** Control points of [DealMsg]; those between [DTest] and [DPop], [DDrainTest] and
    [DBreak] hold the mutex. *)
Inductive dpc :=
| DLock                (* unique_lk(_mutex) *)
| DTest                (* while (_msg_que.empty() && !_b_stop) *)
| DBlock               (* the test held: _consume.wait *)
| DWaiting             (* inside wait, the mutex released *)
| DWoken               (* woken, about to take the mutex again *)
| DBranch              (* if (_b_stop) *)
| DDrainTest           (* while (!_msg_que.empty()) *)
| DDrainUnlock (m : T)
| DDrainHandle (m : T)
| DDrainLock
| DBreak               (* break: unique_lk is destroyed *)
| DUnlock (m : T)
| DHandle (m : T)
| DExited.

(** [PostMsgToQue], and the destructor. *)
Inductive ppc := PIdle | PLock (m : T) | PPush (m : T) | PNotify | PUnlock.
Inductive xpc := XStop | XNotify | XJoin | XDone.

Inductive tid := Dealer | Poster (i : nat).

Record logic := MkLogic {
  _msg_que : list T;
  _mutex : option tid;
  _b_stop : bool;
  dealer : dpc;
  posters : list ppc;
  destructor : option xpc;
  l_posted : list T;
  l_handled : list T
}.
Implicit Types s : logic.

Definition set_que q s := MkLogic q (_mutex s) (_b_stop s) (dealer s) (posters s)
  (destructor s) (l_posted s) (l_handled s).
Definition set_mutex o s := MkLogic (_msg_que s) o (_b_stop s) (dealer s) (posters s)
  (destructor s) (l_posted s) (l_handled s).
Definition set_stop b s := MkLogic (_msg_que s) (_mutex s) b (dealer s) (posters s)
  (destructor s) (l_posted s) (l_handled s).
Definition set_dealer pc s := MkLogic (_msg_que s) (_mutex s) (_b_stop s) pc (posters s)
  (destructor s) (l_posted s) (l_handled s).
Definition set_poster i pc s := MkLogic (_msg_que s) (_mutex s) (_b_stop s) (dealer s)
  (<[i := pc]> (posters s)) (destructor s) (l_posted s) (l_handled s).
Definition set_destructor x s := MkLogic (_msg_que s) (_mutex s) (_b_stop s) (dealer s)
  (posters s) x (l_posted s) (l_handled s).
Definition log_posted m s := MkLogic (_msg_que s) (_mutex s) (_b_stop s) (dealer s)
  (posters s) (destructor s) (l_posted s ++ [m]) (l_handled s).
Definition log_handled m s := MkLogic (_msg_que s) (_mutex s) (_b_stop s) (dealer s)
  (posters s) (destructor s) (l_posted s) (l_handled s ++ [m]).

Definition lock (t : tid) s : option logic :=
  match _mutex s with None => Some (set_mutex (Some t) s) | Some _ => None end.
Definition unlock s : logic := set_mutex None s.

(** [_consume.notify_one()]: only [DealMsg] ever waits. *)
Definition notify_one s : logic :=
  match dealer s with DWaiting => set_dealer DWoken s | _ => s end.

(** [front] and [pop]; the queue is not empty where they are called
    ([logic_pop]). *)
Definition deal_pop (k : T -> dpc) s : option logic :=
  match _msg_que s with
  | [] => None
  | m :: q => Some (set_dealer (k m) (set_que q s))
  end.

(** ** [DealMsg]: its next step, [None] when it is blocked or over.  The callback
    runs in [DHandle] and [DDrainHandle], its exceptions caught there. *)
Definition deal_step s : option logic :=
  match dealer s with
  | DLock => set_dealer DTest <$> lock Dealer s
  | DTest =>
      Some (set_dealer
        (if decide (_msg_que s = [] /\ _b_stop s = false) then DBlock else DBranch) s)
  | DBlock => Some (set_dealer DWaiting (unlock s))
  | DWaiting => None
  | DWoken => set_dealer DTest <$> lock Dealer s
  | DBranch => if _b_stop s then Some (set_dealer DDrainTest s) else deal_pop DUnlock s
  | DDrainTest =>
      match _msg_que s with
      | [] => Some (set_dealer DBreak s)
      | _ :: _ => deal_pop DDrainUnlock s
      end
  | DDrainUnlock m => Some (set_dealer (DDrainHandle m) (unlock s))
  | DDrainHandle m => Some (set_dealer DDrainLock (log_handled m s))
  | DDrainLock => set_dealer DDrainTest <$> lock Dealer s
  | DBreak => Some (set_dealer DExited (unlock s))
  | DUnlock m => Some (set_dealer (DHandle m) (unlock s))
  | DHandle m => Some (set_dealer DLock (log_handled m s))
  | DExited => None
  end.

(** ** [PostMsgToQue] *)
Definition post_call i m s : option logic :=
  pc ← posters s !! i;
  match pc with PIdle => Some (set_poster i (PLock m) s) | _ => None end.

Definition post_step i s : option logic :=
  pc ← posters s !! i;
  match pc with
  | PIdle => None
  | PLock m => set_poster i (PPush m) <$> lock (Poster i) s
  | PPush m => Some (set_poster i PNotify (log_posted m (set_que (_msg_que s ++ [m]) s)))
  | PNotify =>
      Some (set_poster i PUnlock
        (if decide (length (_msg_que s) = 1) then notify_one s else s))
  | PUnlock => Some (set_poster i PIdle (unlock s))
  end.

(** ** [~LogicSystem] *)
Definition destroy_step s : option logic :=
  x ← destructor s;
  match x with
  | XStop => Some (set_destructor (Some XNotify) (set_stop true s))
  | XNotify => Some (set_destructor (Some XJoin) (notify_one s))
  | XJoin => match dealer s with DExited => Some (set_destructor (Some XDone) s) | _ => None end
  | XDone => None
  end.

(** A condition variable may also wake without a notification. *)
Definition spurious s : option logic :=
  match dealer s with DWaiting => Some (set_dealer DWoken s) | _ => None end.

Inductive step s : logic -> Prop :=
| step_deal s' : deal_step s = Some s' -> step s s'
| step_post i s' : post_step i s = Some s' -> step s s'
| step_post_call i m s' : post_call i m s = Some s' -> step s s'
| step_destroy s' : destroy_step s = Some s' -> step s s'
| step_destroy_call : destructor s = None -> step s (set_destructor (Some XStop) s)
| step_spurious s' : spurious s = Some s' -> step s s'.

(** The constructor's object, with its thread and [k] callers. *)
Definition start (k : nat) : logic :=
  MkLogic [] None false DLock (replicate k PIdle) None [] [].

Definition reachable (k : nat) : logic -> Prop := rtc step (start k).

(** ** The invariant *)
Definition deal_crit (pc : dpc) : bool :=
  match pc with
  | DTest | DBlock | DBranch | DDrainTest | DDrainUnlock _ | DBreak | DUnlock _ => true
  | _ => false
  end.
Definition post_crit (pc : ppc) : bool :=
  match pc with PPush _ | PNotify | PUnlock => true | _ => false end.

(** The message [DealMsg] has popped and not handled yet. *)
Definition in_hand (pc : dpc) : list T :=
  match pc with DDrainUnlock m | DDrainHandle m | DUnlock m | DHandle m => [m] | _ => [] end.

(** [DealMsg] has seen [_b_stop]. *)
Definition stopping (pc : dpc) : bool :=
  match pc with
  | DDrainTest | DDrainUnlock _ | DDrainHandle _ | DDrainLock | DBreak | DExited => true
  | _ => false
  end.

(** What [DealMsg] knows of the queue at its control points. *)
Definition deal_knows s : Prop :=
  match dealer s with
  | DBlock | DBreak => _msg_que s = []
  | DWaiting => _msg_que s = []
      \/ (length (_msg_que s) = 1 /\ exists i, posters s !! i = Some PNotify)
  | DBranch => _b_stop s = false -> _msg_que s <> []
  | _ => True
  end.

Record inv s : Prop := {
  i_deal : deal_crit (dealer s) = true <-> _mutex s = Some Dealer;
  i_post : forall i pc, posters s !! i = Some pc ->
    (post_crit pc = true <-> _mutex s = Some (Poster i));
  i_lock : forall i, _mutex s = Some (Poster i) -> is_Some (posters s !! i);
  i_knows : deal_knows s;
  i_stop : stopping (dealer s) = true -> _b_stop s = true;
  i_fifo : l_posted s = l_handled s ++ in_hand (dealer s) ++ _msg_que s
}.

Lemma logic_inv_start k : inv (start k).
Proof.
  assert (forall i pc, replicate k PIdle !! i = Some pc -> pc = PIdle) as Hp
    by (intros i pc [? _]%lookup_replicate; done).
  split; cbn; try done.
  intros i pc H. rewrite (Hp _ _ H). by split.
Qed.

(** The invariant after a move of [DealMsg] to [pc'] that handles [hs]. *)
Lemma logic_inv_dealer pc' hs s s' :
  inv s -> dealer s' = pc' -> posters s' = posters s -> _b_stop s' = _b_stop s ->
  lock_move Dealer (deal_crit (dealer s)) (deal_crit pc') (_mutex s) (_mutex s') ->
  deal_knows s' -> (stopping pc' = true -> _b_stop s = true) ->
  l_posted s' = l_posted s -> l_handled s' = l_handled s ++ hs ->
  in_hand (dealer s) ++ _msg_que s = hs ++ in_hand pc' ++ _msg_que s' ->
  inv s'.
Proof.
  intros [Hd Hp Hl Hk Hs Hf] Ed Ep Est Hlock Hknows Hstop Epo Eha Eq.
  split; rewrite ?Ed, ?Ep, ?Est; try done.
  - by eapply lock_move_self.
  - intros i pc Hi. by eapply lock_move_other; [exact Hlock | | apply Hp].
  - intros i Hi. apply Hl. destruct Hlock as [[_ H]|[(_ & H & _)|(_ & H & _)]]; congruence.
  - by rewrite Epo, Eha, Hf, Eq, <- app_assoc.
Qed.

(** The same for a move of caller [i] that pushes [qs]. *)
Lemma logic_inv_poster i pc pc' qs s s' :
  inv s -> posters s !! i = Some pc -> posters s' = <[i := pc']> (posters s) ->
  dealer s' = dealer s -> _b_stop s' = _b_stop s ->
  lock_move (Poster i) (post_crit pc) (post_crit pc') (_mutex s) (_mutex s') ->
  deal_knows s' ->
  l_posted s' = l_posted s ++ qs -> l_handled s' = l_handled s ->
  _msg_que s' = _msg_que s ++ qs ->
  inv s'.
Proof.
  intros [Hd Hp Hl Hk Hs Hf] Hi Ep Ed Est Hlock Hknows Epo Eha Eq.
  split; rewrite ?Ed, ?Ep, ?Est; try done.
  - by eapply lock_move_other.
  - intros j pcj Hj. moved Hj; [by eapply lock_move_self; [|apply Hp]|].
    eapply lock_move_other; [exact Hlock | congruence | by apply Hp].
  - intros j Hj. rewrite list_lookup_insert_is_Some.
    destruct Hlock as [[_ H]|[(_ & H & _)|(_ & H & _)]]; rewrite H in Hj;
      [by apply Hl | injection Hj as <-; by eexists | done].
  - by rewrite Epo, Eha, Eq, Hf, <- !app_assoc.
Qed.

(** What [DealMsg] knows survives a move of a caller that neither pushes nor is about
    to notify. *)
Lemma knows_poster i pc pc' s s' :
  deal_knows s -> posters s !! i = Some pc -> pc <> PNotify ->
  posters s' = <[i := pc']> (posters s) -> dealer s' = dealer s ->
  _b_stop s' = _b_stop s -> _msg_que s' = _msg_que s -> deal_knows s'.
Proof.
  unfold deal_knows. intros Hk Hi Hne Ep Ed Est Eq. rewrite Ed, Eq, Est, Ep.
  destruct (dealer s); try done. destruct Hk as [Hk|(Hl & j & Hj)]; [by left|]. right.
  split; [done|]. exists j. rewrite list_lookup_insert_ne; [done|]. congruence.
Qed.

Lemma logic_inv_notify s : inv s -> inv (notify_one s).
Proof.
  intros Hs. unfold notify_one. destruct (dealer s) eqn:Ed; try done.
  apply (logic_inv_dealer DWoken [] s); rewrite ?Ed, ?app_nil_r; try done. by left.
Qed.

Ltac logic_simpl := cbn [_msg_que _mutex _b_stop dealer posters destructor l_posted
  l_handled set_que set_mutex set_stop set_dealer set_poster set_destructor log_posted
  log_handled unlock] in *.

Lemma lock_free t s s' : lock t s = Some s' -> _mutex s = None /\ s' = set_mutex (Some t) s.
Proof. unfold lock. destruct (_mutex s); [done|]. by intros [= <-]. Qed.

Lemma logic_inv_deal s s' : inv s -> deal_step s = Some s' -> inv s'.
Proof.
  intros Hs H. pose proof (proj1 (i_deal s Hs)) as Hcrit. pose proof (i_knows s Hs) as Hk.
  pose proof (i_stop s Hs) as Hst. unfold deal_knows in Hk. unfold deal_step in H.
  destruct (dealer s) eqn:Ed; cbn in Hcrit, Hst; try discriminate H.
  - apply fmap_Some in H as (s1 & [Hm ->]%lock_free & ->).
    apply (logic_inv_dealer DTest [] s); rewrite ?Ed, ?app_nil_r; try done. right. by left.
  - injection H as <-. case_decide as Hc.
    + apply (logic_inv_dealer DBlock [] s); rewrite ?Ed, ?app_nil_r; try done; [by left|].
      exact (proj1 Hc).
    + apply (logic_inv_dealer DBranch [] s); rewrite ?Ed, ?app_nil_r; try done; [by left|].
      intros Hb Hq. by destruct Hc.
  - injection H as <-. apply (logic_inv_dealer DWaiting [] s); rewrite ?Ed, ?app_nil_r; try done.
    + right. right. by rewrite Hcrit.
    + by left.
  - apply fmap_Some in H as (s1 & [Hm ->]%lock_free & ->).
    apply (logic_inv_dealer DTest [] s); rewrite ?Ed, ?app_nil_r; try done. right. by left.
  - destruct (_b_stop s) eqn:Eb.
    + injection H as <-. apply (logic_inv_dealer DDrainTest [] s); rewrite ?Ed, ?app_nil_r; try done.
      by left.
    + unfold deal_pop in H. destruct (_msg_que s) as [|m q] eqn:Eq; [done|]. injection H as <-.
      apply (logic_inv_dealer (DUnlock m) [] s); rewrite ?Ed, ?Eq, ?app_nil_r; try done. by left.
  - destruct (_msg_que s) as [|m q] eqn:Eq.
    + injection H as <-. apply (logic_inv_dealer DBreak [] s); rewrite ?Ed, ?Eq, ?app_nil_r; try done.
      by left.
    + unfold deal_pop in H. rewrite Eq in H. injection H as <-.
      apply (logic_inv_dealer (DDrainUnlock m) [] s); rewrite ?Ed, ?Eq, ?app_nil_r; try done.
      by left.
  - injection H as <-. apply (logic_inv_dealer (DDrainHandle m) [] s);
      rewrite ?Ed, ?app_nil_r; try done. right. right. by rewrite Hcrit.
  - injection H as <-. apply (logic_inv_dealer DDrainLock [m] s); rewrite ?Ed; try done. by left.
  - apply fmap_Some in H as (s1 & [Hm ->]%lock_free & ->).
    apply (logic_inv_dealer DDrainTest [] s); rewrite ?Ed, ?app_nil_r; try done. right. by left.
  - injection H as <-. apply (logic_inv_dealer DExited [] s); rewrite ?Ed, ?app_nil_r; try done.
    right. right. by rewrite Hcrit.
  - injection H as <-. apply (logic_inv_dealer (DHandle m) [] s);
      rewrite ?Ed, ?app_nil_r; try done. right. right. by rewrite Hcrit.
  - injection H as <-. apply (logic_inv_dealer DLock [m] s); rewrite ?Ed; try done. by left.
Qed.

Lemma logic_inv_post_step i s s' : inv s -> post_step i s = Some s' -> inv s'.
Proof.
  intros Hs H. unfold post_step in H. destruct (posters s !! i) as [pc|] eqn:Hi; [|done].
  cbn [mbind option_bind] in H. pose proof (proj1 (i_post s Hs i pc Hi)) as Hcrit.
  pose proof (i_knows s Hs) as Hk. destruct pc; cbn in Hcrit; try discriminate H.
  - apply fmap_Some in H as (s1 & [Hm ->]%lock_free & ->).
    apply (logic_inv_poster i (PLock m) (PPush m) [] s); rewrite ?app_nil_r; try done.
    + right. by left.
    + by apply (knows_poster i (PLock m) (PPush m) s).
  - injection H as <-. specialize (Hcrit eq_refl).
    apply (logic_inv_poster i (PPush m) PNotify [m] s); try done; [by left|].
    assert (deal_crit (dealer s) = false) as Hd.
    { destruct (deal_crit (dealer s)) eqn:E; [|done].
      apply (i_deal s Hs) in E. congruence. }
    unfold deal_knows in *. logic_simpl. destruct (dealer s); try done.
    assert (posters s !! i <> Some PNotify) as Hne by congruence. right.
    destruct Hk as [Hq|(_ & j & Hj)].
    + rewrite Hq. split; [done|]. exists i. apply list_lookup_insert_eq.
      by eapply lookup_lt_Some.
    + pose proof (proj1 (i_post s Hs j _ Hj) eq_refl). congruence.
  - injection H as <-. specialize (Hcrit eq_refl). case_decide as Hl.
    + assert (inv (notify_one s)) as Hn by by apply logic_inv_notify.
      assert (posters (notify_one s) = posters s /\ _mutex (notify_one s) = _mutex s)
        as [E1 E2] by (unfold notify_one; destruct (dealer s); by split).
      apply (logic_inv_poster i PNotify PUnlock [] (notify_one s)); rewrite ?app_nil_r, ?E1; try done.
      * cbn [set_poster posters]. by rewrite E1.
      * by left.
      * unfold deal_knows, notify_one. logic_simpl.
        unfold deal_knows in Hk. destruct (dealer s) eqn:Ed; logic_simpl; rewrite ?Ed; done.
    + apply (logic_inv_poster i PNotify PUnlock [] s); rewrite ?app_nil_r; try done; [by left|].
      unfold deal_knows in *. logic_simpl. destruct (dealer s); try done.
      left. destruct Hk as [|[? _]]; done.
  - injection H as <-. apply (logic_inv_poster i PUnlock PIdle [] s); rewrite ?app_nil_r; try done.
    + right. right. by rewrite Hcrit.
    + by apply (knows_poster i PUnlock PIdle s).
Qed.

Lemma logic_inv_step s s' : inv s -> step s s' -> inv s'.
Proof.
  intros Hs [s1 H|i s1 H|i m s1 H|s1 H|H|s1 H].
  - by eapply logic_inv_deal.
  - by eapply logic_inv_post_step.
  - unfold post_call in H. destruct (posters s !! i) as [[]|] eqn:Hi; simplify_eq/=.
    apply (logic_inv_poster i PIdle (PLock m) [] s); rewrite ?app_nil_r; try done; [by left|].
    apply (knows_poster i PIdle (PLock m) s); try done. by apply i_knows.
  - unfold destroy_step in H. destruct (destructor s) as [[]|]; simplify_eq/=.
    + destruct Hs as [Hd Hp Hl Hk Hst Hf]. split; try done. unfold deal_knows in *.
      logic_simpl. by destruct (dealer s).
    + destruct (logic_inv_notify s Hs). by split.
    + destruct (dealer s); simplify_eq. by destruct Hs.
  - by destruct Hs.
  - unfold spurious in H. destruct (dealer s) eqn:Ed; simplify_eq.
    apply (logic_inv_dealer DWoken [] s); rewrite ?Ed, ?app_nil_r; try done. by left.
Qed.

Lemma logic_inv_reachable k s : reachable k s -> inv s.
Proof.
  intros H. assert (inv (start k)) as H0 by apply logic_inv_start.
  revert H0. induction H as [|s1 s2 s3 H1 H2 IH]; [done|].
  intros H0. apply IH. by eapply logic_inv_step.
Qed.
(** A given interleaving. *)
Inductive event := EDeal | EPost (i : nat) | ECall (i : nat) (m : T) | EExit | EDestroy.

Definition do_event (e : event) s : option logic :=
  match e with
  | EDeal => deal_step s
  | EPost i => post_step i s
  | ECall i m => post_call i m s
  | EExit => match destructor s with None => Some (set_destructor (Some XStop) s) | _ => None end
  | EDestroy => destroy_step s
  end.

Fixpoint schedule (es : list event) s : option logic :=
  match es with [] => Some s | e :: es => s' ← do_event e s; schedule es s' end.

Lemma logic_schedule_steps es s s' : schedule es s = Some s' -> rtc step s s'.
Proof.
  revert s. induction es as [|e es IH]; intros s; simpl; [intros [= <-]; constructor|].
  intros H. destruct (do_event e s) as [s1|] eqn:E; [|done].
  eapply rtc_l; [|by apply IH]. destruct e; simplify_eq/=; try (by econstructor).
  destruct (destructor s) eqn:Ed; simplify_eq. by apply step_destroy_call.
Qed.
(** [front] and [pop] always find a message. *)
Lemma logic_pop s : inv s -> dealer s = DBranch -> _b_stop s = false -> _msg_que s <> [].
Proof. intros Hs Hd. pose proof (i_knows s Hs) as Hk. unfold deal_knows in Hk. by rewrite Hd in Hk. Qed.

Lemma poster_moves i s :
  inv s -> _mutex s = Some (Poster i) -> is_Some (post_step i s).
Proof.
  intros Hs Hm. destruct (i_lock s Hs i Hm) as [pc Hi].
  apply (i_post s Hs i pc Hi) in Hm. unfold post_step. rewrite Hi.
  destruct pc; try done; by eexists.
Qed.

(** Outside the critical section, the mutex is free or a caller has it. *)
Lemma dealer_lock s :
  inv s -> deal_crit (dealer s) = false ->
  is_Some (lock Dealer s) \/ exists i, is_Some (post_step i s).
Proof.
  intros Hs Hd. unfold lock. destruct (_mutex s) as [[|i]|] eqn:Em; [| |left; by eexists].
  - apply (i_deal s Hs) in Em. congruence.
  - right. exists i. by apply poster_moves.
Qed.

(** ** The queue as its users see it

    Without threads and locks: a message is posted, taken, and handled. *)
Record queue := MkQueue { q_waiting : list T; q_hand : list T; q_handled : list T }.

Inductive queue_step : queue -> queue -> Prop :=
| queue_post m q h d : queue_step (MkQueue q h d) (MkQueue (q ++ [m]) h d)
| queue_pop m q d : queue_step (MkQueue (m :: q) [] d) (MkQueue q [m] d)
| queue_handle m q d : queue_step (MkQueue q [m] d) (MkQueue q [] (d ++ [m])).

Definition queue_of s : queue := MkQueue (_msg_que s) (in_hand (dealer s)) (l_handled s).

Lemma queue_of_notify s : queue_of (notify_one s) = queue_of s.
Proof. unfold notify_one. destruct (dealer s) eqn:Ed; try done. unfold queue_of. by rewrite Ed. Qed.

Lemma queue_of_deal s s' :
  deal_step s = Some s' -> queue_of s' = queue_of s \/ queue_step (queue_of s) (queue_of s').
Proof.
  unfold deal_step, deal_pop, queue_of. intros H.
  destruct (dealer s) eqn:Ed; try discriminate H;
    try (apply fmap_Some in H as (s1 & [Hm ->]%lock_free & ->); by left).
  - injection H as <-. left. by destruct (decide _).
  - injection H as <-. by left.
  - destruct (_b_stop s); [injection H as <-; by left|].
    destruct (_msg_que s) as [|m q]; [done|]. injection H as <-. right. apply queue_pop.
  - destruct (_msg_que s) as [|m q] eqn:Eq; injection H as <-.
    + left. logic_simpl. by rewrite Eq.
    + right. apply queue_pop.
  - injection H as <-. by left.
  - injection H as <-. right. apply queue_handle.
  - injection H as <-. by left.
  - injection H as <-. by left.
  - injection H as <-. right. apply queue_handle.
Qed.

Lemma queue_of_post i s s' :
  post_step i s = Some s' -> queue_of s' = queue_of s \/ queue_step (queue_of s) (queue_of s').
Proof.
  unfold post_step. destruct (posters s !! i) as [pc|]; [|done]. cbn [mbind option_bind].
  intros H. destruct pc; try discriminate H.
  - apply fmap_Some in H as (s1 & [Hm ->]%lock_free & ->). by left.
  - injection H as <-. right. apply queue_post.
  - injection H as <-. left. case_decide; [|done]. exact (queue_of_notify s).
  - injection H as <-. by left.
Qed.

Lemma queue_of_step s s' :
  step s s' -> queue_of s' = queue_of s \/ queue_step (queue_of s) (queue_of s').
Proof.
  intros [s1 H|i s1 H|i m s1 H|s1 H|H|s1 H].
  - by apply queue_of_deal.
  - by eapply queue_of_post.
  - left. unfold post_call in H. destruct (posters s !! i) as [[]|]; simplify_eq/=; done.
  - left. unfold destroy_step in H. destruct (destructor s) as [[]|]; simplify_eq/=; [done| |].
    + exact (queue_of_notify s).
    + destruct (dealer s); by simplify_eq.
  - by left.
  - left. unfold spurious in H. unfold queue_of. destruct (dealer s) eqn:Ed; by simplify_eq.
Qed.


(** C18: messages are handled in the order they were posted, none lost and none
    twice, whatever the interleaving; and when [DealMsg] leaves its loop it has
    handled everything posted until then. *)
Theorem logic_fifo k s :
  reachable k s ->
  l_posted s = l_handled s ++ in_hand (dealer s) ++ _msg_que s
  /\ (dealer s = DBreak -> l_handled s = l_posted s).
Proof.
  intros Hs%logic_inv_reachable. split; [by apply i_fifo|]. intros Hd.
  pose proof (i_knows s Hs) as Hk. unfold deal_knows in Hk. rewrite Hd in Hk.
  by rewrite (i_fifo s Hs), Hd, Hk, app_nil_r.
Qed.

(** C27: no wake-up for a message is ever lost: while a message waits and [DealMsg]
    has not ended, [DealMsg] or a caller inside [PostMsgToQue] can move, without
    any spurious wake-up. *)
Theorem logic_progress k s :
  reachable k s -> _msg_que s <> [] -> dealer s <> DExited ->
  is_Some (deal_step s) \/ exists i, is_Some (post_step i s).
Proof.
  intros Hs%logic_inv_reachable Hq Hx. pose proof (i_knows s Hs) as Hk.
  unfold deal_knows in Hk. unfold deal_step. destruct (dealer s) eqn:Ed;
    try done; try (left; eexists; reflexivity);
    try (destruct (dealer_lock s Hs) as [[s1 ->]|?];
         [by rewrite Ed | left; by eexists | by right]).
  - right. destruct Hk as [?|(_ & i & Hi)]; [done|]. exists i. unfold post_step.
    rewrite Hi. by eexists.
  - unfold deal_pop. destruct (_b_stop s), (_msg_que s); try done; left; by eexists.
  - unfold deal_pop. destruct (_msg_que s); [done|]. left. by eexists.
Qed.

(** C34: the destructor sets [_b_stop] without the mutex: between the test of
    [DealMsg] and its [wait] both the flag and the notification are missed, and
    then [join] and [wait] block each other (only a spurious wake-up helps). *)
Theorem stop_lost k :
  exists s, reachable k s
  /\ _b_stop s = true /\ dealer s = DWaiting /\ destructor s = Some XJoin
  /\ deal_step s = None /\ destroy_step s = None /\ forall i, post_step i s = None.
Proof.
  exists (MkLogic [] None true DWaiting (replicate k PIdle) (Some XJoin) [] []).
  split; [|split_and!; try done].
  - apply (logic_schedule_steps [EDeal; EDeal; EExit; EDestroy; EDestroy; EDeal]). reflexivity.
  - intros i. unfold post_step. cbn [posters].
    destruct (replicate k PIdle !! i) as [pc|] eqn:E; [|done].
    by apply lookup_replicate in E as [-> _].
Qed.

End Threads.

(** A message posted while [DealMsg] waits, up to its handling. *)
Definition sample_schedule : list (@event nat) :=
  [EDeal; EDeal; EDeal; ECall 0 7; EPost 0; EPost 0; EPost 0; EPost 0;
   EDeal; EDeal; EDeal; EDeal; EDeal].

Lemma logic_fifo_witness :
  exists s, schedule sample_schedule (start 1) = Some s /\ l_handled s = [7]
  /\ l_posted s = l_handled s ++ in_hand (dealer s) ++ _msg_que s.
Proof.
  destruct (schedule sample_schedule (start 1)) as [s|] eqn:E; [|vm_compute in E; discriminate].
  destruct (logic_fifo 1 s) as [H _]; [exact (logic_schedule_steps _ _ _ E)|].
  exists s. split; [reflexivity|]. vm_compute in E. injection E as <-.
  split; [reflexivity | exact H].
Defined.


Lemma logic_progress_witness :
  exists s : @logic nat, schedule (take 7 sample_schedule) (start 1) = Some s
  /\ dealer s = DWoken
  /\ (is_Some (deal_step s) \/ exists i, is_Some (post_step i s)).
Proof.
  destruct (schedule (take 7 sample_schedule) (start 1)) as [s|] eqn:E;
    [|vm_compute in E; discriminate].
  assert (reachable 1 s) as Hr by exact (logic_schedule_steps _ _ _ E).
  exists s. split; [reflexivity|]. vm_compute in E. injection E as <-.
  split; [reflexivity|]. apply (logic_progress 1); [exact Hr | discriminate | discriminate].
Defined.
