(* ===== verification/Callback.v ===== *)
(** * What the logic system does with a message

    [LogicSystem::HelloWordCallBack], [RegisterCallBacks] and the body of
    [DealMsg] of [3. AsyncServerIOservicepool/src/logicsystem.cpp], with the JSON
    library as an interface, and the way of a request through a session. *)

From S2P Require Import Prelude CBase Frame MsgNode SendQueue PoolServer.

(** What the servers and their client use of [Json::Value] and [Json::Reader].
    [None] is an exception.  [js_member] is [root[k]] on a value that is not
    const: it also answers the value it was applied to, in which a member that
    was missing is now there and null. *)
Class Json (V : Type) := {
  js_null : V;
  js_int : Z -> V;
  js_string : list char -> V;
  js_parse : list char -> option V;
  js_member : String.string -> V -> option (V * V);
  js_assign : String.string -> V -> V -> option V;
  js_asInt : V -> option Z;
  js_asString : V -> option (list char);
  js_toStyledString : V -> list char
}.

Definition MSG_HELLO_WORLD : Z := 1001.

Section Callback.
Context {V : Type} `{!Json V}.
Implicit Types (root v : V) (msg_data : list char) (s : Session).

(** The message and the id the callback sends; [None] when it throws before
    [Send]. *)
Definition hello_reply (msg_id : Z) msg_data : option (list char * Z) :=
  match js_parse msg_data with
  | None =>
      err_root ← js_assign "id" (js_int msg_id) js_null;
      err_root ← js_assign "data" (js_string (lit "invalid json payload")) err_root;
      Some (js_toStyledString err_root, msg_id)
  | Some root =>
      (* the trace prints the two members *)
      '(v, root) ← js_member "id" root;
      _ ← js_asInt v;
      '(v, root) ← js_member "data" root;
      _ ← js_asString v;
      '(v, root) ← js_member "data" root;
      data ← js_asString v;
      root ← js_assign "data"
        (js_string (lit "server has received msg, msg data is " ++ data)) root;
      let return_str := js_toStyledString root in
      '(v, root) ← js_member "id" root;
      id ← js_asInt v;
      Some (return_str, id)
  end.

(** [None] when the callback throws, [Send] included. *)
Definition HelloWordCallBack s (msg_id : Z) msg_data : res (option (Session * list op)) :=
  match hello_reply msg_id msg_data with
  | None => Ok None
  | Some (msg, id) => Send msg id s
  end.

(** [_fun_callbacks.find(msg_id)] *)
Definition find_callback (msg_id : Z)
    : option (Session -> Z -> list char -> res (option (Session * list op))) :=
  if decide (msg_id = MSG_HELLO_WORLD) then Some HelloWordCallBack else None.

(** [std::string(_data, _cur_len)]; a negative length throws. *)
Definition node_string (n : MsgNode) : res (option (list char)) :=
  if decide (_cur_len n < 0)%Z then Ok None
  else let* d := read_bytes (_cur_len n) (_data n) in Ok (Some d).

(** What [DealMsg] does with a message it popped; an exception is logged. *)
Definition deal_msg (m : Pool.RecvNode) s : res (Session * list op) :=
  match find_callback (Pool.GetMsgId m) with
  | None => Ok (s, [])
  | Some call =>
      let* o := node_string (Pool.recv_node m) in
      match o with
      | None => Ok (s, [])
      | Some d =>
          let* o := call s (Pool.GetMsgId m) d in
          match o with Some r => Ok r | None => Ok (s, []) end
      end
  end.

(** The messages of one session, in the order the queue gives them. *)
Fixpoint deal_all (ms : list Pool.RecvNode) s : res (Session * list op) :=
  match ms with
  | [] => Ok (s, [])
  | m :: ms =>
      let* '(s, ops) := deal_msg m s in
      let* '(s, ops') := deal_all ms s in
      Ok (s, ops ++ ops')
  end.

(** ** The way of a request *)

(** The node of a posted operation. *)
Definition post_node (o : op) : option Pool.RecvNode :=
  match o with PostMsgToQue m => Some m | _ => None end.

Lemma posted_node o id d :
  posted o = Some (id, d) ->
  exists m, o = PostMsgToQue m /\ Pool.GetMsgId m = id
    /\ d = take (Z.to_nat (_cur_len (Pool.recv_node m))) (_data (Pool.recv_node m)).
Proof. destruct o; simpl; try done. intros [= <- <-]. by eexists. Qed.

Lemma deal_msg_run m id d s :
  node_full m -> posted (PostMsgToQue m) = Some (id, d) ->
  deal_msg m s
  = if decide (id = MSG_HELLO_WORLD) then
      let* o := HelloWordCallBack s id d in
      match o with Some r => Ok r | None => Ok (s, []) end
    else Ok (s, []).
Proof.
  intros Hf [= <- <-]. unfold node_full in Hf. unfold deal_msg, find_callback.
  case_decide as E; [|done]. unfold node_string. rewrite decide_False by lia.
  rewrite read_bytes_ok by lia. reflexivity.
Qed.

(** The replies a list of messages calls for. *)
Definition replies (msgs : list (Z * list char)) : list (list char * Z) :=
  omap (fun '(id, d) => if decide (id = MSG_HELLO_WORLD) then hello_reply id d else None) msgs.

(** What the send queue holds, on the wire. *)
Definition queued s : list (list char) := node_bytes <$> _send_que s.

Definition reply_frame (r : list char * Z) : list char := frame r.2 r.1.

(** The write that is started when [frames] join the queue. *)
Definition first_write s (frames : list (list char)) : list op :=
  match _send_que s, frames with [], f :: _ => [AsyncWrite f] | _, _ => [] end.

Lemma Send_queued msg id s :
  (Z.of_nat (length msg) <= 32763)%Z -> length (_send_que s) <= 1000 ->
  exists s' , Send msg id s = Ok (Some (s', first_write s [frame id msg]))
    /\ queued s' = queued s ++ [frame id msg].
Proof.
  intros Hl Hq. destruct (Send_run msg id s Hl) as (n & -> & Hn). rewrite frame_short in Hn.
  unfold enqueue, que_full. rewrite bool_decide_false by (unfold MAX_SENDQUE; lia).
  unfold push_send, first_write, queued. cbn [_send_que PoolServer.set_que].
  exists (set_que (_send_que s ++ [n]) s).
  split; [|cbn [_send_que set_que]; by rewrite fmap_app, <- Hn].
  destruct (_send_que s) as [|m0 ms]; [by rewrite <- Hn|].
  by rewrite decide_True by (cbn [length]; lia).
Qed.

Lemma deal_all_run ms msgs s :
  Forall node_full ms -> posted <$> (PostMsgToQue <$> ms) = Some <$> msgs ->
  Forall (fun r : list char * Z => (Z.of_nat (length r.1) <= 32763)%Z) (replies msgs) ->
  length (_send_que s) + length (replies msgs) <= 1001 ->
  exists s', deal_all ms s = Ok (s', first_write s (reply_frame <$> replies msgs))
    /\ queued s' = queued s ++ (reply_frame <$> replies msgs).
Proof.
  revert msgs s. induction ms as [|m ms IH]; intros [|[id d] msgs] s Hf Hp Hl Hq;
    try discriminate Hp.
  - exists s. split; [|by rewrite app_nil_r]. unfold first_write. simpl. by destruct (_send_que s).
  - cbn [fmap list_fmap] in Hp.
    pose proof (f_equal (hd None) Hp) as Hm. apply (f_equal tail) in Hp. cbn [hd tail] in *.
    apply Forall_cons in Hf as [Hm_full Hf]. cbn [deal_all].
    rewrite (deal_msg_run m id d s Hm_full Hm).
    unfold replies in *. cbn [omap list_omap] in *.
    destruct (decide (id = MSG_HELLO_WORLD)); cbn [res_bind].
    + unfold HelloWordCallBack. destruct (hello_reply id d) as [[r i]|] eqn:Er; cbn [res_bind].
      * apply Forall_cons in Hl as [Hr Hl]. cbn [length] in Hq.
        destruct (Send_queued r i s Hr) as (s1 & Hs & Hq1); [lia|]. rewrite Hs.
        cbn [res_bind].
        assert (length (_send_que s1) = S (length (_send_que s))) as Hlen.
        { pose proof (f_equal length Hq1) as H. unfold queued in H.
          rewrite length_app, !length_fmap in H. simpl in H. lia. }
        destruct (IH msgs s1 Hf Hp Hl) as (s' & -> & Hq'); [lia|]. cbn [res_bind].
        exists s'. rewrite Hq', Hq1, <- app_assoc. split; [|done].
        unfold first_write. destruct (_send_que s1) eqn:E1; [simpl in Hlen; lia|].
        by destruct (_send_que s).
      * destruct (IH msgs s Hf Hp Hl Hq) as (s' & -> & Hq'). by exists s'.
    + destruct (IH msgs s Hf Hp Hl Hq) as (s' & -> & Hq'). by exists s'.
Qed.

Lemma posted_nodes ops :
  Forall post_full ops ->
  Forall node_full (omap post_node ops)
  /\ posted <$> (PostMsgToQue <$> omap post_node ops) = Some <$> omap posted ops.
Proof.
  induction 1 as [|o ops Ho _ [IH1 IH2]]; [done|].
  destruct o; cbn [omap list_omap post_node]; try (split; [exact IH1 | exact IH2]).
  split; [by apply Forall_cons|]. cbn. f_equal. exact IH2.
Qed.

(** What [requests_answered] states, for its users. *)
Lemma requests_run stream s s' ops s2 :
  head_ok (_recv_head_node s) ->
  receive (2 * length stream + 2) (AsyncReadHead 4) stream s = Ok (s', ops) ->
  let rs := replies (cut stream).1 in
  Forall (fun r : list char * Z => (Z.of_nat (length r.1) <= 32763)%Z) rs ->
  length (_send_que s2) + length rs <= 1001 ->
  exists s3, deal_all (omap post_node ops) s2 = Ok (s3, first_write s2 (reply_frame <$> rs))
    /\ queued s3 = queued s2 ++ (reply_frame <$> rs).
Proof.
  intros Hh Hr rs Hl Hq.
  destruct (receive_run (length stream) (2 * length stream + 2) stream s)
    as (s1 & ops1 & Hr1 & Ho & _ & _ & Hf); [done | lia | done |].
  rewrite Hr in Hr1. injection Hr1 as <- <-.
  destruct (posted_nodes ops Hf) as [Hn Hp]. rewrite Ho in Hp.
  by apply (deal_all_run _ (cut stream).1).
Qed.

(** The whole way of the requests of a client: whatever bytes a session
    receives, the logic system, given the nodes it posted in order, answers
    exactly the messages with the id 1001 among those the frame format finds in
    the stream, in order: the frames of the replies join the send queue, and
    the first one is written at once when the queue was empty. *)
Theorem requests_answered stream s s' ops s2 :
  head_ok (_recv_head_node s) ->
  receive (2 * length stream + 2) (AsyncReadHead 4) stream s = Ok (s', ops) ->
  let rs := replies (cut stream).1 in
  Forall (fun r : list char * Z => (Z.of_nat (length r.1) <= 32763)%Z) rs ->
  length (_send_que s2) + length rs <= 1001 ->
  exists s3, deal_all (omap post_node ops) s2 = Ok (s3, first_write s2 (reply_frame <$> rs))
    /\ queued s3 = queued s2 ++ (reply_frame <$> rs).
Proof. by apply requests_run. Qed.
End Callback.

(** ** A small JSON, for the examples

    Objects whose members are the id and the data; the text of a value is its
    data, a text is read as the data of an object with the id 1001, and a member
    that is missing is null. *)
Inductive toy := ToyNull | ToyInt (z : Z) | ToyString (l : list char)
| ToyObject (id data : toy).

Definition toy_member (k : String.string) (v : toy) : option (toy * toy) :=
  match v with
  | ToyObject i d =>
      Some (if String.eqb k "id" then i else d, v)
  | _ => None
  end.

#[export] Instance toy_json : Json toy := {|
  js_null := ToyNull;
  js_int := ToyInt;
  js_string := ToyString;
  js_parse l :=
    match l with [] => None | _ => Some (ToyObject (ToyInt 1001) (ToyString l)) end;
  js_member := toy_member;
  js_assign k x v :=
    match v with
    | ToyObject i d => Some (if String.eqb k "id" then ToyObject x d else ToyObject i x)
    | ToyNull => Some (if String.eqb k "id" then ToyObject x ToyNull else ToyObject ToyNull x)
    | _ => None
    end;
  js_asInt v := match v with ToyInt z => Some z | ToyNull => Some 0%Z | _ => None end;
  js_asString v := match v with ToyString l => Some l | ToyNull => Some [] | _ => None end;
  js_toStyledString v := match v with ToyObject _ (ToyString l) => l | _ => lit "null" end
|}.

Lemma requests_answered_witness :
  exists s s' ops s3, Session_new = Ok s /\
  receive 20 (AsyncReadHead 4) (frame 1001 (lit "hi") ++ []) s = Ok (s', ops) /\
  deal_all (omap post_node ops) s
  = Ok (s3, [AsyncWrite (frame 1001 (lit "server has received msg, msg data is hi"))]).
Proof.
  destruct Session_new_run as (s & Hn & _ & Hq & Hh).
  destruct (receive 14 (AsyncReadHead 4) (frame 1001 (lit "hi")) s) as [[s' ops]| |] eqn:E;
    [|vm_compute in Hn; injection Hn as <-; vm_compute in E; discriminate..].
  destruct (requests_answered (frame 1001 (lit "hi")) s s' ops s) as (s3 & H3 & _).
  - exact Hh.
  - exact E.
  - vm_compute. repeat constructor; discriminate.
  - rewrite Hq. vm_compute. repeat constructor.
  - exists s, s', ops, s3. split; [exact Hn|]. vm_compute in Hn. injection Hn as <-.
    vm_compute in E. injection E as <- <-. split; [vm_compute; reflexivity|].
    rewrite H3. vm_compute. reflexivity.
Defined.
