(* ===== verification/JsonClient.v ===== *)
(** * The JSON client: [3. AsyncServerIOservicepool/src/JsonClient.cpp]

    ([4. CoroutineAsyncServer] has the same file.)  One turn of its loop, given
    the line read and the bytes the server sends from then on; the connection
    itself and the writes are taken to work. *)

From S2P Require Import Prelude CBase Frame MsgNode SendQueue PoolServer Callback.

Definition MAX_LENGTH : Z := 1024 * 2.
Definition HEAD_LENGTH : nat := 2.
Definition HEAD_TOTAL : nat := 4.
Definition msgid : Z := 1001.

Section Client.
Context {V : Type} `{!Json V}.
Implicit Types (stream user_input request : list char).

(** What a turn writes to the socket and prints. *)
Inductive output :=
| OWrite (d : list char)
| OTooLong
| OBadLength (n : Z)
| OBadJson
| OReply (id : Z) (data : V).

Inductive turn := Continue | Break | Threw.

Definition make_request user_input : option (list char) :=
  req_root ← js_assign "id" (js_int msgid) js_null;
  req_root ← js_assign "data" (js_string user_input) req_root;
  Some (js_toStyledString req_root).

(** The frame, built in [char send_data[MAX_LENGTH]]. *)
Definition make_frame request : res (list char) :=
  let request_length := length request in
  let* send_data := put 0 (store16 (host_to_network_short msgid))
    (replicate (Z.to_nat MAX_LENGTH) NUL) in
  let* send_data := put HEAD_LENGTH
    (store16 (host_to_network_short (to_uint16 (Z.of_nat request_length)))) send_data in
  let* send_data := put HEAD_TOTAL request send_data in
  Ok (take (request_length + HEAD_TOTAL) send_data).

(** The reply; a read that meets the end of the stream throws. *)
Definition read_reply stream : res (turn * list output * list char) :=
  if decide (length stream < HEAD_TOTAL) then Ok (Threw, [], [])
  else
    let reply_head := take HEAD_TOTAL stream in
    let* resp_msgid := load16 reply_head in
    let* msglen := load16 (drop HEAD_LENGTH reply_head) in
    let resp_msgid := network_to_host_short resp_msgid in
    let msglen := network_to_host_short msglen in
    let stream := drop HEAD_TOTAL stream in
    if decide (msglen = 0 \/ msglen > MAX_LENGTH)%Z
    then Ok (Break, [OBadLength msglen], stream)
    else
      let n := Z.to_nat msglen in
      if decide (length stream < n) then Ok (Threw, [], [])
      else
        let msg := take n stream in
        let stream := drop n stream in
        match js_parse msg with
        | None => Ok (Continue, [OBadJson], stream)
        | Some resp_root =>
            match js_member "data" resp_root with
            | None => Ok (Threw, [], stream)
            | Some (data, _) => Ok (Continue, [OReply resp_msgid data], stream)
            end
        end.

Definition client_turn user_input stream : res (turn * list output * list char) :=
  if decide (user_input = lit "quit") then Ok (Break, [], stream)
  else if decide (user_input = []) then Ok (Continue, [], stream)
  else
    match make_request user_input with
    | None => Ok (Threw, [], stream)
    | Some request =>
        if decide (MAX_LENGTH - Z.of_nat HEAD_TOTAL < Z.of_nat (length request))%Z
        then Ok (Continue, [OTooLong], stream)
        else
          let* d := make_frame request in
          let* '(t, out, stream) := read_reply stream in
          Ok (t, OWrite d :: out, stream)
    end.

(** The loop, until the input ends, a turn leaves it or throws. *)
Fixpoint client_loop (inputs : list (list char)) stream : res (list output) :=
  match inputs with
  | [] => Ok []
  | user_input :: inputs =>
      let* '(t, out, stream) := client_turn user_input stream in
      match t with
      | Continue => let* out' := client_loop inputs stream in Ok (out ++ out')
      | Break | Threw => Ok out
      end
  end.

(** ** The client and the server's frames *)

Lemma make_frame_run request :
  (Z.of_nat (length request) <= 2044)%Z -> make_frame request = Ok (frame msgid request).
Proof.
  intros Hl. unfold make_frame, HEAD_LENGTH, HEAD_TOTAL.
  change (store16 (host_to_network_short msgid)) with (be16 (to_uint16 msgid)).
  rewrite store_uint16. set (h1 := be16 _). set (h2 := be16 _).
  assert (length h1 = 2) as H1 by done. assert (length h2 = 2) as H2 by done.
  set (buf := replicate _ NUL).
  assert (length buf = Z.to_nat 2048) as Hb by (unfold buf; by rewrite length_replicate).
  rewrite put_ok by lia. cbn [res_bind].
  rewrite put_ok by (rewrite length_blit; lia). cbn [res_bind].
  rewrite put_ok by (rewrite !length_blit by (rewrite ?length_blit; lia); lia). cbn [res_bind].
  change (blit 4 request (blit 2 h2 (blit 0 h1 buf)))
    with (blit (length h1 + length h2) request (blit (length h1) h2 (blit 0 h1 buf))).
  rewrite blit_chain by lia. f_equal. unfold frame. fold h1 h2.
  rewrite !app_assoc, take_app_length'; [done|]. rewrite !length_app. lia.
Qed.

(** The two halves of a head in network order. *)
Lemma load_head i l rest :
  (0 <= i < 65536)%Z -> (0 <= l < 65536)%Z ->
  exists x y, load16 (take 4 (be16 i ++ be16 l ++ rest)) = Ok x
    /\ load16 (drop 2 (take 4 (be16 i ++ be16 l ++ rest))) = Ok y
    /\ network_to_host_short x = i /\ network_to_host_short y = l.
Proof.
  intros Hi Hl.
  change (take 4 (be16 i ++ be16 l ++ rest)) with (be16 i ++ be16 l).
  change (drop 2 (be16 i ++ be16 l)) with (be16 l).
  pose proof (load_network i (be16 l) Hi) as H1. pose proof (load_network l [] Hl) as H2.
  rewrite app_nil_r in H2.
  destruct (load16 (be16 i ++ be16 l)) as [x| |]; try discriminate H1. injection H1 as H1.
  destruct (load16 (be16 l)) as [y| |]; try discriminate H2. injection H2 as H2.
  by exists x, y.
Qed.
Lemma read_reply_frame id body rest :
  (Z.of_nat (length body) < 65536)%Z ->
  read_reply (frame id body ++ rest)
  = if decide (body = [] \/ (Z.of_nat (length body) > MAX_LENGTH)%Z)
    then Ok (Break, [OBadLength (Z.of_nat (length body))], body ++ rest)
    else match js_parse body with
         | None => Ok (Continue, [OBadJson], rest)
         | Some v =>
             match js_member "data" v with
             | None => Ok (Threw, [], rest)
             | Some (data, _) => Ok (Continue, [OReply (to_uint16 id) data], rest)
             end
         end.
Proof.
  intros Hb. unfold read_reply, HEAD_TOTAL, HEAD_LENGTH. unfold frame.
  rewrite <- !app_assoc.
  destruct (load_head (to_uint16 id) (to_uint16 (Z.of_nat (length body))) (body ++ rest))
    as (x & y & Hx & Hy & Ex & Ey); [apply to_uint16_range..|].
  rewrite decide_False by (rewrite !length_app, !be16_length; lia).
  rewrite Hx, Hy. cbn [res_bind]. rewrite Ex, Ey. rewrite to_uint16_id by lia.
  change (drop 4 (be16 ?i ++ be16 ?l ++ body ++ rest)) with (body ++ rest).
  unfold MAX_LENGTH.
  destruct (decide (body = [] \/ _)) as [H|H].
  { rewrite decide_True by (destruct H as [->|H]; [by left | by right]). done. }
  rewrite decide_False by (intros [E|E]; apply H;
    [left; apply nil_length_inv; lia | by right]).
  rewrite Nat2Z.id. rewrite decide_False by (rewrite length_app; lia).
  by rewrite take_app_length, drop_app_length.
Qed.

(** The outcome of a turn whose reply is the frame [(id, reply)]. *)
Definition reply_outcome (id : Z) (reply : list char) : turn * list output :=
  if decide (reply = [] \/ (Z.of_nat (length reply) > MAX_LENGTH)%Z)
  then (Break, [OBadLength (Z.of_nat (length reply))])
  else match js_parse reply with
       | None => (Continue, [OBadJson])
       | Some v =>
           match js_member "data" v with
           | None => (Threw, [])
           | Some (data, _) => (Continue, [OReply (to_uint16 id) data])
           end
       end.

Lemma client_turn_run user_input request id reply :
  user_input <> [] -> user_input <> lit "quit" ->
  make_request user_input = Some request -> (Z.of_nat (length request) <= 2044)%Z ->
  (Z.of_nat (length reply) < 65536)%Z ->
  exists rest, client_turn user_input (frame id reply)
    = Ok ((reply_outcome id reply).1,
          OWrite (frame msgid request) :: (reply_outcome id reply).2, rest).
Proof.
  intros Hne Hq Hr Hl Hreply. unfold client_turn.
  rewrite decide_False by done. rewrite decide_False by done. rewrite Hr.
  rewrite decide_False by (unfold MAX_LENGTH, HEAD_TOTAL; lia).
  rewrite make_frame_run by done. cbn [res_bind].
  pose proof (read_reply_frame id reply [] Hreply) as H. rewrite !app_nil_r in H. rewrite H.
  unfold reply_outcome. case_decide; [by eexists|].
  destruct (js_parse reply) as [v|]; [|by eexists].
  destruct (js_member "data" v) as [[]|]; by eexists.
Qed.

(** One exchange, from the line typed to the line printed: the frame the client
    writes is one message of id 1001 for the server's session, the logic system
    answers it by writing the frame of the callback's reply, and the client
    prints the data of that reply; a reply of more than 2048 bytes, which the
    server does send, makes the client give up. *)
Theorem exchange user_input request reply id s s2 :
  user_input <> [] -> user_input <> lit "quit" ->
  make_request user_input = Some request ->
  (0 < Z.of_nat (length request) <= 2044)%Z ->
  hello_reply msgid request = Some (reply, id) ->
  (Z.of_nat (length reply) <= 32763)%Z ->
  head_ok (_recv_head_node s) -> _send_que s2 = [] ->
  exists s' ops s3 rest,
    receive (2 * length (frame msgid request) + 2) (AsyncReadHead 4) (frame msgid request) s
    = Ok (s', ops)
    /\ deal_all (omap post_node ops) s2 = Ok (s3, [AsyncWrite (frame id reply)])
    /\ client_turn user_input (frame id reply)
       = Ok ((reply_outcome id reply).1,
             OWrite (frame msgid request) :: (reply_outcome id reply).2, rest).
Proof.
  intros Hne Hq Hr Hl Hh Hreply Hs Hs2.
  destruct (receive_run (length (frame msgid request)) (2 * length (frame msgid request) + 2)
    (frame msgid request) s) as (s' & ops & Hrec & _); [done | lia | done |].
  assert (replies (cut (frame msgid request)).1 = [(reply, id)]) as Hcut.
  { pose proof (cut_encode_one (F := pool_format) msgid request []) as H.
    rewrite app_nil_r in H. change (ff_encode (H := Z)) with frame in H.
    rewrite H by (split; unfold msgid, PoolServer.MAX_LENGTH; lia).
    rewrite cut_short by (simpl; lia). unfold replies. cbn [fst omap list_omap].
    rewrite decide_True by done. by rewrite Hh. }
  destruct (requests_run (frame msgid request) s s' ops s2 Hs Hrec) as (s3 & Hd & _).
  - rewrite Hcut. by repeat constructor.
  - rewrite Hcut, Hs2. simpl. lia.
  - destruct (client_turn_run user_input request id reply) as (rest & Hc); [done..|lia|lia|].
    exists s', ops, s3, rest. rewrite Hd, Hcut. unfold first_write. rewrite Hs2. done.
Qed.

(** The client never writes outside its buffer, whatever is typed and whatever
    the server sends: every turn ends. *)
Theorem client_turn_safe user_input stream :
  exists r, client_turn user_input stream = Ok r.
Proof.
  unfold client_turn. case_decide; [by eexists|]. case_decide; [by eexists|].
  destruct (make_request user_input) as [request|]; [|by eexists].
  case_decide as Hl; [by eexists|]. unfold MAX_LENGTH, HEAD_TOTAL in Hl.
  rewrite make_frame_run by lia. cbn [res_bind].
  assert (exists r, read_reply stream = Ok r) as ([[t o] st] & ->); [|by eexists].
  unfold read_reply, HEAD_TOTAL, HEAD_LENGTH. case_decide as Hs; [by eexists|].
  destruct stream as [|a [|b [|c [|d l]]]]; simpl in Hs; try lia. cbn [take drop load16 res_bind].
  case_decide; [by eexists|]. case_decide; [by eexists|].
  destruct (js_parse _) as [v|]; [|by eexists]. destruct (js_member _ v) as [[]|]; by eexists.
Qed.
End Client.

Lemma exchange_witness :
  exists s s' ops s3 rest, Session_new = Ok s /\
    receive 14 (AsyncReadHead 4) (frame msgid (lit "hi")) s = Ok (s', ops)
    /\ deal_all (omap post_node ops) s
       = Ok (s3, [AsyncWrite (frame 1001 (lit "server has received msg, msg data is hi"))])
    /\ client_turn (lit "hi") (frame 1001 (lit "server has received msg, msg data is hi"))
       = Ok (Continue, [OWrite (frame msgid (lit "hi"));
               OReply 1001 (ToyString (lit "server has received msg, msg data is hi"))], rest).
Proof.
  destruct Session_new_run as (s & Hn & _ & Hq & Hh).
  destruct (exchange (lit "hi") (lit "hi") (lit "server has received msg, msg data is hi") 1001
    s s) as (s' & ops & s3 & rest & H1 & H2 & H3).
  - discriminate.
  - discriminate.
  - reflexivity.
  - split; [reflexivity | vm_compute; discriminate].
  - reflexivity.
  - vm_compute. discriminate.
  - exact Hh.
  - exact Hq.
  - exists s, s', ops, s3, rest. split; [exact Hn|]. split; [exact H1|].
    split; [exact H2 | exact H3].
Defined.
