(* ===== verification/EchoServer.v ===== *)
(** * The asynchronous echo server: [2. AsyncServer]

    [Session] and [Server] of [inc/AsyncServer.h] and [src/AsyncServer.cpp]: a
    frame is a 2-byte length and a body, and every body is sent back.  The
    server runs on one thread, so a handler is one step. *)

From S2P Require Import Prelude CBase Frame MsgNode SendQueue IOPool.

Definition MAX_SENDQUEUE_SIZE : nat := 1000.
Definition max_length : Z := 1024 * 2.

(** What a handler starts or calls; [_server->ClearSession(_uuid)] only drops the
    server's reference to the session. *)
Inductive op :=
| AsyncReadHead
| AsyncReadBody (n : nat)
| AsyncWrite (d : list char)
| ClearSession
| SocketShutdown
| SocketClose.

Record Session := MkSession {
  _socket_open : bool;
  _send_que : list MsgNode;
  _recv_msg_node : option MsgNode;
  _recv_head_node : MsgNode
}.

Definition set_que (q : list MsgNode) (s : Session) : Session :=
  MkSession (_socket_open s) q (_recv_msg_node s) (_recv_head_node s).
Definition set_msg (n : option MsgNode) (s : Session) : Session :=
  MkSession (_socket_open s) (_send_que s) n (_recv_head_node s).
Definition set_head (n : MsgNode) (s : Session) : Session :=
  MkSession (_socket_open s) (_send_que s) (_recv_msg_node s) n.

Section Echo.
(** The bytes [new char[n]] returns. *)
Context (mem : nat -> list char) (mem_length : forall n, length (mem n) = n).

(** ** Sending *)

Definition que_full (s : Session) : bool :=
  bool_decide (MAX_SENDQUEUE_SIZE < length (_send_que s)).

(** The push and what follows it. *)
Definition push_send (n : MsgNode) (s : Session) : Session * option MsgNode :=
  let pending := bool_decide (0 < length (_send_que s)) in
  let s := set_que (_send_que s ++ [n]) s in
  (s, if pending then None else head (_send_que s)).

Definition enqueue (n : MsgNode) (s : Session) : Session * option MsgNode :=
  if que_full s then (s, None) else push_send n s.

Definition write_op (o : option MsgNode) : list op :=
  match o with Some n => [AsyncWrite (node_bytes n)] | None => [] end.

(** [None]: the allocation throws. *)
Definition Send (msg : list char) (max_length : Z) (s : Session)
    : res (option (Session * list op)) :=
  if que_full s then Ok (Some (s, []))
  else
    let junk := mem (Z.to_nat (max_length + Echo.HEAD_SIZE + 1)) in
    let* o := Echo.MsgNode_send junk msg max_length in
    Ok ((fun n => let '(s, w) := push_send n s in (s, write_op w)) <$> o).

Definition handle_write_done (s : Session) : Session * option MsgNode :=
  let s := set_que (tail (_send_que s)) s in (s, head (_send_que s)).

(** Popping an empty queue is undefined. *)
Definition handle_write (error : option asio_error) (s : Session)
    : res (Session * list op) :=
  match error with
  | None =>
      if decide (_send_que s = []) then UB
      else let '(s, w) := handle_write_done s in Ok (s, write_op w)
  | Some _ => Ok (s, [ClearSession])
  end.

(** ** Receiving *)

Definition Session_new : res Session :=
  let* o := Echo.MsgNode_recv Echo.HEAD_SIZE in
  let* n := of_option o in
  Ok (MkSession true [] None n).

Definition Start (s : Session) : res (Session * list op) :=
  let* n := Clear (_recv_head_node s) in
  Ok (set_head n s, [AsyncReadHead]).

Definition Close (s : Session) : Session * list op :=
  let s := set_que [] s in
  if _socket_open s
  then (MkSession false (_send_que s) (_recv_msg_node s) (_recv_head_node s),
        [SocketShutdown; SocketClose])
  else (s, []).

Definition handle_read_head (error : option asio_error) (bytes_transfered : nat)
    (s : Session) : res (Session * list op) :=
  match error with
  | None =>
      if decide (Z.of_nat bytes_transfered <> Echo.HEAD_SIZE)%Z then Ok (s, [ClearSession])
      else
        let* data_len_net := load16 (_data (_recv_head_node s)) in
        let data_len := network_to_host_short data_len_net in
        if decide (data_len <= 0 \/ data_len > max_length)%Z then Ok (s, [ClearSession])
        else
          let* o := Echo.MsgNode_recv data_len in
          let* n := of_option o in
          Ok (set_msg (Some n) s, [AsyncReadBody (Z.to_nat data_len)])
  | Some _ => Ok (s, [ClearSession])
  end.

(** [None]: [Send] throws out of the handler. *)
Definition handle_read_body (error : option asio_error) (bytes_transfered : nat)
    (s : Session) : res (option (Session * list op)) :=
  match error with
  | None =>
      let* n := of_option (_recv_msg_node s) in
      if decide (Z.of_nat bytes_transfered <> _total_len n)%Z
      then Ok (Some (s, [ClearSession]))
      else
        let n := MkNode (_total_len n) (to_int (Z.of_nat bytes_transfered)) (_data n) in
        let* n := copy_in (Z.to_nat (_total_len n)) [NUL] n in
        let s := set_msg (Some n) s in
        let* o := Send (_data n) (_total_len n) s in
        match o with
        | None => Ok None
        | Some (s, ops) =>
            let* h := Clear (_recv_head_node s) in
            Ok (Some (set_head h s, ops ++ [AsyncReadHead]))
        end
  | Some _ => Ok (Some (s, [ClearSession]))
  end.
End Echo.

(** ** The frame format *)
Definition parse_head (hd : list char) : option (unit * nat) :=
  match load16 hd with
  | Ok len_net =>
      let len := network_to_host_short len_net in
      if decide (0 < len <= max_length)%Z then Some (tt, Z.to_nat len) else None
  | _ => None
  end.

#[refine, export] Instance echo_format : FrameFormat unit := {|
  ff_head := 2;
  ff_parse := parse_head;
  ff_encode _ := echo_frame;
  ff_valid _ body := (0 < Z.of_nat (length body) <= max_length)%Z;
  ff_head_pos := _;
  ff_encode_parse := _
|}.
Proof.
  - lia.
  - unfold max_length. intros [] body Hv. exists (be16 (to_uint16 (Z.of_nat (length body)))).
    split; [done|]. split; [done|]. unfold parse_head, max_length.
    pose proof (load_network (Z.of_nat (length body)) [] ltac:(lia)) as H.
    rewrite app_nil_r in H. rewrite to_uint16_id by lia.
    destruct (load16 _) as [x| |]; try discriminate H. injection H as H. rewrite H.
    rewrite decide_True by lia. by rewrite Nat2Z.id.
Defined.

(** ** The send queue *)
#[refine, export] Instance echo_queue : SendQueue MsgNode Session := {|
  sq_queue := _send_que;
  sq_full := que_full;
  sq_send := enqueue;
  sq_done := handle_write_done;
  sq_send_full := _;
  sq_send_room := _;
  sq_done_next := _
|}.
Proof.
  - intros m q H. unfold enqueue. by rewrite H.
  - intros m q H. unfold enqueue. rewrite H. unfold push_send. cbn [fst snd _send_que set_que].
    split; [done|]. destruct (_send_que q) as [|m0 ms]; [done|].
    by rewrite bool_decide_true by (cbn [length]; lia).
  - intros m ms q H. unfold handle_write_done. rewrite H. by split.
Defined.

(** ** A connection

    The session, what it waits for, the bytes the peer has sent and the session
    has not read, and the bytes written so far.  [async_write] while a write is in
    progress is outside asio's contract. *)
Record conn := MkConn {
  c_session : Session;
  c_read : option op;
  c_writing : option (list char);
  c_stream : list char;
  c_written : list (list char);
  c_cleared : bool
}.

Section Connection.
Context (mem : nat -> list char) (mem_length : forall n, length (mem n) = n).
Implicit Types (c : conn) (stream body : list char).

Definition effect (o : op) (c : conn) : res conn :=
  match o with
  | AsyncReadHead | AsyncReadBody _ =>
      Ok (MkConn (c_session c) (Some o) (c_writing c) (c_stream c) (c_written c) (c_cleared c))
  | AsyncWrite d =>
      match c_writing c with
      | Some _ => UB
      | None =>
          Ok (MkConn (c_session c) (c_read c) (Some d) (c_stream c) (c_written c) (c_cleared c))
      end
  | ClearSession =>
      Ok (MkConn (c_session c) (c_read c) (c_writing c) (c_stream c) (c_written c) true)
  | SocketShutdown | SocketClose => Ok c
  end.

Fixpoint effects (ops : list op) (c : conn) : res conn :=
  match ops with
  | [] => Ok c
  | o :: ops => let* c := effect o c in effects ops c
  end.

(** The read in progress completes; an exception leaves the handler and the
    server's [run]. *)
Definition read_done (c : conn) : res (option conn) :=
  match c_read c with
  | Some AsyncReadHead =>
      let '(err, d, stream) := async_read 2 (c_stream c) in
      let* h := copy_in 0 d (_recv_head_node (c_session c)) in
      let* '(s, ops) := handle_read_head err (length d) (set_head h (c_session c)) in
      let* c := effects ops (MkConn s None (c_writing c) stream (c_written c) (c_cleared c)) in
      Ok (Some c)
  | Some (AsyncReadBody n) =>
      let '(err, d, stream) := async_read n (c_stream c) in
      let* m := of_option (_recv_msg_node (c_session c)) in
      let* m := copy_in 0 d m in
      let* o := handle_read_body mem err (length d) (set_msg (Some m) (c_session c)) in
      match o with
      | None => Ok None
      | Some (s, ops) =>
          let* c := effects ops (MkConn s None (c_writing c) stream (c_written c) (c_cleared c)) in
          Ok (Some c)
      end
  | _ => Ok (Some c)
  end.

(** The write in progress completes, or fails. *)
Definition write_done (error : option asio_error) (c : conn) : res (option conn) :=
  match c_writing c with
  | None => Ok (Some c)
  | Some d =>
      let written := match error with None => c_written c ++ [d] | Some _ => c_written c end in
      let* '(s, ops) := handle_write error (c_session c) in
      let* c := effects ops (MkConn s (c_read c) None (c_stream c) written (c_cleared c)) in
      Ok (Some c)
  end.

Inductive event := ERead | EWritten | EWriteFailed (e : asio_error).

Definition do_event (e : event) (c : conn) : res (option conn) :=
  match e with
  | ERead => read_done c
  | EWritten => write_done None c
  | EWriteFailed e => write_done (Some e) c
  end.

Fixpoint conn_run (es : list event) (c : conn) : res (option conn) :=
  match es with
  | [] => Ok (Some c)
  | e :: es =>
      let* o := do_event e c in
      match o with Some c => conn_run es c | None => Ok None end
  end.

(** A new session whose peer sends [stream] and then ends. *)
Definition conn_start (stream : list char) : res conn :=
  let* s := Session_new in
  let* '(s, ops) := Start s in
  effects ops (MkConn s None None stream [] false).

(** ** The invariant *)

Definition head_ok (n : MsgNode) : Prop := _total_len n = 2%Z /\ length (_data n) = 3.

(** The bodies in a stream. *)
Definition bodies stream : list (list char) := snd <$> (cut (F := echo_format) stream).1.

(** The bodies the session has still to receive. *)
Definition to_come c : list (list char) :=
  match c_read c with
  | Some AsyncReadHead => bodies (c_stream c)
  | Some (AsyncReadBody n) =>
      if decide (length (c_stream c) < n) then []
      else take n (c_stream c) :: bodies (drop n (c_stream c))
  | _ => []
  end.

Definition read_ok c : Prop :=
  match c_read c with
  | Some AsyncReadHead => True
  | Some (AsyncReadBody n) =>
      _recv_msg_node (c_session c) = Some (MkNode (Z.of_nat n) 0 (replicate (S n) NUL))
      /\ 0 < n <= Z.to_nat max_length
  | None => c_cleared c = true
  | _ => False
  end.

Definition frames_out c : list (list char) :=
  c_written c ++ (node_bytes <$> _send_que (c_session c)).

(** [received] are the bodies received so far, [failed] whether a write failed. *)
Record conn_ok (failed : bool) (stream : list char) (received : list (list char)) c : Prop := {
  k_head : head_ok (_recv_head_node (c_session c));
  k_read : read_ok c;
  k_bodies : bodies stream = received ++ to_come c;
  k_writing : writing_ok node_bytes failed (c_writing c) (_send_que (c_session c));
  k_out : out_ok node_bytes echo_frame (S MAX_SENDQUEUE_SIZE) received (c_written c)
    (_send_que (c_session c))
}.

Lemma echo_clear_run n : head_ok n -> exists n', Clear n = Ok n' /\ head_ok n'.
Proof.
  intros [Ht Hl]. unfold Clear. rewrite Ht.
  rewrite copy_in_ok by (rewrite length_replicate, Hl; simpl; lia). cbn [res_bind].
  eexists. split; [done|]. split; [done|]. unfold MsgNode.set_data. cbn [_data _total_len].
  by rewrite length_blit by lia.
Qed.

Lemma conn_start_ok stream : exists c, conn_start stream = Ok c /\ conn_ok false stream [] c
  /\ c_written c = [] /\ c_cleared c = false /\ c_read c = Some AsyncReadHead
  /\ c_stream c = stream.
Proof.
  eexists. split; [reflexivity|]. split; [|done]. split; cbn; try done.
  exists []. by split.
Qed.

(** [Send] of a body of a received message. *)
Lemma echo_send_run body rest s :
  (0 < Z.of_nat (length body) <= max_length)%Z ->
  exists n, Send mem (body ++ rest) (Z.of_nat (length body)) s
    = Ok (Some (let '(s', w) := enqueue n s in (s', write_op w)))
    /\ node_bytes n = echo_frame body.
Proof.
  unfold max_length. intros Hl.
  destruct (Echo_MsgNode_send_run (mem (Z.to_nat (Z.of_nat (length body) + Echo.HEAD_SIZE + 1)))
    body rest) as (n & Hn & _ & _ & Hb).
  { unfold INT_MAX. lia. }
  { rewrite mem_length. unfold Echo.HEAD_SIZE. lia. }
  exists n. split; [|done]. unfold Send, enqueue. destruct (que_full s); [done|].
  rewrite Hn. done.
Qed.
(** The reads that are left, at most. *)
Definition read_work c : nat :=
  match c_read c with
  | Some AsyncReadHead => 2 * length (c_stream c) + 2
  | Some (AsyncReadBody _) => 2 * length (c_stream c) + 1
  | _ => 0
  end.

(** ** The bodies of a stream *)

Lemma bodies_short stream : length stream < 2 -> bodies stream = [].
Proof. intros H. unfold bodies. by rewrite (cut_short (F := echo_format)) by exact H. Qed.

Lemma bodies_rejected stream :
  2 <= length stream -> parse_head (take 2 stream) = None -> bodies stream = [].
Proof. intros H Hp. unfold bodies. by rewrite (cut_rejected (F := echo_format)) by done. Qed.

Lemma bodies_frame stream n :
  2 <= length stream -> parse_head (take 2 stream) = Some (tt, n) ->
  bodies stream = if decide (length (drop 2 stream) < n) then []
                  else take n (drop 2 stream) :: bodies (drop n (drop 2 stream)).
Proof.
  intros H Hp. unfold bodies. rewrite length_drop. case_decide as Hn.
  - rewrite (cut_short_body (F := echo_format) stream tt n); [done|exact H|exact Hp|].
    change ff_head with 2. lia.
  - rewrite (cut_frame (F := echo_format) stream tt n Hp) by (change ff_head with 2; lia).
    change ff_head with 2. rewrite drop_drop. by destruct (cut _).
Qed.

Lemma parse_head_length hd n : parse_head hd = Some (tt, n) -> 0 < n <= Z.to_nat max_length.
Proof.
  unfold parse_head, max_length. destruct (load16 hd) as [x| |]; [|done..].
  case_decide; [|done]. intros [= <-]. lia.
Qed.

(** ** The events *)

(** A whole head in the head node. *)
Lemma handle_read_head_run hd s :
  length hd = 2 -> head_ok (_recv_head_node s) ->
  let s' := set_head (MsgNode.set_data (blit 0 hd (_data (_recv_head_node s)))
                        (_recv_head_node s)) s in
  handle_read_head None 2 s'
  = Ok (match parse_head hd with
        | Some (_, n) =>
            (set_msg (Some (MkNode (Z.of_nat n) 0 (replicate (S n) NUL))) s', [AsyncReadBody n])
        | None => (s', [ClearSession])
        end).
Proof.
  intros Hd [Ht Hl] s'. unfold handle_read_head, Echo.HEAD_SIZE.
  rewrite decide_False by lia. cbn [_data _recv_head_node set_head MsgNode.set_data s'].
  unfold parse_head. destruct hd as [|x [|y [|]]]; simpl in Hd; try lia.
  rewrite blit_in_range by (simpl; lia). rewrite take_0, app_nil_l. cbn [app load16 res_bind].
  set (len := network_to_host_short _). unfold max_length.
  destruct (decide (len <= 0 \/ len > 1024 * 2)%Z) as [H|H].
  { by rewrite decide_False by lia. }
  rewrite decide_True by lia. unfold Echo.MsgNode_recv, int_add, INT_MIN, INT_MAX.
  rewrite decide_True by lia. cbn [res_bind]. rewrite decide_False by lia. cbn [res_bind of_option].
  rewrite Z2Nat.id by lia. by replace (Z.to_nat (len + 1)) with (S (Z.to_nat len)) by lia.
Qed.

(** The session is over for its reads. *)
Lemma conn_ok_ended f stream received c s d :
  conn_ok f stream received c -> to_come c = [] ->
  _send_que s = _send_que (c_session c) -> head_ok (_recv_head_node s) ->
  conn_ok f stream received (MkConn s None (c_writing c) d (c_written c) true).
Proof.
  intros [Hh Hr Hb Hw Ho] He Hq Hs. split; cbn; try done.
  - by rewrite Hb, He.
  - by rewrite Hq.
  - unfold frames_out in *. cbn. by rewrite Hq.
Qed.

Lemma read_head_ok f stream received c :
  conn_ok f stream received c -> c_read c = Some AsyncReadHead ->
  exists c', read_done c = Ok (Some c') /\ conn_ok f stream received c'
    /\ c_written c' = c_written c /\ read_work c' < read_work c.
Proof.
  intros Hok Hc. pose proof Hok as [Hh Hr Hb Hw Ho]. unfold read_done. rewrite Hc.
  pose proof Hh as [Ht Hl]. unfold async_read.
  assert (to_come c = bodies (c_stream c)) as Htc by (unfold to_come; by rewrite Hc).
  destruct (decide (length (c_stream c) < 2)) as [Hs|Hs].
  - rewrite copy_in_ok by lia. cbn. eexists. split; [done|].
    split; [|split; [done|unfold read_work; rewrite Hc; cbn; lia]].
    apply conn_ok_ended; [done| |done|].
    + by rewrite Htc, bodies_short.
    + split; [done|]. cbn. by rewrite length_blit by lia.
  - assert (length (take 2 (c_stream c)) = 2) as Hlen by (rewrite length_take; lia).
    rewrite copy_in_ok by lia. cbn [res_bind]. rewrite Hlen.
    rewrite handle_read_head_run by done. cbn [res_bind].
    destruct (parse_head (take 2 (c_stream c))) as [[[] n]|] eqn:Hp.
    + cbn. eexists. split; [done|].
      split; [|split; [done|unfold read_work; rewrite Hc; cbn; rewrite length_drop; lia]].
      split; cbn; try done.
      * split; [done|]. cbn. by rewrite length_blit by lia.
      * split; [done|]. by apply (parse_head_length (take 2 (c_stream c))).
      * rewrite Hb, Htc. unfold to_come. cbn. by rewrite (bodies_frame _ n) by (lia || done).
    + cbn. eexists. split; [done|].
      split; [|split; [done|unfold read_work; rewrite Hc; cbn; lia]].
      apply conn_ok_ended; [done| |done|].
      * by rewrite Htc, bodies_rejected by (lia || done).
      * split; [done|]. cbn. by rewrite length_blit by lia.
Qed.
(** A whole body in the message node, before the echo. *)
Lemma handle_read_body_run body s :
  (0 < Z.of_nat (length body) <= max_length)%Z -> head_ok (_recv_head_node s) ->
  let n := MkNode (Z.of_nat (length body)) 0 (body ++ [NUL]) in
  exists nd s' w h, handle_read_body mem None (length body) (set_msg (Some n) s)
    = Ok (Some (set_head h s', write_op w ++ [AsyncReadHead]))
  /\ node_bytes nd = echo_frame body /\ head_ok h
  /\ (s', w) = enqueue nd (set_msg (Some (MkNode (Z.of_nat (length body))
                (to_int (Z.of_nat (length body))) (body ++ [NUL]))) s).
Proof.
  intros Hl Hh n. unfold handle_read_body.
  cbn [_recv_msg_node set_msg of_option res_bind _total_len _data n].
  rewrite decide_False by lia. rewrite Nat2Z.id.
  rewrite copy_in_ok by (cbn [_data]; rewrite length_app; simpl; lia). cbn [res_bind].
  unfold MsgNode.set_data. cbn [_data _total_len _cur_len].
  assert (blit (length body) [NUL] (body ++ [NUL]) = body ++ [NUL]) as ->.
  { rewrite blit_in_range by (rewrite length_app; simpl; lia).
    rewrite take_app_length. do 2 f_equal. rewrite drop_ge; [done|].
    rewrite length_app. simpl. lia. }
  destruct (echo_send_run body [NUL] (set_msg (Some (MkNode (Z.of_nat (length body))
    (to_int (Z.of_nat (length body))) (body ++ [NUL]))) s) Hl) as (nd & Hs & Hn).
  change (set_msg ?m (set_msg _ s)) with (set_msg m s). rewrite Hs. cbn [res_bind].
  destruct (enqueue nd _) as [s' w] eqn:Ee.
  assert (_recv_head_node s' = _recv_head_node s) as Hhead.
  { unfold enqueue, push_send in Ee. destruct (que_full _); by injection Ee as <- _. }
  destruct (echo_clear_run (_recv_head_node s)) as (h & Hc & Hok); [done|].
  rewrite Hhead, Hc. cbn [res_bind]. exists nd, s', w, h. by split_and!.
Qed.

(** The queue after the echo of a body, for the invariant. *)
Lemma enqueue_out f received c body nd m :
  node_bytes nd = echo_frame body ->
  writing_ok node_bytes f (c_writing c) (_send_que (c_session c)) ->
  out_ok node_bytes echo_frame (S MAX_SENDQUEUE_SIZE) received (c_written c)
    (_send_que (c_session c)) ->
  let '(s', w) := enqueue nd (set_msg m (c_session c)) in
  exists wr, (forall s r st wn cl, effects (write_op w) (MkConn s r (c_writing c) st wn cl)
                                  = Ok (MkConn s r wr st wn cl))
  /\ writing_ok node_bytes f wr (_send_que s')
  /\ out_ok node_bytes echo_frame (S MAX_SENDQUEUE_SIZE) (received ++ [body]) (c_written c)
       (_send_que s').
Proof.
  intros Hn Hw Ho.
  destruct (send_out (SQ := echo_queue) node_bytes echo_frame (S MAX_SENDQUEUE_SIZE) f
    (c_writing c) (set_msg m (c_session c)) nd body received (c_written c))
    as (wr & Hb & Hwr & Hout); [|done..|].
  { intros Hf%bool_decide_eq_true. exact Hf. }
  change (sq_send nd) with (enqueue nd) in *.
  destruct (enqueue nd _) as [s' w]. cbn [fst snd] in *. exists wr. split; [|done].
  intros. destruct w, (c_writing c); try discriminate Hb; by injection Hb as <-.
Qed.
Lemma echo_effects_app ops ops' c :
  effects (ops ++ ops') c = (let* c := effects ops c in effects ops' c).
Proof.
  revert c. induction ops as [|o ops IH]; intros c; [done|]. cbn [app effects].
  by destruct (effect o c); cbn [res_bind].
Qed.

Lemma read_body_ok f stream received c n :
  conn_ok f stream received c -> c_read c = Some (AsyncReadBody n) ->
  exists c' received', read_done c = Ok (Some c') /\ conn_ok f stream received' c'
    /\ c_written c' = c_written c /\ read_work c' < read_work c.
Proof.
  intros Hok Hc. pose proof Hok as [Hh Hr Hb Hw Ho]. unfold read_done. rewrite Hc.
  unfold read_ok in Hr. rewrite Hc in Hr. destruct Hr as [Hm Hn]. unfold async_read.
  assert (to_come c = if decide (length (c_stream c) < n) then []
    else take n (c_stream c) :: bodies (drop n (c_stream c))) as Htc
    by (unfold to_come; by rewrite Hc).
  rewrite Hm. cbn [of_option res_bind].
  destruct (decide (length (c_stream c) < n)) as [Hs|Hs].
  - rewrite copy_in_ok by (cbn [_data]; rewrite length_replicate; lia). cbn.
    do 2 eexists. split; [done|].
    split; [|split; [done|unfold read_work; rewrite Hc; cbn; lia]].
    by apply (conn_ok_ended _ _ received c).
  - assert (length (take n (c_stream c)) = n) as Hlen by (rewrite length_take; lia).
    rewrite copy_in_ok by (cbn [_data]; rewrite length_replicate; lia). cbn [res_bind].
    unfold MsgNode.set_data. cbn [_data _total_len _cur_len].
    rewrite blit_body by done. set (body := take n (c_stream c)) in *.
    destruct (handle_read_body_run body (c_session c)) as
      (nd & s' & w & h & Hrun & Hnd & Hhok & He).
    { unfold max_length in *. lia. }
    { done. }
    rewrite Hlen in Hrun |- *. rewrite Hrun. cbn [res_bind]. rewrite echo_effects_app.
    pose proof (enqueue_out f received c body nd (Some (MkNode (Z.of_nat (length body))
                (to_int (Z.of_nat (length body))) (body ++ [NUL]))) Hnd Hw Ho) as Hout.
    rewrite Hlen in Hout, He. rewrite <- He in Hout.
    destruct Hout as (wr & Heff & Hwr & Hacc). rewrite Heff. cbn.
    do 2 eexists. split; [done|]. split; [|split; [done|]].
    + split; cbn; [done | done | | done | exact Hacc].
      rewrite Hb, Htc. unfold to_come. cbn. by rewrite <- app_assoc.
    + unfold read_work. rewrite Hc. cbn. rewrite length_drop. lia.
Qed.

Lemma write_ok stream received c :
  conn_ok false stream received c ->
  exists c', write_done None c = Ok (Some c') /\ conn_ok false stream received c'
    /\ c_written c' = c_written c ++ option_list (c_writing c).
Proof.
  intros Hok. pose proof Hok as [Hh Hr Hb Hw Ho]. unfold write_done.
  destruct (c_writing c) as [d|]; [|by exists c; rewrite app_nil_r].
  destruct (done_out (SQ := echo_queue) node_bytes echo_frame _ d (c_session c) received
    (c_written c) Hw Ho) as (wr & Hbw & Hne & _ & Hw' & Ho').
  unfold handle_write. rewrite decide_False by exact Hne.
  change (sq_done (c_session c)) with (handle_write_done (c_session c)) in *.
  exists (MkConn (set_que (tail (_send_que (c_session c))) (c_session c)) (c_read c) wr
    (c_stream c) (c_written c ++ [d]) (c_cleared c)).
  unfold handle_write_done in *. cbn [fst snd] in *.
  split; [destruct (head _); by injection Hbw as <-|]. split; [|done]. by split.
Qed.

Lemma write_failed_ok e f stream received c :
  conn_ok f stream received c ->
  exists c' f', write_done (Some e) c = Ok (Some c') /\ conn_ok f' stream received c'
    /\ c_written c' = c_written c /\ (f = true -> f' = true)
    /\ (is_Some (c_writing c) -> f' = true).
Proof.
  intros Hok. pose proof Hok as [Hh Hr Hb Hw Ho]. unfold write_done.
  destruct (c_writing c) as [d|] eqn:Ec; [|exists c, f; by split_and!; try intros []].
  cbn. do 2 eexists. split; [done|]. split; [|split_and!; done].
  destruct f; [by destruct Hw|]. unfold writing_ok in Hw.
  split; cbn; try done.
  - unfold read_ok in *. cbn. by destruct (c_read c) as [[]|].
  - split; [done|]. by destruct (_send_que (c_session c)).
Qed.

(** After a failed write nothing is in progress any more. *)
Lemma write_idle error stream received c :
  conn_ok true stream received c -> write_done error c = Ok (Some c).
Proof. intros [_ _ _ [Hw _] _]. unfold write_done. by rewrite Hw. Qed.

Lemma read_ok_step f stream received c :
  conn_ok f stream received c ->
  exists c' received', read_done c = Ok (Some c') /\ conn_ok f stream received' c'
    /\ c_written c' = c_written c /\ (read_work c' < read_work c \/ read_work c' = 0).
Proof.
  intros Hok. pose proof (k_read _ _ _ _ Hok) as Hr. unfold read_ok in Hr.
  destruct (c_read c) as [[]|] eqn:Ec; try done.
  - destruct (read_head_ok f stream received c Hok Ec) as (c' & H & H' & Hw & Hl).
    exists c', received. split_and!; [done..|by left].
  - destruct (read_body_ok f stream received c n Hok Ec) as (c' & r' & H & H' & Hw & Hl).
    exists c', r'. split_and!; [done..|by left].
  - exists c, received. unfold read_done, read_work. rewrite Ec. split_and!; [done..|by right].
Qed.

Lemma event_ok e f stream received c :
  conn_ok f stream received c ->
  exists c' f' received', do_event e c = Ok (Some c') /\ conn_ok f' stream received' c'
    /\ (f = true -> f' = true /\ c_written c' = c_written c).
Proof.
  intros Hok. destruct e as [| |e]; cbn [do_event].
  - destruct (read_ok_step f stream received c Hok) as (c' & r' & H & H' & Hw & _).
    by exists c', f, r'.
  - destruct f.
    + exists c, true, received. by rewrite (write_idle _ stream received).
    + destruct (write_ok stream received c Hok) as (c' & H & H' & _).
      by exists c', false, received.
  - destruct (write_failed_ok e f stream received c Hok) as (c' & f' & H & H' & Hw & Hf & _).
    exists c', f', received. split_and!; [done..|]. intros Ht. by split; [apply Hf|].
Qed.

Lemma echo_run_ok es f stream received c :
  conn_ok f stream received c ->
  exists c' f' received', conn_run es c = Ok (Some c') /\ conn_ok f' stream received' c'
    /\ (f = true -> c_written c' = c_written c).
Proof.
  revert f received c. induction es as [|e es IH]; intros f received c Hok; cbn [conn_run].
  { by exists c, f, received. }
  destruct (event_ok e f stream received c Hok) as (c1 & f1 & r1 & H1 & Hok1 & Hf1).
  rewrite H1. cbn [res_bind].
  destruct (IH f1 r1 c1 Hok1) as (c' & f' & r' & H' & Hok' & Hf').
  exists c', f', r'. split_and!; [done..|]. intros Ht. destruct (Hf1 Ht) as [Hf Hw].
  by rewrite Hf'.
Qed.
Lemma conn_run_app es es' c :
  conn_run (es ++ es') c
  = (let* o := conn_run es c in match o with Some c => conn_run es' c | None => Ok None end).
Proof.
  revert c. induction es as [|e es IH]; intros c; [done|]. cbn [app conn_run].
  destruct (do_event e c) as [[c'|]| |]; cbn [res_bind]; done.
Qed.

(** All the reads, then all the writes. *)
Lemma reads_run k f stream received c :
  conn_ok f stream received c -> read_work c <= k ->
  exists c' received', conn_run (replicate k ERead) c = Ok (Some c')
    /\ conn_ok f stream received' c' /\ c_written c' = c_written c /\ c_read c' = None.
Proof.
  revert received c. induction k as [|k IH]; intros received c Hok Hk.
  - exists c, received. split_and!; [done..|]. pose proof (k_read _ _ _ _ Hok) as Hr.
    unfold read_ok in Hr. unfold read_work in Hk.
    destruct (c_read c) as [[]|]; simpl in *; done || lia.
  - cbn [replicate conn_run do_event].
    destruct (read_ok_step f stream received c Hok) as (c1 & r1 & H1 & Hok1 & Hw1 & Hl).
    rewrite H1. cbn [res_bind].
    destruct (IH r1 c1 Hok1) as (c' & r' & H' & Hok' & Hw' & Hn); [lia|].
    exists c', r'. rewrite Hw', Hw1. by split_and!.
Qed.

Lemma writes_run k stream received c :
  conn_ok false stream received c -> length (_send_que (c_session c)) <= k ->
  exists c', conn_run (replicate k EWritten) c = Ok (Some c')
    /\ conn_ok false stream received c' /\ c_read c' = c_read c
    /\ c_written c' = frames_out c /\ c_writing c' = None.
Proof.
  revert c. induction k as [|k IH]; intros c Hok Hk.
  - exists c. destruct (_send_que (c_session c)) eqn:Eq; [|simpl in Hk; lia].
    pose proof (k_writing _ _ _ _ Hok) as Hw. unfold frames_out. unfold writing_ok in Hw.
    rewrite Eq in Hw |- *. cbn in Hw |- *. rewrite app_nil_r. by split_and!.
  - cbn [replicate conn_run do_event]. pose proof Hok as [Hh Hr Hb Hw Ho].
    unfold writing_ok in Hw. unfold write_done.
    destruct (_send_que (c_session c)) as [|n0 q] eqn:Eq; cbn in Hw; rewrite Hw.
    + cbn [res_bind]. apply IH; [done|]. rewrite Eq. simpl. lia.
    + assert (exists c1, write_done None c = Ok (Some c1) /\ conn_ok false stream received c1
        /\ c_read c1 = c_read c /\ frames_out c1 = frames_out c
        /\ length (_send_que (c_session c1)) <= k) as (c1 & H1 & Hok1 & Hr1 & Hf1 & Hl1).
      { destruct (write_ok stream received c Hok) as (c1 & H1 & Hok1 & _).
        exists c1. split; [done|]. split; [done|]. revert H1. unfold write_done, handle_write.
        rewrite Hw, Eq, decide_False by done. unfold handle_write_done, frames_out.
        cbn [_send_que set_que tail res_bind]. rewrite Eq. simpl in Hk. cbn [tail].
        intros H1. destruct q; cbn in H1; injection H1 as <-; cbn;
          rewrite <- app_assoc; split_and!; (done || simpl in *; lia). }
      unfold write_done in H1. rewrite Hw in H1. rewrite H1. cbn [res_bind].
      destruct (IH c1 Hok1 Hl1) as (c' & H' & Hok' & Hr' & Hw' & Hn').
      exists c'. rewrite Hr', Hr1, Hw', Hf1. by split_and!.
Qed.

(** A connection none of whose writes failed. *)
Lemma clean_run es stream received c :
  Forall (fun e => e = ERead \/ e = EWritten) es -> conn_ok false stream received c ->
  exists c' received', conn_run es c = Ok (Some c') /\ conn_ok false stream received' c'.
Proof.
  intros Hes. revert received c. induction Hes as [|e es He _ IH]; intros received c Hok.
  { by exists c, received. }
  assert (exists c1 r1, do_event e c = Ok (Some c1) /\ conn_ok false stream r1 c1)
    as (c1 & r1 & H1 & Hok1).
  { destruct He as [->| ->]; cbn [do_event].
    - destruct (read_ok_step false stream received c Hok) as (c1 & r1 & H1 & Hok1 & _).
      by exists c1, r1.
    - destruct (write_ok stream received c Hok) as (c1 & H1 & Hok1 & _). by exists c1, received. }
  cbn [conn_run]. rewrite H1. cbn [res_bind]. by apply (IH r1).
Qed.

(** The reads that are left, then the writes: everything is echoed. *)
Lemma conn_drain n k stream received c :
  length (bodies stream) <= 1001 -> conn_ok false stream received c ->
  read_work c <= n -> length (bodies stream) <= k ->
  exists c', conn_run (replicate n ERead ++ replicate k EWritten) c = Ok (Some c')
    /\ c_written c' = echo_frame <$> bodies stream
    /\ c_cleared c' = true /\ c_read c' = None /\ c_writing c' = None.
Proof.
  intros Hl Hok Hn Hk. rewrite conn_run_app.
  destruct (reads_run n false stream received c Hok Hn)
    as (c1 & r1 & H1 & Hok1 & _ & Hr1). rewrite H1. cbn [res_bind].
  assert (to_come c1 = []) as Htc by (unfold to_come; by rewrite Hr1).
  pose proof (k_bodies _ _ _ _ Hok1) as Hb. rewrite Htc, app_nil_r in Hb.
  destruct (k_out _ _ _ _ Hok1) as (acc & Hsub & Hout & Hall).
  rewrite Hall in Hout by (rewrite <- Hb; unfold MAX_SENDQUEUE_SIZE; lia).
  pose proof (f_equal length Hout) as Hlen. rewrite length_app, !length_fmap, <- Hb in Hlen.
  destruct (writes_run k stream r1 c1 Hok1) as (c' & H & Hok2 & Hr2 & Hw2 & Hn2); [lia|].
  exists c'. rewrite Hw2, Hr2, Hb. split_and!; [done..| |done|done].
  pose proof (k_read _ _ _ _ Hok2) as Hrd. unfold read_ok in Hrd. by rewrite Hr2, Hr1 in Hrd.
Qed.

(** What was written and is queued, against the stream. *)
Lemma conn_frames f stream received c :
  conn_ok f stream received c ->
  exists accepted, sublist accepted (bodies stream)
    /\ c_written c ++ (node_bytes <$> _send_que (c_session c)) = echo_frame <$> accepted
    /\ (length (bodies stream) <= 1001 -> accepted `prefix_of` bodies stream).
Proof.
  intros Hok. pose proof (k_bodies _ _ _ _ Hok) as Hb.
  destruct (k_out _ _ _ _ Hok) as (acc & Hsub & Hout & Hall).
  exists acc. split_and!; [|done|].
  - rewrite Hb. by apply sublist_inserts_r.
  - intros Hl. rewrite Hb in Hl |- *. rewrite length_app in Hl.
    rewrite Hall by (unfold MAX_SENDQUEUE_SIZE; lia). by apply prefix_app_r.
Qed.

(** The server's side of a connection, from the accept. *)
Definition echo (es : list event) stream : res (option conn) :=
  let* c := conn_start stream in conn_run es c.

(** Whatever bytes the peer sends and however reads, writes and write errors
    interleave, no handler misbehaves, at most one write is in progress, and
    what is written, followed by what is queued, are the frames of messages
    received, in order and each once: of all of them as long as at most 1001
    were sent. *)
Theorem echo_fifo es stream :
  exists c accepted, echo es stream = Ok (Some c)
    /\ sublist accepted (bodies stream)
    /\ c_written c ++ (node_bytes <$> _send_que (c_session c)) = echo_frame <$> accepted
    /\ (length (bodies stream) <= 1001 -> accepted `prefix_of` bodies stream).
Proof.
  destruct (conn_start_ok stream) as (c0 & Hs & Hok & _). unfold echo. rewrite Hs.
  cbn [res_bind]. destruct (echo_run_ok es false stream [] c0 Hok) as (c & f & r & Hr & Hok' & _).
  destruct (conn_frames f stream r c Hok') as (acc & Hfr). by exists c, acc.
Qed.

(** Every message is echoed: when the reads and then the writes complete, the
    frames of all the messages have been written, and the server has dropped
    the session. *)
Theorem echo_complete stream :
  length (bodies stream) <= 1001 ->
  exists c, echo (replicate (2 * length stream + 2) ERead
                  ++ replicate (length (bodies stream)) EWritten) stream = Ok (Some c)
    /\ c_written c = echo_frame <$> bodies stream
    /\ c_cleared c = true /\ c_read c = None /\ c_writing c = None.
Proof.
  intros Hl. destruct (conn_start_ok stream) as (c0 & Hs & Hok & Hw0 & _ & Hc0 & Hst).
  unfold echo. rewrite Hs. cbn [res_bind]. apply (conn_drain _ _ stream []); try done.
  unfold read_work. by rewrite Hc0, Hst.
Qed.

(** After a write that fails the session is mute: it goes on reading and queueing
    (only the server's reference to it is dropped, the socket stays open), but
    nothing more is ever written, since the queue keeps the failed message and
    no write is in progress to continue it. *)
Theorem write_failure_mute es e es' stream c :
  echo es stream = Ok (Some c) -> is_Some (c_writing c) ->
  exists c', echo (es ++ EWriteFailed e :: es') stream = Ok (Some c')
    /\ c_written c' = c_written c.
Proof.
  intros H Hw. destruct (conn_start_ok stream) as (c0 & Hs & Hok & _). unfold echo in *.
  rewrite Hs in H |- *. cbn [res_bind] in *. rewrite conn_run_app, H. cbn [res_bind].
  destruct (echo_run_ok es false stream [] c0 Hok) as (c1 & f & r & H1 & Hok1 & _).
  rewrite H in H1. injection H1 as <-. cbn [conn_run do_event].
  destruct (write_failed_ok e f stream r c Hok1) as (c2 & f2 & H2 & Hok2 & Hw2 & _ & Hf2).
  rewrite H2. cbn [res_bind]. rewrite (Hf2 Hw) in Hok2.
  destruct (echo_run_ok es' true stream r c2 Hok2) as (c' & f' & r' & H' & _ & Hw').
  exists c'. split; [done|]. by rewrite Hw'.
Qed.
End Connection.

(** ** The server

    The handler of an accepted connection: [Start], then the insertion, then the
    next accept; one thread runs all handlers. *)
Module EchoAccept.
Record Server := MkServer { _sessions : gmap String.string nat }.

(** [new_session->Start()] and [async_accept] for a new session. *)
Inductive op := SessionStart (x : nat) | AsyncAccept (x : nat).

Definition start_accept (fresh : nat) : list op := [AsyncAccept fresh].

Definition handle_accept (error : bool) (u : String.string) (x fresh : nat) (s : Server)
    : Server * list op :=
  let '(s, ops) :=
    if error then (s, [])
    else (MkServer (Server.map_insert u x (_sessions s)), [SessionStart x]) in
  (s, ops ++ start_accept fresh).

Definition ClearSession (u : String.string) (s : Server) : Server :=
  MkServer (delete u (_sessions s)).

(** Accepting never stops: a failed accept also awaits the next connection; a session
    with a new uuid is in the map until it is removed. *)
Lemma handle_accept_run error u x fresh s :
  _sessions s !! u = None ->
  last (handle_accept error u x fresh s).2 = Some (AsyncAccept fresh)
  /\ _sessions (handle_accept error u x fresh s).1
     = (if error then _sessions s else <[u := x]> (_sessions s))
  /\ _sessions (ClearSession u (handle_accept error u x fresh s).1) = _sessions s.
Proof.
  intros Hu. unfold handle_accept, Server.map_insert, ClearSession. rewrite Hu.
  destruct error; cbn; (split; [done|]; split; [done|]).
  - by apply delete_id.
  - by apply delete_insert_id.
Qed.
End EchoAccept.

(** ** Examples *)
Definition blank_mem (n : nat) : list char := replicate n SP.

Lemma blank_mem_length n : length (blank_mem n) = n.
Proof. apply length_replicate. Qed.

Definition sample_stream : list char := echo_frame (lit "hi") ++ echo_frame (lit "yo") ++ [NUL].

Lemma echo_fifo_witness :
  exists c accepted, echo blank_mem [ERead; ERead; EWritten; ERead; ERead; ERead] sample_stream
    = Ok (Some c)
  /\ c_written c = [echo_frame (lit "hi")]
  /\ c_written c ++ (node_bytes <$> _send_que (c_session c)) = echo_frame <$> accepted.
Proof.
  destruct (echo_fifo blank_mem blank_mem_length
    [ERead; ERead; EWritten; ERead; ERead; ERead] sample_stream) as (c & acc & H & _ & Ho & _).
  exists c, acc. split; [exact H|]. split; [|exact Ho].
  vm_compute in H. injection H as <-. reflexivity.
Defined.

Lemma echo_complete_witness :
  exists c, echo blank_mem (replicate 20 ERead ++ replicate 2 EWritten) sample_stream
    = Ok (Some c)
  /\ c_written c = [echo_frame (lit "hi"); echo_frame (lit "yo")].
Proof.
  destruct (echo_complete blank_mem blank_mem_length sample_stream) as (c & H & Hw & _).
  - vm_compute. repeat constructor.
  - exists c. split; [exact H | exact Hw].
Defined.

Lemma write_failure_mute_witness :
  exists c c', echo blank_mem [ERead; ERead] sample_stream = Ok (Some c)
  /\ echo blank_mem ([ERead; ERead] ++ EWriteFailed connection_reset :: [ERead; ERead; EWritten])
       sample_stream = Ok (Some c')
  /\ c_written c' = [].
Proof.
  destruct (echo blank_mem [ERead; ERead] sample_stream) as [[c|]| |] eqn:E;
    try (vm_compute in E; discriminate).
  destruct (write_failure_mute blank_mem blank_mem_length [ERead; ERead] connection_reset
    [ERead; ERead; EWritten] sample_stream c) as (c' & H & Hw).
  - exact E.
  - vm_compute in E. injection E as <-. eexists. reflexivity.
  - exists c, c'. split; [reflexivity|]. split; [exact H|]. rewrite Hw.
    vm_compute in E. injection E as <-. reflexivity.
Defined.
