(* ===== verification/EchoSystem.v ===== *)
(** * The echo server at work: [2. AsyncServer]

    [main] of [src/AsyncServer.cpp]: a [Server] on port 8080 and [ioc.run()] on one
    thread.  Any number of clients connect; the handlers of the accepts and of all
    sessions run in any order.  Session [x] is the [x]-th that was accepted; its
    uuid is [uuid x]. *)

From stdpp Require Import pretty.
From S2P Require Import Prelude CBase MsgNode Frame Fleet SendQueue IOPool EchoServer.

Section System.
Context (mem : nat -> list char) (mem_length : forall n, length (mem n) = n).
Context (uuid : nat -> String.string) `{!Inj (=) (=) uuid}.

(** An accept in progress; the sessions, which live as long as their handlers; the
    [Server] with its map. *)
Record server := MkServer {
  e_accepting : bool;
  e_conns : list conn;
  e_server : EchoAccept.Server
}.
Implicit Types s : server.

(** An accept completes, with the bytes the new client will send, or fails; something
    happens to session [i]. *)
Inductive sevent := EAccept (stream : list char) | EAcceptFails | EConn (i : nat) (e : event).

(** What [handle_accept] starts: the session, and the next accept. *)
Definition accept_effect (stream : list char) (o : EchoAccept.op) s : res server :=
  match o with
  | EchoAccept.SessionStart _ =>
      let* c := conn_start stream in
      Ok (MkServer (e_accepting s) (e_conns s ++ [c]) (e_server s))
  | EchoAccept.AsyncAccept _ => Ok (MkServer true (e_conns s) (e_server s))
  end.

Fixpoint accept_effects stream (ops : list EchoAccept.op) s : res server :=
  match ops with
  | [] => Ok s
  | o :: ops => let* s := accept_effect stream o s in accept_effects stream ops s
  end.

Definition accept_done (error : bool) stream s : res server :=
  let x := length (e_conns s) in
  let '(srv, ops) := EchoAccept.handle_accept error (uuid x) x (S x) (e_server s) in
  accept_effects stream ops (MkServer false (e_conns s) srv).

(** One handler; [None]: an exception leaves [run], and [main] prints it and ends.
    [ClearSession] of a uuid that is not in the map does nothing. *)
Definition do_sevent (e : sevent) s : res (option server) :=
  match e with
  | EAccept stream =>
      if e_accepting s then let* s := accept_done false stream s in Ok (Some s) else Ok (Some s)
  | EAcceptFails =>
      if e_accepting s then let* s := accept_done true [] s in Ok (Some s) else Ok (Some s)
  | EConn i e =>
      match e_conns s !! i with
      | None => Ok (Some s)
      | Some c =>
          let* o := do_event mem e c in
          Ok ((fun c' => MkServer (e_accepting s) (<[i:=c']> (e_conns s))
                 (if c_cleared c' then EchoAccept.ClearSession (uuid i) (e_server s)
                  else e_server s)) <$> o)
      end
  end.

Fixpoint serve_run (es : list sevent) s : res (option server) :=
  match es with
  | [] => Ok (Some s)
  | e :: es =>
      let* o := do_sevent e s in
      match o with Some s => serve_run es s | None => Ok None end
  end.

(** The constructor of [Server], then [run]. *)
Definition main_run (es : list sevent) : res (option server) :=
  let* s := accept_effects [] (EchoAccept.start_accept 0)
              (MkServer false [] (EchoAccept.MkServer ∅)) in
  serve_run es s.

(** ** The sessions as a fleet *)

#[refine, local] Instance echo_service : Service conn event := {|
  sv_do := do_event mem;
  sv_ok c := exists f stream received, conn_ok f stream received c;
  sv_do_ok := _
|}.
Proof.
  intros e c (f & stream & r & Hok).
  destruct (event_ok mem mem_length e f stream r c Hok) as (c' & f' & r' & H & Hok' & _).
  exists c'. split; [exact H|]. by exists f', stream, r'.
Defined.

(** What a client sends, by session. *)
Definition streams (es : list sevent) : list (list char) :=
  omap (fun e => if e is EAccept stream then Some stream else None) es.

Definition to_fleet (e : sevent) : list (fevent conn event) :=
  match e with
  | EAccept stream => match conn_start stream with Ok c => [FNew c] | _ => [] end
  | EAcceptFails => []
  | EConn i e => [FDo i e]
  end.

Definition fleet (es : list sevent) : list (fevent conn event) := es ≫= to_fleet.

(** The events of session [i]. *)
Definition its_events (i : nat) (es : list sevent) : list event := events_of i 0 (fleet es).

Definition held (c : conn) : bool := negb (c_cleared c).

Lemma fleet_app es es' : fleet (es ++ es') = fleet es ++ fleet es'.
Proof. apply bind_app. Qed.

Lemma fleet_newcomers es :
  Forall2 (fun stream c => conn_start stream = Ok c) (streams es) (newcomers (fleet es)).
Proof.
  induction es as [|e es IH]; [constructor|].
  change (fleet (e :: es)) with (to_fleet e ++ fleet es). unfold newcomers. rewrite omap_app.
  assert (streams (e :: es) = streams [e] ++ streams es) as -> by exact (omap_app _ [e] es).
  apply Forall2_app; [|exact IH]. destruct e as [stream| |]; cbn; [|constructor..].
  destruct (conn_start_ok stream) as (c & Hc & _). rewrite Hc. by repeat constructor.
Qed.

Lemma alone_conn_run es c : alone es c = conn_run mem es c.
Proof.
  revert c. induction es as [|e es IH]; intros c; [done|]. cbn [alone conn_run].
  change (sv_do e c) with (do_event mem e c).
  by destruct (do_event mem e c) as [[c'|]| |]; cbn [res_bind].
Qed.

Record serving (es : list sevent) s : Prop := {
  g_accepting : e_accepting s = true;
  g_fleet : fleet_run (fleet es) [] = Ok (Some (e_conns s));
  g_ok : Forall sv_ok (e_conns s);
  g_table : table_ok uuid held (EchoAccept._sessions (e_server s)) (e_conns s)
}.

Lemma serving_fleet es s e s' f :
  serving es s -> to_fleet e = [f] -> fleet_step f (e_conns s) = Ok (Some (e_conns s')) ->
  fleet_run (fleet (es ++ [e])) [] = Ok (Some (e_conns s')).
Proof.
  intros Hs He Hf. rewrite fleet_app, fleet_run_app, (g_fleet es s Hs). cbn [res_bind].
  unfold fleet. cbn [mbind list_bind]. rewrite He. cbn [app]. by rewrite fleet_run_1.
Qed.

Lemma serving_accept es s stream :
  serving es s ->
  exists s', do_sevent (EAccept stream) s = Ok (Some s') /\ serving (es ++ [EAccept stream]) s'.
Proof.
  intros Hs. destruct (conn_start_ok stream) as (c & Hc & Hok & _ & Hcl & _).
  unfold do_sevent. rewrite (g_accepting es s Hs). unfold accept_done, EchoAccept.handle_accept.
  cbn [EchoAccept.start_accept app accept_effects accept_effect]. rewrite Hc. cbn [res_bind].
  eexists. split; [done|]. split; cbn [e_accepting e_conns e_server].
  - done.
  - eapply (serving_fleet es s _ (MkServer true (e_conns s ++ [c]) (e_server s)) (FNew c));
      [done| |done]. cbn [to_fleet]. by rewrite Hc.
  - apply Forall_app. split; [apply (g_ok es s Hs)|].
    apply Forall_singleton. by exists false, stream, [].
  - pose proof (table_new uuid held _ (e_conns s) c (g_table es s Hs)) as Ht.
    unfold held in Ht at 2. rewrite Hcl in Ht. cbn [negb EchoAccept._sessions].
    unfold Server.map_insert. by rewrite (table_fresh uuid held _ _ (g_table es s Hs)).
Qed.

Lemma serving_fails es s :
  serving es s ->
  exists s', do_sevent EAcceptFails s = Ok (Some s') /\ serving (es ++ [EAcceptFails]) s'.
Proof.
  intros Hs. unfold do_sevent. rewrite (g_accepting es s Hs). cbn. eexists. split; [done|].
  split; [done| |apply (g_ok es s Hs)|apply (g_table es s Hs)]. cbn [e_conns].
  rewrite fleet_app, app_nil_r. apply (g_fleet es s Hs).
Qed.

(** A session that was dropped stays so. *)
Lemma effects_cleared ops c c' :
  effects ops c = Ok c' -> c_cleared c = true -> c_cleared c' = true.
Proof.
  revert c. induction ops as [|o ops IH]; intros c H Hc; [by injection H as <-|].
  cbn [effects] in H. apply res_bind_Ok_inv in H as (c1 & H1 & H). apply (IH c1 H).
  destruct o; cbn [effect] in H1; try (by injection H1 as <-).
  destruct (c_writing c); [done|]. by injection H1 as <-.
Qed.

Lemma do_event_cleared e c c' :
  do_event mem e c = Ok (Some c') -> c_cleared c = true -> c_cleared c' = true.
Proof.
  intros H Hc.
  assert (forall error, write_done error c = Ok (Some c') -> c_cleared c' = true) as Hw.
  { intros error Hw. unfold write_done in Hw.
    destruct (c_writing c) as [d|]; [|by injection Hw as <-].
    apply res_bind_Ok_inv in Hw as ([s ops] & _ & Hw).
    apply res_bind_Ok_inv in Hw as (c1 & Hw & Hc1). injection Hc1 as <-.
    by apply (effects_cleared _ _ _ Hw). }
  destruct e as [| |e]; cbn [do_event] in H; [|by apply Hw in H..]. unfold read_done in H.
  destruct (c_read c) as [[]|]; try (by injection H as <-).
  - destruct (async_read 2 (c_stream c)) as [[err d] stream].
    apply res_bind_Ok_inv in H as (h & _ & H). apply res_bind_Ok_inv in H as ([s ops] & _ & H).
    apply res_bind_Ok_inv in H as (c1 & H & Hc1). injection Hc1 as <-.
    by apply (effects_cleared _ _ _ H).
  - destruct (async_read n (c_stream c)) as [[err d] stream].
    apply res_bind_Ok_inv in H as (m & _ & H). apply res_bind_Ok_inv in H as (m' & _ & H).
    apply res_bind_Ok_inv in H as ([[s ops]|] & _ & H); [|done].
    apply res_bind_Ok_inv in H as (c1 & H & Hc1). injection Hc1 as <-.
    by apply (effects_cleared _ _ _ H).
Qed.

Lemma serving_conn es s i e :
  serving es s ->
  exists s', do_sevent (EConn i e) s = Ok (Some s') /\ serving (es ++ [EConn i e]) s'.
Proof.
  intros Hs. destruct (fleet_step_ok (FDo i e) (e_conns s)) as (cs' & Hf & Hok');
    [done|apply (g_ok es s Hs)|]. unfold do_sevent. cbn [fleet_step] in Hf.
  destruct (e_conns s !! i) as [c|] eqn:Hi.
  - change (sv_do e c) with (do_event mem e c) in Hf.
    apply res_bind_Ok_inv in Hf as Hf'. destruct Hf' as ([c'|] & He & Hcs); [|done].
    rewrite He. cbn [res_bind fmap option_fmap option_map]. injection Hcs as <-.
    eexists. split; [done|].
    split; cbn [e_accepting e_conns e_server]; [apply (g_accepting es s Hs)| |done|].
    + eapply (serving_fleet es s _ (MkServer (e_accepting s) (<[i:=c']> (e_conns s)) (e_server s))
        (FDo i e)); [done|done|]. cbn [fleet_step]. rewrite Hi.
      change (sv_do e c) with (do_event mem e c). by rewrite He.
    + pose proof (table_update uuid held _ _ i c c' (g_table es s Hs) Hi) as Ht.
      pose proof (table_held uuid held _ _ i c (g_table es s Hs) Hi) as Hh.
      unfold held in Ht at 2, Hh. destruct (c_cleared c') eqn:E; [exact Ht|].
      destruct (c_cleared c) eqn:E'; [by rewrite (do_event_cleared e c c' He E') in E|].
      cbn in Ht, Hh. by rewrite Hh in Ht.
  - injection Hf as <-. eexists. split; [done|].
    split; [apply (g_accepting es s Hs)| |done|apply (g_table es s Hs)].
    eapply (serving_fleet es s _ s (FDo i e)); [done|done|]. cbn [fleet_step]. by rewrite Hi.
Qed.

Lemma serving_run es0 es s :
  serving es0 s -> exists s', serve_run es s = Ok (Some s') /\ serving (es0 ++ es) s'.
Proof.
  revert es0 s. induction es as [|e es IH]; intros es0 s Hs.
  { exists s. by rewrite app_nil_r. }
  assert (exists s1, do_sevent e s = Ok (Some s1) /\ serving (es0 ++ [e]) s1) as (s1 & H1 & Hs1).
  { destruct e; [by apply serving_accept|by apply serving_fails|by apply serving_conn]. }
  cbn [serve_run]. rewrite H1. cbn [res_bind]. destruct (IH _ s1 Hs1) as (s' & H & Hs').
  exists s'. by rewrite <- app_assoc in Hs'.
Qed.

Lemma main_serving es : exists s, main_run es = Ok (Some s) /\ serving es s.
Proof.
  unfold main_run. cbn [EchoAccept.start_accept accept_effects accept_effect res_bind].
  apply (serving_run [] es). split; try done. apply table_nil.
Qed.

(** Session [i] is the connection it is alone. *)
Lemma serving_conn_alone es s i stream :
  serving es s -> streams es !! i = Some stream ->
  exists c, e_conns s !! i = Some c /\ echo mem (its_events i es) stream = Ok (Some c).
Proof.
  intros Hs Hi. destruct (Forall2_lookup_l _ _ _ _ _ (fleet_newcomers es) Hi) as (c0 & Hc0 & Hst).
  destruct (fleet_begins _ _ _ _ _ (g_fleet es s Hs) Hc0) as (c & Hc & Ha).
  exists c. split; [exact Hc|]. unfold echo. rewrite Hst. cbn [res_bind].
  by rewrite alone_conn_run in Ha.
Qed.

Lemma serving_length es s : serving es s -> length (e_conns s) = length (streams es).
Proof.
  intros Hs. rewrite (Forall2_length _ _ _ (fleet_newcomers es)).
  rewrite (length_fleet_run _ _ _ (g_fleet es s Hs)). done.
Qed.

(** ** Everything is echoed *)

Definition benign (e : sevent) : Prop := if e is EConn _ (EWriteFailed _) then False else True.

(** What finishes session [i] of a server. *)
Definition finish s (i : nat) : list event :=
  match e_conns s !! i with
  | Some c => replicate (read_work c) ERead ++ replicate 1001 EWritten
  | None => []
  end.

Definition finish_all s : list sevent :=
  seq 0 (length (e_conns s)) ≫= fun i => EConn i <$> finish s i.

Lemma fleet_finish s : fleet (finish_all s) = rounds (finish s) (length (e_conns s)).
Proof.
  unfold fleet, finish_all, rounds. induction (seq 0 _) as [|i l IH]; [done|].
  cbn [mbind list_bind]. rewrite bind_app. f_equal; [|exact IH].
  induction (finish s i) as [|e es IHe]; [done|]. cbn [fmap list_fmap mbind list_bind to_fleet app].
  f_equal. exact IHe.
Qed.

Lemma streams_finish es s : streams (es ++ finish_all s) = streams es.
Proof.
  unfold streams. rewrite omap_app. rewrite <- (app_nil_r (omap _ es)) at 2. f_equal.
  unfold finish_all. induction (seq 0 _) as [|i l IH]; [done|].
  cbn [mbind list_bind]. rewrite omap_app, IH, app_nil_r. by induction (finish s i).
Qed.

Lemma its_events_clean i k es :
  Forall benign es -> Forall (fun e => e = ERead \/ e = EWritten) (events_of i k (fleet es)).
Proof.
  intros Hes. revert k. induction Hes as [|e es He _ IH]; intros k; [constructor|].
  change (fleet (e :: es)) with (to_fleet e ++ fleet es). rewrite events_of_app.
  apply Forall_app. split; [|apply IH].
  destruct e as [stream| |j e]; cbn [to_fleet]; [destruct (conn_start stream)|..]; cbn [events_of];
    try constructor.
  rewrite app_nil_r. case_decide; [|constructor].
  apply Forall_singleton. destruct e; [by left|by right|done].
Qed.

Lemma finish_conn es s s' i stream :
  Forall benign es -> Forall (fun stream => length (bodies stream) <= 1001) (streams es) ->
  serving es s -> serving (es ++ finish_all s) s' -> streams es !! i = Some stream ->
  exists c', e_conns s' !! i = Some c' /\ c_written c' = echo_frame <$> bodies stream
    /\ c_cleared c' = true /\ c_read c' = None /\ c_writing c' = None.
Proof.
  intros Hes Hst Hs Hs' Hi. pose proof (lookup_lt_Some _ _ _ Hi) as Hlt.
  pose proof (serving_length _ _ Hs) as Hl.
  pose proof (Forall_lookup_1 _ _ _ _ Hst Hi) as Hb. cbv beta in Hb.
  destruct (serving_conn_alone es s i stream Hs Hi) as (c & Hc & He).
  destruct (serving_conn_alone _ s' i stream Hs') as (c' & Hc' & He');
    [by rewrite streams_finish|].
  exists c'. split; [done|]. destruct (conn_start_ok stream) as (c0 & H0 & Hok & _).
  unfold its_events, echo in He, He'. rewrite H0 in He, He'. cbn [res_bind] in He, He'.
  rewrite fleet_app, events_of_app, fleet_finish, events_of_rounds, decide_True in He'
    by (rewrite <- ?(Forall2_length _ _ _ (fleet_newcomers es)); lia).
  rewrite conn_run_app, He in He'. cbn [res_bind] in He'. unfold finish in He'. rewrite Hc in He'.
  destruct (clean_run mem mem_length _ stream [] c0 (its_events_clean i 0 es Hes) Hok)
    as (c1 & r & H1 & Hok1). rewrite He in H1. injection H1 as <-.
  destruct (conn_drain mem mem_length (read_work c) 1001 stream r c Hb Hok1 (le_n _) Hb)
    as (c2 & H2 & Hfin). rewrite He' in H2. by injection H2 as ->.
Qed.


(** C11: the whole server.  Whatever connects, whatever the clients send, and in whatever
    order accepts, reads, writes and failures of all the sessions happen: no handler
    misbehaves and no exception ends the program; the next accept is always in
    progress; every session is as if it were alone with its own events, so that what it
    has written and queued are the frames of its own client's messages, in order and
    each once; and the map holds exactly the sessions that were not dropped. *)
Theorem echo_server_serves es :
  exists s, main_run es = Ok (Some s)
    /\ e_accepting s = true
    /\ length (e_conns s) = length (streams es)
    /\ (forall i stream, streams es !! i = Some stream ->
          exists c accepted, e_conns s !! i = Some c
            /\ echo mem (its_events i es) stream = Ok (Some c)
            /\ sublist accepted (bodies stream)
            /\ c_written c ++ (node_bytes <$> _send_que (c_session c)) = echo_frame <$> accepted
            /\ (length (bodies stream) <= 1001 -> accepted `prefix_of` bodies stream))
    /\ (forall k x, EchoAccept._sessions (e_server s) !! k = Some x
          <-> k = uuid x /\ exists c, e_conns s !! x = Some c /\ c_cleared c = false).
Proof.
  destruct (main_serving es) as (s & Hr & Hs). exists s. split_and!.
  - exact Hr.
  - apply (g_accepting es s Hs).
  - by apply serving_length.
  - intros i stream Hi. destruct (serving_conn_alone es s i stream Hs Hi) as (c & Hc & He).
    exists c. destruct (conn_start_ok stream) as (c0 & Hst & Hok & _).
    pose proof He as He'. unfold echo in He'. rewrite Hst in He'. cbn [res_bind] in He'.
    destruct (echo_run_ok mem mem_length (its_events i es) _ _ _ _ Hok)
      as (c' & f & r & Hrun & Hok' & _).
    rewrite He' in Hrun. injection Hrun as <-.
    destruct (conn_frames _ _ _ _ Hok') as (acc & Hacc). by exists acc.
  - intros k x. rewrite (g_table es s Hs k x). unfold held.
    split; intros (-> & c & Hc & Hh); (split; [done|]); exists c; (split; [done|]).
    + by apply negb_true_iff in Hh.
    + by rewrite Hh.
Qed.
End System.

(** Two clients; the second one is dropped after its message with a bad head. *)
Lemma echo_server_serves_witness :
  let es := [EAccept (echo_frame (lit "hi")); EAcceptFails; EConn 0 ERead;
             EAccept (echo_frame (lit "yo") ++ [NUL; NUL]); EConn 1 ERead; EConn 0 ERead;
             EConn 1 ERead; EConn 1 ERead; EConn 0 EWritten; EConn 1 EWritten] in
  exists s, main_run blank_mem pretty es = Ok (Some s)
    /\ c_written <$> e_conns s = [[echo_frame (lit "hi")]; [echo_frame (lit "yo")]]
    /\ EchoAccept._sessions (e_server s) !! pretty 0 = Some 0
    /\ EchoAccept._sessions (e_server s) !! pretty 1 = None.
Proof.
  intros es.
  destruct (echo_server_serves blank_mem blank_mem_length pretty es)
    as (s & Hr & _ & _ & _ & Ht). exists s. split; [exact Hr|].
  vm_compute in Hr. injection Hr as Hr. split; [by rewrite <- Hr|]. split.
  - apply Ht. split; [done|]. rewrite <- Hr. by eexists.
  - destruct (_ !! _) as [x|] eqn:E; [|done]. apply Ht in E as (Hu & c & Hc & Hcl).
    apply (inj pretty) in Hu as <-. rewrite <- Hr in Hc. injection Hc as <-. discriminate Hcl.
Defined.

