(* ===== verification/CoroServer.v ===== *)
(** * The coroutine server: [4. CoroutineAsyncServer/src/Session.cpp]

    [Start] spawns a coroutine that reads head and body in turn.  The rest of
    the class is the code of [3. AsyncServerIOservicepool] again: each of its
    methods is translated here from its own source and is the same function as
    there.  The state is the same record. *)

From S2P Require Import Prelude CBase Frame MsgNode SendQueue PoolServer.

(** ** The methods of [Session] *)
Module Coro.
Definition Session_new : res Session :=
  let* o := Pool.MsgNode_new Pool.HEAD_TOTAL_LEN in
  let* n := of_option o in
  Ok (MkSession false [] None n).

Definition Close (s : Session) : Session * list op := (set_close true s, [SocketClose]).

(** [Close(); _server->ClearSession(_uuid)] *)
Definition close_and_clear (s : Session) : Session * list op :=
  let '(s, ops) := Close s in (s, ops ++ [ClearSession]).

(** [Send(char *msg, short max_length, short msgid)] *)
Definition Send_buffer (msg : list char) (max_length msgid : Z) (s : Session)
    : res (option (Session * list op)) :=
  let send_que_size := Z.of_nat (length (_send_que s)) in
  if bool_decide (send_que_size > MAX_SENDQUE)%Z then Ok (Some (s, []))
  else
    let* o := Pool.SendNode_new msg max_length msgid in
    Ok ((fun n =>
      let s := set_que (_send_que s ++ [n]) s in
      (s, write_op (if decide (send_que_size > 0)%Z then None else head (_send_que s)))) <$> o).

(** [Send(std::string msg, short msgid)] *)
Definition Send (msg : list char) (msgid : Z) (s : Session)
    : res (option (Session * list op)) :=
  let send_que_size := Z.of_nat (length (_send_que s)) in
  if bool_decide (send_que_size > MAX_SENDQUE)%Z then Ok (Some (s, []))
  else
    let* o := Pool.SendNode_new (msg ++ [NUL]) (to_short (Z.of_nat (length msg)))
                (to_short msgid) in
    Ok ((fun n =>
      let s := set_que (_send_que s ++ [n]) s in
      (s, write_op (if decide (send_que_size > 0)%Z then None else head (_send_que s)))) <$> o).

Definition HandleWrite (error : option asio_error) (s : Session)
    : res (Session * list op) :=
  match error with
  | None =>
      match _send_que s with
      | [] => UB
      | _ :: q =>
          let s := set_que q s in
          Ok (s, match q with m :: _ => [AsyncWrite (node_bytes m)] | [] => [] end)
      end
  | Some _ => Ok (close_and_clear s)
  end.

(** [HandleReadHead] and [HandleReadBody] are no longer called. *)
Definition HandleReadHead (error : option asio_error) (bytes_transferred : nat)
    (s : Session) : res (Session * list op) :=
  match error with
  | Some _ => Ok (close_and_clear s)
  | None =>
      if decide (Z.of_nat bytes_transferred <> Pool.HEAD_TOTAL_LEN)%Z
      then Ok (close_and_clear s)
      else
        let* msg_id_net := load16 (_data (_recv_head_node s)) in
        let msg_id := to_short (network_to_host_short msg_id_net) in
        if decide (msg_id <= 0 \/ msg_id > MAX_LENGTH)%Z then Ok (close_and_clear s)
        else
          let* msg_len_net := load16 (drop 2 (_data (_recv_head_node s))) in
          let msg_len := to_short (network_to_host_short msg_len_net) in
          if decide (msg_len <= 0 \/ msg_len > MAX_LENGTH)%Z then Ok (close_and_clear s)
          else
            let* o := Pool.RecvNode_new msg_len msg_id in
            match o with
            | None => Ok (s, [])
            | Some n => Ok (set_msg (Some n) s, [AsyncReadBody (Z.to_nat msg_len)])
            end
  end.

Definition HandleReadBody (error : option asio_error) (bytes_transferred : nat)
    (s : Session) : res (Session * list op) :=
  match error with
  | Some _ => Ok (close_and_clear s)
  | None =>
      let* m := of_option (_recv_msg_node s) in
      let n := Pool.recv_node m in
      if decide (Z.of_nat bytes_transferred <> _total_len n)%Z then Ok (close_and_clear s)
      else
        let n := MkNode (_total_len n) (_total_len n) (_data n) in
        let* n := copy_in (Z.to_nat (_total_len n)) [NUL] n in
        let m := Pool.MkRecv n (Pool.recv_msg_id m) in
        let s := set_msg (Some m) s in
        let* h := Clear (_recv_head_node s) in
        Ok (set_head h s,
          [PostMsgToQue m; AsyncReadHead (Z.to_nat Pool.HEAD_TOTAL_LEN)])
  end.

(** ** The coroutine

    One pass of its loop over what the peer still sends.  [co_await] of a read that
    fails throws, and so do the constructors of the nodes; [Thrown] is such an
    exception, [Return] a [co_return] with the session's last calls, [Next] the end
    of a pass. *)
Inductive pass := Thrown | Return (ops : list op) | Next (ops : list op).

Definition loop_pass (stream : list char) (s : Session)
    : res (pass * Session * list char) :=
  let* h := Clear (_recv_head_node s) in
  let s := set_head h s in
  let '(err, d, stream) := async_read (Z.to_nat Pool.HEAD_TOTAL_LEN) stream in
  let* h := fill d (_recv_head_node s) in
  let s := set_head h s in
  if decide (err <> None) then Ok (Thrown, s, stream)
  else if decide (length d = 0) then
    let '(s, ops) := close_and_clear s in Ok (Return ops, s, stream)
  else
    let* msg_id := load16 (_data (_recv_head_node s)) in
    let msg_id := to_short (network_to_host_short msg_id) in
    if decide (msg_id > MAX_LENGTH)%Z then Ok (Return [ClearSession], s, stream)
    else
      let* msg_len := load16 (drop 2 (_data (_recv_head_node s))) in
      let msg_len := to_short (network_to_host_short msg_len) in
      if decide (msg_len > MAX_LENGTH)%Z then Ok (Return [ClearSession], s, stream)
      else
        let* o := Pool.RecvNode_new msg_len msg_id in
        match o with
        | None => Ok (Thrown, s, stream)
        | Some m =>
            let s := set_msg (Some m) s in
            let '(err, d, stream) := async_read (Z.to_nat msg_len) stream in
            let* n := fill d (Pool.recv_node m) in
            let s := set_msg (Some (Pool.MkRecv n (Pool.recv_msg_id m))) s in
            if decide (err <> None) then Ok (Thrown, s, stream)
            else if decide (length d = 0) then
              let '(s, ops) := close_and_clear s in Ok (Return ops, s, stream)
            else
              let n := MkNode (_total_len n) (_total_len n) (_data n) in
              let* n := copy_in (Z.to_nat (_total_len n)) [NUL] n in
              let m := Pool.MkRecv n (Pool.recv_msg_id m) in
              Ok (Next [PostMsgToQue m], set_msg (Some m) s, stream)
        end.

(** The loop and the handler around it; a closed session leaves the loop. *)
Fixpoint coroutine (fuel : nat) (stream : list char) (s : Session)
    : res (Session * list op) :=
  match fuel with
  | O => OutOfFuel
  | S f =>
      if _b_close s then Ok (s, [])
      else
        let* '(p, s, stream) := loop_pass stream s in
        match p with
        | Thrown => Ok (close_and_clear s)
        | Return ops => Ok (s, ops)
        | Next ops => let* '(s, ops') := coroutine f stream s in Ok (s, ops ++ ops')
        end
  end.

(** [Start]: the coroutine runs on the peer's bytes. *)
Definition Start (fuel : nat) (stream : list char) (s : Session)
    : res (Session * list op) :=
  let* h := Clear (_recv_head_node s) in coroutine fuel stream (set_head h s).
End Coro.

(** ** The shared methods

    They are those of [3. AsyncServerIOservicepool], so its theorems on sending hold
    here. *)
Lemma methods_same :
  (forall msg len id s, Coro.Send_buffer msg len id s = PoolServer.Send_buffer msg len id s)
  /\ (forall msg id s, Coro.Send msg id s = PoolServer.Send msg id s)
  /\ (forall e s, Coro.HandleWrite e s = PoolServer.HandleWrite e s)
  /\ (forall e n s, Coro.HandleReadHead e n s = PoolServer.HandleReadHead e n s)
  /\ (forall e n s, Coro.HandleReadBody e n s = PoolServer.HandleReadBody e n s).
Proof.
  split_and!; try done. intros [e|] s; [done|].
  unfold Coro.HandleWrite, PoolServer.HandleWrite, HandleWrite_done.
  destruct (_send_que s) as [|m [|m' q]]; done.
Qed.

(** ** The frame format of the coroutine

    A head it goes on with: the id is not checked from below. *)
Definition head_numbers (hd : list char) : option (Z * Z) :=
  match load16 hd, load16 (drop 2 hd) with
  | Ok id, Ok len =>
      Some (to_short (network_to_host_short id), to_short (network_to_host_short len))
  | _, _ => None
  end.

Definition coro_head (hd : list char) : option (Z * nat) :=
  match head_numbers hd with
  | Some (id, len) =>
      if decide (id <= MAX_LENGTH /\ 0 < len <= MAX_LENGTH)%Z then Some (id, Z.to_nat len)
      else None
  | None => None
  end.

Definition coro_valid (id : Z) (body : list char) : Prop :=
  (-32768 <= id <= MAX_LENGTH)%Z /\ (0 < Z.of_nat (length body) <= MAX_LENGTH)%Z.

Lemma to_short_uint16 v : to_short (to_uint16 v) = to_short v.
Proof. apply wrap_s_wrap_u. lia. Qed.

Lemma head_numbers_frame id body :
  coro_valid id body ->
  head_numbers (be16 (to_uint16 id) ++ be16 (to_uint16 (Z.of_nat (length body))))
  = Some (id, Z.of_nat (length body)).
Proof.
  unfold coro_valid, MAX_LENGTH. intros [Hid Hlen]. unfold head_numbers.
  change (drop 2 (be16 (to_uint16 id) ++ ?l)) with l.
  pose proof (load_network (to_uint16 id) (be16 (to_uint16 (Z.of_nat (length body))))
    (to_uint16_range _)) as H1.
  pose proof (load_network (to_uint16 (Z.of_nat (length body))) [] (to_uint16_range _)) as H2.
  rewrite app_nil_r in H2.
  destruct (load16 (be16 (to_uint16 id) ++ _)) as [x| |]; try discriminate H1.
  destruct (load16 (be16 (to_uint16 (Z.of_nat _)))) as [y| |]; try discriminate H2.
  injection H1 as ->. injection H2 as ->. rewrite !to_short_uint16.
  by rewrite !to_short_id by lia.
Qed.

Lemma head_numbers_minus_one id :
  (-32768 <= id)%Z -> (id <= MAX_LENGTH)%Z ->
  head_numbers (be16 (to_uint16 id) ++ be16 65535) = Some (id, (-1)%Z).
Proof.
  unfold MAX_LENGTH. intros Hl Hu. unfold head_numbers.
  change (drop 2 (be16 (to_uint16 id) ++ ?l)) with l.
  pose proof (load_network (to_uint16 id) (be16 65535) (to_uint16_range _)) as H.
  destruct (load16 (be16 (to_uint16 id) ++ be16 65535)) as [x| |]; try discriminate H.
  injection H as ->. rewrite to_short_uint16, to_short_id by lia. reflexivity.
Qed.

#[refine, local] Instance coro_format : FrameFormat Z := {|
  ff_head := 4;
  ff_parse := coro_head;
  ff_encode := frame;
  ff_valid := coro_valid;
  ff_head_pos := _;
  ff_encode_parse := _
|}.
Proof.
  - lia.
  - intros id body Hv.
    exists (be16 (to_uint16 id) ++ be16 (to_uint16 (Z.of_nat (length body)))).
    split; [by unfold frame; rewrite <- app_assoc|]. split; [done|].
    unfold coro_head. rewrite head_numbers_frame by done. destruct Hv as [Hi Hl].
    rewrite decide_True by lia. by rewrite Nat2Z.id.
Defined.

(** How the coroutine ends on what the cutting leaves. *)
Inductive coro_ending := EndClosed | EndCleared | EndUB.

Definition coro_end (rest : list char) : coro_ending :=
  if decide (length rest < 4) then EndClosed
  else
    match head_numbers (take 4 rest) with
    | Some (id, len) =>
        if decide (id > MAX_LENGTH \/ len > MAX_LENGTH)%Z then EndCleared
        else if decide (len = -1)%Z then EndUB else EndClosed
    | None => EndClosed
    end.

(** ** One pass *)

(** The session after a head was read: only the head node differs. *)
Lemma loop_pass_short stream s :
  length stream < 4 -> head_ok (_recv_head_node s) ->
  exists s' st, Coro.loop_pass stream s = Ok (Coro.Thrown, s', st).
Proof.
  intros Hs Hh. unfold Coro.loop_pass. destruct (Clear_run _ Hh) as (h & -> & Ht & Hl).
  cbn [res_bind]. change (Z.to_nat Pool.HEAD_TOTAL_LEN) with 4. rewrite async_read_eof by done.
  cbn [_recv_head_node set_head]. rewrite fill_run by lia. cbn. by do 2 eexists.
Qed.

Lemma loop_pass_head stream s id len :
  4 <= length stream -> head_ok (_recv_head_node s) ->
  head_numbers (take 4 stream) = Some (id, len) ->
  exists h, head_ok h /\ Coro.loop_pass stream s =
    let s1 := set_head h s in
    if decide (id > MAX_LENGTH)%Z then Ok (Coro.Return [ClearSession], s1, drop 4 stream)
    else if decide (len > MAX_LENGTH)%Z then Ok (Coro.Return [ClearSession], s1, drop 4 stream)
    else
      let* o := Pool.RecvNode_new len id in
      match o with
      | None => Ok (Coro.Thrown, s1, drop 4 stream)
      | Some m =>
          let s2 := set_msg (Some m) s1 in
          let '(err, d, stream) := async_read (Z.to_nat len) (drop 4 stream) in
          let* n := fill d (Pool.recv_node m) in
          let s3 := set_msg (Some (Pool.MkRecv n (Pool.recv_msg_id m))) s2 in
          if decide (err <> None) then Ok (Coro.Thrown, s3, stream)
          else if decide (length d = 0) then
            let '(s, ops) := Coro.close_and_clear s3 in Ok (Coro.Return ops, s, stream)
          else
            let n := MkNode (_total_len n) (_total_len n) (_data n) in
            let* n := copy_in (Z.to_nat (_total_len n)) [NUL] n in
            let m := Pool.MkRecv n (Pool.recv_msg_id m) in
            Ok (Coro.Next [PostMsgToQue m], set_msg (Some m) s3, stream)
      end.
Proof.
  intros Hs Hh Hn. unfold Coro.loop_pass. destruct (Clear_run _ Hh) as (h & -> & Ht & Hl).
  cbn [res_bind]. change (Z.to_nat Pool.HEAD_TOTAL_LEN) with 4. rewrite async_read_ok by done.
  assert (length (take 4 stream) = 4) as Hlen by (rewrite length_take; lia).
  cbn [_recv_head_node set_head]. rewrite fill_run by lia. cbn [res_bind].
  set (h' := MsgNode.set_data _ h). exists h'.
  split. { split; [done|]. unfold h'. cbn. by rewrite length_blit by lia. }
  rewrite decide_False by tauto. rewrite decide_False by lia.
  assert (_data h' = blit 0 (take 4 stream) (_data h)) as Hd by done.
  change (_recv_head_node (set_head h' _)) with h'. rewrite Hd.
  rewrite load16_blit, load16_blit_2 by lia. unfold head_numbers in Hn.
  destruct (load16 (take 4 stream)) as [a| |]; [|done..].
  destruct (load16 (drop 2 (take 4 stream))) as [b| |]; [|done..].
  injection Hn as Ha Hb. cbn [res_bind]. rewrite Ha, Hb. reflexivity.
Qed.

Lemma head_numbers_total stream :
  4 <= length stream -> exists id len, head_numbers (take 4 stream) = Some (id, len).
Proof.
  destruct stream as [|a [|b [|c [|d l]]]]; simpl; try lia. intros _.
  unfold head_numbers. cbn. by do 2 eexists.
Qed.

(** The node of an accepted head, filled with a body. *)
Lemma RecvNode_new_run len id :
  (0 <= len <= MAX_LENGTH)%Z ->
  Pool.RecvNode_new len id
  = Ok (Some (Pool.MkRecv (MkNode len 0 (replicate (S (Z.to_nat len)) NUL)) id)).
Proof.
  unfold MAX_LENGTH. intros Hl. unfold Pool.RecvNode_new, Pool.MsgNode_new.
  rewrite decide_False by lia. rewrite decide_False by lia. cbn.
  by replace (Z.to_nat (len + 1)) with (S (Z.to_nat len)) by lia.
Qed.

Lemma coro_head_numbers hd id len n :
  head_numbers hd = Some (id, len) ->
  coro_head hd = Some (id, n) <->
  ((id <= MAX_LENGTH)%Z /\ (0 < len <= MAX_LENGTH)%Z /\ n = Z.to_nat len).
Proof.
  intros H. unfold coro_head. rewrite H. case_decide as Hd; split.
  - intros [= <-]. by destruct Hd.
  - by intros (_ & _ & ->).
  - done.
  - intros (? & ? & _). by destruct Hd.
Qed.

Lemma loop_pass_accept stream s id n :
  4 + n <= length stream -> head_ok (_recv_head_node s) ->
  coro_head (take 4 stream) = Some (id, n) ->
  exists s' m, Coro.loop_pass stream s
      = Ok (Coro.Next [PostMsgToQue m], s', drop (4 + n) stream)
    /\ posted (PostMsgToQue m) = Some (id, take n (drop 4 stream)) /\ node_full m
    /\ head_ok (_recv_head_node s') /\ _b_close s' = _b_close s.
Proof.
  intros Hs Hh Hc. destruct (head_numbers_total stream) as (id' & len & Hn); [lia|].
  assert (id' = id) as ->.
  { unfold coro_head in Hc. rewrite Hn in Hc. case_decide; [|done]. by injection Hc. }
  pose proof (proj1 (coro_head_numbers _ id len n Hn) Hc) as (Hi & Hl & ->).
  destruct (loop_pass_head stream s id len) as (h & Hhok & ->); [lia|done..|]. cbv zeta.
  rewrite decide_False by lia. rewrite decide_False by lia.
  rewrite RecvNode_new_run by lia. cbn [res_bind].
  rewrite async_read_ok by (rewrite length_drop; lia).
  set (body := take _ (drop 4 stream)).
  assert (length body = Z.to_nat len) as Hb
    by (unfold body; rewrite length_take, length_drop; lia).
  cbn [Pool.recv_node Pool.recv_msg_id]. rewrite fill_run
    by (cbn [_data]; rewrite length_replicate; lia).
  cbn [res_bind]. rewrite decide_False by tauto. rewrite decide_False by lia.
  unfold MsgNode.set_data. cbn [_data _total_len _cur_len].
  rewrite (blit_body body (Z.to_nat len)) by done.
  rewrite copy_in_ok by (cbn [_data]; rewrite length_app; simpl; lia). cbn [res_bind].
  do 2 eexists. split; [by rewrite drop_drop|]. unfold MsgNode.set_data.
  cbn [posted Pool.GetMsgId Pool.recv_msg_id Pool.recv_node _cur_len _data _total_len].
  split; [|split; [|done]].
  - rewrite blit_in_range by (rewrite length_app; simpl; lia).
    rewrite <- Hb at 1 2. rewrite take_app_length.
    rewrite <- Hb at 1. by rewrite take_app_length.
  - unfold node_full. cbn. rewrite length_blit; rewrite length_app; simpl; lia.
Qed.

(** A pass that ends the coroutine. *)
Lemma loop_pass_stop stream s :
  head_ok (_recv_head_node s) ->
  (forall id n, coro_head (take 4 stream) = Some (id, n) -> length stream < 4 + n) ->
  match coro_end stream with
  | EndUB => Coro.loop_pass stream s = UB
  | EndCleared =>
      exists s' st, Coro.loop_pass stream s = Ok (Coro.Return [ClearSession], s', st)
        /\ _b_close s' = _b_close s
  | EndClosed =>
      exists s' st, Coro.loop_pass stream s = Ok (Coro.Thrown, s', st)
      \/ Coro.loop_pass stream s = Ok (Coro.Return [SocketClose; ClearSession], s', st)
         /\ _b_close s' = true
  end.
Proof.
  intros Hh Hstop. unfold coro_end. case_decide as Hs.
  { destruct (loop_pass_short stream s Hs Hh) as (s' & st & ->). do 2 eexists. by left. }
  destruct (head_numbers_total stream) as (id & len & Hn); [lia|]. rewrite Hn.
  destruct (loop_pass_head stream s id len) as (h & Hhok & ->); [lia|done..|]. cbv zeta.
  destruct (decide (id > MAX_LENGTH)%Z) as [Hi|Hi].
  { rewrite decide_True by (by left). by do 2 eexists. }
  destruct (decide (len > MAX_LENGTH)%Z) as [Hl|Hl].
  { rewrite decide_True by (by right). by do 2 eexists. }
  rewrite decide_False by lia. destruct (decide (len = -1)%Z) as [->|Hm1]; [done|].
  destruct (decide (len < 0)%Z) as [Hneg|Hneg].
  { unfold Pool.RecvNode_new, Pool.MsgNode_new. rewrite decide_True by lia. cbn.
    do 2 eexists. by left. }
  rewrite RecvNode_new_run by lia. cbn [res_bind Pool.recv_node Pool.recv_msg_id].
  destruct (decide (len = 0)%Z) as [->|H0].
  { rewrite async_read_ok by (simpl; lia). cbn. do 2 eexists. right. done. }
  assert (length (drop 4 stream) < Z.to_nat len) as Hshort.
  { rewrite length_drop.
    pose proof (Hstop id (Z.to_nat len)) as H. rewrite coro_head_numbers in H by exact Hn.
    specialize (H ltac:(split_and!; lia || done)). lia. }
  rewrite async_read_eof by done. rewrite fill_run by (cbn [_data]; rewrite length_replicate; lia).
  cbn. do 2 eexists. by left.
Qed.

(** ** The coroutine *)

Definition never_closes (ops : list op) : Prop := (SocketClose ∉ ops) /\ (ClearSession ∉ ops).

(** How the calls of a coroutine that ended end: closed and removed, or removed only. *)
Definition coro_ends (e : coro_ending) (s : Session) (ops : list op) : Prop :=
  exists l, never_closes l /\
  match e with
  | EndClosed => ops = l ++ [SocketClose; ClearSession] /\ _b_close s = true
  | EndCleared => ops = l ++ [ClearSession] /\ _b_close s = false
  | EndUB => False
  end.

Lemma coro_ends_cons m e s ops :
  coro_ends e s ops -> coro_ends e s (PostMsgToQue m :: ops).
Proof.
  intros (l & [H1 H2] & H). exists (PostMsgToQue m :: l). split.
  - split; apply not_elem_of_cons; by split.
  - destruct e; [by destruct H as [-> ?]..|done].
Qed.

(** A pass that ends it. *)
Lemma coroutine_stop f stream s :
  head_ok (_recv_head_node s) -> _b_close s = false ->
  (forall id n, coro_head (take 4 stream) = Some (id, n) -> length stream < 4 + n) ->
  let r :=
    let* '(p, s, stream) := Coro.loop_pass stream s in
    match p with
    | Coro.Thrown => Ok (Coro.close_and_clear s)
    | Coro.Return ops => Ok (s, ops)
    | Coro.Next ops => let* '(s, ops') := Coro.coroutine f stream s in Ok (s, ops ++ ops')
    end in
  match coro_end stream with
  | EndUB => r = UB
  | e => exists s' ops, r = Ok (s', ops)
      /\ omap posted ops = [] /\ Forall post_full ops /\ coro_ends e s' ops
  end.
Proof.
  intros Hh Hb Hstop r. pose proof (loop_pass_stop stream s Hh Hstop) as Hpass.
  assert (never_closes []) as H0 by (split; apply not_elem_of_nil).
  subst r. destruct (coro_end stream).
  - destruct Hpass as (s' & st & [-> |[-> Hc]]); cbn [res_bind];
      do 2 eexists; (split; [reflexivity|]); (split; [done|]); (split; [by repeat constructor|]);
      by exists [].
  - destruct Hpass as (s' & st & -> & Hc). cbn [res_bind]. do 2 eexists.
    split; [reflexivity|]. split; [done|]. split; [by repeat constructor|].
    exists []. by rewrite Hc.
  - by rewrite Hpass.
Qed.

Lemma coroutine_run k f stream s :
  length stream <= k -> k < f -> head_ok (_recv_head_node s) -> _b_close s = false ->
  match coro_end (leftover (F := coro_format) stream) with
  | EndUB => Coro.coroutine f stream s = UB
  | e =>
      exists s' ops, Coro.coroutine f stream s = Ok (s', ops)
      /\ omap posted ops = (cut (F := coro_format) stream).1 /\ Forall post_full ops
      /\ coro_ends e s' ops
  end.
Proof.
  revert f stream s. induction k as [k IH] using lt_wf_ind. intros f stream s Hk Hf Hh Hb.
  destruct f as [|f]; [lia|]. cbn [Coro.coroutine]. rewrite Hb.
  destruct (coro_head (take 4 stream)) as [[id n]|] eqn:Hc;
    [destruct (decide (4 + n <= length stream)) as [Hn|Hn]|].
  - (* a whole frame *)
    destruct (loop_pass_accept stream s id n Hn Hh Hc) as (s1 & m & -> & Hp & Hfull & Hh1 & Hb1).
    cbn [res_bind]. rewrite (leftover_frame (F := coro_format) stream id n Hc) by exact Hn.
    rewrite (cut_frame (F := coro_format) stream id n Hc) by exact Hn.
    change ff_head with 4.
    assert (length (drop (4 + n) stream) <= k - 4) as Hd by (rewrite length_drop; lia).
    specialize (IH (k - 4) ltac:(lia) f (drop (4 + n) stream) s1 Hd ltac:(lia) Hh1
      ltac:(by rewrite Hb1)).
    destruct (coro_end _); [..| by rewrite IH];
      (destruct IH as (s' & ops & -> & Hpost & Hall & He); cbn [res_bind];
       exists s', (PostMsgToQue m :: ops); split; [done|];
       split; [|split; [by apply Forall_cons | by apply coro_ends_cons]];
       cbn [omap list_omap]; rewrite Hp; destruct (cut _); cbn in *; by rewrite Hpost).
  - (* a head whose body is not complete *)
    assert (forall id' n', coro_head (take 4 stream) = Some (id', n') -> length stream < 4 + n')
      as Hstop by (intros id' n' H; rewrite H in Hc; injection Hc as -> ->; lia).
    rewrite (leftover_here (F := coro_format)) by (by right).
    assert ((cut (F := coro_format) stream).1 = []) as ->.
    { destruct (decide (length stream < 4)) as [Hs|Hs].
      - by rewrite (cut_short (F := coro_format)) by exact Hs.
      - rewrite (cut_short_body (F := coro_format) stream id n); [done| |exact Hc|];
          change ff_head with 4; lia. }
    by apply coroutine_stop.
  - rewrite (leftover_here (F := coro_format)) by (right; intros h n Hx;
      change (coro_head (take 4 stream) = Some (h, n)) in Hx; congruence).
    assert ((cut (F := coro_format) stream).1 = []) as ->.
    { destruct (decide (length stream < 4)) as [Hs|Hs].
      - by rewrite (cut_short (F := coro_format)) by exact Hs.
      - by rewrite (cut_rejected (F := coro_format)) by (exact Hc || change ff_head with 4; lia). }
    apply coroutine_stop; [done..|]. intros. congruence.
Qed.


(** C35: A head that announces the length -1 (the bytes FF FF) makes the session write
    before the array of the node, after any valid messages. *)
Theorem coroutine_length_minus_one ms id rest s :
  Forall (fun '(id, body) => coro_valid id body) ms -> (id <= MAX_LENGTH)%Z ->
  (-32768 <= id)%Z -> head_ok (_recv_head_node s) -> _b_close s = false ->
  let stream := concat ((fun '(id, body) => frame id body) <$> ms)
                ++ be16 (to_uint16 id) ++ be16 65535 ++ rest in
  Coro.Start (S (length stream)) stream s = UB.
Proof.
  intros Hms Hid Hlow Hh Hb stream. unfold Coro.Start.
  destruct (Clear_run _ Hh) as (h & -> & Hh1). cbn [res_bind].
  pose proof (coroutine_run (length stream) (S (length stream)) stream (set_head h s)
    (le_n _) (le_n _) Hh1 Hb) as H.
  assert (leftover (F := coro_format) stream = be16 (to_uint16 id) ++ be16 65535 ++ rest) as Hl.
  { unfold stream. apply (leftover_encode (F := coro_format) ms); [done|].
    right. intros h' n Hc. exfalso. revert Hc.
    change (coro_head (be16 (to_uint16 id) ++ be16 65535) = Some (h', n) -> False).
    unfold coro_head. rewrite head_numbers_minus_one by done. unfold MAX_LENGTH.
    by rewrite decide_False by lia. }
  rewrite Hl in H. unfold coro_end in H.
  rewrite decide_False in H by (rewrite !length_app; simpl; lia).
  change (take 4 (be16 (to_uint16 id) ++ be16 65535 ++ rest))
    with (be16 (to_uint16 id) ++ be16 65535) in H.
  rewrite head_numbers_minus_one in H by done. unfold MAX_LENGTH in *.
  by rewrite decide_False in H by lia.
Qed.


Lemma coroutine_length_minus_one_witness :
  exists s, Coro.Session_new = Ok s /\
    Coro.Start 100 (concat ((fun '(id, body) => frame id body) <$> [(1001%Z, lit "hi")])
                    ++ be16 (to_uint16 7) ++ be16 65535 ++ []) s = UB.
Proof.
  destruct Session_new_run as (s & Hn & Hb & _ & Hh). exists s. split; [exact Hn|].
  pose proof (coroutine_length_minus_one [(1001%Z, lit "hi")] 7 [] s) as H.
  vm_compute in Hn. injection Hn as <-. vm_compute. vm_compute in H. apply H.
  - constructor; [split; split; vm_compute; (reflexivity || discriminate) | constructor].
  - discriminate.
  - discriminate.
  - split; reflexivity.
  - reflexivity.
Defined.
