(* ===== verification/Receiver.v ===== *)
(** * How a session of the two pool servers receives

    The logic system and the send queue do not depend on how a session reads:
    [Receiver] is what they rely on.  [3. AsyncServerIOservicepool] fulfils it with
    two completion handlers ([pool_receiver]), [4. CoroutineAsyncServer] with a
    coroutine ([coro_receiver]). *)

From S2P Require Import Prelude CBase Frame MsgNode SendQueue PoolServer Callback CoroServer.

(** A session, the read it waits for, and the bytes that are still to arrive. *)
Record link := MkLink {
  k_session : Session;
  k_read : option op;
  k_stream : list char
}.

Definition on_session (f : Session -> Session) (k : link) : link :=
  MkLink (f (k_session k)) (k_read k) (k_stream k).

(** The connection ends after [n] more bytes. *)
Definition cut_off (n : nat) (k : link) : link :=
  MkLink (k_session k) (k_read k) (take n (k_stream k)).

(** The calls a completed read may make: no write, and at most one message. *)
Definition read_ops (ops : list op) : Prop :=
  (forall d, AsyncWrite d ∉ ops) /\ Forall post_full ops /\ length (omap posted ops) <= 1.

(** Changes that sending makes to a session under the receiver. *)
Definition same_receiving (s s' : Session) : Prop :=
  _recv_msg_node s' = _recv_msg_node s /\ _recv_head_node s' = _recv_head_node s.

(** [rd_step] completes the read in progress: with its bytes when they are among
    those to arrive ([rd_due]), with an error otherwise.  [rd_rest] are the messages
    still to be posted and how the stream ends after them. *)
Class Receiver := {
  rd_start : list char -> res link;
  rd_step : link -> res (link * list op);
  rd_due : link -> bool;
  rd_valid : list char -> Prop;
  rd_cut : list char -> list (Z * list char) * stream_end;
  rd_ok : link -> Prop;
  rd_rest : link -> list (Z * list char) * stream_end;
  rd_work : link -> nat;
  rd_start_run st :
    rd_valid st ->
    exists k, rd_start st = Ok k /\ rd_ok k /\ rd_rest k = rd_cut st
      /\ _send_que (k_session k) = [] /\ _b_close (k_session k) = false;
  rd_step_due k :
    rd_ok k -> rd_due k = true ->
    exists k' ops, rd_step k = Ok (k', ops) /\ rd_ok k' /\ read_ops ops
      /\ _send_que (k_session k') = _send_que (k_session k)
      /\ rd_work k' < rd_work k
      /\ omap posted ops ++ (rd_rest k').1 `prefix_of` (rd_rest k).1
      /\ (_b_close (k_session k) = false ->
          rd_rest k = (omap posted ops ++ (rd_rest k').1, (rd_rest k').2)
          /\ (SocketClose ∈ ops \/ _b_close (k_session k') = false)
          /\ ((rd_rest k').2 = StreamShort -> SocketClose ∉ ops));
  rd_step_end n k :
    rd_ok k -> is_Some (k_read k) -> rd_due (cut_off n k) = false ->
    exists k' ops, rd_step (cut_off n k) = Ok (k', ops) /\ rd_ok k'
      /\ _send_que (k_session k') = _send_que (k_session k)
      /\ (forall d, AsyncWrite d ∉ ops) /\ omap posted ops = []
      /\ SocketClose ∈ ops /\ (rd_rest k').1 = [];
  rd_due_reading k : rd_due k = true -> is_Some (k_read k);
  rd_waiting k : rd_ok k -> rd_due k = false -> (rd_rest k).1 = [];
  rd_sending f k :
    (forall s, same_receiving s (f s)) ->
    (rd_ok k -> rd_ok (on_session f k)) /\ rd_rest (on_session f k) = rd_rest k
    /\ rd_work (on_session f k) = rd_work k
}.

(** ** The two completion handlers *)
Module PoolReceiver.
Definition start (st : list char) : res link :=
  let* s := Session_new in
  let* '(s, ops) := Start s in
  Ok (MkLink s (next_read ops) st).

Definition step (k : link) : res (link * list op) :=
  match k_read k with
  | None => Ok (k, [])
  | Some rd =>
      let* '(s, ops, stream) := read_done rd (k_stream k) (k_session k) in
      Ok (MkLink s (next_read ops) stream, ops)
  end.

Definition due (k : link) : bool :=
  match k_read k with
  | Some (AsyncReadHead n) | Some (AsyncReadBody n) => bool_decide (n <= length (k_stream k))
  | _ => false
  end.

Definition rest (k : link) : list (Z * list char) * stream_end :=
  match k_read k with
  | Some (AsyncReadHead _) => cut (F := pool_format) (k_stream k)
  | Some (AsyncReadBody n) =>
      if decide (length (k_stream k) < n) then ([], StreamShort)
      else
        let '(ms, e) := cut (F := pool_format) (drop n (k_stream k)) in
        (match _recv_msg_node (k_session k) with
         | Some m => (Pool.GetMsgId m, take n (k_stream k)) :: ms
         | None => ms
         end, e)
  | _ => ([], StreamRejected)
  end.

(** The body's read fills the node of its head. *)
Definition ok (k : link) : Prop :=
  head_ok (_recv_head_node (k_session k))
  /\ match k_read k with
     | Some (AsyncReadHead n) => n = 4
     | Some (AsyncReadBody n) =>
         0 < n /\ exists id, _recv_msg_node (k_session k)
           = Some (Pool.MkRecv (MkNode (Z.of_nat n) 0 (replicate (S n) NUL)) id)
     | None => True
     | _ => False
     end.

Definition work (k : link) : nat :=
  match k_read k with
  | Some (AsyncReadHead _) => 2 * length (k_stream k) + 2
  | Some (AsyncReadBody _) => 2 * length (k_stream k) + 1
  | _ => 0
  end.

Lemma body_queue e n s s' ops :
  HandleReadBody e n s = Ok (s', ops) ->
  _send_que s' = _send_que s /\ (SocketClose ∈ ops \/ _b_close s' = _b_close s).
Proof.
  unfold HandleReadBody. destruct e; [intros [= <- <-]; split; [done|left; left]|]. intros H.
  destruct (_recv_msg_node s) as [m|]; [|discriminate H]. cbn [of_option res_bind] in H.
  case_decide; [injection H as <- <-; split; [done|left; left]|].
  destruct (copy_in _ _ _) as [n'| |]; cbn [res_bind] in H; try discriminate H.
  destruct (Clear _) as [h| |]; cbn [res_bind] in H; try discriminate H.
  injection H as <- <-. split; [done|by right].
Qed.

Lemma parse_head_pos hd id n : parse_head hd = Some (id, n) -> 0 < n.
Proof.
  unfold parse_head. destruct (load16 hd), (load16 (drop 2 hd)); try done.
  case_decide; [|done]. intros [= _ <-]. lia.
Qed.

(** A step that completes on the bytes it waits for. *)
Lemma step_head k :
  ok k -> k_read k = Some (AsyncReadHead 4) -> 4 <= length (k_stream k) ->
  exists h, head_ok h /\ step k = Ok (
    match parse_head (take 4 (k_stream k)) with
    | Some (id, n) =>
        (MkLink (set_msg (Some (Pool.MkRecv (MkNode (Z.of_nat n) 0 (replicate (S n) NUL)) id))
                   (set_head h (k_session k))) (Some (AsyncReadBody n)) (drop 4 (k_stream k)),
         [AsyncReadBody n])
    | None => (MkLink (set_close true (set_head h (k_session k))) None (drop 4 (k_stream k)),
               [SocketClose; ClearSession])
    end).
Proof.
  intros [Hh _] Hr Hs. destruct (read_head_run (k_stream k) (k_session k) Hs Hh) as (h & Hok & H).
  exists h. split; [done|]. unfold step. rewrite Hr, H. cbn [res_bind].
  by destruct (parse_head _) as [[id n]|].
Qed.

Lemma rest_head k :
  k_read k = Some (AsyncReadHead 4) -> 4 <= length (k_stream k) ->
  rest k = match parse_head (take 4 (k_stream k)) with
           | Some (id, n) =>
               if decide (length (drop 4 (k_stream k)) < n) then ([], StreamShort)
               else
                 let '(ms, e) := cut (F := pool_format) (drop n (drop 4 (k_stream k))) in
                 ((id, take n (drop 4 (k_stream k))) :: ms, e)
           | None => ([], StreamRejected)
           end.
Proof.
  intros Hr Hs. unfold rest. rewrite Hr.
  destruct (parse_head (take 4 (k_stream k))) as [[id n]|] eqn:Hp.
  - rewrite length_drop. case_decide as Hn.
    + apply (cut_short_body (F := pool_format) (k_stream k) id n);
        [exact Hs | exact Hp | change ff_head with 4; lia].
    + rewrite (cut_frame (F := pool_format) (k_stream k) id n Hp) by (change ff_head with 4; lia).
      change ff_head with 4. by rewrite drop_drop.
  - by apply (cut_rejected (F := pool_format)).
Qed.
End PoolReceiver.

(** The whole step of a read whose bytes are there. *)
Lemma pool_step_due k :
  PoolReceiver.ok k -> PoolReceiver.due k = true ->
  exists k' ops, PoolReceiver.step k = Ok (k', ops) /\ PoolReceiver.ok k' /\ read_ops ops
    /\ _send_que (k_session k') = _send_que (k_session k)
    /\ PoolReceiver.work k' < PoolReceiver.work k
    /\ PoolReceiver.rest k
       = (omap posted ops ++ (PoolReceiver.rest k').1, (PoolReceiver.rest k').2)
    /\ (_b_close (k_session k) = false ->
        (SocketClose ∈ ops \/ _b_close (k_session k') = false)
        /\ ((PoolReceiver.rest k').2 = StreamShort -> SocketClose ∉ ops)).
Proof.
  intros Hok Hdue. pose proof Hok as [Hh Hr]. unfold PoolReceiver.due in Hdue.
  destruct (k_read k) as [[n|n| | | |]|] eqn:Ek; try discriminate Hdue;
    apply bool_decide_eq_true in Hdue.
  - subst n. destruct (PoolReceiver.step_head k Hok Ek Hdue) as (h & Hhok & Hs).
    rewrite Hs, (PoolReceiver.rest_head k Ek Hdue).
    destruct (parse_head (take 4 (k_stream k))) as [[id n]|] eqn:Hp.
    + do 2 eexists. split; [done|]. split.
      { split; [done|]. split; [exact (PoolReceiver.parse_head_pos _ _ _ Hp)|by eexists]. }
      split; [split; [intros d; not_in|by repeat constructor]|]. split; [done|].
      split; [unfold PoolReceiver.work; rewrite Ek; cbn; rewrite length_drop; lia|].
      split; [|intros Hb; split; [by right|intros _; not_in]].
      unfold PoolReceiver.rest. cbn [k_read k_stream k_session _recv_msg_node set_msg].
      case_decide; [done|]. by destruct (cut (F := pool_format) _).
    + do 2 eexists. split; [done|]. split; [by split|].
      split; [split; [intros d; not_in|by repeat constructor]|]. split; [done|].
      split; [unfold PoolReceiver.work; rewrite Ek; cbn; lia|]. split; [done|].
      intros _. split; [left; left|done].
  - destruct Hr as (Hn & id & Hm).
    destruct (read_body_run (k_stream k) (k_session k) id n Hdue Hh Hm)
      as (s1 & m & Hrun & Hpost & Hfull & Hh1).
    assert (_send_que s1 = _send_que (k_session k) /\ _b_close s1 = _b_close (k_session k))
      as [Hq Hb].
    { revert Hrun. cbn [read_done]. rewrite async_read_ok by done. rewrite Hm.
      cbn [of_option res_bind]. destruct (fill _ _) as [b| |]; cbn [res_bind]; try done.
      destruct (HandleReadBody _ _ _) as [[s2 ops]| |] eqn:E; cbn [res_bind]; try done.
      intros [= -> ->]. apply PoolReceiver.body_queue in E as [E1 [E2|E2]]; [|done].
      exfalso. revert E2. not_in. }
    do 2 eexists. split; [unfold PoolReceiver.step; rewrite Ek, Hrun; reflexivity|].
    split; [by split|]. split; [split; [intros d; not_in|split; [by repeat (apply Forall_cons; split; [done|])|]]|].
    { cbn [omap list_omap]. rewrite Hpost. cbn. lia. }
    split; [done|].
    split; [unfold PoolReceiver.work; rewrite Ek; cbn; rewrite length_drop; lia|].
    split; [|intros Hc; split; [right; cbn; congruence|intros _; not_in]].
    unfold PoolReceiver.rest. rewrite Ek. cbn [next_read k_read k_stream k_session].
    rewrite decide_False by lia. rewrite Hm. cbn [omap list_omap]. rewrite Hpost.
    by destruct (cut (F := pool_format) _).
Qed.

#[refine, export] Instance pool_receiver : Receiver := {|
  rd_start := PoolReceiver.start;
  rd_step := PoolReceiver.step;
  rd_due := PoolReceiver.due;
  rd_valid _ := True;
  rd_cut := cut (F := pool_format);
  rd_ok := PoolReceiver.ok;
  rd_rest := PoolReceiver.rest;
  rd_work := PoolReceiver.work;
  rd_start_run := _;
  rd_step_due := _;
  rd_step_end := _;
  rd_due_reading := _;
  rd_waiting := _;
  rd_sending := _
|}.
Proof.
  - intros st _. eexists. split; [reflexivity|]. by split_and!.
  - intros k Hok Hd.
    destruct (pool_step_due k Hok Hd) as (k' & ops & Hs & Hok' & Ho & Hq & Hw & Hr & Hb).
    exists k', ops. split_and!; [done..|by rewrite Hr|]. intros H. by split; [|apply Hb].
  - intros n k [Hh Hr] [rd Hrd] Hd. unfold PoolReceiver.due in Hd.
    unfold PoolReceiver.step. cbn [k_read cut_off k_session k_stream] in *. rewrite Hrd in *.
    destruct rd as [n'|n'| | | |]; try done; apply bool_decide_eq_false in Hd.
    + subst n'. destruct (read_head_eof (take n (k_stream k)) (k_session k)) as (h & -> & Hh');
        [lia|done|].
      do 2 eexists. split; [done|]. cbn. split; [by split|]. split; [done|].
      split; [intros d; not_in|]. split; [done|]. split; [left|done].
    + destruct Hr as (Hn & id & Hm).
      destruct (read_body_eof (take n (k_stream k)) (k_session k) id n') as (m & ->);
        [lia|done|done|].
      do 2 eexists. split; [done|]. cbn. split; [by split|]. split; [done|].
      split; [intros d; not_in|]. split; [done|]. split; [left|done].
  - intros k. unfold PoolReceiver.due. by destruct (k_read k).
  - intros k [_ Hr] Hd. unfold PoolReceiver.due, PoolReceiver.rest in *.
    destruct (k_read k) as [[n|n| | | |]|]; try done; apply bool_decide_eq_false in Hd.
    + subst n. rewrite (cut_short (F := pool_format)); [done|]. change ff_head with 4. lia.
    + by rewrite decide_True by lia.
  - intros f k Hf. destruct (Hf (k_session k)) as [Hm Hh].
    unfold PoolReceiver.ok, PoolReceiver.rest. cbn [on_session k_session k_read k_stream].
    by rewrite Hm, Hh.
Defined.

(** ** The coroutine

    One pass of its loop is one step: its two reads change only its own nodes, so
    what other handlers do between them makes no difference.  While the coroutine
    runs, [k_read] is the read its pass begins with. *)
Module CoroReceiver.
Definition start (st : list char) : res link :=
  let* s := Coro.Session_new in
  let* h := Clear (_recv_head_node s) in
  Ok (MkLink (set_head h s) (Some (AsyncReadHead 4)) st).

(** The end of a pass is the test of the loop. *)
Definition step (k : link) : res (link * list op) :=
  match k_read k with
  | None => Ok (k, [])
  | Some rd =>
      let* '(p, s, stream) := Coro.loop_pass (k_stream k) (k_session k) in
      match p with
      | Coro.Thrown =>
          let '(s, ops) := Coro.close_and_clear s in Ok (MkLink s None stream, ops)
      | Coro.Return ops => Ok (MkLink s None stream, ops)
      | Coro.Next ops => Ok (MkLink s (if _b_close s then None else Some rd) stream, ops)
      end
  end.

(** [step] is the turn of [Coro.coroutine]. *)
Lemma coroutine_step f stream s :
  _b_close s = false ->
  Coro.coroutine (S (S f)) stream s
  = let* '(k, ops) := step (MkLink s (Some (AsyncReadHead 4)) stream) in
    match k_read k with
    | None => Ok (k_session k, ops)
    | Some _ =>
        let* '(s, ops') := Coro.coroutine (S f) (k_stream k) (k_session k) in Ok (s, ops ++ ops')
    end.
Proof.
  intros Hb. cbn [Coro.coroutine]. rewrite Hb. unfold step. cbn [k_read k_stream k_session].
  destruct (Coro.loop_pass stream s) as [[[[|ops|ops] s'] st]| |]; cbn [res_bind]; try done.
  destruct (_b_close s') eqn:E; cbn [k_read k_stream k_session res_bind]; [|by rewrite E].
  by rewrite app_nil_r.
Qed.

(** The pass has its frame, or a head that ends it. *)
Definition due (k : link) : bool :=
  match k_read k with
  | None => false
  | Some _ =>
      match coro_head (take 4 (k_stream k)) with
      | Some (_, n) => bool_decide (4 + n <= length (k_stream k))
      | None => bool_decide (4 <= length (k_stream k))
      end
  end.

Definition rest (k : link) : list (Z * list char) * stream_end :=
  match k_read k with
  | None => ([], StreamRejected)
  | Some _ => cut (F := coro_format) (k_stream k)
  end.

Definition ok (k : link) : Prop :=
  match k_read k with
  | None => True
  | Some _ =>
      head_ok (_recv_head_node (k_session k))
      /\ coro_end (leftover (F := coro_format) (k_stream k)) <> EndUB
  end.

Definition work (k : link) : nat :=
  match k_read k with None => 0 | Some _ => S (length (k_stream k)) end.

(** A pass does not send, and only its end closes the session. *)
Lemma loop_pass_sending stream s p s' st :
  Coro.loop_pass stream s = Ok (p, s', st) ->
  _send_que s' = _send_que s
  /\ match p with
     | Coro.Return ops =>
         ops = [SocketClose; ClearSession] \/ ops = [ClearSession] /\ _b_close s' = _b_close s
     | Coro.Next ops => (exists m, ops = [PostMsgToQue m]) /\ _b_close s' = _b_close s
     | Coro.Thrown => True
     end.
Proof.
  unfold Coro.loop_pass. intros H.
  destruct (Clear _) as [h| |]; cbn [res_bind] in H; try discriminate H.
  destruct (async_read _ _) as [[e d] st1].
  destruct (fill d _) as [h1| |]; cbn [res_bind] in H; try discriminate H.
  case_decide; [by injection H as <- <- <-|].
  case_decide; [injection H as <- <- <-; split; [done|by left]|].
  destruct (load16 _) as [x| |]; cbn [res_bind] in H; try discriminate H.
  case_decide; [injection H as <- <- <-; split; [done|by right]|].
  destruct (load16 _) as [y| |]; cbn [res_bind] in H; try discriminate H.
  case_decide; [injection H as <- <- <-; split; [done|by right]|].
  destruct (Pool.RecvNode_new _ _) as [[m|]| |]; cbn [res_bind] in H; try discriminate H;
    [|by injection H as <- <- <-].
  destruct (async_read _ st1) as [[e2 d2] st2].
  destruct (fill d2 _) as [n| |]; cbn [res_bind] in H; try discriminate H.
  case_decide; [by injection H as <- <- <-|].
  case_decide; [injection H as <- <- <-; split; [done|by left]|].
  destruct (copy_in _ _ _) as [n'| |]; cbn [res_bind] in H; try discriminate H.
  injection H as <- <- <-. split; [done|]. split; [by eexists|done].
Qed.
End CoroReceiver.

(** A pass that ends the coroutine. *)
Lemma coro_step_stop stream k rd :
  CoroReceiver.ok k -> k_read k = Some rd ->
  (forall id n, coro_head (take 4 stream) = Some (id, n) -> length stream < 4 + n) ->
  coro_end stream <> EndUB ->
  exists k' ops, CoroReceiver.step (MkLink (k_session k) (k_read k) stream) = Ok (k', ops)
    /\ k_read k' = None /\ (forall d, AsyncWrite d ∉ ops)
    /\ _send_que (k_session k') = _send_que (k_session k)
    /\ Forall post_full ops /\ omap posted ops = []
    /\ (SocketClose ∈ ops
        \/ coro_end stream = EndCleared /\ _b_close (k_session k') = _b_close (k_session k)).
Proof.
  intros Hok Hrd Hstop Hne. unfold CoroReceiver.ok in Hok. rewrite Hrd in *.
  destruct Hok as [Hh _]. pose proof (loop_pass_stop stream (k_session k) Hh Hstop) as Hp.
  unfold CoroReceiver.step. cbn [k_read k_session k_stream].
  destruct (coro_end stream); [| |done].
  - destruct Hp as (s' & st & [H|[H Hc]]); pose proof H as [Hq _]%CoroReceiver.loop_pass_sending;
      rewrite H; cbn [res_bind]; do 2 eexists; (split; [reflexivity|]); cbn;
      (split_and!; [done | intros d; not_in | done | by repeat constructor | done | left; left]).
  - destruct Hp as (s' & st & H & Hc). pose proof H as [Hq _]%CoroReceiver.loop_pass_sending.
    rewrite H. cbn [res_bind]. do 2 eexists. split; [reflexivity|]. cbn.
    split_and!; [done | intros d; not_in | done | by repeat constructor | done | by right].
Qed.

Lemma coro_end_short stream :
  (forall id n, coro_head (take 4 stream) = Some (id, n) -> length stream < 4 + n) ->
  length stream < 4 \/ is_Some (coro_head (take 4 stream)) -> coro_end stream = EndClosed.
Proof.
  intros Hstop Hs. unfold coro_end. case_decide as Hl; [done|].
  destruct Hs as [|[[id n] Hc]]; [done|].
  destruct (head_numbers_total stream) as (id' & len & Hn); [lia|]. rewrite Hn.
  assert (id' = id) as ->.
  { unfold coro_head in Hc. rewrite Hn in Hc. case_decide; [|done]. by injection Hc. }
  apply (coro_head_numbers _ id len n Hn) in Hc as (Hi & Hlen & ->).
  rewrite decide_False by lia. by rewrite decide_False by lia.
Qed.

Lemma coro_step_due k :
  CoroReceiver.ok k -> CoroReceiver.due k = true ->
  exists k' ops, CoroReceiver.step k = Ok (k', ops) /\ CoroReceiver.ok k' /\ read_ops ops
    /\ _send_que (k_session k') = _send_que (k_session k)
    /\ CoroReceiver.work k' < CoroReceiver.work k
    /\ omap posted ops ++ (CoroReceiver.rest k').1 `prefix_of` (CoroReceiver.rest k).1
    /\ (_b_close (k_session k) = false ->
        CoroReceiver.rest k
        = (omap posted ops ++ (CoroReceiver.rest k').1, (CoroReceiver.rest k').2)
        /\ (SocketClose ∈ ops \/ _b_close (k_session k') = false)
        /\ ((CoroReceiver.rest k').2 = StreamShort -> SocketClose ∉ ops)).
Proof.
  intros Hok Hdue. unfold CoroReceiver.due in Hdue.
  destruct (k_read k) as [rd|] eqn:Ek; [|discriminate Hdue].
  destruct (coro_head (take 4 (k_stream k))) as [[id n]|] eqn:Hc;
    apply bool_decide_eq_true in Hdue.
  - pose proof Hok as H0. unfold CoroReceiver.ok in H0. rewrite Ek in H0. destruct H0 as [Hh Hub].
    destruct (loop_pass_accept (k_stream k) (k_session k) id n Hdue Hh Hc)
      as (s' & m & Hp & Hpost & Hfull & Hh' & Hb).
    pose proof Hp as [Hq _]%CoroReceiver.loop_pass_sending.
    unfold CoroReceiver.step. rewrite Ek, Hp. cbn [res_bind]. do 2 eexists.
    split; [reflexivity|].
    assert (CoroReceiver.rest k = ((id, take n (drop 4 (k_stream k)))
      :: (cut (F := coro_format) (drop (4 + n) (k_stream k))).1,
      (cut (F := coro_format) (drop (4 + n) (k_stream k))).2)) as Hrest.
    { unfold CoroReceiver.rest. rewrite Ek.
      rewrite (cut_frame (F := coro_format) (k_stream k) id n Hc) by exact Hdue.
      change ff_head with 4. by destruct (cut _). }
    assert (omap posted [PostMsgToQue m] = [(id, take n (drop 4 (k_stream k)))]) as Hposts
      by (cbn [omap list_omap]; by rewrite Hpost).
    rewrite Hrest, Hposts. unfold CoroReceiver.ok, CoroReceiver.work, CoroReceiver.rest, read_ops.
    rewrite Hposts. cbn [k_read k_session k_stream].
    rewrite (leftover_frame (F := coro_format) (k_stream k) id n Hc) in Hub by exact Hdue.
    split; [by destruct (_b_close s')|].
    split; [split_and!; [intros d; not_in | by repeat (apply Forall_cons; split; [done|])
                        | cbn; lia]|].
    split; [done|]. rewrite Ek.
    split; [destruct (_b_close s'); [lia|]; rewrite length_drop; lia|].
    split; [destruct (_b_close s'); cbn [fst app]; [|done];
            by apply (prefix_cons _ []), prefix_nil|].
    intros Hb0. rewrite Hb, Hb0. split_and!; [done | by right | intros _; not_in].
  - assert (forall id n, coro_head (take 4 (k_stream k)) = Some (id, n)
      -> length (k_stream k) < 4 + n) as Hstop by (intros id n H; congruence).
    pose proof Hok as Hub. unfold CoroReceiver.ok in Hub. rewrite Ek in Hub.
    destruct Hub as [_ Hub].
    rewrite (leftover_here (F := coro_format)) in Hub by by right.
    destruct (coro_step_stop (k_stream k) k rd Hok Ek Hstop Hub)
      as (k' & ops & Hs & Hn & Hw & Hq & Hf & Hp & Hcl).
    exists k', ops. split; [by destruct k|].
    unfold CoroReceiver.ok, CoroReceiver.work, CoroReceiver.rest, read_ops. rewrite Hn, Ek, Hp.
    split; [done|]. split; [split_and!; [done|done|cbn; lia]|]. split; [done|].
    split; [lia|].
    rewrite (cut_rejected (F := coro_format)) by (exact Hdue || exact Hc).
    split; [done|]. intros Hb0. split; [done|].
    split; [destruct Hcl as [?|[_ H]]; [by left|right; congruence]|done].
Qed.

#[refine, export] Instance coro_receiver : Receiver := {|
  rd_start := CoroReceiver.start;
  rd_step := CoroReceiver.step;
  rd_due := CoroReceiver.due;
  rd_valid st := coro_end (leftover (F := coro_format) st) <> EndUB;
  rd_cut := cut (F := coro_format);
  rd_ok := CoroReceiver.ok;
  rd_rest := CoroReceiver.rest;
  rd_work := CoroReceiver.work;
  rd_start_run := _;
  rd_step_due := coro_step_due;
  rd_step_end := _;
  rd_due_reading := _;
  rd_waiting := _;
  rd_sending := _
|}.
Proof.
  - intros st Hv. eexists. split; [reflexivity|]. by split_and!.
  - intros n k Hok [rd Hrd] Hd. unfold CoroReceiver.due in Hd. cbn [cut_off k_read k_stream] in Hd.
    rewrite Hrd in Hd.
    assert (forall id n', coro_head (take 4 (take n (k_stream k))) = Some (id, n')
      -> length (take n (k_stream k)) < 4 + n') as Hstop.
    { intros id n' H. rewrite H in Hd. apply bool_decide_eq_false in Hd. lia. }
    assert (coro_end (take n (k_stream k)) = EndClosed) as He.
    { apply coro_end_short; [done|]. destruct (coro_head _) as [[id n']|]; [by right|].
      apply bool_decide_eq_false in Hd. left. lia. }
    destruct (coro_step_stop (take n (k_stream k)) k rd Hok Hrd Hstop) as
      (k' & ops & Hs & Hn & Hw & Hq & _ & Hp & Hcl); [by rewrite He|].
    exists k', ops. unfold cut_off, CoroReceiver.ok, CoroReceiver.rest. rewrite Hn, He in *.
    split_and!; try done. by destruct Hcl as [|[]].
  - intros k. unfold CoroReceiver.due. by destruct (k_read k).
  - intros k Hok Hd. unfold CoroReceiver.due, CoroReceiver.rest in *.
    destruct (k_read k); [|done].
    destruct (coro_head (take 4 (k_stream k))) as [[id n]|] eqn:Hc;
      apply bool_decide_eq_false in Hd.
    + destruct (decide (length (k_stream k) < 4)).
      * by rewrite (cut_short (F := coro_format)) by done.
      * rewrite (cut_short_body (F := coro_format) (k_stream k) id n); [done| |exact Hc|];
          change ff_head with 4; lia.
    + rewrite (cut_short (F := coro_format)); [done|]. change ff_head with 4. lia.
  - intros f k Hf. destruct (Hf (k_session k)) as [Hm Hh].
    unfold CoroReceiver.ok, CoroReceiver.rest. cbn [on_session k_session k_read k_stream].
    by rewrite Hh.
Defined.
