(* ===== verification/SessionSystem.v ===== *)
(** * The two pool servers at work

    Every session of [3. AsyncServerIOservicepool] or [4. CoroutineAsyncServer], the
    queue of the logic system they share and its thread [DealMsg], with connections,
    reads, write completions and failures in any order.  How a session reads is the
    interface [Receiver]; what follows is proved against it and holds for both.

    A handler is one step.  That the queue itself is one is [logic_refines]; [Send],
    [HandleWrite] and [DealMsg] touch a session's queue under its mutex only. *)

From S2P Require Import Prelude CBase Frame MsgNode SendQueue PoolServer Callback.
From S2P Require Import CoroServer Receiver.

(** A session with its write in progress and what was written; [c_sent] are the bytes
    its peer sends, [c_handled] the messages the logic system has handled. *)
Record client := MkClient {
  c_link : link;
  c_writing : option (list char);
  c_written : list (list char);
  c_closed : bool;
  c_sent : list char;
  c_handled : list (Z * list char)
}.

Definition set_link k c :=
  MkClient k (c_writing c) (c_written c) (c_closed c) (c_sent c) (c_handled c).
Definition set_session s c :=
  set_link (MkLink s (k_read (c_link c)) (k_stream (c_link c))) c.
Definition set_writing w c :=
  MkClient (c_link c) w (c_written c) (c_closed c) (c_sent c) (c_handled c).
Definition log_written d c :=
  MkClient (c_link c) (c_writing c) (c_written c ++ [d]) (c_closed c) (c_sent c) (c_handled c).
Definition log_handled ms c :=
  MkClient (c_link c) (c_writing c) (c_written c) (c_closed c) (c_sent c) (c_handled c ++ ms).
Definition close_client c :=
  MkClient (c_link c) (c_writing c) (c_written c) true (c_sent c) (c_handled c).

(** [LogicNode]: the session and its message. *)
Definition LogicNode : Type := nat * Pool.RecvNode.

Record system := MkSystem {
  clients : list client;
  msg_que : list LogicNode;
  hand : option LogicNode
}.

Definition empty_system : system := MkSystem [] [] None.

(** [LogicSystem::PostMsgToQue]. *)
Definition PostMsg (n : LogicNode) (q : list LogicNode) : list LogicNode := q ++ [n].

(** A call a handler of session [i] makes.  Reads are in the link; [ClearSession] only
    drops a reference of the server ([IOPool.Server]). *)
Definition effect (i : nat) (o : op) (c : client) (q : list LogicNode)
    : res (client * list LogicNode) :=
  match o with
  | AsyncReadHead _ | AsyncReadBody _ | ClearSession => Ok (c, q)
  | AsyncWrite d =>
      match c_writing c with
      | Some _ => UB
      | None => Ok (set_writing (Some d) c, q)
      end
  | SocketClose => Ok (close_client c, q)
  | PostMsgToQue m => Ok (c, PostMsg (i, m) q)
  end.

Fixpoint effects (i : nat) (ops : list op) (c : client) (q : list LogicNode)
    : res (client * list LogicNode) :=
  match ops with
  | [] => Ok (c, q)
  | o :: ops => let* '(c, q) := effect i o c q in effects i ops c q
  end.

Section System.
Context {V : Type} `{J : !Json V} `{R : !Receiver}.
Implicit Types (s : system) (c : client) (q : list LogicNode).

(** A connection is accepted whose peer sends [stream]; the read of a session completes,
    or fails after [n] more bytes; [DealMsg] takes a message, and handles it; a write
    completes, or fails.  What is not under way does not happen.  After a session
    closed its socket, completions that were on their way still arrive. *)
Inductive event :=
| Accept (stream : list char)
| Read (i : nat)
| ReadFails (i n : nat)
| Pop
| Handle
| Written (i : nat)
| WriteFails (i : nat) (e : asio_error).

Definition on_client (i : nat) (f : client -> list LogicNode -> res (client * list LogicNode)) s
    : res system :=
  match clients s !! i with
  | None => Ok s
  | Some c =>
      let* '(c, q) := f c (msg_que s) in
      Ok (MkSystem (<[i := c]> (clients s)) q (hand s))
  end.

Definition read_step (i : nat) (k : link) c q : res (client * list LogicNode) :=
  let* '(k, ops) := rd_step k in effects i ops (set_link k c) q.

Definition write_step (i : nat) (error : option asio_error) c q
    : res (client * list LogicNode) :=
  match c_writing c with
  | None => Ok (c, q)
  | Some d =>
      let c := match error with None => log_written d c | Some _ => c end in
      let* '(ss, ops) := HandleWrite error (k_session (c_link c)) in
      effects i ops (set_session ss (set_writing None c)) q
  end.

Definition handle_step (i : nat) (m : Pool.RecvNode) c q : res (client * list LogicNode) :=
  let* '(ss, ops) := deal_msg m (k_session (c_link c)) in
  effects i ops (set_session ss (log_handled (omap posted [PostMsgToQue m]) c)) q.

(** [DealMsg] takes the front of the queue. *)
Definition pop_step s : system :=
  match hand s, msg_que s with
  | None, m :: q => MkSystem (clients s) q (Some m)
  | _, _ => s
  end.

Definition do_event (e : event) s : res system :=
  match e with
  | Accept st =>
      let* k := rd_start st in
      Ok (MkSystem (clients s ++ [MkClient k None [] false st []]) (msg_que s) (hand s))
  | Read i =>
      on_client i (fun c q =>
        if rd_due (c_link c) then read_step i (c_link c) c q else Ok (c, q)) s
  | ReadFails i n =>
      on_client i (fun c q =>
        let k := cut_off n (c_link c) in
        match k_read k with
        | Some _ => if rd_due k then Ok (c, q) else read_step i k c q
        | None => Ok (c, q)
        end) s
  | Pop => Ok (pop_step s)
  | Handle =>
      match hand s with
      | None => Ok s
      | Some (i, m) =>
          let* s := on_client i (handle_step i m) s in
          Ok (MkSystem (clients s) (msg_que s) None)
      end
  | Written i => on_client i (write_step i None) s
  | WriteFails i e => on_client i (write_step i (Some e)) s
  end.

Fixpoint system_run (es : list event) s : res system :=
  match es with
  | [] => Ok s
  | e :: es => let* s := do_event e s in system_run es s
  end.

Lemma system_run_app es es' s :
  system_run (es ++ es') s = (let* s := system_run es s in system_run es' s).
Proof.
  revert s. induction es as [|e es IH]; intros s; [done|]. cbn [app system_run].
  by destruct (do_event e s); cbn [res_bind].
Qed.

(** ** The invariant *)

(** A reply that [Send] does not refuse ([Send_throws]). *)
Definition short_replies (st : list char) : Prop :=
  Forall (fun r : list char * Z => (Z.of_nat (length r.1) <= 32763)%Z)
    (replies (rd_cut st).1).

Definition accept_ok (e : event) : Prop :=
  match e with Accept st => rd_valid st /\ short_replies st | _ => True end.

(** The messages of session [i] among those waiting. *)
Definition pending (i : nat) (ms : list LogicNode) : list (Z * list char) :=
  omap (fun '(j, m) => if decide (j = i) then posted (PostMsgToQue m) else None) ms.

Definition waiting s : list LogicNode := option_list (hand s) ++ msg_que s.

(** [p] are the messages of the session that wait. *)
Record client_ok (p : list (Z * list char)) c : Prop := {
  o_link : rd_ok (c_link c);
  o_order : c_handled c ++ p ++ (rd_rest (c_link c)).1 `prefix_of` (rd_cut (c_sent c)).1;
  o_open : c_closed c = false ->
    c_handled c ++ p ++ (rd_rest (c_link c)).1 = (rd_cut (c_sent c)).1
    /\ _b_close (k_session (c_link c)) = false;
  o_writing : exists failed,
    writing_ok node_bytes failed (c_writing c) (_send_que (k_session (c_link c)))
    /\ (failed = true -> c_closed c = true);
  o_out : out_ok node_bytes reply_frame 1001 (replies (c_handled c)) (c_written c)
    (_send_que (k_session (c_link c)));
  o_short : short_replies (c_sent c)
}.

Record system_ok s : Prop := {
  s_clients : forall i c, clients s !! i = Some c -> client_ok (pending i (waiting s)) c;
  s_nodes : Forall (fun '(i, m) => node_full m /\ i < length (clients s)) (waiting s)
}.

(** The work that is left. *)
Definition client_work c : nat :=
  4 * rd_work (c_link c) + length (_send_que (k_session (c_link c))).

Definition work s : nat :=
  weight client_work (clients s) + 3 * length (msg_que s) + (if hand s is Some _ then 2 else 0).

(** Connected, and no head is rejected in what is still to arrive. *)
Definition clean c : Prop := c_closed c = false /\ (rd_rest (c_link c)).2 = StreamShort.

(** ** Steps of one session *)

Lemma replies_app ms ms' : replies (ms ++ ms') = replies ms ++ replies ms'.
Proof. apply omap_app. Qed.

Lemma posts_of_ops (ops : list op) : omap posted (PostMsgToQue <$> omap post_node ops) = omap posted ops.
Proof. induction ops as [|[] ops IH]; cbn; try done. f_equal. exact IH. Qed.

(** The calls of a completed read. *)
Lemma effects_read i ops c q :
  (forall d, AsyncWrite d ∉ ops) ->
  exists c', effects i ops c q = Ok (c', q ++ (pair i <$> omap post_node ops))
    /\ (c' = close_client c /\ SocketClose ∈ ops \/ c' = c /\ SocketClose ∉ ops).
Proof.
  revert c q. induction ops as [|o ops IH]; intros c q Hw.
  { exists c. rewrite app_nil_r. split; [done|]. right. split; [done|]. apply not_elem_of_nil. }
  assert (forall d, AsyncWrite d ∉ ops) as Hw' by (intros d H; apply (Hw d); by right).
  destruct o as [n|n|d| | |m]; cbn [effects effect res_bind omap list_omap post_node].
  1, 2, 5: destruct (IH c q Hw') as (c' & -> & H); exists c'; split; [done|];
    destruct H as [[-> H]|[-> H]]; [left; split; [done|by right]|right; split; [done|]];
    by apply not_elem_of_cons.
  - destruct (Hw d). left.
  - destruct (IH (close_client c) q Hw') as (c' & -> & H). exists c'. split; [done|].
    left. split; [|left]. by destruct H as [[-> _]|[-> _]].
  - destruct (IH c (PostMsg (i, m) q) Hw') as (c' & -> & H). exists c'.
    split; [unfold PostMsg; by rewrite <- app_assoc|].
    destruct H as [[-> H]|[-> H]]; [left; split; [done|by right]|right; split; [done|]];
    by apply not_elem_of_cons.
Qed.

Lemma effects_write i w c q :
  effects i (write_op w) c q
  = match begin_write node_bytes (c_writing c) w with
    | Some wr => Ok (set_writing wr c, q)
    | None => UB
    end.
Proof. destruct w as [n|], c as [k [d|] wn cl st h]; done. Qed.

(** The bytes a session had read are gone from the link, the messages posted. *)
Lemma read_due_ok i p c q :
  client_ok p c -> rd_due (c_link c) = true ->
  exists c' ms, read_step i (c_link c) c q = Ok (c', q ++ (pair i <$> ms))
    /\ Forall node_full ms /\ client_ok (p ++ omap posted (PostMsgToQue <$> ms)) c'
    /\ client_work c' + 3 * length ms < client_work c /\ (clean c -> clean c').
Proof.
  intros [Hl Hp Ho (f & Hw & Hf) Hout Hs] Hd.
  destruct (rd_step_due (c_link c) Hl Hd)
    as (k & ops & Hrun & Hok & (Hnw & Hpf & Hlen) & Hq & Hwork & Hpre & Hopen).
  destruct (effects_read i ops (set_link k c) q Hnw) as (c' & He & Hc').
  exists c', (omap post_node ops). unfold read_step. rewrite Hrun. cbn [res_bind].
  split; [exact He|]. destruct (posted_nodes ops Hpf) as [Hn Hm]. split; [exact Hn|].
  rewrite posts_of_ops.
  assert (length (omap post_node ops) = length (omap posted ops)) as Hl1.
  { apply (f_equal length) in Hm. by rewrite !length_fmap in Hm. }
  assert (c_link c' = k /\ c_writing c' = c_writing c /\ c_written c' = c_written c
    /\ c_sent c' = c_sent c /\ c_handled c' = c_handled c
    /\ (c_closed c' = false -> c_closed c = false /\ SocketClose ∉ ops))
    as (E1 & E2 & E3 & E4 & E5 & E6) by (destruct Hc' as [[-> ?]|[-> ?]]; by split_and!).
  split; [|split].
  - split; rewrite ?E1, ?E2, ?E3, ?E4, ?E5, ?Hq; try done.
    + etrans; [|exact Hp]. rewrite <- app_assoc. by do 2 apply prefix_app.
    + intros Hc. destruct (E6 Hc) as [Hc0 Hns]. destruct (Ho Hc0) as [Hall Hb].
      destruct (Hopen Hb) as (Hrest & Hcl & _). rewrite Hrest in Hall. cbn [fst] in Hall.
      rewrite <- app_assoc. split; [exact Hall|]. by destruct Hcl.
    + exists f. split; [done|]. intros Ht. destruct (c_closed c') eqn:Ec; [done|].
      destruct (E6 eq_refl) as [Hc0 _]. rewrite (Hf Ht) in Hc0. done.
  - unfold client_work. rewrite E1, Hq, Hl1. lia.
  - intros [Hc Hclean]. destruct (Ho Hc) as [_ Hb]. destruct (Hopen Hb) as (Hrest & Hcl & Hns).
    rewrite Hrest in Hclean. cbn [snd] in Hclean. specialize (Hns Hclean).
    destruct Hc' as [[-> ?]|[-> _]]; [done|]. by split.
Qed.

Lemma read_fails_ok i n p c q :
  client_ok p c -> is_Some (k_read (c_link c)) -> rd_due (cut_off n (c_link c)) = false ->
  exists c', read_step i (cut_off n (c_link c)) c q = Ok (c', q) /\ client_ok p c'.
Proof.
  intros [Hl Hp Ho (f & Hw & Hf) Hout Hs] Hk Hd.
  destruct (rd_step_end n (c_link c) Hl Hk Hd)
    as (k & ops & Hrun & Hok & Hq & Hnw & Hpost & Hcl & Hrest).
  destruct (effects_read i ops (set_link k c) q Hnw) as (c' & He & Hc').
  exists c'. unfold read_step. rewrite Hrun. cbn [res_bind]. split.
  { rewrite He. do 2 f_equal.
    assert (omap post_node ops = []) as ->; [|apply app_nil_r].
    destruct (omap post_node ops) as [|m ms] eqn:E; [done|].
    pose proof (posts_of_ops ops) as H. rewrite E, Hpost in H. discriminate H. }
  destruct Hc' as [[-> _]|[_ ?]]; [|done].
  split; cbn [close_client set_link c_link c_writing c_written c_closed c_sent c_handled];
    rewrite ?Hq; try done.
  - rewrite Hrest, app_nil_r. etrans; [|exact Hp]. rewrite app_assoc. by apply prefix_app_r.
  - by exists f.
Qed.

(** Sending leaves the receiver as it is. *)
Lemma sending_ok ss k :
  same_receiving (k_session k) ss ->
  let k' := MkLink ss (k_read k) (k_stream k) in
  (rd_ok k -> rd_ok k') /\ rd_rest k' = rd_rest k /\ rd_work k' = rd_work k.
Proof.
  intros [Hm Hh]. destruct k as [s rd st]. cbn [k_session k_read k_stream] in *.
  pose (f := fun x : Session =>
    MkSession (_b_close ss) (_send_que ss) (_recv_msg_node x) (_recv_head_node x)).
  assert (MkLink ss rd st = on_session f (MkLink s rd st)) as ->.
  { unfold on_session, f. cbn [k_session k_read k_stream]. rewrite <- Hm, <- Hh.
    by destruct ss. }
  by apply rd_sending.
Qed.

Ltac client_simpl := cbn [set_session set_link set_writing log_written log_handled close_client
  c_link c_writing c_written c_closed c_sent c_handled k_session k_read k_stream] in *.

Lemma client_write_ok i p c q d :
  client_ok p c -> c_writing c = Some d ->
  exists c', write_step i None c q = Ok (c', q) /\ client_ok p c'
    /\ client_work c' < client_work c /\ (clean c -> clean c').
Proof.
  intros [Hl Hp Ho (f & Hw & Hf) Hout Hs] Hd. unfold write_step. rewrite Hd.
  assert (f = false) as -> by (destruct f; [destruct Hw; congruence|done]).
  rewrite Hd in Hw.
  destruct (done_out (SQ := pool_queue) node_bytes reply_frame 1001 d _ _ _ Hw Hout)
    as (wr & Hb & Hne & Hlen & Hwr & Hout').
  change (sq_queue ?s) with (_send_que s) in *. change (sq_done ?s) with (HandleWrite_done s) in *.
  unfold HandleWrite. rewrite decide_False by exact Hne.
  unfold HandleWrite_done in *. cbn [fst snd] in *.
  set (ss := set_que (tail _) _) in *. cbn [log_written c_link res_bind].
  rewrite effects_write. client_simpl. rewrite Hb.
  assert (same_receiving (k_session (c_link c)) ss) as Hsame by done.
  destruct (sending_ok ss (c_link c) Hsame) as (H1 & H2 & H3).
  eexists. split; [reflexivity|]. split; [|split].
  - split; client_simpl; rewrite ?H2; auto. exists false. by split.
  - unfold client_work. client_simpl. rewrite H3. lia.
  - intros [Hc Hcl]. split; [done|]. client_simpl. by rewrite H2.
Qed.

(** The session is closed, and mute from then on. *)
Lemma write_fails_ok i e p c q d :
  client_ok p c -> c_writing c = Some d ->
  exists c', write_step i (Some e) c q = Ok (c', q) /\ client_ok p c'.
Proof.
  intros [Hl Hp Ho (f & Hw & Hf) Hout Hs] Hd. unfold write_step. rewrite Hd.
  assert (f = false) as -> by (destruct f; [destruct Hw; congruence|done]).
  cbn [HandleWrite]. unfold close_and_clear, Close. cbn [res_bind app effects effect].
  set (ss := set_close true _).
  assert (same_receiving (k_session (c_link c)) ss) as Hsame by done.
  destruct (sending_ok ss (c_link c) Hsame) as (H1 & H2 & _).
  eexists. split; [reflexivity|]. split; client_simpl; rewrite ?H2; auto; [done|].
  exists true. split; [|done]. split; [done|]. change (_send_que ss) with
    (_send_que (k_session (c_link c))). rewrite Hd in Hw. by destruct (_send_que _).
Qed.

(** What [DealMsg] does with a message of a session. *)
Lemma deal_out m x ss :
  node_full m -> posted (PostMsgToQue m) = Some x ->
  Forall (fun r : list char * Z => (Z.of_nat (length r.1) <= 32763)%Z) (replies [x]) ->
  replies [x] = [] /\ deal_msg m ss = Ok (ss, [])
  \/ exists r n, replies [x] = [r] /\ node_bytes n = reply_frame r
     /\ deal_msg m ss = Ok (let '(s', w) := enqueue n ss in (s', write_op w)).
Proof.
  destruct x as [id d]. intros Hf Hx. rewrite (deal_msg_run m id d ss Hf Hx).
  unfold replies. cbn [omap list_omap]. destruct (decide (id = MSG_HELLO_WORLD)); [|by left].
  unfold HelloWordCallBack. destruct (hello_reply id d) as [[r ri]|]; [|by left].
  intros [Hs _]%Forall_cons. destruct (Send_run r ri ss Hs) as (n & Hsend & Hn).
  right. exists (r, ri), n. rewrite Hsend. cbn [res_bind]. rewrite Hn, frame_short.
  split; [done|]. split; [done|]. by destruct (enqueue n ss).
Qed.

Lemma client_handle_ok i m p c q :
  node_full m -> client_ok (omap posted [PostMsgToQue m] ++ p) c ->
  exists c', handle_step i m c q = Ok (c', q) /\ client_ok p c'
    /\ client_work c' <= S (client_work c) /\ (clean c -> clean c').
Proof.
  intros Hfull [Hl Hp Ho (f & Hw & Hf) Hout Hs]. unfold handle_step.
  destruct (posted (PostMsgToQue m)) as [x|] eqn:Hx; [|done].
  assert (omap posted [PostMsgToQue m] = [x]) as E by (cbn [omap list_omap]; by rewrite Hx).
  rewrite E in *.
  assert (Forall (fun r : list char * Z => (Z.of_nat (length r.1) <= 32763)%Z) (replies [x]))
    as Hshort.
  { unfold short_replies in Hs. destruct Hp as [l Hl']. rewrite Hl', !replies_app in Hs.
    rewrite !Forall_app in Hs. tauto. }
  assert (c_handled c ++ ([x] ++ p) ++ (rd_rest (c_link c)).1
    = (c_handled c ++ [x]) ++ p ++ (rd_rest (c_link c)).1) as Ea by by rewrite <- !app_assoc.
  rewrite Ea in Hp, Ho.
  destruct (deal_out m x (k_session (c_link c)) Hfull Hx Hshort)
    as [[Hr ->]|(r & n & Hr & Hn & ->)]; cbn [res_bind].
  - cbn [effects]. eexists. split; [reflexivity|]. destruct c as [k wr wn cl st h].
    client_simpl. destruct k as [s rd str]. client_simpl. split; [|split].
    + split; client_simpl; try done; [by exists f|]. by rewrite replies_app, Hr, app_nil_r.
    + unfold client_work. client_simpl. lia.
    + done.
  - destruct (send_out (SQ := pool_queue) node_bytes reply_frame 1001 f (c_writing c)
      (k_session (c_link c)) n r (replies (c_handled c)) (c_written c)) as (wr & Hb & Hwr & Hout');
      [|exact Hn|exact Hw|exact Hout|].
    { change (que_full (k_session (c_link c)) = true -> 1001 <= length (_send_que (k_session (c_link c)))).
      unfold que_full, MAX_SENDQUE. rewrite bool_decide_eq_true. lia. }
    change (sq_send n) with (enqueue n) in *.
    assert (same_receiving (k_session (c_link c)) (enqueue n (k_session (c_link c))).1
      /\ _b_close (enqueue n (k_session (c_link c))).1 = _b_close (k_session (c_link c))
      /\ length (_send_que (enqueue n (k_session (c_link c))).1)
         <= S (length (_send_que (k_session (c_link c))))) as (Hsame & Hbc & Hlen).
    { unfold enqueue. destruct (que_full _); [by split_and!; [done|done|simpl; lia]|].
      unfold push_send. cbn [fst]. split_and!; [done|done|].
      cbn [_send_que set_que]. rewrite length_app. simpl. lia. }
    destruct (enqueue n (k_session (c_link c))) as [ss w]. cbn [fst snd] in *.
    change (sq_queue ?s) with (_send_que s) in *.
    rewrite effects_write. client_simpl. rewrite Hb.
    destruct (sending_ok ss (c_link c) Hsame) as (H1 & H2 & H3).
    eexists. split; [reflexivity|]. split; [|split].
    + split; client_simpl; rewrite ?H2; auto.
      * intros Hc. destruct (Ho Hc). split; [done|congruence].
      * exists f. by split.
      * by rewrite replies_app, Hr.
    + unfold client_work. client_simpl. rewrite H3. lia.
    + intros [Hc Hcl]. split; [done|]. client_simpl. by rewrite H2.
Qed.

(** ** Events of the system *)

(** What can happen next without a failure or a new connection. *)
Definition due (e : event) s : bool :=
  match e with
  | Read i => if clients s !! i is Some c then rd_due (c_link c) else false
  | Pop => match hand s, msg_que s with None, _ :: _ => true | _, _ => false end
  | Handle => if hand s is Some _ then true else false
  | Written i =>
      if clients s !! i is Some c then if c_writing c is Some _ then true else false else false
  | Accept _ | ReadFails _ _ | WriteFails _ _ => false
  end.

(** No failure, and no rejected head. *)
Definition benign (e : event) : Prop :=
  match e with
  | Accept st => (rd_cut st).2 = StreamShort
  | ReadFails _ _ | WriteFails _ _ => False
  | _ => True
  end.

Definition all_clean s : Prop := forall i c, clients s !! i = Some c -> clean c.

Lemma pending_app i ms ms' : pending i (ms ++ ms') = pending i ms ++ pending i ms'.
Proof. apply omap_app. Qed.

Lemma pending_own i (ms : list Pool.RecvNode) :
  pending i (pair i <$> ms) = omap posted (PostMsgToQue <$> ms).
Proof.
  induction ms as [|m ms IH]; [done|]. unfold pending in *. cbn [fmap list_fmap omap list_omap].
  rewrite decide_True by done. by rewrite IH.
Qed.

Lemma pending_other i j (ms : list Pool.RecvNode) : i <> j -> pending j (pair i <$> ms) = [].
Proof.
  intros Hij. induction ms as [|m ms IH]; [done|]. unfold pending in *.
  cbn [fmap list_fmap omap list_omap]. by rewrite decide_False by done.
Qed.

(** No message waits of a session that is not there. *)
Lemma pending_none i (ms : list LogicNode) n :
  Forall (fun '(j, m) => node_full m /\ j < n) ms -> n <= i -> pending i ms = [].
Proof.
  induction 1 as [|[j m] ms [_ Hj] _ IH]; [done|]. intros Hn. unfold pending in *.
  cbn [omap list_omap]. rewrite decide_False by lia. by apply IH.
Qed.

(** One session and the queue change. *)
Lemma client_update_ok s s' i c' :
  system_ok s -> i < length (clients s) -> clients s' = <[i := c']> (clients s) ->
  (forall j, j <> i -> pending j (waiting s') = pending j (waiting s)) ->
  client_ok (pending i (waiting s')) c' ->
  Forall (fun '(j, m) => node_full m /\ j < length (clients s)) (waiting s') ->
  system_ok s'.
Proof.
  intros Hs Hi Hc Hp Hok Hn. split; rewrite Hc; [|by rewrite length_insert].
  intros j cj [(<- & <- & _)|[Hne Hj]]%list_lookup_insert_Some; [exact Hok|].
  rewrite Hp by done. by apply s_clients.
Qed.

Lemma on_client_ok i f s (W C : Prop) :
  system_ok s ->
  (forall c, clients s !! i = Some c ->
   exists c' ms, f c (msg_que s) = Ok (c', msg_que s ++ (pair i <$> ms))
     /\ Forall node_full ms
     /\ client_ok (pending i (waiting s) ++ omap posted (PostMsgToQue <$> ms)) c'
     /\ (W -> client_work c' + 3 * length ms < client_work c) /\ (C -> clean c -> clean c')) ->
  exists s', on_client i f s = Ok s' /\ system_ok s'
    /\ (W -> is_Some (clients s !! i) -> work s' < work s) /\ (C -> all_clean s -> all_clean s').
Proof.
  intros Hs Hf. unfold on_client. destruct (clients s !! i) as [c|] eqn:Hi; cycle 1.
  { exists s. split_and!; [done|done| |done]. by intros _ [? ?]. }
  pose proof (lookup_lt_Some _ _ _ Hi) as Hlt.
  destruct (Hf c eq_refl) as (c' & ms & -> & Hn & Hok & Hw & Hcl). cbn [res_bind].
  eexists. split; [reflexivity|].
  assert (waiting (MkSystem (<[i:=c']> (clients s)) (msg_que s ++ (pair i <$> ms)) (hand s))
    = waiting s ++ (pair i <$> ms)) as Ew by (unfold waiting; cbn; by rewrite app_assoc).
  split; [|split].
  - eapply (client_update_ok s _ i c'); [done|done|reflexivity|..]; rewrite Ew.
    + intros j Hj. by rewrite pending_app, pending_other, app_nil_r.
    + by rewrite pending_app, pending_own.
    + apply Forall_app. split; [apply Hs|]. apply Forall_fmap. eapply Forall_impl; [exact Hn|].
      intros m Hm. by split.
  - intros HW _. unfold work. cbn [clients msg_que hand]. specialize (Hw HW).
    pose proof (weight_insert client_work (clients s) i c c' Hi) as Hwi.
    rewrite length_app, length_fmap. lia.
  - intros HC Hall j cj [(<- & <- & _)|[Hne Hj]]%list_lookup_insert_Some;
      [|by eapply Hall]. apply Hcl; [done|]. by eapply Hall.
Qed.

(** A change of the session that posts nothing. *)
Lemma quiet_ok (W C : Prop) i p c c' (q : list LogicNode) :
  client_ok p c' -> (W -> client_work c' < client_work c) -> (C -> clean c -> clean c') ->
  exists c1 (ms : list Pool.RecvNode), Ok (c', q) = Ok (c1, q ++ (pair i <$> ms))
    /\ Forall node_full ms /\ client_ok (p ++ omap posted (PostMsgToQue <$> ms)) c1
    /\ (W -> client_work c1 + 3 * length ms < client_work c) /\ (C -> clean c -> clean c1).
Proof.
  intros Hok HW HC. exists c', [].
  cbn [fmap list_fmap omap list_omap length]. rewrite !app_nil_r. split_and!; [done..| |done].
  intros Hw. specialize (HW Hw). lia.
Qed.

Lemma accept_event_ok st s :
  system_ok s -> rd_valid st -> short_replies st ->
  exists s', do_event (Accept st) s = Ok s' /\ system_ok s'
    /\ ((rd_cut st).2 = StreamShort -> all_clean s -> all_clean s').
Proof.
  intros Hs Hv Hr. destruct (rd_start_run st Hv) as (k & Hk & Hok & Hrest & Hq & Hb).
  cbn [do_event]. rewrite Hk. cbn [res_bind]. eexists. split; [reflexivity|]. split.
  - split; change (waiting _) with (waiting s); cbn [clients].
    + intros i c [Hi|[Hi Hc]]%lookup_app_Some; [by apply s_clients|].
      apply list_lookup_singleton_Some in Hc as [Hi0 <-].
      rewrite (pending_none i (waiting s) (length (clients s)) (s_nodes s Hs)) by lia.
      split; client_simpl; try done.
      * by rewrite Hrest.
      * by rewrite Hrest.
      * exists false. by rewrite Hq.
      * exists []. by rewrite Hq.
    + eapply Forall_impl; [apply Hs|]. intros [j m] [? ?]. rewrite length_app. split; [done|lia].
  - intros Hc Hall i c [Hi|[Hi Hl]]%lookup_app_Some; [by eapply Hall|].
    apply list_lookup_singleton_Some in Hl as [_ <-]. split; [done|]. client_simpl. by rewrite Hrest.
Qed.

Lemma pop_event_ok s :
  system_ok s ->
  exists s', do_event Pop s = Ok s' /\ system_ok s'
    /\ (due Pop s = true -> work s' < work s) /\ (all_clean s -> all_clean s').
Proof.
  intros Hs. cbn [do_event due]. unfold pop_step.
  destruct (hand s) as [x|] eqn:Eh; [by exists s|].
  destruct (msg_que s) as [|m q] eqn:Eq; [by exists s|].
  eexists. split; [reflexivity|].
  assert (waiting (MkSystem (clients s) q (Some m)) = waiting s) as Ew
    by (unfold waiting; by rewrite Eh, Eq).
  split; [split; rewrite Ew; apply Hs|]. split; [|done].
  intros _. unfold work. rewrite Eh, Eq. cbn [clients msg_que hand length]. lia.
Qed.

Lemma handle_event_ok s :
  system_ok s ->
  exists s', do_event Handle s = Ok s' /\ system_ok s'
    /\ (due Handle s = true -> work s' < work s) /\ (all_clean s -> all_clean s').
Proof.
  intros Hs. cbn [do_event due]. destruct (hand s) as [[i m]|] eqn:Eh; [|by exists s].
  pose proof (s_nodes s Hs) as Hn. unfold waiting in Hn. rewrite Eh in Hn.
  apply Forall_cons in Hn as [[Hm Hlt] Hn]. change (msg_que s) with ([] ++ msg_que s) in Hn.
  destruct (lookup_lt_is_Some_2 _ _ Hlt) as [c Hc].
  pose proof (s_clients s Hs i c Hc) as Hok. unfold waiting in Hok. rewrite Eh in Hok.
  change (option_list (Some (i, m)) ++ msg_que s) with ((pair i <$> [m]) ++ msg_que s) in Hok.
  rewrite pending_app, pending_own in Hok. change (PostMsgToQue <$> [m]) with [PostMsgToQue m] in Hok.
  destruct (client_handle_ok i m _ c (msg_que s) Hm Hok) as (c' & Hh & Hok' & Hw & Hcl).
  unfold on_client. rewrite Hc, Hh. cbn [res_bind clients msg_que].
  eexists. split; [reflexivity|]. split; [|split].
  - apply (client_update_ok s _ i c'); [done|done|reflexivity| |exact Hok'|exact Hn].
    intros j Hj. unfold waiting. rewrite Eh. cbn [hand msg_que].
    change (option_list (Some (i, m)) ++ msg_que s) with ((pair i <$> [m]) ++ msg_que s).
    by rewrite (pending_app j (pair i <$> [m])), pending_other by done.
  - intros _. unfold work. rewrite Eh. cbn [clients msg_que hand].
    pose proof (weight_insert client_work (clients s) i c c' Hc). lia.
  - intros Hall j cj [(<- & <- & _)|[Hne Hj]]%list_lookup_insert_Some; [|by eapply Hall].
    apply Hcl. by eapply Hall.
Qed.

Lemma system_event_ok e s :
  system_ok s -> accept_ok e ->
  exists s', do_event e s = Ok s' /\ system_ok s'
    /\ (due e s = true -> work s' < work s) /\ (benign e -> all_clean s -> all_clean s').
Proof.
  intros Hs He.
  assert (forall i f, e = Read i \/ e = Written i \/ due e s = false ->
    (exists s', on_client i f s = Ok s' /\ system_ok s'
      /\ (due e s = true -> is_Some (clients s !! i) -> work s' < work s)
      /\ (benign e -> all_clean s -> all_clean s')) ->
    exists s', on_client i f s = Ok s' /\ system_ok s'
      /\ (due e s = true -> work s' < work s) /\ (benign e -> all_clean s -> all_clean s'))
    as Hfin.
  { intros i f Hcase (s' & H1 & H2 & H3 & H4). exists s'. split_and!; [done..| |done].
    intros Hd. apply (H3 Hd). destruct Hcase as [->|[->|?]]; [..|congruence];
      cbn in Hd; by destruct (clients s !! i). }
  destruct e as [st|i|i n| | |i|i e].
  - destruct He as [Hv Hr]. destruct (accept_event_ok st s Hs Hv Hr) as (s' & H1 & H2 & H3).
    exists s'. by split_and!.
  - apply Hfin; [by left|]. apply on_client_ok; [done|]. intros c Hc.
    pose proof (s_clients s Hs i c Hc) as Hok. cbn [due]. rewrite Hc.
    destruct (rd_due (c_link c)) eqn:Ed; [|by apply quiet_ok].
    destruct (read_due_ok i _ c (msg_que s) Hok Ed) as (c' & ms & H1 & H2 & H3 & H4 & H5).
    exists c', ms. by split_and!.
  - apply Hfin; [by right; right|]. apply on_client_ok; [done|]. intros c Hc.
    pose proof (s_clients s Hs i c Hc) as Hok. cbn [due benign].
    destruct (k_read (cut_off n (c_link c))) eqn:Er; [|by apply quiet_ok].
    destruct (rd_due (cut_off n (c_link c))) eqn:Ed; [by apply quiet_ok|].
    destruct (read_fails_ok i n _ c (msg_que s) Hok) as (c' & -> & Hok'); [by eexists|done|].
    by apply quiet_ok.
  - destruct (pop_event_ok s Hs) as (s' & H1 & H2 & H3 & H4). exists s'. by split_and!.
  - destruct (handle_event_ok s Hs) as (s' & H1 & H2 & H3 & H4). exists s'. by split_and!.
  - apply Hfin; [by right; left|]. apply on_client_ok; [done|]. intros c Hc.
    pose proof (s_clients s Hs i c Hc) as Hok. cbn [due]. rewrite Hc.
    destruct (c_writing c) as [d|] eqn:Ew; [|unfold write_step; rewrite Ew; by apply quiet_ok].
    destruct (client_write_ok i _ c (msg_que s) d Hok Ew) as (c' & -> & Hok' & Hw & Hcl).
    by apply quiet_ok.
  - apply Hfin; [by right; right|]. apply on_client_ok; [done|]. intros c Hc.
    pose proof (s_clients s Hs i c Hc) as Hok. cbn [due benign].
    destruct (c_writing c) as [d|] eqn:Ew; [|unfold write_step; rewrite Ew; by apply quiet_ok].
    destruct (write_fails_ok i e _ c (msg_que s) d Hok Ew) as (c' & -> & Hok').
    by apply quiet_ok.
Qed.

Lemma system_run_ok es s :
  system_ok s -> Forall accept_ok es ->
  exists s', system_run es s = Ok s' /\ system_ok s'
    /\ (Forall benign es -> all_clean s -> all_clean s').
Proof.
  intros Hs Hes. revert s Hs. induction Hes as [|e es He _ IH]; intros s Hs; cbn [system_run].
  { by exists s. }
  destruct (system_event_ok e s Hs He) as (s1 & -> & Hs1 & _ & Hc1). cbn [res_bind].
  destruct (IH s1 Hs1) as (s' & Hr & Hs' & Hc'). exists s'. split_and!; [done..|].
  intros [Hb Hbs]%Forall_cons Hall. by auto.
Qed.

Lemma empty_ok : system_ok empty_system.
Proof. by split. Qed.

(** The streams of the connections, in the order they were accepted. *)
Definition sent (es : list event) : list (list char) :=
  omap (fun e => match e with Accept st => Some st | _ => None end) es.

Lemma effects_sent i ops c q c' q' : effects i ops c q = Ok (c', q') -> c_sent c' = c_sent c.
Proof.
  revert c q. induction ops as [|o ops IH]; intros c q; cbn [effects]; [by intros [= <- <-]|].
  intros H. destruct (effect i o c q) as [[c1 q1]| |] eqn:E; cbn [res_bind] in H; try discriminate H.
  rewrite (IH c1 q1 H). destruct o; cbn [effect] in E; try (by injection E as <- <-).
  destruct (c_writing c); [discriminate E|by injection E as <- <-].
Qed.

Lemma on_client_sent i f s s' :
  (forall c q c' q', f c q = Ok (c', q') -> c_sent c' = c_sent c) ->
  on_client i f s = Ok s' -> c_sent <$> clients s' = c_sent <$> clients s.
Proof.
  intros Hf. unfold on_client. destruct (clients s !! i) as [c|] eqn:Hi; [|by intros [= <-]].
  destruct (f c (msg_que s)) as [[c' q']| |] eqn:E; cbn [res_bind]; try done.
  intros [= <-]. cbn [clients]. rewrite list_fmap_insert, (Hf _ _ _ _ E).
  apply list_insert_id. by rewrite list_lookup_fmap, Hi.
Qed.

Lemma event_sent e s s' :
  do_event e s = Ok s' -> c_sent <$> clients s' = (c_sent <$> clients s) ++ sent [e].
Proof.
  assert (forall i k c q c' q', read_step i k c q = Ok (c', q') -> c_sent c' = c_sent c) as Hread.
  { intros i k c q c' q'. unfold read_step.
    destruct (rd_step k) as [[k' ops]| |]; cbn [res_bind]; try done. by intros ->%effects_sent. }
  assert (forall i e c q c' q', write_step i e c q = Ok (c', q') -> c_sent c' = c_sent c) as Hwrite.
  { intros i e0 c q c' q'. unfold write_step. destruct (c_writing c); [|by intros [= <- <-]].
    destruct (HandleWrite _ _) as [[ss ops]| |]; cbn [res_bind]; try done.
    intros ->%effects_sent. by destruct e0. }
  destruct e as [st|i|i n| | |i|i e]; cbn [do_event sent omap list_omap]; rewrite ?app_nil_r.
  - destruct (rd_start st) as [k| |]; cbn [res_bind]; try done. intros [= <-].
    cbn [clients]. by rewrite fmap_app.
  - apply on_client_sent. intros c q c' q'. destruct (rd_due _); [apply Hread|by intros [= <- <-]].
  - apply on_client_sent. intros c q c' q'. destruct (k_read _); [|by intros [= <- <-]].
    destruct (rd_due _); [by intros [= <- <-]|apply Hread].
  - unfold pop_step. destruct (hand s), (msg_que s); by intros [= <-].
  - destruct (hand s) as [[i m]|]; [|by intros [= <-]].
    destruct (on_client i (handle_step i m) s) as [s1| |] eqn:E; cbn [res_bind]; try done.
    intros [= <-]. apply on_client_sent in E; [exact E|]. intros c q c' q'. unfold handle_step.
    destruct (deal_msg m _) as [[ss ops]| |]; cbn [res_bind]; try done. by intros ->%effects_sent.
  - apply on_client_sent. apply Hwrite.
  - apply on_client_sent. apply Hwrite.
Qed.

Lemma run_sent es s s' :
  system_run es s = Ok s' -> c_sent <$> clients s' = (c_sent <$> clients s) ++ sent es.
Proof.
  revert s. induction es as [|e es IH]; intros s; cbn [system_run].
  { intros [= <-]. by rewrite app_nil_r. }
  destruct (do_event e s) as [s1| |] eqn:E; cbn [res_bind]; try done.
  intros H. rewrite (IH s1 H), (event_sent e s s1 E), <- app_assoc.
  change (e :: es) with ([e] ++ es). unfold sent. by rewrite omap_app.
Qed.

(** The client of a connection that was accepted. *)
Lemma run_client es s i st :
  system_run es empty_system = Ok s -> sent es !! i = Some st ->
  exists c, clients s !! i = Some c /\ c_sent c = st.
Proof.
  intros Hr Hi. apply run_sent in Hr. cbn in Hr. rewrite <- Hr, list_lookup_fmap in Hi.
  apply fmap_Some in Hi as (c & Hc & ->). by exists c.
Qed.

(** ** The properties *)

(** Events that are due one after the other. *)
Fixpoint proceeds (es : list event) s : bool :=
  match es with
  | [] => true
  | e :: es => due e s && match do_event e s with Ok s => proceeds es s | _ => false end
  end.

Definition quiescent s : Prop := forall e, due e s = false.

Lemma due_accept e s : due e s = true -> accept_ok e /\ benign e.
Proof. by destruct e. Qed.

Lemma proceeds_ok es s :
  system_ok s -> proceeds es s = true ->
  exists s', system_run es s = Ok s' /\ system_ok s' /\ length es + work s' <= work s.
Proof.
  revert s. induction es as [|e es IH]; intros s Hs; cbn [proceeds system_run].
  { intros _. by exists s. }
  intros [Hd Hp]%andb_true_iff. destruct (due_accept e s Hd) as [Ha _].
  destruct (system_event_ok e s Hs Ha) as (s1 & H1 & Hs1 & Hw & _). rewrite H1 in *. cbn [res_bind].
  specialize (Hw Hd). destruct (IH s1 Hs1 Hp) as (s' & Hr & Hs' & Hl). exists s'.
  split_and!; [done..|]. cbn [length]. lia.
Qed.

Definition candidates s : list event :=
  [Pop; Handle] ++ (Read <$> seq 0 (length (clients s))) ++ (Written <$> seq 0 (length (clients s))).

Lemma due_candidate e s : due e s = true -> e ∈ candidates s.
Proof.
  unfold candidates. rewrite !elem_of_app, !list_elem_of_fmap. destruct e; cbn [due]; try done;
    try (intros _; left; set_solver);
    destruct (clients s !! i) eqn:Hi; try done; intros _; right; [left|right];
    (exists i; split; [done|]; apply elem_of_seq; apply lookup_lt_Some in Hi; lia).
Qed.

Lemma quiescence k s :
  system_ok s -> work s <= k ->
  exists es s', proceeds es s = true /\ system_run es s = Ok s' /\ quiescent s'.
Proof.
  revert s. induction k as [k IH] using lt_wf_ind. intros s Hs Hk.
  destruct (decide (Exists (fun e => due e s = true) (candidates s))) as [He|He].
  - apply Exists_exists in He as (e & _ & Hd). destruct (due_accept e s Hd) as [Ha _].
    destruct (system_event_ok e s Hs Ha) as (s1 & H1 & Hs1 & Hw & _). specialize (Hw Hd).
    destruct (IH (work s1)) with (s := s1) as (es & s' & Hp & Hr & Hq); [lia|done|done|].
    exists (e :: es), s'. cbn [proceeds system_run]. rewrite Hd, H1. by split_and!.
  - exists [], s. split_and!; [done..|]. intros e. destruct (due e s) eqn:Ed; [|done].
    destruct He. apply Exists_exists. exists e. split; [by apply due_candidate|done].
Qed.

(** What a client has got when nothing is left to do. *)
Lemma answered i s c :
  system_ok s -> quiescent s -> clients s !! i = Some c -> c_closed c = false ->
  c_handled c = (rd_cut (c_sent c)).1
  /\ (length (replies (rd_cut (c_sent c)).1) <= 1001 ->
      c_written c = reply_frame <$> replies (rd_cut (c_sent c)).1).
Proof.
  intros Hs Hq Hi Hc. pose proof (s_clients s Hs i c Hi) as [Hl _ Ho (f & Hw & Hf) Hout _].
  destruct (Ho Hc) as [Hall _].
  pose proof (Hq (Read i)) as H1. pose proof (Hq Pop) as H2. pose proof (Hq Handle) as H3.
  pose proof (Hq (Written i)) as H4. cbn [due] in *. rewrite Hi in H1, H4.
  assert (pending i (waiting s) = []) as Hp.
  { unfold waiting. destruct (hand s); [done|]. by destruct (msg_que s). }
  rewrite Hp, (rd_waiting _ Hl H1), !app_nil_r in Hall. split; [done|]. intros Hlen.
  destruct Hout as (acc & _ & Hwr & Hacc). rewrite Hall in *. rewrite <- (Hacc Hlen), <- Hwr.
  assert (f = false) as -> by (destruct f; [by rewrite Hf in Hc|done]).
  destruct (c_writing c); [done|]. unfold writing_ok in Hw.
  destruct (_send_que (k_session (c_link c))); [by rewrite app_nil_r|done].
Qed.



(** C9: the servers come to rest: whatever happened before, without new connections and
    failures only [work] many things can happen, in any order, and they can happen
    until nothing is left to do. *)
Theorem server_terminates es :
  Forall accept_ok es ->
  exists s, system_run es empty_system = Ok s
  /\ (forall es', proceeds es' s = true -> length es' <= work s)
  /\ exists es' s', proceeds es' s = true /\ system_run es' s = Ok s' /\ quiescent s'.
Proof.
  intros He. destruct (system_run_ok es empty_system empty_ok He) as (s & Hr & Hs & _).
  exists s. split; [done|]. split; [|by apply (quiescence (work s))].
  intros es' Hp. destruct (proceeds_ok es' s Hs Hp) as (s' & _ & _ & Hl). lia.
Qed.
End System.

(** ** Examples: two clients, with the handlers and with the coroutine *)
Definition sample_streams : list (list char) :=
  [frame 1001 (lit "hi") ++ frame 7 (lit "x"); frame 1001 (lit "yo") ++ [NUL]].

Definition sample_events (reads : list nat) : list event :=
  (Accept <$> sample_streams) ++ (Read <$> reads) ++ [Pop; Handle; Pop; Handle; Pop; Handle]
  ++ [Written 1; Written 0].

Lemma accept_ok_sent {V} `{J : !Json V} `{R : !Receiver} es :
  Forall (fun st => rd_valid st /\ short_replies st) (sent es) -> Forall accept_ok es.
Proof.
  induction es as [|[st|i|i n| | |i|i e] es IH]; [done|..]; cbn [sent omap list_omap];
    intros H; apply Forall_cons; try (split; [done|by apply IH]).
  apply Forall_cons in H as [H1 H2]. split; [exact H1|by apply IH].
Qed.

Ltac sample_ok :=
  apply accept_ok_sent; change (sent _) with sample_streams; unfold sample_streams;
  apply Forall_cons; split; [|apply Forall_cons; split; [|apply Forall_nil; exact I]];
  (split; [vm_compute; (exact I || discriminate)
          | unfold short_replies; apply (bool_decide_unpack _); vm_compute; exact I]).



Lemma server_terminates_witness :
  exists s, system_run (J := toy_json) (R := pool_receiver) (sample_events [0; 0; 1])
    empty_system = Ok s /\ work (R := pool_receiver) s = 76
  /\ (forall es', proceeds (J := toy_json) (R := pool_receiver) es' s = true -> length es' <= 76).
Proof.
  destruct (server_terminates (J := toy_json) (R := pool_receiver) (sample_events [0; 0; 1]))
    as (s & Hr & Hl & _).
  - sample_ok.
  - exists s. split; [exact Hr|].
    assert (work (R := pool_receiver) s = 76) as Hw
      by (vm_compute in Hr; injection Hr as <-; vm_compute; reflexivity).
    split; [exact Hw|]. rewrite <- Hw. exact Hl.
Defined.
