(* ===== verification/ClientSystem.v ===== *)
(** * JSON clients at the servers of 3 and 4

    Any number of [JsonClient]s, each typing its lines, at the whole server of
    [SessionSystem]: from the lines to what the clients print. *)

From S2P Require Import Prelude CBase Frame MsgNode SendQueue PoolServer Callback.
From S2P Require Import CoroServer Receiver SessionSystem JsonClient.

(** ** Frames both sessions take *)

Definition frames_of (ms : list (Z * list char)) : list char :=
  concat ((fun '(id, body) => frame id body) <$> ms).

(** A receiver cuts frames of messages within the limits into these messages. *)
Class FrameReceiver `(R : Receiver) := {
  fr_cut ms : Forall (fun '(id, body) => valid_message id body) ms ->
    rd_valid (frames_of ms) /\ rd_cut (frames_of ms) = (ms, StreamShort)
}.

#[export] Instance pool_frames : FrameReceiver pool_receiver.
Proof.
  split. intros ms Hms. split; [done|]. cbn [rd_cut pool_receiver]. unfold frames_of.
  pose proof (cut_encode (F := pool_format) ms [] Hms) as H. rewrite app_nil_r in H.
  change (ff_encode (H := Z)) with frame in H. rewrite H.
  rewrite cut_short by (simpl; lia). cbn [fst snd]. by rewrite app_nil_r.
Qed.

#[export] Instance coro_frames : FrameReceiver coro_receiver.
Proof.
  split. intros ms Hms.
  assert (Forall (fun '(id, body) => coro_valid id body) ms) as Hms'.
  { eapply Forall_impl; [exact Hms|]. intros [id body] [? ?]. unfold coro_valid, MAX_LENGTH in *.
    split; unfold PoolServer.MAX_LENGTH in *; lia. }
  pose proof (cut_encode (F := coro_format) ms [] Hms') as H.
  pose proof (leftover_encode (F := coro_format) ms [] Hms') as Hl.
  rewrite app_nil_r in H, Hl.
  change (ff_encode (FrameFormat := coro_format)) with frame in H, Hl.
  cbn [rd_cut rd_valid coro_receiver]. unfold frames_of. split.
  - rewrite Hl by (left; simpl; lia). done.
  - rewrite H. rewrite cut_short by (simpl; lia). cbn [fst snd]. by rewrite app_nil_r.
Qed.

Section Clients.
Context {V : Type} `{J : !Json V}.

(** ** One line

    A line typed, the request made of it, the server's reply and its id, and the
    data the client prints. *)
Record talk := MkTalk {
  t_line : list char;
  t_request : list char;
  t_reply : list char;
  t_id : Z;
  t_data : V
}.

(** The line is sent, its request is answered, and the reply is one the client
    prints. *)
Record talk_ok (t : talk) : Prop := {
  to_line : t_line t <> [] /\ t_line t <> lit "quit";
  to_request : make_request (t_line t) = Some (t_request t)
    /\ (0 < Z.of_nat (length (t_request t)) <= 2044)%Z;
  to_reply : hello_reply msgid (t_request t) = Some (t_reply t, t_id t)
    /\ (0 < Z.of_nat (length (t_reply t)) <= 2048)%Z;
  to_data : exists v v', js_parse (t_reply t) = Some v /\ js_member "data" v = Some (t_data t, v')
}.

(** The messages of a client, and what it writes and prints. *)
Definition messages (ts : list talk) : list (Z * list char) := (fun t => (msgid, t_request t)) <$> ts.
Definition answers (ts : list talk) : list (list char * Z) := (fun t => (t_reply t, t_id t)) <$> ts.
Definition outputs (ts : list talk) : list output :=
  concat ((fun t => [OWrite (frame msgid (t_request t)); OReply (to_uint16 (t_id t)) (t_data t)]) <$> ts).

Lemma messages_valid ts : Forall talk_ok ts ->
  Forall (fun '(id, body) => valid_message id body) (messages ts).
Proof.
  intros H. unfold messages. rewrite Forall_fmap. eapply Forall_impl; [exact H|].
  intros t [_ [_ Hl] _ _]. unfold valid_message, msgid, PoolServer.MAX_LENGTH. cbn. lia.
Qed.

Lemma replies_messages ts : Forall talk_ok ts -> replies (messages ts) = answers ts.
Proof.
  induction 1 as [|t ts [_ _ [Hr _] _] _ IH]; [done|]. unfold messages, answers in *.
  cbn [fmap list_fmap]. unfold replies in *. cbn [omap list_omap].
  rewrite decide_True by done. rewrite Hr. by rewrite IH.
Qed.

(** The client's loop on the frames of the replies to its lines. *)
Lemma client_loop_run ts rest :
  Forall talk_ok ts ->
  client_loop (t_line <$> ts) (concat (reply_frame <$> answers ts) ++ rest) = Ok (outputs ts).
Proof.
  induction 1 as [|t ts [[H1 H2] [H3 H4] [_ H6] (v & v' & H7 & H8)] _ IH]; [done|].
  unfold answers, outputs in *. cbn [fmap list_fmap concat client_loop].
  unfold client_turn. rewrite !decide_False by done. rewrite H3.
  rewrite decide_False by (unfold MAX_LENGTH, HEAD_TOTAL; lia).
  rewrite make_frame_run by lia. cbn [res_bind]. unfold reply_frame at 1. cbn [fst snd].
  rewrite <- app_assoc. rewrite read_reply_frame by lia.
  rewrite decide_False by (unfold MAX_LENGTH; intros [E|E]; [rewrite E in H6; simpl in H6|]; lia).
  rewrite H7, H8. cbn [res_bind]. by rewrite IH.
Qed.

(** ** At the server *)
Context `{R : !Receiver} `{FR : !FrameReceiver R}.

(** What happens at the server: the clients connect in turn, and nothing fails. *)
Definition works (e : event) : bool :=
  match e with ReadFails _ _ | WriteFails _ _ => false | _ => true end.

Lemma streams_ok es tss :
  sent es = (fun ts => frames_of (messages ts)) <$> tss -> Forall (Forall talk_ok) tss ->
  Forall (fun e => works e = true) es -> Forall accept_ok es /\ Forall benign es.
Proof.
  intros Hes Ht Hw.
  assert (forall st, Accept st ∈ es -> rd_valid st /\ short_replies st /\ (rd_cut st).2 = StreamShort)
    as Hst.
  { intros st Hin.
    assert (st ∈ sent es) as Hs by (unfold sent; apply list_elem_of_omap; by exists (Accept st)).
    rewrite Hes in Hs. apply list_elem_of_fmap in Hs as (ts & -> & Hts).
    pose proof (proj1 (Forall_forall _ _) Ht ts Hts) as Hok.
    destruct (fr_cut (messages ts)) as [Hv Hc]; [by apply messages_valid|].
    split; [done|]. unfold short_replies. rewrite Hc. split; [|done].
    cbn [fst]. rewrite replies_messages by done. unfold answers. rewrite Forall_fmap.
    eapply Forall_impl; [exact Hok|]. intros t [_ _ [_ H] _]. cbn. lia. }
  split; apply Forall_forall; intros e He;
    pose proof (proj1 (Forall_forall _ _) Hw e He) as Hwe; destruct e as [st| | | | | |]; try done;
    by destruct (Hst st He) as (? & ? & ?).
Qed.

End Clients.

(** ** Example: two clients at the coroutine server *)
Definition sample_talk (l : list char) : talk :=
  let reply := lit "server has received msg, msg data is " ++ l in
  MkTalk l l reply 1001 (ToyString reply).

Definition sample_talks : list (list talk) :=
  [[sample_talk (lit "hi"); sample_talk (lit "x")]; [sample_talk (lit "yo")]].

Definition sample_session : list event :=
  (Accept <$> ((fun ts => frames_of (messages ts)) <$> sample_talks)) ++ (Read <$> [0; 1; 0])
  ++ [Pop; Handle; Written 0; Pop; Handle; Pop; Handle; Written 1; Written 0].

