(* ===== verification/HttpBeast.v ===== *)
(** * The beast HTTP server: [5. HTTPserver/src/beast_http.cpp]

    Parsing the request and writing the response are beast's; the program
    chooses the response ([process_request] and the two routing functions) and
    drives a connection with its deadline timer. *)

From S2P Require Import Prelude CBase Callback.

(** ** Requests and responses *)
Inductive verb := verb_get | verb_post | verb_other.

Record request := MkRequest {
  q_version : Z;
  q_method : verb;
  q_method_string : list char;
  q_target : list char;
  q_body : list char
}.

(** [http::status] as its number; the fields in order. *)
Record response := MkResponse {
  r_version : Z;
  r_keep_alive : bool;
  r_result : Z;
  r_fields : list (String.string * list char);
  r_content_length : option Z;
  r_body : list char
}.

(** A default-constructed [http::response]. *)
Definition response_new : response := MkResponse 11 true 200 [] None [].

Definition set_version v r := MkResponse v (r_keep_alive r) (r_result r) (r_fields r)
  (r_content_length r) (r_body r).
Definition set_keep_alive b r := MkResponse (r_version r) b (r_result r) (r_fields r)
  (r_content_length r) (r_body r).
Definition set_result c r := MkResponse (r_version r) (r_keep_alive r) c (r_fields r)
  (r_content_length r) (r_body r).
(** [set(field, value)] replaces the fields of that name. *)
Definition set_field f v r := MkResponse (r_version r) (r_keep_alive r) (r_result r)
  (filter (fun p => p.1 <> f) (r_fields r) ++ [(f, v)]) (r_content_length r) (r_body r).
Definition set_content_length n r := MkResponse (r_version r) (r_keep_alive r) (r_result r)
  (r_fields r) (Some n) (r_body r).
(** [beast::ostream(_response.body()) << d] *)
Definition write_body d r := MkResponse (r_version r) (r_keep_alive r) (r_result r)
  (r_fields r) (r_content_length r) (r_body r ++ d).

Definition f_server : String.string := "Server".
Definition f_content_type : String.string := "Content-Type".

(** ** [program_state] *)
Module program_state.
(** [++count] on a [std::size_t]. *)
Definition request_count (count : Z) : Z * Z :=
  let count := wrap_u 64 (count + 1) in (count, count).
End program_state.

Definition line (l : list char) : list char := l ++ [LF].

(** The page of the two targets, around a number. *)
Definition page (n : list char) : list char :=
  line (lit "<html>")
  ++ line (lit "<head><title>Request count</title></head>")
  ++ line (lit "<body>")
  ++ line (lit "<h1>Request count</h1>")
  ++ lit "<p>There have been "
  ++ n
  ++ line (lit " requests so far.</p>")
  ++ line (lit "</body>")
  ++ line (lit "</html>").

Section Handlers.
Context {V : Type} `{!Json V}.
Implicit Types (q : request) (r : response).

(** [File not found] *)
Definition not_found r : response :=
  let r := set_result 404 r in
  let r := set_field f_content_type (lit "text/plain") r in
  write_body (lit "File not found" ++ CRLF) r.

(** [create_response]: the counter and the clock are the program's state. *)
Definition create_response q (now count : Z) r : Z * response :=
  if decide (q_target q = lit "/count") then
    let r := set_field f_content_type (lit "text/html") r in
    let '(n, count) := program_state.request_count count in
    (count, write_body (page (print_Z n)) r)
  else if decide (q_target q = lit "/time") then
    let r := set_field f_content_type (lit "text/html") r in
    (count, write_body (page (print_Z now)) r)
  else (count, not_found r).

(** [create_post_response]; [None] when it throws. *)
Definition create_post_response q r : option response :=
  if decide (q_target q = lit "/email") then
    let body_str := q_body q in
    let r := set_field f_content_type (lit "text/json") r in
    match js_parse body_str with
    | None =>
        root ← js_assign "error" (js_int 1001) js_null;
        Some (write_body (js_toStyledString root) r)
    | Some src_root =>
        '(v, src_root) ← js_member "email" src_root;
        _ ← js_asString v;
        root ← js_assign "error" (js_int 0) js_null;
        '(v, src_root) ← js_member "email" src_root;
        root ← js_assign "email" v root;
        root ← js_assign "msg" (js_string (lit "recevie email post success")) root;
        Some (write_body (js_toStyledString root) r)
    end
  else Some (not_found r).

(** [process_request], up to the [async_write] of [write_response]. *)
Definition write_response r : response :=
  set_content_length (Z.of_nat (length (r_body r))) r.

Definition process_request q (now count : Z) r : Z * response :=
  let r := set_version (q_version q) r in
  let r := set_keep_alive false r in
  let '(count, r) :=
    match q_method q with
    | verb_get =>
        let r := set_result 200 r in
        let r := set_field f_server (lit "Beast") r in
        create_response q now count r
    | verb_post => (count, r)
    | verb_other =>
        let r := set_result 400 r in
        let r := set_field f_content_type (lit "text/plain") r in
        (count, write_body (lit "Invalid request-method: '" ++ q_method_string q ++ lit "'") r)
    end in
  (count, write_response r).

(** The requests the server gets, one after the other, each with the time it is
    answered at, on connections of their own. *)
Fixpoint serve (qs : list (request * Z)) (count : Z) : list response :=
  match qs with
  | [] => []
  | (q, now) :: qs =>
      let '(count, r) := process_request q now count response_new in r :: serve qs count
  end.
End Handlers.

(** ** Connections

    [http_connection]: one read, one write and the deadline timer.  The timer's
    handler is queued when the time is over ([TExpired]) or when the wait is
    cancelled ([TAborted]); cancelling does not call back a handler that is
    already queued. *)
Inductive timer := TWaiting | TExpired | TAborted | TDone.

Record connection := MkConnection {
  h_open : bool;                  (* the socket *)
  h_send_shut : bool;
  h_timer : timer;
  h_reading : bool;
  h_writing : option response;    (* the async_write in progress *)
  h_written : list response;
  h_count : Z                     (* program_state's counter *)
}.

Inductive event :=
| EvRequest (q : request) (now : Z)   (* the read completes with a request *)
| EvReadError
| EvWritten (ok : bool)               (* the write completes *)
| EvExpire                            (* 60 seconds are over *)
| EvTimer.                            (* the timer's handler runs *)

(** [start()]: [read_request] and [check_deadline]. *)
Definition start (count : Z) : connection :=
  MkConnection true false TWaiting true None [] count.

(** [_timer.cancel()] *)
Definition cancel (t : timer) : timer := match t with TWaiting => TAborted | _ => t end.

(** An event that is not due changes nothing. *)
Definition do_event (e : event) (c : connection) : connection :=
  match e with
  | EvRequest q now =>
      if h_reading c then
        let '(count, r) := process_request q now (h_count c) response_new in
        MkConnection (h_open c) (h_send_shut c) (h_timer c) false (Some r) (h_written c) count
      else c
  | EvReadError =>
      MkConnection (h_open c) (h_send_shut c) (h_timer c) false (h_writing c) (h_written c)
        (h_count c)
  | EvWritten ok =>
      match h_writing c with
      | None => c
      | Some r =>
          MkConnection (h_open c) true (cancel (h_timer c)) (h_reading c) None
            (if ok then h_written c ++ [r] else h_written c) (h_count c)
      end
  | EvExpire =>
      MkConnection (h_open c) (h_send_shut c)
        (match h_timer c with TWaiting => TExpired | t => t end)
        (h_reading c) (h_writing c) (h_written c) (h_count c)
  | EvTimer =>
      match h_timer c with
      | TExpired =>
          MkConnection false (h_send_shut c) TDone (h_reading c) (h_writing c) (h_written c)
            (h_count c)
      | TAborted =>
          MkConnection (h_open c) (h_send_shut c) TDone (h_reading c) (h_writing c)
            (h_written c) (h_count c)
      | _ => c
      end
  end.

Definition run (es : list event) (c : connection) : connection := foldl (flip do_event) c es.

(** A connection is freed when no handler is left to hold it. *)
Definition alive (c : connection) : bool :=
  h_reading c || bool_decide (is_Some (h_writing c))
  || match h_timer c with TDone => false | _ => true end.

(** ** Properties *)

(** The requests [request_count] counts. *)
Definition counted (q : request) : bool :=
  match q_method q with verb_get => bool_decide (q_target q = lit "/count") | _ => false end.

Definition hits (qs : list (request * Z)) : nat := length (filter (fun p => counted p.1 = true) qs).

Definition status_of (q : request) : Z :=
  match q_method q with
  | verb_get =>
      if decide (q_target q = lit "/count") then 200
      else if decide (q_target q = lit "/time") then 200 else 404
  | verb_post => 200
  | verb_other => 400
  end.

Definition body_of (q : request) (now n : Z) : list char :=
  match q_method q with
  | verb_get =>
      if decide (q_target q = lit "/count") then page (print_Z n)
      else if decide (q_target q = lit "/time") then page (print_Z now)
      else lit "File not found" ++ CRLF
  | verb_post => []
  | verb_other => lit "Invalid request-method: '" ++ q_method_string q ++ lit "'"
  end.

(** What a response is, whatever the request. *)
Definition answers (q : request) (now n : Z) (r : response) : Prop :=
  r_version r = q_version q /\ r_keep_alive r = false /\ r_result r = status_of q
  /\ r_body r = body_of q now n
  /\ r_content_length r = Some (Z.of_nat (length (r_body r))).

Lemma beast_request_run q now count :
  let '(count', r) := process_request q now count response_new in
  count' = (if counted q then wrap_u 64 (count + 1) else count)
  /\ answers q now count' r.
Proof.
  unfold process_request, counted, answers, status_of, body_of, create_response, not_found.
  destruct (q_method q); cbn; [|by split_and!..].
  case_decide as H1; cbn; [rewrite bool_decide_true by done; by split_and!|].
  rewrite bool_decide_false by done. case_decide; by split_and!.
Qed.

Lemma hits_cons q t qs : hits ((q, t) :: qs) = (if counted q then 1 else 0) + hits qs.
Proof.
  unfold hits, filter. cbn [list_filter fst].
  destruct (counted q); [by rewrite decide_True | by rewrite decide_False].
Qed.

Lemma beast_serve_run qs k i q now :
  qs !! i = Some (q, now) -> (Z.of_nat k + Z.of_nat (length qs) < 2 ^ 64)%Z ->
  exists r, serve qs (Z.of_nat k) !! i = Some r
    /\ answers q now (Z.of_nat (k + hits (take (S i) qs))) r.
Proof.
  revert k i. induction qs as [|[q0 t0] qs IH]; intros k i Hi Hk; [done|]. cbn [serve].
  pose proof (beast_request_run q0 t0 (Z.of_nat k)) as H.
  destruct (process_request q0 t0 (Z.of_nat k) response_new) as [c r]. destruct H as [Hc Ha].
  set (d := if counted q0 then 1 else 0).
  assert (c = Z.of_nat (k + d)) as ->.
  { rewrite Hc. subst d. cbn [length] in Hk.
    destruct (counted q0); [rewrite wrap_u_id by lia|]; lia. }
  change (take (S i) ((q0, t0) :: qs)) with ((q0, t0) :: take i qs). rewrite hits_cons.
  fold d. destruct i as [|i].
  - injection Hi as -> ->. exists r. split; [done|]. rewrite take_0.
    by replace (k + (d + hits [])) with (k + d) by (unfold hits; simpl; lia).
  - destruct (IH (k + d) i Hi) as (r' & Hr & Ha').
    { cbn [length] in Hk. subst d. destruct (counted q0); lia. }
    exists r'. split; [exact Hr|]. by rewrite Nat.add_assoc.
Qed.

(** What stands before the number on a page. *)
Definition page_head : list char :=
  line (lit "<html>")
  ++ line (lit "<head><title>Request count</title></head>")
  ++ line (lit "<body>")
  ++ line (lit "<h1>Request count</h1>")
  ++ lit "<p>There have been ".

Lemma page_number z :
  (LONG_MIN <= z <= LONG_MAX)%Z ->
  exists rest, page (print_Z z) = page_head ++ rest /\ atol rest = Ok z.
Proof.
  intros Hz. eexists (print_Z z ++ _). split.
  - unfold page, page_head. by rewrite <- !app_assoc.
  - change (line (lit " requests so far.</p>")) with (SP :: line (lit "requests so far.</p>")).
    rewrite <- app_comm_cons. by apply atol_print.
Qed.

(** Every request is answered by its own version, [Connection: close], the status
    and the body of its method and target, and the length of that body; and
    the number on the page of [/count] reads back as the number of GET requests
    of [/count] up to this one (other requests are not counted). *)
Theorem serve_spec qs i q now :
  qs !! i = Some (q, now) -> (Z.of_nat (length qs) < 2 ^ 63)%Z ->
  exists r, serve qs 0 !! i = Some r
    /\ answers q now (Z.of_nat (hits (take (S i) qs))) r
    /\ (counted q = true -> exists rest, r_body r = page_head ++ rest
          /\ atol rest = Ok (Z.of_nat (hits (take (S i) qs)))).
Proof.
  intros Hi Hl. destruct (beast_serve_run qs 0 i q now Hi) as (r & Hr & Ha); [lia|].
  exists r. split; [exact Hr|]. split; [exact Ha|]. intros Hc.
  destruct Ha as (_ & _ & _ & Hb & _). unfold counted in Hc. unfold body_of in Hb.
  destruct (q_method q); try done. apply bool_decide_eq_true in Hc.
  rewrite decide_True in Hb by done. rewrite Hb. apply page_number.
  unfold LONG_MIN, LONG_MAX.
  assert (hits (take (S i) qs) <= length qs).
  { unfold hits. etrans; [apply length_filter|]. rewrite length_take. lia. }
  simpl. change (2 ^ 63)%Z with 9223372036854775808%Z in Hl. lia.
Qed.

(** A POST request is answered by an empty 200 whatever its target and body:
    [create_post_response], which would route it, is never called. *)
Theorem post_not_routed q now count :
  q_method q = verb_post ->
  process_request q now count response_new
  = (count, MkResponse (q_version q) false 200 [] (Some 0%Z) []).
Proof. intros H. unfold process_request. by rewrite H. Qed.

(** ** Connections *)

Definition conn_inv (es : list event) (c : connection) : Prop :=
  (h_reading c = true -> h_writing c = None /\ h_written c = [])
  /\ length (h_written c) + length (option_list (h_writing c)) <= 1
  /\ forall r, r ∈ h_written c ++ option_list (h_writing c) ->
     exists q now n, EvRequest q now ∈ es /\ answers q now n r.

Lemma run_snoc es e c : run (es ++ [e]) c = do_event e (run es c).
Proof. unfold run. by rewrite foldl_app. Qed.

Lemma beast_run_app es es' c : run (es ++ es') c = run es' (run es c).
Proof. unfold run. by rewrite foldl_app. Qed.

Lemma conn_inv_step es e c : conn_inv es c -> conn_inv (es ++ [e]) (do_event e c).
Proof.
  intros (Hr & Hl & Ha).
  assert (forall r, r ∈ h_written c ++ option_list (h_writing c) ->
     exists q now n, EvRequest q now ∈ es ++ [e] /\ answers q now n r) as Ha'.
  { intros r H. destruct (Ha r H) as (q & now & n & Hq & Hn). exists q, now, n.
    split; [|done]. apply elem_of_app. by left. }
  destruct e as [q now| |ok| |]; cbn [do_event].
  - destruct (h_reading c) eqn:E; [|by split; [rewrite E|]].
    destruct (Hr eq_refl) as [Hw Hd].
    pose proof (beast_request_run q now (h_count c)) as Hp.
    destruct (process_request _ _ _ _) as [n r]. destruct Hp as [_ Hp].
    split; [done|]. cbn. rewrite Hd. split; [done|].
    intros r' Hr'. apply list_elem_of_singleton in Hr' as ->. exists q, now, n.
    split; [|done]. apply elem_of_app. right. left.
  - by split_and!.
  - destruct (h_writing c) as [r|] eqn:E; [|unfold conn_inv; rewrite E; by split].
    split; [|split].
    + cbn. intros H. by destruct (Hr H).
    + cbn in *. destruct ok; rewrite ?length_app; simpl; lia.
    + cbn in *. intros r' Hr'. apply Ha'. rewrite app_nil_r in Hr'. destruct ok; [done|].
      apply elem_of_app. by left.
  - by split_and!.
  - destruct (h_timer c); by split_and!.
Qed.

Lemma conn_inv_run es count : conn_inv es (run es (start count)).
Proof.
  induction es as [|e es IH] using rev_ind.
  - split; [done|]. split; [simpl; lia|]. by intros r Hr%elem_of_nil.
  - rewrite run_snoc. by apply conn_inv_step.
Qed.

(** A connection answers at most one request, whatever comes in and whenever the
    timer expires, and what it writes answers a request it read. *)
Theorem connection_once es count :
  let c := run es (start count) in
  length (h_written c) <= 1
  /\ forall r, r ∈ h_written c -> exists q now n, EvRequest q now ∈ es /\ answers q now n r.
Proof.
  destruct (conn_inv_run es count) as (_ & Hl & Ha). split; [lia|].
  intros r Hr. apply Ha. apply elem_of_app. by left.
Qed.

(** The timer, cancelled or not started again, closes nothing. *)
Lemma run_open es c :
  h_timer c = TAborted \/ h_timer c = TDone -> h_open (run es c) = h_open c.
Proof.
  revert c. induction es as [|e es IH]; intros c Ht; [done|].
  change (run (e :: es) c) with (run es (do_event e c)).
  destruct e as [q now| |ok| |]; cbn [do_event].
  - destruct (h_reading c); [|by apply IH].
    destruct (process_request _ _ _ _) as [n r]. by rewrite IH.
  - by rewrite IH.
  - destruct (h_writing c); [|by apply IH]. rewrite IH; [done|]. cbn.
    destruct Ht as [-> | ->]; [by left|by right].
  - rewrite IH; [done|]. cbn. destruct Ht as [-> | ->]; [by left|by right].
  - destruct Ht as [Ht|Ht]; rewrite Ht; [|by apply IH; right]. rewrite IH; [done|]. by right.
Qed.

(** The deadline.  When the response is out before the 60 seconds are over, the
    sending side is shut down and the timer never closes the socket; when
    nothing arrives in time, the timer closes it, and the connection is freed
    as soon as its read has failed. *)
Theorem deadline es ok es' count :
  let c := run es (start count) in
  (is_Some (h_writing c) -> h_timer c = TWaiting ->
   let c' := run (es ++ EvWritten ok :: es') (start count) in
   h_open c' = h_open c)
  /\ (let c' := run [EvExpire; EvTimer; EvReadError] (start count) in
      h_open c' = false /\ alive c' = false).
Proof.
  split; [|done]. intros [r Hr] Ht. cbv zeta. rewrite beast_run_app.
  change (run (EvWritten ok :: es') ?c) with (run es' (do_event (EvWritten ok) c)).
  cbn [do_event]. rewrite Hr. rewrite run_open; [done|]. cbn. rewrite Ht. by left.
Qed.

(** ** Examples *)
Definition sample_request (v : verb) (target : list char) : request :=
  MkRequest 11 v (lit "M") target [].

Lemma serve_spec_witness :
  let qs := [(sample_request verb_get (lit "/count"), 5%Z);
             (sample_request verb_get (lit "/x"), 6%Z);
             (sample_request verb_get (lit "/count"), 7%Z)] in
  exists r, serve qs 0 !! 2 = Some r /\ r_body r = page (lit "2").
Proof.
  intros qs. destruct (serve_spec qs 2 (sample_request verb_get (lit "/count")) 7)
    as (r & Hr & (_ & _ & _ & Hb & _) & _).
  - reflexivity.
  - vm_compute. reflexivity.
  - exists r. split; [exact Hr | exact Hb].
Defined.

Lemma post_not_routed_witness :
  process_request (MkRequest 11 verb_post (lit "POST") (lit "/email") (lit "{}")) 5 3 response_new
  = (3%Z, MkResponse 11 false 200 [] (Some 0%Z) []).
Proof. apply post_not_routed. reflexivity. Defined.

Lemma deadline_witness :
  let es := [EvRequest (sample_request verb_get (lit "/time")) 9] in
  h_open (run (es ++ EvWritten true :: [EvExpire; EvTimer]) (start 0)) = true.
Proof.
  intros es. destruct (deadline es true [EvExpire; EvTimer] 0) as [H _].
  rewrite H; [reflexivity | eexists; reflexivity | reflexivity].
Defined.
