(* ===== verification/HttpSystem.v ===== *)
(** * The beast server at work: [http_server] of [5. HTTPserver/src/beast_http.cpp]

    [http_server] keeps one accept in progress and makes an [http_connection]
    of every socket.  All connections run on one thread, in any order, and
    share the counter of [program_state].  [v_log] is a history variable: the
    connections in the order their requests were read. *)

From S2P Require Import Prelude CBase Callback HttpBeast.

Record server := MkServer {
  v_accepting : bool;                           (* an async_accept in progress *)
  v_conns : list connection;
  v_count : Z;                                  (* [program_state]'s count *)
  v_log : list (nat * (request * Z))
}.

(** The events of the server: an accept completes; something happens to
    connection [i]. *)
Inductive vevent := VAccept (ok : bool) | VConn (i : nat) (e : HttpBeast.event).

(** [http_server]: start the next accept. *)
Definition http_server (s : server) : server :=
  MkServer true (v_conns s) (v_count s) (v_log s).

(** The handler of the accept. *)
Definition on_accept (ok : bool) (s : server) : server :=
  let s := MkServer false (v_conns s) (v_count s) (v_log s) in
  let s := if ok
           then MkServer (v_accepting s) (v_conns s ++ [start (v_count s)]) (v_count s) (v_log s)
           else s in
  http_server s.

(** The counter is one: a connection sees what the others made of it. *)
Definition with_count (n : Z) (c : connection) : connection :=
  MkConnection (h_open c) (h_send_shut c) (h_timer c) (h_reading c) (h_writing c)
    (h_written c) n.

Definition logged (i : nat) (e : HttpBeast.event) (c : connection) : list (nat * (request * Z)) :=
  match e with EvRequest q now => if h_reading c then [(i, (q, now))] else [] | _ => [] end.

(** One event; an event of an accept or a connection that is not there does
    nothing. *)
Definition do_vevent (e : vevent) (s : server) : server :=
  match e with
  | VAccept ok => if v_accepting s then on_accept ok s else s
  | VConn i e =>
      match v_conns s !! i with
      | None => s
      | Some c =>
          let c' := do_event e (with_count (v_count s) c) in
          MkServer (v_accepting s) (<[i:=c']> (v_conns s)) (h_count c') (v_log s ++ logged i e c)
      end
  end.

(** The program: [http_server] on the acceptor, then [ioc.run()]. *)
Definition server_run (es : list vevent) : server :=
  foldl (flip do_vevent) (http_server (MkServer false [] 0 [])) es.

(** ** The counter along a list of requests *)
Definition count_after (qs : list (request * Z)) (count : Z) : Z :=
  foldl (fun n p => (process_request p.1 p.2 n response_new).1) count qs.

Lemma count_after_snoc qs q now count :
  count_after (qs ++ [(q, now)]) count
  = (process_request q now (count_after qs count) response_new).1.
Proof. unfold count_after. by rewrite foldl_app. Qed.

Lemma serve_snoc qs q now count :
  serve (qs ++ [(q, now)]) count
  = serve qs count ++ [(process_request q now (count_after qs count) response_new).2].
Proof.
  revert count. induction qs as [|[q0 t0] qs IH]; intros count; cbn [serve app].
  - by destruct (process_request _ _ _ _).
  - unfold count_after. cbn [foldl fst snd].
    destruct (process_request q0 t0 count response_new) as [n r]. by rewrite IH.
Qed.

Lemma length_serve qs count : length (serve qs count) = length qs.
Proof.
  revert count. induction qs as [|[q t] qs IH]; intros count; [done|]. cbn [serve].
  destruct (process_request _ _ _ _). cbn. by rewrite IH.
Qed.

(** ** What the server keeps true *)

(** The responses of a connection: written, then being written. *)
Definition out (c : connection) : list response := h_written c ++ option_list (h_writing c).

(** The response to the [p]-th request of the log. *)
Definition reply_of (s : server) (p : nat) (r : response) : Prop :=
  serve (v_log s).*2 0 !! p = Some r.

Record vinv (es : list vevent) (s : server) : Prop := {
  vi_accepting : v_accepting s = true;
  vi_count : v_count s = count_after (v_log s).*2 0;
  vi_once : NoDup (v_log s).*1;
  vi_fresh : forall i c, v_conns s !! i = Some c -> h_reading c = true -> out c = [];
  vi_log : forall p i q now, v_log s !! p = Some (i, (q, now)) ->
    VConn i (EvRequest q now) ∈ es
    /\ exists c r, v_conns s !! i = Some c /\ h_reading c = false /\ reply_of s p r
         /\ (r ∈ out c \/ VConn i (EvWritten false) ∈ es);
  vi_out : forall i c r, v_conns s !! i = Some c -> r ∈ out c ->
    exists p q now, v_log s !! p = Some (i, (q, now)) /\ reply_of s p r
}.

(** A connection that only moves: no request is read, nothing new is answered,
    and what it answered stays unless a write failed. *)
Lemma vinv_move es s i c c' e :
  vinv es s -> v_conns s !! i = Some c ->
  h_count c' = v_count s -> (h_reading c' = true -> h_reading c = true) ->
  (forall r, r ∈ out c' -> r ∈ out c) ->
  (forall r, r ∈ out c -> r ∈ out c' \/ e = EvWritten false) ->
  vinv (es ++ [VConn i e])
    (MkServer (v_accepting s) (<[i:=c']> (v_conns s)) (h_count c') (v_log s ++ [])).
Proof.
  intros [Ha Hn Ho Hf Hl Hr] Hc Hn' Hrd Hsub Hsup. rewrite app_nil_r.
  assert (i < length (v_conns s)) as Hi by by eapply lookup_lt_Some.
  split; cbn [v_accepting v_conns v_count v_log]; [done|by rewrite Hn'|done| | |].
  - intros j cj Hj Hj'. apply list_lookup_insert_Some in Hj as [(<- & <- & _)|[_ Hj]].
    + destruct (out c') as [|r l] eqn:E; [done|].
      assert (r ∈ out c) as Hin by (apply Hsub; left).
      rewrite (Hf i c Hc (Hrd Hj')) in Hin. by apply elem_of_nil in Hin.
    + by eapply Hf.
  - intros p j q now Hp. destruct (Hl p j q now Hp) as (Hin & cj & r & Hj & Hj' & Hp' & Hout).
    split; [apply elem_of_app; by left|].
    destruct (decide (i = j)) as [<-|Hne].
    + rewrite Hc in Hj. injection Hj as <-. exists c', r.
      rewrite list_lookup_insert_eq by done. split; [done|].
      split; [destruct (h_reading c'); [by rewrite Hrd in Hj'|done]|]. split; [done|].
      destruct Hout as [Hout|Hout]; [|right; apply elem_of_app; by left].
      destruct (Hsup r Hout) as [H|H]; [by left|]. right. rewrite H. apply elem_of_app.
      right. left.
    + exists cj, r. rewrite list_lookup_insert_ne by done. split_and!; try done.
      destruct Hout as [Hout|Hout]; [by left|right; apply elem_of_app; by left].
  - intros j cj r Hj Hin. apply list_lookup_insert_Some in Hj as [(<- & <- & _)|[_ Hj]].
    + apply (Hr i c); [done|by apply Hsub].
    + by apply (Hr j cj).
Qed.

(** A connection that still reads is not in the log. *)
Lemma reading_not_logged es s i c :
  vinv es s -> v_conns s !! i = Some c -> h_reading c = true ->
  (forall p j q t, v_log s !! p = Some (j, (q, t)) -> i <> j) /\ (i ∉ (v_log s).*1).
Proof.
  intros Hv Hc Hrd.
  assert (forall p j q t, v_log s !! p = Some (j, (q, t)) -> i <> j) as Hnew.
  { intros p j q t Hp <-. destruct (vi_log es s Hv p i q t Hp) as (_ & c' & r & Hc' & Hf & _).
    rewrite Hc in Hc'. injection Hc' as <-. by rewrite Hrd in Hf. }
  split; [exact Hnew|]. intros Hi.
  apply list_elem_of_fmap in Hi as ([j [q t]] & Heq & Hj).
  apply list_elem_of_lookup in Hj as [p Hp]. by apply (Hnew p j q t Hp).
Qed.

(** A connection that reads its request. *)
Lemma vinv_request es s i c q now :
  vinv es s -> v_conns s !! i = Some c -> h_reading c = true ->
  vinv (es ++ [VConn i (EvRequest q now)]) (do_vevent (VConn i (EvRequest q now)) s).
Proof.
  intros Hv Hc Hrd. destruct (Hv) as [Ha Hn Ho Hf Hl Hr].
  assert (i < length (v_conns s)) as Hi by by eapply lookup_lt_Some.
  pose proof (Hf i c Hc Hrd) as Hout. apply app_eq_nil in Hout as [Hw Hb].
  pose proof (reading_not_logged es s i c Hv Hc Hrd) as [Hnew Hni].
  pose proof (count_after_snoc (v_log s).*2 q now 0) as Hcnt.
  pose proof (serve_snoc (v_log s).*2 q now 0) as Hsrv.
  unfold do_vevent. rewrite Hc. unfold logged. cbn [do_event with_count h_reading h_count].
  rewrite Hrd. rewrite Hn. destruct (process_request q now _ response_new) as [n r].
  cbn [fst snd] in Hcnt, Hsrv.
  assert (forall p r', serve (v_log s).*2 0 !! p = Some r' ->
    serve (v_log s ++ [(i, (q, now))]).*2 0 !! p = Some r') as Hold.
  { intros p r' H. rewrite fmap_app. cbn [fmap list_fmap snd]. rewrite Hsrv.
    by apply lookup_app_l_Some. }
  assert (serve (v_log s ++ [(i, (q, now))]).*2 0 !! length (v_log s) = Some r) as Hlast.
  { rewrite fmap_app. cbn [fmap list_fmap snd]. rewrite Hsrv.
    rewrite lookup_app_r by (rewrite length_serve, length_fmap; lia).
    by rewrite length_serve, length_fmap, Nat.sub_diag. }
  split; unfold reply_of;
    cbn [v_accepting v_conns v_count v_log h_count h_open h_send_shut h_timer h_written];
    [done| | | | |].
  - rewrite fmap_app. cbn [fmap list_fmap snd]. by rewrite Hcnt.
  - rewrite fmap_app. apply NoDup_app. split; [done|]. split; [|apply NoDup_singleton].
    by intros j Hj ->%list_elem_of_singleton.
  - intros j cj Hj Hj'. apply list_lookup_insert_Some in Hj as [(<- & <- & _)|[_ Hj]]; [done|].
    by eapply Hf.
  - intros p j q' t Hp. apply lookup_app_Some in Hp as [Hp|[Hlen Hp]].
    + destruct (Hl p j q' t Hp) as (Hin & cj & r' & Hj & Hj' & Hp' & Hout).
      split; [apply elem_of_app; by left|]. exists cj, r'.
      rewrite list_lookup_insert_ne by by eapply Hnew.
      split_and!; [done|done|by apply Hold|].
      destruct Hout as [Hout|Hout]; [by left|right; apply elem_of_app; by left].
    + apply list_lookup_singleton_Some in Hp as [Hp Heq]. injection Heq as <- <- <-.
      replace p with (length (v_log s)) by lia.
      split; [apply elem_of_app; right; left|]. eexists _, r.
      rewrite list_lookup_insert_eq by done. split_and!; [done|done|done|].
      left. unfold out. cbn. apply elem_of_app. right. left.
  - intros j cj r' Hj Hin. apply list_lookup_insert_Some in Hj as [(<- & <- & _)|[_ Hj]].
    + unfold out in Hin. cbn in Hin. rewrite Hw in Hin.
      apply list_elem_of_singleton in Hin as ->. exists (length (v_log s)), q, now.
      split; [|done]. rewrite lookup_app_r, Nat.sub_diag by lia. done.
    + destruct (Hr j cj r' Hj Hin) as (p & q' & t & Hp & Hs). exists p, q', t.
      split; [by apply lookup_app_l_Some|by apply Hold].
Qed.

Lemma vinv_accept es s ok :
  vinv es s -> vinv (es ++ [VAccept ok]) (do_vevent (VAccept ok) s).
Proof.
  intros [Ha Hn Ho Hf Hl Hr]. unfold do_vevent. rewrite Ha.
  destruct ok; (split; [done|done|done| | |]);
    unfold reply_of; cbn [on_accept http_server v_conns v_log].
  - intros i c Hi Hd. apply lookup_app_Some in Hi as [Hi|[_ Hi]]; [by eapply Hf|].
    by apply list_lookup_singleton_Some in Hi as [_ <-].
  - intros p i q t Hp. destruct (Hl p i q t Hp) as (Hin & c & r & Hc & Hd & Hp' & Hout).
    split; [apply elem_of_app; by left|]. exists c, r.
    split; [by apply lookup_app_l_Some|]. split_and!; try done.
    destruct Hout as [H|H]; [by left|right; apply elem_of_app; by left].
  - intros i c r Hi Hin. apply lookup_app_Some in Hi as [Hi|[_ Hi]]; [by eapply Hr|].
    apply list_lookup_singleton_Some in Hi as [_ <-]. by apply elem_of_nil in Hin.
  - intros i c Hi. by eapply Hf.
  - intros p i q t Hp. destruct (Hl p i q t Hp) as (Hin & c & r & Hc & Hd & Hp' & Hout).
    split; [apply elem_of_app; by left|]. exists c, r. split_and!; try done.
    destruct Hout as [H|H]; [by left|right; apply elem_of_app; by left].
  - intros i c r Hi. by eapply Hr.
Qed.

(** An event that is not due. *)
Lemma vinv_idle es s e : vinv es s -> vinv (es ++ [e]) s.
Proof.
  intros [Ha Hn Ho Hf Hl Hr]. split; try done.
  intros p i q t Hp. destruct (Hl p i q t Hp) as (Hin & c & r & Hc & Hd & Hp' & Hout).
  split; [apply elem_of_app; by left|]. exists c, r. split_and!; try done.
  destruct Hout as [H|H]; [by left|right; apply elem_of_app; by left].
Qed.

Lemma vinv_step es s e : vinv es s -> vinv (es ++ [e]) (do_vevent e s).
Proof.
  intros Hv. destruct e as [ok|i e]; [by apply vinv_accept|].
  destruct (v_conns s !! i) as [c|] eqn:Hc;
    [|unfold do_vevent; rewrite Hc; by apply vinv_idle].
  destruct e as [q now| |ok| |].
  1: destruct (h_reading c) eqn:Hrd; [by apply (vinv_request es s i c)|].
  all: unfold do_vevent; rewrite Hc; cbn [logged do_event with_count h_reading h_writing h_timer];
    rewrite ?Hrd.
  - apply (vinv_move es s i c); auto.
  - apply (vinv_move es s i c); auto; cbn; done.
  - destruct (h_writing c) as [r|] eqn:E; [|apply (vinv_move es s i c); auto].
    apply (vinv_move es s i c); try done; unfold out; rewrite E; cbn; intros r' Hr';
      rewrite ?app_nil_r in *; destruct ok; auto.
    apply elem_of_app. by left.
  - apply (vinv_move es s i c); auto.
  - destruct (h_timer c); apply (vinv_move es s i c); auto.
Qed.

Lemma vinv_run es : vinv es (server_run es).
Proof.
  induction es as [|e es IH] using rev_ind.
  - split; cbn; try done. apply NoDup_nil_2.
  - unfold server_run. rewrite foldl_app. by apply vinv_step.
Qed.

(** C31: the server.  Whatever connects and whatever happens to the connections,
    in any order, an accept is always in progress, and each connection has at
    most one request answered: the response it wrote or writes is the one of
    [serve], which answers all requests in the order they were read, whatever
    the connection, with the counter of all of them.  A response that was not
    written is one whose write failed. *)
Theorem http_server_serves es :
  let s := server_run es in
  (Z.of_nat (length (v_log s)) < 2 ^ 64)%Z ->
  v_accepting s = true
  /\ NoDup (v_log s).*1
  /\ (forall i c r, v_conns s !! i = Some c -> r ∈ out c ->
        exists p q now, v_log s !! p = Some (i, (q, now))
          /\ VConn i (EvRequest q now) ∈ es
          /\ serve (v_log s).*2 0 !! p = Some r
          /\ answers q now (Z.of_nat (hits (take (S p) (v_log s).*2))) r)
  /\ (forall p i q now, v_log s !! p = Some (i, (q, now)) ->
        exists c r, v_conns s !! i = Some c /\ serve (v_log s).*2 0 !! p = Some r
          /\ (r ∈ out c \/ VConn i (EvWritten false) ∈ es)).
Proof.
  intros s Hlen. destruct (vinv_run es) as [Ha Hn Ho Hf Hl Hr]. fold s in Ha, Hn, Ho, Hf, Hl, Hr.
  split; [exact Ha|]. split; [exact Ho|]. split.
  - intros i c r Hi Hin. destruct (Hr i c r Hi Hin) as (p & q & now & Hp & Hs).
    exists p, q, now. split_and!; [done|by apply (Hl p)|done|].
    destruct (beast_serve_run (v_log s).*2 0 p q now) as (r' & Hr' & Hans).
    + by rewrite list_lookup_fmap, Hp.
    + rewrite length_fmap. lia.
    + change (Z.of_nat 0) with 0%Z in Hr'. unfold reply_of in Hs. rewrite Hs in Hr'.
      by injection Hr' as <-.
  - intros p i q now Hp. destruct (Hl p i q now Hp) as (_ & c & r & Hc & _ & Hs & Hout).
    by exists c, r.
Qed.

(** Two clients at once: the one that was accepted last asks first. *)
Lemma http_server_serves_witness :
  let q := sample_request verb_get (lit "/count") in
  let s := server_run [VAccept true; VAccept false; VAccept true; VConn 1 (EvRequest q 5);
                       VConn 0 (EvRequest q 6); VConn 0 (EvWritten true)] in
  (exists c r, v_conns s !! 0 = Some c /\ r ∈ out c /\ r_body r = page (lit "2"))
  /\ v_accepting s = true.
Proof.
  intros q s.
  assert (Z.of_nat (length (v_log s)) < 2 ^ 64)%Z as Hs by (vm_compute; reflexivity).
  destruct (http_server_serves _ Hs) as (Ha & _ & _ & Hl). split; [|exact Ha].
  destruct (Hl 1 0 q 6%Z) as (c & r & Hc & Hr & Hout); [reflexivity|]. exists c, r.
  split; [exact Hc|]. split.
  - destruct Hout as [H|H]; [exact H|exfalso].
    repeat (apply elem_of_cons in H as [H|H]; [discriminate|]). by apply elem_of_nil in H.
  - vm_compute in Hr. injection Hr as <-. vm_compute. reflexivity.
Defined.
