(* ===== verification/WebSocket.v ===== *)
(** * The websocket server: [6. WebSocketServer]

    [Connection] (it sends back every message it receives, through an unbounded
    queue), [ConnectionMgr] and [WebSocketServer].  The handlers of one
    connection run one after the other on its strand. *)

From S2P Require Import Prelude CBase SendQueue.

(** ** [ConnectionMgr] *)
Module ConnectionMgr.
Abbreviation t := (gmap String.string nat).

(** [_map_cons[uuid] = conptr] *)
Definition AddConnection (u : String.string) (x : nat) (m : t) : t := <[u := x]> m.
Definition RmvConnection (u : String.string) (m : t) : t := delete u m.
End ConnectionMgr.

(** ** [WebSocketServer::StartAccept] *)
Module WebSocketServer.
(** What the handler of an accept starts: the websocket handshake of the connection
    it accepted ([Connection::AsyncAccept]) and the next accept. *)
Inductive op := Handshake (x : nat) | AsyncAccept (x : nat).

Definition StartAccept (fresh : nat) : list op := [AsyncAccept fresh].

Definition accepted (error : bool) (x fresh : nat) : list op :=
  (if error then [] else [Handshake x]) ++ StartAccept fresh.
End WebSocketServer.

(** ** [Connection] *)

(** The queue, the text mode of the stream, the write in progress and the messages
    written (each with the mode it was sent in), whether a read is in progress,
    and whether the manager holds the connection. *)
Record Connection := MkConnection {
  _send_que : list (list char);
  w_text : bool;
  w_writing : option (bool * list char);
  w_written : list (bool * list char);
  w_reading : bool;
  w_registered : bool
}.

Definition set_que q c := MkConnection q (w_text c) (w_writing c) (w_written c) (w_reading c)
  (w_registered c).
Definition set_text b c := MkConnection (_send_que c) b (w_writing c) (w_written c)
  (w_reading c) (w_registered c).
Definition set_writing o c := MkConnection (_send_que c) (w_text c) o (w_written c)
  (w_reading c) (w_registered c).
Definition log_written d c := MkConnection (_send_que c) (w_text c) (w_writing c)
  (w_written c ++ [d]) (w_reading c) (w_registered c).
Definition set_reading b c := MkConnection (_send_que c) (w_text c) (w_writing c)
  (w_written c) b (w_registered c).
Definition set_registered b c := MkConnection (_send_que c) (w_text c) (w_writing c)
  (w_written c) (w_reading c) b.

(** [_ws_ptr->async_write] of a message, in the stream's current mode; only one may
    be in progress. *)
Definition async_write (msg : list char) (c : Connection) : res Connection :=
  match w_writing c with
  | Some _ => UB
  | None => Ok (set_writing (Some (w_text c, msg)) c)
  end.

(** The queue's part of [AsyncSend], and of the completion of a write. *)
Definition push (msg : list char) (q : list (list char))
    : list (list char) * option (list char) :=
  (q ++ [msg], match q with [] => Some msg | _ => None end).

Definition pop_next (q : list (list char)) : list (list char) * option (list char) :=
  (tail q, head (tail q)).

(** [AsyncSend]; its [SendCallBack] starts the write. *)
Definition AsyncSend (msg : list char) (c : Connection) : res Connection :=
  let '(q, w) := push msg (_send_que c) in
  let c := set_que q c in
  match w with Some msg => async_write msg c | None => Ok c end.

(** The handler [SendCallBack] gives to the write. *)
Definition write_handler (err : bool) (c : Connection) : res Connection :=
  if err then Ok (set_registered false c)
  else
    if decide (_send_que c = []) then UB
    else
      let '(q, w) := pop_next (_send_que c) in
      let c := set_que q c in
      match w with Some send_msg => async_write send_msg c | None => Ok c end.

(** [Start], and the handler it gives to the read: [None] is an error, a message
    comes with its mode ([got_text]). *)
Definition Start (c : Connection) : Connection := set_reading true c.

Definition read_handler (m : option (bool * list char)) (c : Connection) : res Connection :=
  match m with
  | None => Ok (set_registered false c)
  | Some (got_text, recv_data) =>
      let c := set_text got_text c in
      let* c := AsyncSend recv_data c in
      Ok (Start c)
  end.

(** The handler of the handshake: [AddConnection] and [Start]. *)
Definition AsyncAccept (error : bool) (c : Connection) : Connection :=
  if error then c else Start (set_registered true c).

(** A stream is created in text mode. *)
Definition Connection_new : Connection := MkConnection [] true None [] false false.

Inductive event :=
| EvReceive (got_text : bool) (d : list char)
| EvReadError
| EvWritten
| EvWriteError.

(** An event that is not due changes nothing. *)
Definition do_event (e : event) (c : Connection) : res Connection :=
  match e with
  | EvReceive t d =>
      if w_reading c then read_handler (Some (t, d)) (set_reading false c) else Ok c
  | EvReadError => if w_reading c then read_handler None (set_reading false c) else Ok c
  | EvWritten =>
      match w_writing c with
      | Some d => write_handler false (log_written d (set_writing None c))
      | None => Ok c
      end
  | EvWriteError =>
      match w_writing c with
      | Some _ => write_handler true (set_writing None c)
      | None => Ok c
      end
  end.

Fixpoint run (es : list event) (c : Connection) : res Connection :=
  match es with
  | [] => Ok c
  | e :: es => let* c := do_event e c in run es c
  end.

(** A connection whose handshake worked. *)
Definition fresh_connection : Connection := AsyncAccept false Connection_new.

(** ** The queue as a [SendQueue] *)
#[refine, export] Instance ws_queue : SendQueue (list char) (list (list char)) := {|
  sq_queue q := q;
  sq_full _ := false;
  sq_send := push;
  sq_done := pop_next;
  sq_send_full := _;
  sq_send_room := _;
  sq_done_next := _
|}.
Proof.
  - done.
  - intros m q _. unfold push. cbn. split; [done|]. destruct q; [done|].
    by rewrite decide_False.
  - intros m ms q ->. by split.
Defined.

(** ** The invariant *)

(** The message of an event, and the messages read until a read fails. *)
Definition received (e : event) : list (list char) :=
  match e with EvReceive _ d => [d] | _ => [] end.

Fixpoint seen (es : list event) : list (list char) :=
  match es with
  | [] => []
  | EvReadError :: _ => []
  | e :: es => received e ++ seen es
  end.

(** [failed]: a write failed. *)
Definition ws_ok (failed : bool) (msgs : list (list char)) (c : Connection) : Prop :=
  (snd <$> w_written c) ++ _send_que c = msgs
  /\ if failed then w_writing c = None /\ _send_que c <> []
     else snd <$> w_writing c = head (_send_que c).

Lemma fresh_ok : ws_ok false [] fresh_connection /\ w_reading fresh_connection = true.
Proof. by split. Qed.

(** The bookkeeping of the handlers. *)
Lemma AsyncSend_run f msgs d c :
  ws_ok f msgs c ->
  exists c', AsyncSend d c = Ok c' /\ ws_ok f (msgs ++ [d]) c'
    /\ w_written c' = w_written c.
Proof.
  intros [Hm Hw]. unfold AsyncSend.
  destruct (sq_send_room (SendQueue := ws_queue) d (_send_que c) eq_refl) as [Hq Ho].
  change (sq_send d (_send_que c)) with (push d (_send_que c)) in *.
  destruct (push d (_send_que c)) as [q w]. cbn in Hq, Ho. subst q w.
  destruct f.
  - destruct Hw as [Hw Hne]. rewrite decide_False by done. eexists. split; [done|].
    split; [|done]. split; cbn; [by rewrite <- Hm, app_assoc|].
    split; [done|]. by destruct (_send_que c).
  - case_decide as He.
    + unfold async_write. cbn [w_writing set_que]. rewrite He in Hw |- *. cbn in Hw.
      destruct (w_writing c); [done|]. eexists. split; [done|]. split; [|done].
      split; cbn; [by rewrite <- Hm, He, <- app_assoc|done].
    + eexists. split; [done|]. split; [|done]. split; cbn; [by rewrite <- Hm, app_assoc|].
      by destruct (_send_que c).
Qed.

Lemma do_event_ok e f msgs c :
  ws_ok f msgs c ->
  exists c' f', do_event e c = Ok c'
    /\ ws_ok f' (msgs ++ if w_reading c then received e else []) c'
    /\ w_reading c' = (w_reading c && match e with EvReadError => false | _ => true end)
    /\ (f = true -> f' = true /\ w_written c' = w_written c).
Proof.
  intros Hok. destruct e as [t d| | |]; cbn [do_event received].
  - destruct (w_reading c) eqn:Er; [|exists c, f; rewrite Er, app_nil_r; by split_and!].
    destruct (AsyncSend_run f msgs d (set_text t (set_reading false c)) Hok)
      as (c' & H & Hok' & Hw).
    exists (Start c'), f. unfold read_handler. rewrite H. cbn [res_bind].
    split; [done|]. split; [exact Hok' | done].
  - assert (msgs ++ (if w_reading c then [] else []) = msgs) as ->
      by (destruct (w_reading c); apply app_nil_r).
    destruct (w_reading c) eqn:Er;
      [exists (set_registered false (set_reading false c)), f | exists c, f; rewrite Er];
      (split; [done|]; split; [exact Hok|]; done).
  - assert (msgs ++ (if w_reading c then [] else []) = msgs) as ->
      by (destruct (w_reading c); apply app_nil_r).
    rewrite andb_true_r. destruct Hok as [Hm Hw].
    destruct (w_writing c) as [[t d]|] eqn:E.
    2: { exists c, f. split; [done|]. split; [|done]. split; [done|]. by rewrite E. }
    destruct f; [by destruct Hw|]. cbn in Hw.
    unfold write_handler. cbn [_send_que log_written set_writing].
    destruct (_send_que c) as [|m ms] eqn:Eq; [done|]. injection Hw as ->.
    rewrite decide_False by done. cbn [pop_next tail head].
    exists (MkConnection ms (w_text c) ((fun x => (w_text c, x)) <$> head ms)
      (w_written c ++ [(t, m)]) (w_reading c) (w_registered c)), false.
    split; [by destruct ms|]. split; [|done]. split; cbn.
    + by rewrite fmap_app, <- app_assoc.
    + by destruct ms.
  - assert (msgs ++ (if w_reading c then [] else []) = msgs) as ->
      by (destruct (w_reading c); apply app_nil_r).
    rewrite andb_true_r. destruct Hok as [Hm Hw]. destruct (w_writing c) as [[t d]|] eqn:E.
    + destruct f; [by destruct Hw|]. eexists _, true. split; [done|]. split; [|done].
      split; [done|]. split; [done|]. cbn in Hw |- *. by destruct (_send_que c).
    + exists c, f. split; [done|]. split; [|done]. split; [done|]. by rewrite E.
Qed.

Lemma ws_run_ok es f msgs c :
  ws_ok f msgs c ->
  exists c' f', run es c = Ok c'
    /\ ws_ok f' (msgs ++ if w_reading c then seen es else []) c'
    /\ (f = true -> f' = true /\ w_written c' = w_written c).
Proof.
  revert f msgs c. induction es as [|e es IH]; intros f msgs c Hok; cbn [run].
  { exists c, f. cbn. by destruct (w_reading c); rewrite app_nil_r. }
  destruct (do_event_ok e f msgs c Hok) as (c1 & f1 & H1 & Hok1 & Hr1 & Hf1). rewrite H1.
  cbn [res_bind]. destruct (IH f1 _ c1 Hok1) as (c' & f' & H' & Hok' & Hf').
  exists c', f'. split; [done|]. split; cycle 1.
  - intros Ht. destruct (Hf1 Ht) as [Ht1 Hw1]. destruct (Hf' Ht1) as [? Hw'].
    split; [done|]. by rewrite Hw'.
  - rewrite Hr1 in Hok'. rewrite <- app_assoc in Hok'. revert Hok'.
    by destruct (w_reading c), e.
Qed.

Lemma ws_run_app es es' c : run (es ++ es') c = (let* c := run es c in run es' c).
Proof.
  revert c. induction es as [|e es IH]; intros c; [done|]. cbn [app run].
  destruct (do_event e c); cbn [res_bind]; done.
Qed.

Lemma receives_written n t d c c' :
  run (replicate n (EvReceive t d)) c = Ok c' -> w_written c' = w_written c.
Proof.
  revert c. induction n as [|n IH]; intros c; cbn [replicate run]; [by intros [= <-]|].
  cbn [do_event]. destruct (w_reading c); [|apply IH].
  unfold read_handler, AsyncSend, async_write. cbn [push].
  destruct (_send_que _) as [|m ms] eqn:E; cbn.
  - destruct (w_writing c) eqn:Ew; cbn; [done|]. intros H. by rewrite (IH _ H).
  - intros H. by rewrite (IH _ H).
Qed.

(** ** Properties *)

(** Whatever messages arrive and however writes and errors interleave with them,
    there is never more than one write in progress, and the messages written
    followed by those queued are the messages received, in order, each once. *)
Theorem ws_fifo es :
  exists c, run es fresh_connection = Ok c
    /\ (snd <$> w_written c) ++ _send_que c = seen es.
Proof.
  destruct (ws_run_ok es false [] fresh_connection (proj1 fresh_ok)) as (c & f & H & [Hm _] & _).
  by exists c.
Qed.

(** After a write that fails the connection goes on reading and queueing, but
    never writes again: the handler leaves the queue as it is. *)
Theorem ws_write_error_mute es es' c :
  run es fresh_connection = Ok c -> is_Some (w_writing c) ->
  exists c', run (es ++ EvWriteError :: es') fresh_connection = Ok c'
    /\ w_written c' = w_written c
    /\ (snd <$> w_written c') ++ _send_que c' = seen (es ++ EvWriteError :: es').
Proof.
  intros H [[t d] Hw].
  destruct (ws_run_ok es false [] fresh_connection (proj1 fresh_ok)) as (c1 & f & H1 & Hok & _).
  rewrite H in H1. injection H1 as <-.
  destruct (do_event_ok EvWriteError f _ c Hok) as (c2 & f2 & H2 & Hok2 & _).
  assert (f2 = true /\ w_written c2 = w_written c) as [-> Hw2].
  { cbn [do_event] in H2. rewrite Hw in H2. injection H2 as <-. split; [|done].
    destruct f2; [done|]. destruct Hok2 as [_ Hh]. cbn in Hh.
    destruct Hok as [_ Hk]. rewrite Hw in Hk. destruct f; [by destruct Hk|]. cbn in Hk.
    by rewrite <- Hk in Hh. }
  destruct (ws_run_ok es' true _ c2 Hok2) as (c' & f' & H' & _ & Hf').
  destruct (ws_run_ok (es ++ EvWriteError :: es') false [] fresh_connection (proj1 fresh_ok))
    as (c3 & f3 & H3 & [Hm3 _] & _).
  assert (run (es ++ EvWriteError :: es') fresh_connection = Ok c') as Hrun.
  { rewrite ws_run_app, H. cbn [res_bind run]. by rewrite H2. }
  rewrite Hrun in H3. injection H3 as <-. exists c'. split; [done|].
  split; [|exact Hm3]. destruct (Hf' eq_refl) as [_ ->]. done.
Qed.

(** The mode of a reply is the mode of the message received last when its write
    starts, not that of the message it answers: a message queued behind a write
    goes out as binary when a binary one came in meanwhile. *)
Theorem ws_mode_of_last es c m0 t1 d1 t2 d2 :
  run es fresh_connection = Ok c -> w_reading c = true ->
  is_Some (w_writing c) -> _send_que c = [m0] ->
  exists c', run (es ++ [EvReceive t1 d1; EvReceive t2 d2; EvWritten]) fresh_connection = Ok c'
    /\ w_writing c' = Some (t2, d1).
Proof.
  intros H Hr [w Hw] Hq. rewrite ws_run_app, H. cbn [res_bind run do_event]. rewrite Hr.
  unfold read_handler, AsyncSend, push. cbn. rewrite Hq. cbn. rewrite Hw. cbn.
  eexists. split; reflexivity.
Qed.

(** The queue has no bound: [n] messages that arrive while the peer reads nothing
    are all kept. *)
Theorem ws_unbounded n t d :
  exists c, run (replicate n (EvReceive t d)) fresh_connection = Ok c
    /\ _send_que c = replicate n d /\ w_written c = [].
Proof.
  assert (seen (replicate n (EvReceive t d)) = replicate n d) as Hs
    by (induction n as [|n IH]; [done | cbn [replicate seen received app]; by rewrite IH]).
  destruct (ws_run_ok (replicate n (EvReceive t d)) false [] fresh_connection (proj1 fresh_ok))
    as (c & f & H & [Hm _] & _).
  assert (w_written c = []) as Hw.
  { by apply (receives_written n t d fresh_connection). }
  exists c. split; [done|]. rewrite Hw in Hm. split; [|done]. cbn in Hm. by rewrite Hm, Hs.
Qed.

(** ** The lifetime of the buffer

    [SendCallBack(std::string msg)] gives [async_write] the bytes of its parameter,
    which is destroyed when it returns.  Strings are objects of a heap; the
    socket takes [taken] bytes when the write is started, the rest later. *)
Abbreviation heap := (gmap nat (list char)).

Record pending_write := MkPending { pw_buf : nat; pw_sent : nat; pw_len : nat }.

Definition SendCallBack (msg : list char) (a taken : nat) (h : heap)
    : list char * pending_write * heap :=
  let h := <[a := msg]> h in
  let w := MkPending a (taken `min` length msg) (length msg) in
  (take taken msg, w, delete a h).

(** The rest of a write, when the socket is ready again. *)
Definition transfer (w : pending_write) (h : heap) : res (list char) :=
  if decide (pw_sent w = pw_len w) then Ok []
  else let* m := of_option (h !! pw_buf w) in Ok (drop (pw_sent w) m).

(** A reply is sent whole only when the socket takes all of it at once; whatever
    is left is read from a string that no longer exists. *)
Theorem SendCallBack_dangling msg a taken h :
  let '(d, w, h') := SendCallBack msg a taken h in
  if decide (length msg <= taken) then d = msg /\ transfer w h' = Ok []
  else transfer w h' = UB.
Proof.
  unfold SendCallBack, transfer. cbn. case_decide as H.
  - rewrite take_ge by done. rewrite decide_True by lia. done.
  - rewrite decide_False by lia. by rewrite lookup_delete_eq.
Qed.

(** ** Examples *)
Lemma ws_write_error_mute_witness :
  exists c c', run [EvReceive true (lit "a"); EvReceive true (lit "b"); EvWritten]
      fresh_connection = Ok c
  /\ run ([EvReceive true (lit "a"); EvReceive true (lit "b"); EvWritten]
          ++ EvWriteError :: [EvReceive true (lit "c"); EvWritten]) fresh_connection = Ok c'
  /\ w_written c' = [(true, lit "a")].
Proof.
  destruct (run [EvReceive true (lit "a"); EvReceive true (lit "b"); EvWritten]
    fresh_connection) as [c| |] eqn:E; try discriminate E.
  destruct (ws_write_error_mute [EvReceive true (lit "a"); EvReceive true (lit "b"); EvWritten]
    [EvReceive true (lit "c"); EvWritten] c) as (c' & H & Hw & _).
  - exact E.
  - vm_compute in E. injection E as <-. eexists. reflexivity.
  - exists c, c'. split; [reflexivity|]. split; [exact H|]. rewrite Hw.
    vm_compute in E. injection E as <-. reflexivity.
Defined.

Lemma ws_mode_of_last_witness :
  exists c', run ([EvReceive true (lit "a")]
      ++ [EvReceive true (lit "b"); EvReceive false (lit "c"); EvWritten]) fresh_connection
    = Ok c'
  /\ w_writing c' = Some (false, lit "b").
Proof.
  destruct (run [EvReceive true (lit "a")] fresh_connection) as [c| |] eqn:E;
    try discriminate E.
  apply (ws_mode_of_last [EvReceive true (lit "a")] c (lit "a")).
  - exact E.
  - vm_compute in E. injection E as <-. reflexivity.
  - vm_compute in E. injection E as <-. eexists. reflexivity.
  - vm_compute in E. injection E as <-. reflexivity.
Defined.
