(* ===== verification/WsSystem.v ===== *)
(** * The websocket server at work: [6. WebSocketServer]

    [main] of [src/beast_websocket.cpp]: [StartAccept] and [ioc.run()].  Every accept
    that works starts the handshake of its connection; a connection whose handshake
    works is entered into the manager's map and echoes what it reads.  Connection
    [x] is the [x]-th that was accepted; its uuid is [uuid x]. *)

From stdpp Require Import pretty.
From S2P Require Import Prelude CBase Fleet SendQueue WebSocket.

(** A connection and whether its handshake is in progress. *)
Record peer := MkPeer { p_handshake : bool; p_conn : Connection }.

(** The handshake completes ([error] or not), or something happens afterwards. *)
Inductive pevent := PHandshake (error : bool) | PEvent (e : event).

Definition peer_new : peer := MkPeer true Connection_new.

Definition do_pevent (e : pevent) (p : peer) : res peer :=
  match e with
  | PHandshake error =>
      Ok (if p_handshake p then MkPeer false (AsyncAccept error (p_conn p)) else p)
  | PEvent e => let* c := do_event e (p_conn p) in Ok (MkPeer (p_handshake p) c)
  end.

Section System.
Context (uuid : nat -> String.string) `{!Inj (=) (=) uuid}.

Record server := MkServer {
  ws_accepting : bool;             (* an async_accept in progress *)
  ws_peers : list peer;
  ws_map : ConnectionMgr.t         (* ConnectionMgr's _map_cons *)
}.
Implicit Types s : server.

(** An accept completes; when [throws], [StartAccept] throws while it makes the next
    connection, which the handler catches. *)
Inductive wevent := WAccept (error throws : bool) | WPeer (i : nat) (e : pevent).

Definition server_op (o : WebSocketServer.op) s : server :=
  match o with
  | WebSocketServer.Handshake _ =>
      MkServer (ws_accepting s) (ws_peers s ++ [peer_new]) (ws_map s)
  | WebSocketServer.AsyncAccept _ => MkServer true (ws_peers s) (ws_map s)
  end.

Definition accept_handler (error throws : bool) s : server :=
  let x := length (ws_peers s) in
  let ops := WebSocketServer.accepted error x (S x) in
  foldl (flip server_op) (MkServer false (ws_peers s) (ws_map s))
    (if throws then removelast ops else ops).

(** The manager's part of a handler of connection [i]: [AddConnection] after the
    handshake, [RmvConnection] at an error. *)
Definition manage (i : nat) (e : pevent) (p p' : peer) (m : ConnectionMgr.t) : ConnectionMgr.t :=
  match e with
  | PHandshake false => if p_handshake p then ConnectionMgr.AddConnection (uuid i) i m else m
  | PHandshake true => m
  | PEvent _ => if w_registered (p_conn p') then m else ConnectionMgr.RmvConnection (uuid i) m
  end.

Definition do_wevent (e : wevent) s : res server :=
  match e with
  | WAccept error throws => Ok (if ws_accepting s then accept_handler error throws s else s)
  | WPeer i e =>
      match ws_peers s !! i with
      | None => Ok s
      | Some p =>
          let* p' := do_pevent e p in
          Ok (MkServer (ws_accepting s) (<[i:=p']> (ws_peers s)) (manage i e p p' (ws_map s)))
      end
  end.

Fixpoint ws_serve (es : list wevent) s : res server :=
  match es with
  | [] => Ok s
  | e :: es => let* s := do_wevent e s in ws_serve es s
  end.

Definition main_run (es : list wevent) : res server :=
  ws_serve es (foldl (flip server_op) (MkServer false [] ∅) (WebSocketServer.StartAccept 0)).

(** Operations in progress; without any, [ioc.run()] returns and [main] ends. *)
Definition peer_pending (p : peer) : bool :=
  p_handshake p || w_reading (p_conn p) || bool_decide (is_Some (w_writing (p_conn p))).

Definition pending s : bool := ws_accepting s || existsb peer_pending (ws_peers s).

(** ** The connections as a fleet *)

(** What a peer has received, from its events. *)
Fixpoint messages (es : list pevent) : list event :=
  match es with
  | [] => []
  | PEvent e :: es => e :: messages es
  | PHandshake _ :: es => messages es
  end.

(** The messages read after a handshake that worked. *)
Fixpoint received_of (es : list pevent) : list (list char) :=
  match es with
  | [] => []
  | PHandshake false :: es => seen (messages es)
  | PHandshake true :: _ => []
  | PEvent _ :: es => received_of es
  end.

Lemma new_idle es : run es Connection_new = Ok Connection_new.
Proof. induction es as [|[] es IH]; [done|exact IH..]. Qed.

Lemma pevent_ok e p f msgs :
  ws_ok f msgs (p_conn p) -> (p_handshake p = true -> p_conn p = Connection_new) ->
  exists p', do_pevent e p = Ok p' /\ (p_handshake p' = true -> p_conn p' = Connection_new)
    /\ exists f' msgs', ws_ok f' msgs' (p_conn p').
Proof.
  intros Hok Hnew. destruct e as [error|e]; cbn [do_pevent].
  - destruct (p_handshake p) eqn:Eh; [|exists p; rewrite Eh; eauto].
    eexists. split; [done|]. split; [done|]. cbn [p_conn]. rewrite Hnew by done.
    exists false, []. by destruct error.
  - destruct (do_event_ok e f msgs _ Hok) as (c' & f' & H & Hok' & _). rewrite H.
    cbn [res_bind]. eexists. split; [done|]. cbn [p_conn p_handshake]. split; [|eauto].
    intros Hh. rewrite (Hnew Hh) in H. pose proof (new_idle [e]) as Hi. cbn [run] in Hi.
    rewrite H in Hi. cbn [res_bind] in Hi. by injection Hi.
Qed.

#[refine, local] Instance peer_service : Service peer pevent := {|
  sv_do e p := let* p := do_pevent e p in Ok (Some p);
  sv_ok p := (p_handshake p = true -> p_conn p = Connection_new)
             /\ exists f msgs, ws_ok f msgs (p_conn p);
  sv_do_ok := _
|}.
Proof.
  intros e p (Hnew & f & msgs & Hok).
  destruct (pevent_ok e p f msgs Hok Hnew) as (p' & -> & Hp'). by exists p'.
Defined.

Lemma peer_new_ok : sv_ok peer_new.
Proof. split; [done|]. by exists false, []. Qed.

(** After its handshake a peer is its connection. *)
Lemma alone_conn es c :
  alone es (MkPeer false c)
  = (let* c := run (messages es) c in Ok (Some (MkPeer false c))).
Proof.
  revert c. induction es as [|[error|e] es IH]; intros c; [done| |]; cbn [alone messages run].
  - exact (IH c).
  - change (sv_do (PEvent e) (MkPeer false c))
      with (let* p := (let* c := do_event e c in Ok (MkPeer false c)) in Ok (Some p)).
    destruct (do_event e c) as [c1| |]; cbn [res_bind]; [apply IH|done..].
Qed.

(** What a peer wrote and queued is what it received. *)
Lemma alone_peer es p :
  alone es peer_new = Ok (Some p) ->
  (snd <$> w_written (p_conn p)) ++ _send_que (p_conn p) = received_of es.
Proof.
  induction es as [|[error|e] es IH]; [by intros [= <-]| |].
  - cbn [received_of]. intros H. change (alone es (MkPeer false (AsyncAccept error Connection_new))
      = Ok (Some p)) in H. rewrite alone_conn in H. destruct error.
    + change (AsyncAccept true Connection_new) with Connection_new in H. rewrite new_idle in H.
      by injection H as <-.
    + destruct (ws_run_ok (messages es) false [] fresh_connection (proj1 fresh_ok))
        as (c & f & Hr & [Hm _] & _).
      change (AsyncAccept false Connection_new) with fresh_connection in H.
      rewrite Hr in H. injection H as <-. exact Hm.
  - intros H. apply IH. cbn [alone] in H. by destruct e.
Qed.

(** What is done to the connections, while an accept is in progress or not. *)
Fixpoint fleet (accepting : bool) (es : list wevent) : list (fevent peer pevent) :=
  match es with
  | [] => []
  | WAccept error throws :: es =>
      (if accepting && negb error then [FNew peer_new] else [])
      ++ fleet (accepting && negb throws) es
  | WPeer i e :: es => FDo i e :: fleet accepting es
  end.

(** The events of connection [i]. *)
Definition its_events (i : nat) (es : list wevent) : list pevent := events_of i 0 (fleet true es).

Definition no_throw (es : list wevent) : bool :=
  forallb (fun e => if e is WAccept _ true then false else true) es.

Definition held (p : peer) : bool := w_registered (p_conn p).

Lemma fleet_new_peers accepting es : Forall (eq peer_new) (newcomers (fleet accepting es)).
Proof.
  revert accepting. induction es as [|[error throws|i e] es IH]; intros accepting; [constructor| |].
  - cbn [fleet]. unfold newcomers. rewrite omap_app. apply Forall_app. split; [|apply IH].
    destruct (accepting && negb error); by repeat constructor.
  - exact (IH accepting).
Qed.

(** ** The map *)

Lemma do_event_registered e c c' :
  do_event e c = Ok c' -> w_registered c' = true -> w_registered c = true.
Proof.
  assert (forall m c c', async_write m c = Ok c' -> w_registered c' = w_registered c) as Hw.
  { intros m c0 c0' H. unfold async_write in H. destruct (w_writing c0); [done|].
    by injection H as <-. }
  destruct e as [t d| | |]; cbn [do_event].
  - destruct (w_reading c); [|by intros [= ->]]. unfold read_handler.
    intros (c1 & H1 & H2)%res_bind_Ok_inv. injection H2 as <-. unfold AsyncSend, push in H1.
    destruct (_send_que _); [apply Hw in H1; cbn in *; congruence|by injection H1 as <-].
  - destruct (w_reading c); [by intros [= <-]|by intros [= ->]].
  - destruct (w_writing c); [|by intros [= ->]]. unfold write_handler. case_decide as Hq; [done|].
    unfold pop_next. destruct (head _); [intros H%Hw; cbn in *; congruence|by intros [= <-]].
  - destruct (w_writing c); [by intros [= <-]|by intros [= ->]].
Qed.

Lemma table_kept t ps i p p' :
  table_ok uuid held t ps -> ps !! i = Some p -> held p' = held p ->
  table_ok uuid held t (<[i:=p']> ps).
Proof.
  intros Ht Hi Hh. pose proof (table_update uuid held t ps i p p' Ht Hi) as H.
  by rewrite Hh, (table_held uuid held t ps i p Ht Hi) in H.
Qed.

Lemma manage_table t ps i e p p' :
  table_ok uuid held t ps -> ps !! i = Some p -> do_pevent e p = Ok p' ->
  table_ok uuid held (manage i e p p' t) (<[i:=p']> ps).
Proof.
  intros Ht Hi He. destruct e as [[]|e]; cbn [do_pevent manage] in *.
  - injection He as <-. apply (table_kept _ _ i p); try done. by destruct (p_handshake p).
  - injection He as <-. destruct (p_handshake p).
    + exact (table_update uuid held t ps i p
               (MkPeer false (AsyncAccept false (p_conn p))) Ht Hi).
    + by apply (table_kept _ _ i p).
  - apply res_bind_Ok_inv in He as (c' & He & Hp'). injection Hp' as <-. cbn [p_conn].
    destruct (w_registered c') eqn:E.
    + apply (table_kept _ _ i p); try done. unfold held. cbn [p_conn]. rewrite E. symmetry.
      by apply (do_event_registered e _ c').
    + pose proof (table_update uuid held t ps i p (MkPeer (p_handshake p) c') Ht Hi) as H.
      unfold held in H at 2. cbn [p_conn] in H. by rewrite E in H.
Qed.

(** ** The run *)

Record serving s : Prop := {
  y_ok : Forall sv_ok (ws_peers s);
  y_table : table_ok uuid held (ws_map s) (ws_peers s)
}.

Lemma serving_step e s :
  serving s ->
  exists s', do_wevent e s = Ok s' /\ serving s'
    /\ ws_accepting s' = ws_accepting s && no_throw [e]
    /\ forall es, fleet_run (fleet (ws_accepting s) (e :: es)) (ws_peers s)
         = fleet_run (fleet (ws_accepting s') es) (ws_peers s').
Proof.
  intros [Hok Ht]. destruct e as [error throws|i e].
  - pose proof (table_new uuid held _ _ peer_new Ht) as Hn.
    assert (Forall sv_ok (ws_peers s ++ [peer_new])) as Hok'.
    { apply Forall_app. split; [done|]. apply Forall_singleton, peer_new_ok. }
    unfold do_wevent. destruct (ws_accepting s) eqn:Ea.
    + eexists. split; [done|]. by destruct error, throws.
    + exists s. split; [done|]. split; [done|]. split; [by rewrite Ea|]. intros es.
      cbn [fleet andb app]. by rewrite Ea.
  - destruct (fleet_step_ok (FDo i e) (ws_peers s)) as (ps' & Hf & Hok'); [done..|].
    cbn [do_wevent]. cbn [fleet_step] in Hf. destruct (ws_peers s !! i) as [p|] eqn:Hi.
    + change (sv_do e p) with (let* p := do_pevent e p in Ok (Some p)) in Hf.
      destruct (do_pevent e p) as [p'| |] eqn:He; try done. cbn [res_bind] in Hf |- *.
      injection Hf as <-. eexists. split; [done|]. split; [|split].
      * split; [done|]. by apply manage_table.
      * cbn. by rewrite andb_true_r.
      * intros es. cbn [fleet fleet_run fleet_step ws_peers ws_accepting]. rewrite Hi.
        change (sv_do e p) with (let* p := do_pevent e p in Ok (Some p)). by rewrite He.
    + exists s. split; [done|]. split; [done|]. split; [cbn; by rewrite andb_true_r|].
      intros es. cbn [fleet fleet_run fleet_step]. by rewrite Hi.
Qed.

Lemma ws_serving_run es s :
  serving s ->
  exists s', ws_serve es s = Ok s' /\ serving s'
    /\ ws_accepting s' = ws_accepting s && no_throw es
    /\ fleet_run (fleet (ws_accepting s) es) (ws_peers s) = Ok (Some (ws_peers s')).
Proof.
  revert s. induction es as [|e es IH]; intros s Hs.
  { exists s. cbn. by rewrite andb_true_r. }
  destruct (serving_step e s Hs) as (s1 & H1 & Hs1 & Ha1 & Hf1). cbn [ws_serve].
  rewrite H1. cbn [res_bind]. destruct (IH s1 Hs1) as (s' & H & Hs' & Ha & Hf).
  exists s'. split; [done|]. split; [done|]. split; [|by rewrite Hf1].
  rewrite Ha, Ha1. cbn [no_throw forallb]. by rewrite andb_true_r, andb_assoc.
Qed.

(** Without an operation in progress nothing can happen. *)
Lemma rest_step e s : serving s -> pending s = false -> do_wevent e s = Ok s.
Proof.
  intros [_ Ht] [Ha Hp]%orb_false_iff. destruct e as [error throws|i e]; cbn [do_wevent].
  { by rewrite Ha. }
  destruct (ws_peers s !! i) as [p|] eqn:Hi; [|done].
  assert (peer_pending p = false) as Hpp.
  { destruct (peer_pending p) eqn:E; [|done]. rewrite <- Hp. symmetry. apply existsb_exists.
    exists p. split; [|done]. apply list_elem_of_In. by eapply list_elem_of_lookup_2. }
  unfold peer_pending in Hpp. apply orb_false_iff in Hpp as [[Hh Hr]%orb_false_iff Hw].
  assert (w_writing (p_conn p) = None) as Hw'.
  { apply bool_decide_eq_false in Hw. by apply eq_None_not_Some. }
  assert (do_pevent e p = Ok p) as ->.
  { destruct p as [h c]; cbn in Hh, Hr, Hw'. subst h.
    destruct e as [error|[]]; cbn; by rewrite ?Hr, ?Hw'. }
  cbn [res_bind]. rewrite list_insert_id by done.
  assert (manage i e p p (ws_map s) = ws_map s) as ->; [|by destruct s].
  destruct e as [[]|e]; cbn [manage]; rewrite ?Hh; try done.
  pose proof (table_held uuid held _ _ i p Ht Hi) as H. unfold held in H.
  by destruct (w_registered (p_conn p)).
Qed.

End System.

