(* ===== verification/DemoSession.v ===== *)
(** * The session of the sending and receiving examples

    [Session] of [2. AsyncServer/inc/Session.h] and [src/Session.cpp]: three ways
    to write ([WriteToSocket], [WriteToSocketWithQueue], [WriteAllToSocket]) and
    two to read.  Nodes are shared objects, here the elements of a list named
    by their index; lengths are taken to fit an [int]. *)

From S2P Require Import Prelude CBase.

Definition RECVSIZE : nat := 1024.

Record MsgNode := MkNode { _msg : list char; _total_len : nat; _cur_len : nat }.

(** The sending and the receiving constructor; the bytes of the latter are not
    initialised. *)
Definition MsgNode_send (msg : list char) : MsgNode := MkNode msg (length msg) 0.
Definition MsgNode_recv (junk : list char) : MsgNode := MkNode junk (length junk) 0.

Definition advance (n : nat) (m : MsgNode) : MsgNode :=
  MkNode (_msg m) (_total_len m) (_cur_len m + n).

(** [asio::buffer(_msg + _cur_len, _total_len - _cur_len)] *)
Definition rest (m : MsgNode) : list char := drop (_cur_len m) (_msg m).

#[global] Arguments rest : simpl never.

Record Session := MkSession {
  nodes : list MsgNode;
  _send_queue : list nat;
  _sendnode : option nat;
  _sendpending : bool;
  _recvnode : option nat;
  _recvpending : bool
}.

(** What is started on the socket: a write of some bytes with its callback, or a
    read into a node. *)
Inductive callback :=
| WriteCallBack (msg_node : nat)
| WriteCallBackWithQueue
| WriteAllCallBack.

Inductive op :=
| Write (d : list char) (cb : callback)
| ReadSome (node pos len : nat)
| Receive (node len : nat).

Definition Session_new : Session := MkSession [] [] None false None false.

(** [make_shared<MsgNode>] *)
Definition alloc (m : MsgNode) (s : Session) : nat * Session :=
  (length (nodes s), MkSession (nodes s ++ [m]) (_send_queue s) (_sendnode s) (_sendpending s)
                       (_recvnode s) (_recvpending s)).
Definition node (i : nat) (s : Session) : res MsgNode := of_option (nodes s !! i).
Definition set_node (i : nat) (m : MsgNode) (s : Session) : Session :=
  MkSession (<[i := m]> (nodes s)) (_send_queue s) (_sendnode s) (_sendpending s)
    (_recvnode s) (_recvpending s).
Definition set_queue q (s : Session) : Session :=
  MkSession (nodes s) q (_sendnode s) (_sendpending s) (_recvnode s) (_recvpending s).
Definition set_sendnode o (s : Session) : Session :=
  MkSession (nodes s) (_send_queue s) o (_sendpending s) (_recvnode s) (_recvpending s).
Definition set_sendpending b (s : Session) : Session :=
  MkSession (nodes s) (_send_queue s) (_sendnode s) b (_recvnode s) (_recvpending s).
Definition set_recv o b (s : Session) : Session :=
  MkSession (nodes s) (_send_queue s) (_sendnode s) (_sendpending s) o b.

(** ** Writing: one message at a time *)

Definition WriteToSocket (buf : list char) (s : Session) : Session * list op :=
  let '(i, s) := alloc (MsgNode_send buf) s in
  (set_sendnode (Some i) s, [Write buf (WriteCallBack i)]).

(** [err] is [ec.value() != 0]. *)
Definition on_write (err : bool) (bytes_transfered msg_node : nat) (s : Session)
    : res (Session * list op) :=
  if err then Ok (s, [])
  else
    let* m := node msg_node s in
    if decide (bytes_transfered + _cur_len m < _total_len m) then
      let s := set_node msg_node (advance bytes_transfered m) s in
      (* the rest is taken from _sendnode *)
      let* i := of_option (_sendnode s) in
      let* m := node i s in
      Ok (s, [Write (rest m) (WriteCallBack i)])
    else Ok (s, []).

(** ** Writing with a queue *)

Definition WriteToSocketWithQueue (buf : list char) (s : Session) : Session * list op :=
  let '(i, s) := alloc (MsgNode_send buf) s in
  let s := set_queue (_send_queue s ++ [i]) s in
  if _sendpending s then (s, [])
  else (set_sendpending true s, [Write buf WriteCallBackWithQueue]).

Definition on_write_queue (err : bool) (bytes_transfered : nat) (s : Session)
    : res (Session * list op) :=
  if err then Ok (s, [])
  else
    let* i := of_option (head (_send_queue s)) in
    let* m := node i s in
    let m := advance bytes_transfered m in
    let s := set_node i m s in
    if decide (_cur_len m < _total_len m) then Ok (s, [Write (rest m) WriteCallBackWithQueue])
    else
      let s := set_queue (tail (_send_queue s)) s in
      match _send_queue s with
      | [] => Ok (set_sendpending false s, [])
      | i :: _ => let* m := node i s in Ok (s, [Write (rest m) WriteCallBackWithQueue])
      end.

(** ** Writing with [async_send] *)

Definition WriteAllToSocket (buf : list char) (s : Session) : Session * list op :=
  let '(i, s) := alloc (MsgNode_send buf) s in
  let s := set_queue (_send_queue s ++ [i]) s in
  if _sendpending s then (s, [])
  else (set_sendpending true s, [Write buf WriteAllCallBack]).

Definition on_write_all (err : bool) (bytes_transferred : nat) (s : Session)
    : res (Session * list op) :=
  if err then Ok (s, [])
  else
    let* _ := of_option (head (_send_queue s)) in
    let s := set_queue (tail (_send_queue s)) s in
    let s := if decide (_send_queue s = []) then set_sendpending false s else s in
    match _send_queue s with
    | [] => Ok (s, [])
    | i :: _ => let* m := node i s in Ok (s, [Write (rest m) WriteAllCallBack])
    end.

(** ** Reading *)

(** [junk] are the bytes of [new char[RECVSIZE]]. *)
Definition ReadFromSocket (junk : list char) (s : Session) : Session * list op :=
  if _recvpending s then (s, [])
  else
    let '(i, s) := alloc (MsgNode_recv junk) s in
    (set_recv (Some i) true s, [ReadSome i 0 (length junk)]).

(** [async_read_some] has stored the bytes at [_cur_len] before. *)
Definition on_read (err : bool) (bytes_transfered : nat) (s : Session)
    : res (Session * list op) :=
  if err then Ok (s, [])
  else
    let* i := of_option (_recvnode s) in
    let* m := node i s in
    let m := advance bytes_transfered m in
    let s := set_node i m s in
    if decide (_cur_len m < _total_len m)
    then Ok (s, [ReadSome i (_cur_len m) (_total_len m - _cur_len m)])
    else Ok (set_recv None false s, []).

Definition ReadAllFromSocket (junk : list char) (s : Session) : Session * list op :=
  if _recvpending s then (s, [])
  else
    let '(i, s) := alloc (MsgNode_recv junk) s in
    (set_recv (Some i) true s, [Receive i (length junk)]).

(** The error is not looked at. *)
Definition on_read_all (err : bool) (bytes_transferred : nat) (s : Session)
    : res (Session * list op) :=
  let* i := of_option (_recvnode s) in
  let* m := node i s in
  let s := set_node i (advance bytes_transferred m) s in
  Ok (set_recv None false s, []).

(** ** A session and its socket

    The writes in progress, in the order they were started (the socket completes
    them in that order), and the bytes on the wire. *)
Record world := MkWorld {
  w_s : Session;
  w_pending : list (list char * callback);
  w_wire : list char
}.

Definition writes (ops : list op) : list (list char * callback) :=
  omap (fun o => match o with Write d cb => Some (d, cb) | _ => None end) ops.

Definition started (r : Session * list op) (w : world) : world :=
  MkWorld r.1 (w_pending w ++ writes r.2) (w_wire w).

Definition on_callback (cb : callback) (err : bool) (n : nat) (s : Session)
    : res (Session * list op) :=
  match cb with
  | WriteCallBack i => on_write err n i s
  | WriteCallBackWithQueue => on_write_queue err n s
  | WriteAllCallBack => on_write_all err n s
  end.

(** The calls of the program, and what the socket does: the write started first
    takes [n] of its bytes, or fails. *)
Inductive event :=
| CallWrite (buf : list char)
| CallQueue (buf : list char)
| CallAll (buf : list char)
| Done (n : nat)
| Failed.

(** A completion that is not due changes nothing. *)
Definition do_event (e : event) (w : world) : res world :=
  match e with
  | CallWrite buf => Ok (started (WriteToSocket buf (w_s w)) w)
  | CallQueue buf => Ok (started (WriteToSocketWithQueue buf (w_s w)) w)
  | CallAll buf => Ok (started (WriteAllToSocket buf (w_s w)) w)
  | Done n =>
      match w_pending w with
      | (d, cb) :: ps =>
          if decide (n <= length d) then
            let* r := on_callback cb false n (w_s w) in
            Ok (started r (MkWorld (w_s w) ps (w_wire w ++ take n d)))
          else Ok w
      | [] => Ok w
      end
  | Failed =>
      match w_pending w with
      | (d, cb) :: ps =>
          let* r := on_callback cb true 0 (w_s w) in Ok (started r (MkWorld (w_s w) ps (w_wire w)))
      | [] => Ok w
      end
  end.

Fixpoint run (es : list event) (w : world) : res world :=
  match es with
  | [] => Ok w
  | e :: es => let* w := do_event e w in run es w
  end.

Definition world_new : world := MkWorld Session_new [] [].

(** ** The queue

    What the queued nodes have left, and the invariant: the write in progress is
    the front's rest; after a failure nothing is in progress. *)
Definition rest_of (s : Session) (i : nat) : list char := from_option rest [] (nodes s !! i).

#[global] Arguments rest_of : simpl never.

Definition node_ok (s : Session) (i : nat) : Prop :=
  exists m, nodes s !! i = Some m /\ _total_len m = length (_msg m) /\ _cur_len m <= _total_len m.

Record queue_ok (cb : callback) (failed : bool) (w : world) : Prop := {
  q_nodes : Forall (node_ok (w_s w)) (_send_queue (w_s w));
  q_distinct : NoDup (_send_queue (w_s w));
  q_pending : _sendpending (w_s w) = bool_decide (_send_queue (w_s w) <> []);
  q_write : if failed then w_pending w = [] /\ _send_queue (w_s w) <> []
            else w_pending w = (fun i => (rest_of (w_s w) i, cb))
                   <$> option_list (head (_send_queue (w_s w)))
}.

(** The bytes that are still to go. *)
Definition to_send (w : world) : list char := concat (rest_of (w_s w) <$> _send_queue (w_s w)).

Lemma world_new_ok cb : queue_ok cb false world_new.
Proof. split; by constructor. Qed.

Lemma rest_send d : rest (MsgNode_send d) = d.
Proof. done. Qed.

(** A node that is added or advanced does not touch the others. *)
Lemma rest_of_alloc m s i : node_ok s i -> rest_of (alloc m s).2 i = rest_of s i.
Proof.
  intros (m' & Hm & _). unfold rest_of. cbn.
  rewrite lookup_app_l by by eapply lookup_lt_Some. done.
Qed.

Lemma node_ok_alloc m s i : node_ok s i -> node_ok (alloc m s).2 i.
Proof.
  intros (m' & Hm & H). exists m'. split; [|done]. cbn.
  rewrite lookup_app_l by by eapply lookup_lt_Some. done.
Qed.

Lemma rest_of_set_ne s i j m : i <> j -> rest_of (set_node i m s) j = rest_of s j.
Proof. intros H. unfold rest_of. cbn. by rewrite list_lookup_insert_ne. Qed.

Lemma node_ok_set_ne s i j m : i <> j -> node_ok s j -> node_ok (set_node i m s) j.
Proof. intros H (m' & Hm & Hok). exists m'. cbn. by rewrite list_lookup_insert_ne. Qed.

Lemma rests_ext s s' q :
  Forall (node_ok s) q -> (forall i, i ∈ q -> rest_of s' i = rest_of s i) ->
  rest_of s' <$> q = rest_of s <$> q.
Proof.
  intros _ H. apply list_fmap_ext. intros k i Hi. apply H. by eapply list_elem_of_lookup_2.
Qed.

(** A message joins the queue: [WriteToSocketWithQueue] and [WriteAllToSocket]. *)
Definition enqueue (cb : callback) (buf : list char) (s : Session) : Session * list op :=
  let '(i, s) := alloc (MsgNode_send buf) s in
  let s := set_queue (_send_queue s ++ [i]) s in
  if _sendpending s then (s, [])
  else (set_sendpending true s, [Write buf cb]).

Lemma enqueue_ok cb f buf w :
  queue_ok cb f w ->
  let w' := started (enqueue cb buf (w_s w)) w in
  queue_ok cb f w' /\ w_wire w' = w_wire w /\ to_send w' = to_send w ++ buf.
Proof.
  intros [Hn Hd Hp Hw]. unfold enqueue. cbn [alloc].
  set (s1 := MkSession (nodes (w_s w) ++ [MsgNode_send buf]) _ _ _ _ _).
  set (i := length (nodes (w_s w))).
  assert (s1 = (alloc (MsgNode_send buf) (w_s w)).2) as Hs1 by done.
  assert (nodes s1 !! i = Some (MsgNode_send buf)) as Hi.
  { unfold s1, i. cbn. rewrite lookup_app_r, Nat.sub_diag by lia. done. }
  assert (rest_of s1 i = buf) as Hri by (unfold rest_of; rewrite Hi; done).
  assert (node_ok s1 i) as Hoi by (exists (MsgNode_send buf); cbn; split_and!; (done || lia)).
  assert (Forall (node_ok s1) (_send_queue (w_s w) ++ [i])) as Hn1.
  { apply Forall_app. split; [|by apply Forall_singleton].
    eapply Forall_impl; [exact Hn|]. intros j Hj. rewrite Hs1. by apply node_ok_alloc. }
  assert (rest_of s1 <$> _send_queue (w_s w) = rest_of (w_s w) <$> _send_queue (w_s w)) as Hrs.
  { apply (rests_ext (w_s w)); [done|]. intros j Hj. rewrite Hs1. apply rest_of_alloc.
    by eapply Forall_forall in Hj. }
  assert (NoDup (_send_queue (w_s w) ++ [i])) as Hd1.
  { apply NoDup_app. split_and!; [done| |apply NoDup_singleton].
    intros j Hj ->%list_elem_of_singleton. eapply Forall_forall in Hj; [|exact Hn].
    destruct Hj as (m & Hm & _). apply lookup_lt_Some in Hm. unfold i in Hm. lia. }
  change (_sendpending (set_queue _ s1)) with (_sendpending (w_s w)).
  change (_send_queue s1) with (_send_queue (w_s w)).
  assert (forall b, rest_of (set_sendpending b (set_queue (_send_queue (w_s w) ++ [i]) s1))
    = rest_of s1) as Hsp by done.
  destruct (_send_queue (w_s w)) as [|j q] eqn:Eq.
  - rewrite bool_decide_false in Hp by tauto. rewrite Hp. destruct f; [by destruct Hw|].
    unfold started, to_send. cbn. rewrite Eq. cbn. rewrite !Hsp, Hri, Hw. cbn.
    split; [|by rewrite app_nil_r]. split; cbn; [exact Hn1|exact Hd1|done|].
    by rewrite Hsp, Hri.
  - rewrite bool_decide_true in Hp by done. rewrite Hp. unfold started, to_send. cbn.
    rewrite Eq. cbn [writes omap list_omap]. rewrite app_nil_r.
    change (rest_of (set_queue _ s1)) with (rest_of s1).
    split; [split; cbn; [exact Hn1|exact Hd1|exact Hp|]|split; [done|]].
    + destruct f; [by destruct Hw|]. rewrite Hw. cbn. cbn in Hrs.
      change (rest_of (set_queue _ s1)) with (rest_of s1). by injection Hrs as -> _.
    + trans (concat (rest_of s1 <$> ((j :: q) ++ [i]))); [done|]. rewrite fmap_app, Hrs, concat_app.
      cbn. by rewrite Hri, app_nil_r.
Qed.

Lemma CallQueue_enqueue buf s : WriteToSocketWithQueue buf s = enqueue WriteCallBackWithQueue buf s.
Proof. done. Qed.

Lemma CallAll_enqueue buf s : WriteAllToSocket buf s = enqueue WriteAllCallBack buf s.
Proof. done. Qed.

(** The front node takes [n] more bytes. *)
Lemma advance_node n i s m :
  nodes s !! i = Some m -> _total_len m = length (_msg m) -> _cur_len m <= _total_len m ->
  n <= length (rest m) ->
  rest_of (set_node i (advance n m) s) i = drop n (rest m)
  /\ node_ok (set_node i (advance n m) s) i
  /\ (_cur_len (advance n m) < _total_len m <-> drop n (rest m) <> []).
Proof.
  intros Hi Ht Hc Hn. unfold rest in *. rewrite length_drop in Hn.
  assert (nodes (set_node i (advance n m) s) !! i = Some (advance n m)) as Hl.
  { cbn. rewrite list_lookup_insert_eq; [done|]. by eapply lookup_lt_Some. }
  split; [|split].
  - unfold rest_of. rewrite Hl. unfold rest. cbn. by rewrite drop_drop.
  - exists (advance n m). split; [done|]. cbn. split; [done|lia].
  - cbn. rewrite drop_drop. split; intros H.
    + intros E. apply (f_equal length) in E. rewrite length_drop in E. simpl in E. lia.
    + destruct (drop (_cur_len m + n) (_msg m)) eqn:E; [done|].
      apply (f_equal length) in E. rewrite length_drop in E. simpl in E. lia.
Qed.

(** A completion of the queue's write. *)
Lemma queue_done n w :
  queue_ok WriteCallBackWithQueue false w ->
  exists w', do_event (Done n) w = Ok w' /\ queue_ok WriteCallBackWithQueue false w'
    /\ w_wire w' ++ to_send w' = w_wire w ++ to_send w.
Proof.
  intros Hok. pose proof Hok as [Hn Hd Hp Hw]. cbn [do_event].
  destruct (_send_queue (w_s w)) as [|i q] eqn:Eq; cbn in Hw; rewrite Hw; [by exists w|].
  case_decide as Hlen; [|by exists w].
  apply Forall_cons in Hn as [(m & Hi & Ht & Hc) Hn]. apply NoDup_cons in Hd as [Hiq Hd].
  assert (rest_of (w_s w) i = rest m) as Hr by (unfold rest_of; by rewrite Hi).
  rewrite Hr in Hlen. destruct (advance_node n i (w_s w) m Hi Ht Hc Hlen) as (Hr1 & Hok1 & Hlt).
  set (s1 := set_node i (advance n m) (w_s w)) in *.
  assert (Forall (node_ok s1) q) as Hn1.
  { eapply Forall_impl; [exact Hn|]. intros j Hj.
    destruct (decide (i = j)) as [->|]; [done|]. by apply node_ok_set_ne. }
  assert (rest_of s1 <$> q = rest_of (w_s w) <$> q) as Hrs.
  { apply (rests_ext (w_s w)); [done|]. intros j Hj. apply rest_of_set_ne. by intros ->. }
  unfold on_callback, on_write_queue. rewrite Eq. cbn [head of_option res_bind].
  unfold node. rewrite Hi. cbn [of_option res_bind]. fold s1.
  assert (to_send w = rest m ++ concat (rest_of (w_s w) <$> q)) as Hts
    by (unfold to_send; rewrite Eq; cbn; by rewrite Hr).
  rewrite Hts, Hr. cbn [_total_len _cur_len advance] in Hlt |- *.
  destruct (decide (_cur_len m + n < _total_len m)) as [Hlt'|Hlt'].
  - eexists. split; [reflexivity|]. unfold started. cbn.
    assert (rest (advance n m) = rest_of s1 i) as Ha.
    { rewrite Hr1. unfold rest. cbn. by rewrite drop_drop. }
    split.
    + split; cbn; rewrite ?Eq; [by apply Forall_cons|by apply NoDup_cons|done|].
      cbn. by rewrite Ha.
    + unfold to_send. cbn. rewrite Eq. cbn. fold s1. rewrite Hrs, Hr1, <- app_assoc. f_equal.
      by rewrite app_assoc, take_drop.
  - assert (drop n (rest m) = []) as Hdrop.
    { destruct (drop n (rest m)) eqn:E; [done|]. exfalso. apply Hlt'. by apply Hlt. }
    assert (take n (rest m) = rest m) as Htake.
    { rewrite <- (take_drop n (rest m)) at 2. by rewrite Hdrop, app_nil_r. }
    rewrite Htake. change (_send_queue s1) with (_send_queue (w_s w)). rewrite Eq.
    cbn [tail _send_queue set_queue].
    destruct q as [|j q].
    + eexists. split; [reflexivity|]. unfold started, to_send. cbn.
      rewrite !app_nil_r. split; [|done]. split; by (constructor || cbn).
    + apply Forall_cons in Hn1 as [(mj & Hj & Htj) Hn1].
      change (nodes (set_queue (j :: q) s1)) with (nodes s1). rewrite Hj.
      cbn [of_option res_bind]. eexists. split; [reflexivity|]. unfold started. cbn.
      assert (rest_of s1 j = rest mj) as Hrj by (unfold rest_of; by rewrite Hj).
      split.
      * split; cbn; [|done|by rewrite Hp|].
        -- apply Forall_cons. split; [by exists mj | exact Hn1].
        -- change (rest_of (set_queue (j :: q) s1)) with (rest_of s1). by rewrite Hrj.
      * unfold to_send. cbn. change (rest_of (set_queue (j :: q) s1)) with (rest_of s1).
        rewrite <- app_assoc. do 2 f_equal. exact (f_equal (@concat _) Hrs).
Qed.

(** A failed write. *)
Lemma queue_failed f w :
  queue_ok WriteCallBackWithQueue f w ->
  exists w' f', do_event Failed w = Ok w' /\ queue_ok WriteCallBackWithQueue f' w'
    /\ w_wire w' = w_wire w /\ to_send w' = to_send w /\ (f = true -> f' = true).
Proof.
  intros [Hn Hd Hp Hw]. cbn [do_event]. destruct f.
  - exists w, true. destruct Hw as [Hw Hne]. rewrite Hw. split; [done|].
    split; [|done]. by split.
  - destruct (_send_queue (w_s w)) as [|i q] eqn:Eq; cbn in Hw; rewrite Hw.
    + exists w, false. split; [done|]. split; [|done]. split; rewrite ?Eq; done.
    + cbn. eexists _, true. split; [reflexivity|]. unfold started, to_send. cbn.
      split; [|done]. split; cbn; rewrite ?Eq; done.
Qed.

Lemma queue_done_failed n w :
  queue_ok WriteCallBackWithQueue true w -> do_event (Done n) w = Ok w.
Proof. intros [_ _ _ [Hw _]]. cbn [do_event]. by rewrite Hw. Qed.

(** The events of a program that only uses the queue, and its messages. *)
Definition queue_event (e : event) : bool :=
  match e with CallQueue _ | Done _ | Failed => true | _ => false end.

Definition called (es : list event) : list char :=
  concat (omap (fun e => match e with
                         | CallWrite d | CallQueue d | CallAll d => Some d | _ => None end) es).

Lemma queue_run es f w :
  queue_ok WriteCallBackWithQueue f w -> forallb queue_event es = true ->
  exists w' f', run es w = Ok w' /\ queue_ok WriteCallBackWithQueue f' w'
    /\ w_wire w' ++ to_send w' = w_wire w ++ to_send w ++ called es
    /\ (f = true -> f' = true /\ w_wire w' = w_wire w)
    /\ (f = false -> Failed ∉ es -> f' = false).
Proof.
  revert f w. induction es as [|e es IH]; intros f w Hok He; cbn [run].
  { exists w, f. unfold called. cbn. rewrite app_nil_r. by split_and!. }
  cbn [forallb] in He. apply andb_true_iff in He as [He Hes].
  assert (exists w1 f1, do_event e w = Ok w1 /\ queue_ok WriteCallBackWithQueue f1 w1
    /\ w_wire w1 ++ to_send w1 = w_wire w ++ to_send w ++ called [e]
    /\ (f = true -> f1 = true /\ w_wire w1 = w_wire w)
    /\ (f = false -> e <> Failed -> f1 = false)) as (w1 & f1 & H1 & Hok1 & Heq1 & Hf1 & Hn1).
  { destruct e as [|buf| |n|]; try done; unfold called; cbn; rewrite ?app_nil_r.
    - destruct (enqueue_ok WriteCallBackWithQueue f buf w Hok) as (Hok1 & Hw1 & Ht1).
      exists (started (enqueue WriteCallBackWithQueue buf (w_s w)) w), f.
      rewrite Hw1, Ht1. by split_and!.
    - destruct f.
      + exists w, true. split; [by apply (queue_done_failed n)|]. by split_and!.
      + destruct (queue_done n w Hok) as (w1 & H1 & Hok1 & Heq). exists w1, false.
        by split_and!.
    - destruct (queue_failed f w Hok) as (w1 & f1 & H1 & Hok1 & Hw1 & Ht1 & Hf1).
      exists w1, f1. rewrite Hw1, Ht1. split_and!; try done. intros Hf. by split; [apply Hf1|]. }
  rewrite H1. cbn [res_bind].
  destruct (IH f1 w1 Hok1 Hes) as (w' & f' & H' & Hok' & Heq' & Hf' & Hn').
  exists w', f'. split; [done|]. split; [done|]. split; [|split].
  - rewrite Heq', (app_assoc (w_wire w1)), Heq1. unfold called. cbn [omap list_omap].
    destruct e; cbn; rewrite <- ?app_assoc, ?app_nil_r; done.
  - intros Ht. destruct (Hf1 Ht) as [Hf Hw]. destruct (Hf' Hf) as [? Hw'].
    split; [done|]. by rewrite Hw'.
  - intros Hf Hnot. apply not_elem_of_cons in Hnot as [? ?]. apply Hn'; [|done].
    by apply Hn1.
Qed.

(** With the queue, every byte given to [WriteToSocketWithQueue] goes out once and
    in order, however the socket splits the writes and whenever the calls come:
    what is on the wire and what is still to go are the messages, one after the
    other; while writes do not fail, nothing in progress means all is out. *)
Theorem queue_in_order es :
  forallb queue_event es = true ->
  exists w, run es world_new = Ok w
    /\ w_wire w ++ to_send w = called es
    /\ ((Failed ∉ es) -> w_pending w = [] -> w_wire w = called es).
Proof.
  intros He. destruct (queue_run es false world_new (world_new_ok _) He)
    as (w & f & H & Hok & Heq & _ & Hnf).
  cbn in Heq. exists w. split; [done|]. split; [done|]. intros Hnot Hp.
  rewrite (Hnf eq_refl Hnot) in Hok. destruct Hok as [_ _ _ Hw]. rewrite Hp in Hw.
  destruct (_send_queue (w_s w)) eqn:Eq; [|done]. rewrite <- Heq. unfold to_send.
  by rewrite Eq, app_nil_r.
Qed.

(** [WriteToSocket] is not safe to call while a message is going out: when the
    first message [a] was taken in part, its rest is never sent and the second
    message [b] goes out twice, because the callback continues with
    [_sendnode]. *)
Theorem write_overlap a b n :
  n < length a -> b <> [] ->
  exists w, run [CallWrite a; CallWrite b; Done n; Done (length b); Done (length b)] world_new
    = Ok w
  /\ w_wire w = take n a ++ b ++ b /\ w_pending w = [].
Proof.
  intros Hn Hb. cbn [run do_event res_bind]. unfold WriteToSocket, started. cbn.
  rewrite decide_True by lia. cbn. rewrite decide_True by lia. cbn.
  rewrite !rest_send, decide_True by lia. cbn. rewrite decide_False by lia. cbn.
  rewrite decide_True by lia. cbn. rewrite decide_False by lia. cbn.
  eexists. split; [done|]. cbn.
  by rewrite !firstn_all, <- !app_assoc.
Qed.

(** [WriteAllToSocket] takes a completion for the whole message: when the socket
    takes [n] bytes of the first of two messages, the rest of it is dropped and
    the second follows. *)
Theorem write_all_drops a b n :
  n <= length a ->
  exists w, run [CallAll a; CallAll b; Done n; Done (length b)] world_new = Ok w
  /\ w_wire w = take n a ++ b /\ w_pending w = [] /\ _send_queue (w_s w) = [].
Proof.
  intros Hn. cbn [run do_event res_bind]. unfold WriteAllToSocket, started. cbn.
  rewrite decide_True by lia. cbn. rewrite decide_False by done. cbn.
  rewrite !rest_send, decide_True by lia. cbn.
  eexists. split; [done|]. cbn. by rewrite firstn_all.
Qed.

Lemma queue_in_order_witness :
  exists w, run [CallQueue (lit "abc"); CallQueue (lit "de"); Done 2; Done 1; Done 1; Done 1]
      world_new = Ok w
  /\ w_wire w = lit "abcde".
Proof.
  destruct (queue_in_order [CallQueue (lit "abc"); CallQueue (lit "de"); Done 2; Done 1;
    Done 1; Done 1]) as (w & H & _ & Hw).
  - reflexivity.
  - exists w. split; [exact H|]. apply Hw.
    + repeat (apply not_elem_of_cons; split; [discriminate|]). apply not_elem_of_nil.
    + vm_compute in H. injection H as <-. reflexivity.
Defined.

Lemma write_overlap_witness :
  exists w, run [CallWrite (lit "abc"); CallWrite (lit "de"); Done 1; Done 2; Done 2] world_new
    = Ok w
  /\ w_wire w = lit "adede".
Proof.
  destruct (write_overlap (lit "abc") (lit "de") 1) as (w & H & Hw & _).
  - vm_compute. repeat constructor.
  - discriminate.
  - exists w. split; [exact H | exact Hw].
Defined.

Lemma write_all_drops_witness :
  exists w, run [CallAll (lit "abc"); CallAll (lit "de"); Done 1; Done 2] world_new = Ok w
  /\ w_wire w = lit "ade".
Proof.
  destruct (write_all_drops (lit "abc") (lit "de") 1) as (w & H & Hw & _).
  - vm_compute. repeat constructor.
  - exists w. split; [exact H | exact Hw].
Defined.
