(* ===== verification/SyncDemo.v ===== *)
(** * The synchronous examples

    [2. AsyncServer/src/syncserver.cpp], a server with a thread per connection
    that echoes what it reads, and [src/syncclient.cpp], which sends one line
    with a two-byte length in front and prints the answer.  Reads and writes
    block; a connection is the list of what its reads return. *)

From S2P Require Import Prelude CBase Frame MsgNode.

Definition MAX_LENGTH : nat := 1024.
Definition HEAD_LENGTH : nat := 2.

(** ** The server *)

(** What [read_some] returns, with whether the answer can then be written. *)
Inductive received :=
| Received (d : list char) (written : bool)
| Eof
| ReadError.

Inductive output :=
| PrintClosed
| PrintMsg (msg : list char)
| Echo (d : list char)
| PrintError.

(** Every pass of the loop has its own [char data[MAX_LENGTH]], cleared before the
    read and printed as a C string after it; what throws ends the session. *)
Fixpoint session (es : list received) : res (list output) :=
  match es with
  | [] => Ok []
  | Eof :: _ => Ok [PrintClosed]
  | ReadError :: _ => Ok [PrintError]
  | Received d written :: es =>
      let length := length d in
      let* data := put 0 d (replicate MAX_LENGTH NUL) in
      let* msg := of_option (cstr data) in
      if written then
        let* out := session es in Ok (PrintMsg msg :: Echo (take length data) :: out)
      else Ok [PrintMsg msg; PrintError]
  end.

(** The loop of [server] and the number of threads in [thread_set]: a thread for
    every accepted connection, until [accept] throws. *)
Fixpoint server (accepts : list bool) (thread_set : nat) : option nat :=
  match accepts with
  | [] => None
  | true :: accepts => server accepts (S thread_set)
  | false :: _ => Some thread_set
  end.

(** [main]: the exception skips the joins, and a thread that was not joined ends
    the program when [thread_set] is destroyed. *)
Inductive main_end := Serving | Returned | Terminated.

Definition main (accepts : list bool) : main_end :=
  match server accepts 0 with
  | None => Serving
  | Some 0 => Returned
  | Some (S _) => Terminated
  end.

(** ** The client *)

(** [std::cin.getline(request, MAX_LENGTH)] into an array that holds [junk]. *)
Definition getline (line junk : list char) : res (list char) :=
  put 0 (take (MAX_LENGTH - 1) line ++ [NUL]) junk.

Inductive client_output :=
| TooLong
| Sent (d : list char)
| Reply (msg : list char) (msglen : Z)
| Threw.

Definition client_send (request : list char) : res (list client_output + list char) :=
  let* text := of_option (cstr request) in
  let request_length := length text in
  if decide (Z.of_nat request_length > 65535)%Z then Ok (inl [TooLong])
  else
    let request_len := to_uint16 (Z.of_nat request_length) in
    let* send_data := put 0 (store16 (host_to_network_short request_len))
      (replicate MAX_LENGTH NUL) in
    let* send_data := put HEAD_LENGTH (take request_length request) send_data in
    (* [asio::buffer] of an array is at most the array *)
    Ok (inr (take (request_length + HEAD_LENGTH) send_data)).

(** [stream] is what the server sends before it closes; a read that does not
    get all its bytes throws. *)
Definition client_reply (stream : list char) : res (list client_output) :=
  if decide (length stream < HEAD_LENGTH) then Ok [Threw]
  else
    let* msglen_net := load16 (take HEAD_LENGTH stream) in
    let msglen := network_to_host_short msglen_net in
    let stream := drop HEAD_LENGTH stream in
    let n := Z.to_nat msglen `min` MAX_LENGTH in
    if decide (length stream < n) then Ok [Threw]
    else
      let* msg := put 0 (take n stream) (replicate MAX_LENGTH NUL) in
      (* [cout.write(msg, msglen)] *)
      if decide (Z.to_nat msglen <= length msg)
      then Ok [Reply (take (Z.to_nat msglen) msg) msglen]
      else UB.

Definition client (line junk stream : list char) : res (list client_output) :=
  let* request := getline line junk in
  let* r := client_send request in
  match r with
  | inl out => Ok out
  | inr d => let* out := client_reply stream in Ok (Sent d :: out)
  end.

(** ** What goes back to the client *)
Definition echoed (out : list output) : list char :=
  concat (omap (fun o => match o with Echo d => Some d | _ => None end) out).

(** The bytes of one read can be printed: they do not fill the array, or hold
    a NUL. *)
Definition printable (d : list char) : bool :=
  bool_decide (length d <= MAX_LENGTH /\ (length d < MAX_LENGTH \/ NUL ∈ d)).

(** What of [d] is printed. *)
Definition text (d : list char) : list char := default [] (cstr (d ++ [NUL])).

Lemma cstr_padded d k :
  cstr (d ++ replicate k NUL)
  = if decide (0 < k \/ NUL ∈ d) then Some (text d) else None.
Proof.
  unfold text. induction d as [|c d IH].
  - destruct k; case_decide as H; try done.
    + destruct H as [H|H]; [lia|]. by apply not_elem_of_nil in H.
    + exfalso. apply H. left. lia.
  - cbn [app cstr]. destruct (decide (c = NUL)) as [Hc|Hc].
    { rewrite decide_True; [done|]. right. subst c. apply elem_of_cons. by left. }
    rewrite IH. assert (is_Some (cstr (d ++ [NUL]))) as [w Hw].
    { apply cstr_is_Some, elem_of_app. right. by apply list_elem_of_singleton. }
    rewrite Hw. simpl. case_decide as H.
    + rewrite decide_True; [done|]. destruct H; [by left|]. right. apply elem_of_cons. by right.
    + rewrite decide_False; [done|]. intros [?|[?|?]%elem_of_cons]; [tauto|congruence|tauto].
Qed.

Lemma blit_zeros d n : length d <= n -> blit 0 d (replicate n NUL) = d ++ replicate (n - length d) NUL.
Proof.
  intros. rewrite blit_in_range by (rewrite length_replicate; lia).
  by rewrite take_0, drop_replicate.
Qed.

(** One pass of the loop. *)
Lemma session_received d w es :
  session (Received d w :: es)
  = if printable d then
      if w then let* out := session es in Ok (PrintMsg (text d) :: Echo d :: out)
      else Ok [PrintMsg (text d); PrintError]
    else UB.
Proof.
  cbn [session]. unfold printable. case_bool_decide as H.
  - destruct H as [Hl H]. rewrite put_ok by (rewrite length_replicate; lia). cbn [res_bind].
    rewrite blit_zeros, cstr_padded by done. rewrite decide_True by (destruct H; [left; lia|by right]).
    cbn [of_option res_bind]. by rewrite take_app_length.
  - destruct (decide (length d <= MAX_LENGTH)) as [Hl|Hl].
    + rewrite put_ok by (rewrite length_replicate; lia). cbn [res_bind].
      rewrite blit_zeros, cstr_padded by done. rewrite decide_False; [done|].
      intros [?|?]; apply H; (split; [done|]); [left; lia | by right].
    + rewrite put_overflow; [done|]. rewrite length_replicate. simpl. lia.
Qed.

Lemma session_run ds es :
  session (((fun d => Received d true) <$> ds) ++ es)
  = if forallb printable ds then
      let* out := session es in Ok (concat ((fun d => [PrintMsg (text d); Echo d]) <$> ds) ++ out)
    else UB.
Proof.
  induction ds as [|d ds IH].
  - cbn. by destruct (session es).
  - rewrite fmap_cons. cbn [app]. rewrite session_received, IH. cbn [forallb].
    destruct (printable d); [|done]. cbn [andb].
    destruct (forallb printable ds); [|done]. by destruct (session es).
Qed.

(** ** The client's frames *)

(** Two bytes of length in network order and the text. *)
Definition short_frame (body : list char) : list char :=
  be16 (Z.of_nat (length body)) ++ body.

Lemma short_frame_length body : length (short_frame body) = 2 + length body.
Proof. unfold short_frame. by rewrite length_app, be16_length. Qed.

Lemma getline_run line junk :
  length junk = MAX_LENGTH -> length line < MAX_LENGTH ->
  getline line junk = Ok (line ++ NUL :: drop (S (length line)) junk).
Proof.
  intros Hj Hl. unfold getline. rewrite take_ge by (unfold MAX_LENGTH in *; lia).
  rewrite put_ok by (rewrite length_app; simpl; lia).
  rewrite blit_in_range by (rewrite length_app; simpl; lia).
  rewrite take_0. cbn [app]. rewrite <- app_assoc, length_app.
  do 3 f_equal. simpl. f_equal. f_equal. lia.
Qed.

Lemma client_send_run line rest :
  NUL ∉ line -> length line < MAX_LENGTH ->
  client_send (line ++ NUL :: rest)
  = if decide (length line <= MAX_LENGTH - HEAD_LENGTH) then Ok (inr (short_frame line)) else UB.
Proof.
  intros Hn Hl. unfold client_send, MAX_LENGTH, HEAD_LENGTH in *. rewrite cstr_app by done.
  cbn [of_option res_bind]. rewrite decide_False by lia.
  rewrite to_uint16_id by lia. rewrite store_network, to_uint16_id by lia.
  set (h := be16 _). assert (length h = 2) as Hh by done.
  rewrite put_ok by (rewrite length_replicate, Hh; lia). cbn [res_bind].
  rewrite take_app_length. set (b := blit 0 h _).
  assert (length b = 1024) as Hb by (unfold b; rewrite length_blit; rewrite length_replicate; lia).
  case_decide.
  - rewrite put_ok by lia. cbn [res_bind]. do 2 f_equal. rewrite Nat.add_comm.
    rewrite take_blit by lia. unfold short_frame. by fold h.
  - rewrite put_overflow by lia. done.
Qed.

Lemma client_reply_run body rest :
  length body <= MAX_LENGTH ->
  client_reply (short_frame body ++ rest) = Ok [Reply body (Z.of_nat (length body))].
Proof.
  intros Hl. unfold client_reply, short_frame, MAX_LENGTH, HEAD_LENGTH in *.
  rewrite <- app_assoc. rewrite decide_False by (rewrite length_app, be16_length; lia).
  rewrite take_app_length' by done. rewrite drop_app_length' by done.
  pose proof (load_network (Z.of_nat (length body)) [] ltac:(lia)) as Hn.
  rewrite app_nil_r in Hn. destruct (load16 _) as [x| |]; try discriminate Hn.
  injection Hn as Hn. cbn [res_bind]. rewrite Hn, Nat2Z.id, Nat.min_l by lia.
  rewrite decide_False by (rewrite length_app; lia). rewrite take_app_length.
  rewrite put_ok by (rewrite length_replicate; lia). cbn [res_bind].
  rewrite length_blit by (rewrite length_replicate; lia).
  rewrite length_replicate, decide_True by lia.
  by rewrite blit_zeros, take_app_length by lia.
Qed.

(** ** The two together *)

Lemma echoed_msgs ds : echoed (concat ((fun d => [PrintMsg (text d); Echo d]) <$> ds) ++ [PrintClosed])
  = concat ds.
Proof.
  unfold echoed. induction ds as [|d ds IH]; [done|].
  rewrite fmap_cons. cbn [concat app omap list_omap]. by rewrite IH.
Qed.

(** The synchronous server answers every read with the same bytes, in order, until
    its peer closes; a read that fills its buffer with 1024 bytes none of which
    is NUL makes it print past the end of the array. *)
Theorem session_echo ds :
  session (((fun d => Received d true) <$> ds) ++ [Eof])
  = if forallb printable ds
    then Ok (concat ((fun d => [PrintMsg (text d); Echo d]) <$> ds) ++ [PrintClosed])
    else UB.
Proof. apply session_run. Qed.

(** C25: a line of up to 1021 bytes comes back as it was typed, however the server's
    reads split the client's frame: the client sends the frame, the server
    echoes it, and the client prints the line and its length. *)
Theorem sync_exchange line junk ds :
  length junk = MAX_LENGTH -> NUL ∉ line -> length line <= 1021 ->
  concat ds = short_frame line ->
  exists out,
    session (((fun d => Received d true) <$> ds) ++ [Eof]) = Ok out
    /\ client line junk (echoed out)
       = Ok [Sent (short_frame line); Reply line (Z.of_nat (length line))].
Proof.
  intros Hj Hn Hl Hds. eexists. split.
  - rewrite session_run. assert (forallb printable ds = true) as ->; [|reflexivity].
    { apply Is_true_true, forallb_True, Forall_forall. intros d Hd. apply bool_decide_pack.
      apply list_elem_of_split in Hd as (d1 & d2 & ->).
      assert (length (concat (d1 ++ d :: d2)) <= 1023) as H
        by (rewrite Hds, short_frame_length; lia).
      rewrite concat_app in H. simpl in H. rewrite !length_app in H. unfold MAX_LENGTH. lia. }
  - rewrite echoed_msgs, Hds. unfold client.
    rewrite getline_run by (unfold MAX_LENGTH in *; lia). cbn [res_bind].
    rewrite client_send_run by (unfold MAX_LENGTH in *; done || lia).
    rewrite decide_True by (unfold MAX_LENGTH, HEAD_LENGTH; lia). cbn [res_bind].
    pose proof (client_reply_run line []) as H. rewrite app_nil_r in H.
    rewrite H by (unfold MAX_LENGTH; lia). done.
Qed.

(** The two lengths above fail: a line of 1023 bytes (what [getline] stores at
    most) makes the client write one byte outside [send_data] before it sends
    anything, and one of 1022 bytes that arrives in one read makes the server
    print past its array. *)
Theorem sync_limits line junk stream :
  length junk = MAX_LENGTH -> NUL ∉ line ->
  (length line = 1023 -> client line junk stream = UB)
  /\ (length line = 1022 -> session [Received (short_frame line) true] = UB).
Proof.
  intros Hj Hn. split; intros Hl.
  - unfold client. rewrite getline_run by (unfold MAX_LENGTH in *; lia). cbn [res_bind].
    rewrite client_send_run by (unfold MAX_LENGTH in *; done || lia).
    by rewrite decide_False by (unfold MAX_LENGTH, HEAD_LENGTH; lia).
  - rewrite session_received. unfold printable. rewrite bool_decide_false; [done|].
    rewrite short_frame_length, Hl. unfold MAX_LENGTH. intros [_ [?|H]]; [lia|].
    unfold short_frame in H. rewrite Hl in H. apply elem_of_app in H as [H|H]; [|done].
    vm_compute in H. apply elem_of_cons in H as [H|[H|H]%elem_of_cons]; try discriminate H.
    by apply not_elem_of_nil in H.
Qed.

Lemma sync_exchange_witness :
  exists out,
    session [Received (lit "") true; Received (take 3 (short_frame (lit "hello"))) true;
             Received (drop 3 (short_frame (lit "hello"))) true; Eof] = Ok out
    /\ client (lit "hello") (replicate MAX_LENGTH CR) (echoed out)
       = Ok [Sent (short_frame (lit "hello")); Reply (lit "hello") 5].
Proof.
  apply (sync_exchange (lit "hello") (replicate MAX_LENGTH CR)
    [lit ""; take 3 (short_frame (lit "hello")); drop 3 (short_frame (lit "hello"))]).
  - apply length_replicate.
  - apply (bool_decide_unpack _). vm_compute. exact I.
  - vm_compute. repeat constructor.
  - reflexivity.
Defined.

Lemma sync_limits_witness :
  client (replicate 1023 SP) (replicate MAX_LENGTH CR) [] = UB
  /\ session [Received (short_frame (replicate 1022 SP)) true] = UB.
Proof.
  split.
  - apply (sync_limits (replicate 1023 SP) (replicate MAX_LENGTH CR) []).
    + apply length_replicate.
    + apply (bool_decide_unpack _). vm_compute. exact I.
    + apply length_replicate.
  - apply (sync_limits (replicate 1022 SP) (replicate MAX_LENGTH CR) []).
    + apply length_replicate.
    + apply (bool_decide_unpack _). vm_compute. exact I.
    + apply length_replicate.
Defined.
