(* ===== verification/ApiExample.v ===== *)
(** * The asio examples: [2. AsyncServer/src/apiexample.cpp]

    Every function is a sequence of calls of asio.  A call is answered from a
    list, and an [api] computation returns what the function returns or throws,
    the calls it made and the answers it left; it is [Blocked] when a call gets no
    answer.  The loops consume an answer per turn. *)

From S2P Require Import Prelude CBase.

Inductive call :=
| FromString (ip : list char)
| AnyAddress (v6 : bool)
| Open
| Bind (port : Z)
| Listen (backlog : Z)
| Accept
| Resolve (host port : list char)
| Connect
| WriteSome (d : list char)
| ReadSome (n : nat)
| WriteAll (d : list char)
| ReadAll (n : nat).

Inductive answer :=
| Success
| Took (n : nat)
| Got (d : list char)
| Error (code : Z).

Inductive outcome (A : Type) :=
| Ret (a : A)
| Throw (code : Z)
| Blocked.
Arguments Ret {A} a.
Arguments Throw {A} code.
Arguments Blocked {A}.

Definition api (A : Type) : Type := list answer -> outcome A * list call * list answer.

Definition ret {A} (a : A) : api A := fun answers => (Ret a, [], answers).

Definition bind {A B} (x : api A) (f : A -> api B) : api B := fun answers =>
  match x answers with
  | (Ret a, calls, answers) =>
      let '(o, calls', answers) := f a answers in (o, calls ++ calls', answers)
  | (Throw code, calls, answers) => (Throw code, calls, answers)
  | (Blocked, calls, answers) => (Blocked, calls, answers)
  end.

Notation "'do*' x ':=' e 'in' k" := (bind e (fun x => k))
  (at level 10, x name, e at level 200, k at level 200) : backend_scope.
Notation "'do*' ' p ':=' e 'in' k" := (bind e (fun x => match x with p => k end))
  (at level 10, p pattern, e at level 200, k at level 200) : backend_scope.

(** A call that throws its error, and one that gives it as an [error_code]. *)
Definition call_throw (c : call) : api answer := fun answers =>
  match answers with
  | [] => (Blocked, [c], [])
  | Error code :: answers => (Throw code, [c], answers)
  | a :: answers => (Ret a, [c], answers)
  end.

Definition call_ec (c : call) : api Z := fun answers =>
  match answers with
  | [] => (Blocked, [c], [])
  | Error code :: answers => (Ret code, [c], answers)
  | _ :: answers => (Ret 0%Z, [c], answers)
  end.

(** [catch (system_error &er) { return er.code().value(); }]; the values are those
    a function returns, [UB] when it ends without a [return]. *)
Definition try_catch (x : api (res Z)) : api (res Z) := fun answers =>
  match x answers with
  | (Throw code, calls, answers) => (Ret (Ok code), calls, answers)
  | r => r
  end.

(** ** End points, sockets and acceptors *)
Section Values.
Local Open Scope Z_scope.

Definition return_ec (ec : Z) : api (res Z) :=
  if decide (ec <> 0) then ret (Ok ec) else ret (Ok 0).

Definition client_end_point : api (res Z) :=
  do* ec := call_ec (FromString (lit "127.0.0.1")) in return_ec ec.

(** [main] of [src/main.cpp]: it calls the first example. *)
Definition main : api Z := do* _ := client_end_point in ret 0.

Definition server_end_point : api (res Z) := ret (Ok 0).

Definition create_tcp_socket : api (res Z) := do* ec := call_ec Open in return_ec ec.

Definition create_acceptor_socket : api (res Z) := do* ec := call_ec Open in return_ec ec.

(** The constructor of the acceptor opens it; its exception is not caught. *)
Definition bind_acceptor_socket : api (res Z) :=
  do* _ := call_throw Open in
  do* ec := call_ec (Bind 3333) in return_ec ec.

Definition connect_to_end : api (res Z) :=
  try_catch (
    do* _ := call_throw (FromString (lit "192.168.1.124")) in
    do* _ := call_throw Open in
    do* _ := call_throw Connect in
    ret (Ok 0)).

Definition dns_connect_end : api (res Z) :=
  try_catch (
    do* _ := call_throw (Resolve (lit "www.baidu.com") (lit "3333")) in
    do* _ := call_throw Connect in
    ret (Ok 0)).

Definition accept_new_connection : api (res Z) :=
  try_catch (
    do* _ := call_throw Open in
    do* _ := call_throw (Bind 3333) in
    do* _ := call_throw (Listen 30) in
    do* _ := call_throw Accept in
    ret (Ok 0)).
End Values.

(** ** Buffers

    A buffer is the memory it views, an array of char included with its NUL.  Storage
    of [new char[n]] must be freed by [delete[]]; [unique_ptr<char>] frees by
    [delete]. *)
Inductive storage := NewScalar | NewArray.
Definition delete (s : storage) : res unit := match s with NewScalar => Ok tt | NewArray => UB end.

Definition use_const_buffer : list (list char) :=
  let buf := lit "hello world" in
  let asio_buf := take (length buf) (buf ++ [NUL]) in
  [] ++ [asio_buf].

Definition use_buffer_str : list char := lit "hello world" ++ [NUL].

(** The end of the block frees [buf]. *)
Definition use_buffer_array : res nat :=
  let BUF_SIZE_BYTES := 20 in
  let buf := NewArray in
  let input_buf := BUF_SIZE_BYTES in
  let* _ := delete buf in Ok input_buf.

(** The two ways to view the same text differ by its NUL; the array is freed the wrong
    way. *)
Lemma use_buffers :
  use_const_buffer = [lit "hello world"] /\ use_buffer_str = lit "hello world" ++ [NUL]
  /\ use_buffer_array = UB.
Proof. by split_and!. Qed.

(** ** Writing and reading *)

Definition took (a : answer) : nat := match a with Took n => n | _ => 0 end.
Definition got (a : answer) : list char := match a with Got d => d | _ => [] end.

Fixpoint write_loop (buf : list char) (total_bytes_written : nat) (answers : list answer)
    : outcome unit * list call * list answer :=
  if decide (total_bytes_written = length buf) then (Ret tt, [], answers)
  else
    let c := WriteSome (drop total_bytes_written buf) in
    match answers with
    | [] => (Blocked, [c], [])
    | Error code :: answers => (Throw code, [c], answers)
    | a :: answers =>
        let '(o, calls, answers) := write_loop buf (total_bytes_written + took a) answers in
        (o, c :: calls, answers)
    end.

Definition hello_world : list char := lit "hello world".

Definition write_to_socket : api unit := write_loop hello_world 0.

Definition MESSAGE_SIZE : nat := 7.

(** [buf] holds what was read so far in front. *)
Fixpoint read_loop (buf : list char) (total_bytes_read : nat) (answers : list answer)
    : outcome (list char) * list call * list answer :=
  if decide (total_bytes_read = MESSAGE_SIZE) then (Ret (take total_bytes_read buf), [], answers)
  else
    let c := ReadSome (MESSAGE_SIZE - total_bytes_read) in
    match answers with
    | [] => (Blocked, [c], [])
    | Error code :: answers => (Throw code, [c], answers)
    | a :: answers =>
        let '(o, calls, answers) :=
          read_loop (blit total_bytes_read (got a) buf) (total_bytes_read + length (got a)) answers in
        (o, c :: calls, answers)
    end.

Definition read_from_socket (junk : list char) : api (list char) := read_loop junk 0.

Section Transfers.
Local Open Scope Z_scope.

Definition connected {A} (k : api A) : api A :=
  do* _ := call_throw (FromString (lit "192.168.3.11")) in
  do* _ := call_throw Open in
  do* _ := call_throw Connect in k.

Definition send_data_by_write_some : api (res Z) :=
  try_catch (connected (do* _ := write_to_socket in ret (Ok 0))).

Definition send_data_by_send : api (res Z) :=
  try_catch (connected (
    do* a := call_throw (WriteSome hello_world) in
    let sendlength := to_int (Z.of_nat (took a)) in
    if decide (sendlength <= 0) then ret (Ok 0) else ret (Ok 0))).

Definition send_data_by_write : api (res Z) :=
  try_catch (connected (
    do* a := call_throw (WriteAll hello_world) in
    let sendlength := to_int (Z.of_nat (took a)) in
    if decide (sendlength <= 0) then ret (Ok 0) else ret (Ok 0))).

(** The three readers have no [return] after their [try] block. *)
Definition read_data_by_read_some (junk : list char) : api (res Z) :=
  try_catch (connected (do* result := read_from_socket junk in ret UB)).

Definition read_data_by_receive : api (res Z) :=
  try_catch (connected (
    do* a := call_throw (ReadSome MESSAGE_SIZE) in
    let receive_length := to_int (Z.of_nat (length (got a))) in
    if decide (receive_length <= 0) then ret (Ok 0) else ret UB)).

Definition read_data_by_read : api (res Z) :=
  try_catch (connected (
    do* a := call_throw (ReadAll MESSAGE_SIZE) in
    let receive_length := to_int (Z.of_nat (length (got a))) in
    if decide (receive_length <= 0) then ret (Ok 0) else ret UB)).
End Transfers.

(** ** The loops *)

(** The bytes of the writes [calls] that the socket took. *)
Definition sent (calls : list call) (ns : list nat) : list char :=
  concat (zip_with (fun c n => match c with WriteSome d | WriteAll d => take n d | _ => [] end)
    calls ns).

Lemma write_loop_stops buf total rest :
  total = length buf -> write_loop buf total rest = (Ret tt, [], rest).
Proof. intros H. destruct rest; cbn; by rewrite decide_True. Qed.

(** The calls the loops make. *)
Fixpoint write_calls (buf : list char) (total : nat) (ns : list nat) : list call :=
  match ns with
  | [] => []
  | n :: ns => WriteSome (drop total buf) :: write_calls buf (total + n) ns
  end.

Fixpoint read_calls (total : nat) (ds : list (list char)) : list call :=
  match ds with
  | [] => []
  | d :: ds => ReadSome (MESSAGE_SIZE - total) :: read_calls (total + length d) ds
  end.

Lemma sent_write_calls buf ns total :
  sent (write_calls buf total ns) ns = take (sum_list ns) (drop total buf).
Proof.
  revert total. induction ns as [|n ns IH]; intros total; [done|].
  unfold sent in *. cbn [write_calls zip_with concat]. rewrite IH, <- drop_drop.
  exact (take_take_drop (drop total buf) n (sum_list ns)).
Qed.

Lemma write_loop_run buf ns total rest :
  Forall (lt 0) ns -> total + sum_list ns <= length buf ->
  write_loop buf total ((Took <$> ns) ++ rest)
  = let '(o, calls, rest') := write_loop buf (total + sum_list ns) rest in
    (o, write_calls buf total ns ++ calls, rest').
Proof.
  revert total. induction ns as [|n ns IH]; intros total Hn Hs.
  - change (sum_list []) with 0. rewrite Nat.add_0_r. cbn [app fmap list_fmap write_calls].
    by destruct (write_loop buf total rest) as [[]].
  - apply Forall_cons in Hn as [H0 Hn].
    change (sum_list (n :: ns)) with (n + sum_list ns) in *.
    cbn [app fmap list_fmap write_loop write_calls].
    rewrite decide_False by lia. cbn [took]. rewrite (IH (total + n)) by (done || lia).
    rewrite Nat.add_assoc. by destruct (write_loop buf (total + n + sum_list ns) rest) as [[]].
Qed.

Lemma read_loop_run ds buf total rest :
  length buf = MESSAGE_SIZE -> Forall (fun d => d <> []) ds ->
  total + length (concat ds) <= MESSAGE_SIZE ->
  read_loop buf total ((Got <$> ds) ++ rest)
  = let '(o, calls, rest') :=
      read_loop (blit total (concat ds) buf) (total + length (concat ds)) rest in
    (o, read_calls total ds ++ calls, rest').
Proof.
  revert total buf. induction ds as [|d ds IH]; intros total buf Hb Hd Hs.
  - cbn [concat fmap list_fmap app read_calls length]. rewrite blit_nil, Nat.add_0_r.
    by destruct (read_loop buf total rest) as [[]].
  - apply Forall_cons in Hd as [Hd Hds]. cbn [concat] in *. rewrite length_app in *.
    assert (0 < length d) by (destruct d; [done|simpl; lia]).
    cbn [app fmap list_fmap read_loop read_calls]. rewrite decide_False by lia. cbn [got].
    rewrite (IH (total + length d)) by (done || lia || (rewrite length_blit; lia)).
    rewrite blit_app, Nat.add_assoc by lia.
    by destruct (read_loop _ (total + length d + length (concat ds)) rest) as [[]].
Qed.

(** [write_to_socket] sends its text once and in order, in as many writes as the
    socket needs, and then returns; an error ends it after a prefix of the text. *)
Theorem write_to_socket_spec ns rest :
  Forall (lt 0) ns -> sum_list ns <= length hello_world ->
  let calls := write_calls hello_world 0 ns in
  sent calls ns = take (sum_list ns) hello_world
  /\ (sum_list ns = length hello_world ->
      write_to_socket ((Took <$> ns) ++ rest) = (Ret tt, calls, rest))
  /\ (sum_list ns < length hello_world -> forall code,
      write_to_socket ((Took <$> ns) ++ Error code :: rest)
      = (Throw code, calls ++ [WriteSome (drop (sum_list ns) hello_world)], rest)).
Proof.
  intros Hn Hs calls. unfold write_to_socket. split; [apply sent_write_calls|].
  split; intros H; [|intros code]; rewrite write_loop_run by done; cbn [Nat.add].
  - rewrite write_loop_stops by done. by rewrite app_nil_r.
  - cbn [write_loop]. by rewrite decide_False by lia.
Qed.

Lemma read_from_socket_run junk ds rest :
  length junk = MESSAGE_SIZE -> Forall (fun d => d <> []) ds ->
  length (concat ds) = MESSAGE_SIZE ->
  read_from_socket junk ((Got <$> ds) ++ rest) = (Ret (concat ds), read_calls 0 ds, rest).
Proof.
  intros Hj Hd Hl. unfold read_from_socket. rewrite read_loop_run by (done || lia).
  rewrite Nat.add_0_l, Hl. assert (forall b, read_loop b MESSAGE_SIZE rest
    = (Ret (take MESSAGE_SIZE b), [], rest)) as -> by (by destruct rest).
  rewrite app_nil_r. do 3 f_equal. rewrite <- Hl. exact (take_blit 0 (concat ds) junk ltac:(lia)).
Qed.

(** [read_from_socket] returns the first seven bytes the peer sent, however they
    arrive, and asks for no more than those. *)
Theorem read_from_socket_spec junk ds rest :
  length junk = MESSAGE_SIZE -> Forall (fun d => d <> []) ds ->
  length (concat ds) = MESSAGE_SIZE ->
  read_from_socket junk ((Got <$> ds) ++ rest) = (Ret (concat ds), read_calls 0 ds, rest).
Proof. apply read_from_socket_run. Qed.

(** ** The order of the calls and what is returned *)

(** [accept_new_connection] opens, binds, listens and accepts, in this order; the
    first error is returned and ends it. *)
Theorem accept_new_connection_spec k code rest :
  let calls := [Open; Bind 3333; Listen 30; Accept] in
  accept_new_connection (replicate 4 Success ++ rest) = (Ret (Ok 0%Z), calls, rest)
  /\ (k < 4 -> accept_new_connection (replicate k Success ++ Error code :: rest)
               = (Ret (Ok code), take (S k) calls, rest)).
Proof.
  intros calls. split; [done|]. intros H.
  do 4 (destruct k as [|k]; [done|]). lia.
Qed.

(** The three readers return the code of an error and nothing when they succeed:
    they end without a [return]. *)
Theorem readers_no_return junk ds d code :
  length junk = MESSAGE_SIZE -> Forall (fun d => d <> []) ds ->
  length (concat ds) = MESSAGE_SIZE -> 0 < length d <= MESSAGE_SIZE ->
  (exists calls, read_data_by_read_some junk (replicate 3 Success ++ (Got <$> ds))
    = (Ret UB, calls, []))
  /\ (exists calls, read_data_by_receive (replicate 3 Success ++ [Got d]) = (Ret UB, calls, []))
  /\ (exists calls, read_data_by_read (replicate 3 Success ++ [Got d]) = (Ret UB, calls, []))
  /\ (forall k, k < 3 -> exists calls,
       read_data_by_read_some junk (replicate k Success ++ [Error code])
       = (Ret (Ok code), calls, [])).
Proof.
  intros Hj Hd Hl Hlen. unfold MESSAGE_SIZE in *.
  assert (~ (to_int (Z.of_nat (length d)) <= 0)%Z) as Hp
    by (rewrite to_int_id; unfold INT_MIN, INT_MAX; lia).
  split_and!.
  - pose proof (read_from_socket_run junk ds [] Hj Hd Hl) as H. rewrite app_nil_r in H.
    unfold read_data_by_read_some, try_catch, connected, bind, call_throw.
    cbn [replicate app]. rewrite H. by eexists.
  - unfold read_data_by_receive, try_catch, connected, bind, call_throw. cbn [replicate app got].
    rewrite decide_False by done. by eexists.
  - unfold read_data_by_read, try_catch, connected, bind, call_throw. cbn [replicate app got].
    rewrite decide_False by done. by eexists.
  - intros k Hk. do 3 (destruct k as [|k]; [by eexists|]). lia.
Qed.

Lemma read_from_socket_spec_witness :
  read_from_socket (replicate 7 NUL) [Got (lit "hel"); Got (lit "lo w"); Success]
  = (Ret (lit "hello w"), [ReadSome 7; ReadSome 4], [Success]).
Proof.
  apply (read_from_socket_spec (replicate 7 NUL) [lit "hel"; lit "lo w"] [Success]).
  - reflexivity.
  - repeat constructor; discriminate.
  - reflexivity.
Defined.

Lemma write_to_socket_spec_witness :
  write_to_socket [Took 4; Took 7; Success]
  = (Ret tt, [WriteSome (lit "hello world"); WriteSome (lit "o world")], [Success])
  /\ write_to_socket [Took 4; Error 32; Success]
     = (Throw 32, [WriteSome (lit "hello world"); WriteSome (lit "o world")], [Success]).
Proof.
  split.
  - apply (write_to_socket_spec [4; 7] [Success]);
      [repeat constructor; lia | vm_compute; lia | reflexivity].
  - apply (write_to_socket_spec [4] [Success]);
      [repeat constructor; lia | vm_compute; lia | vm_compute; lia].
Defined.

Lemma accept_new_connection_spec_witness :
  accept_new_connection [Success; Error 98; Success] = (Ret (Ok 98%Z), [Open; Bind 3333], [Success]).
Proof. apply (accept_new_connection_spec 1 98 [Success]). lia. Defined.

Lemma readers_no_return_witness :
  exists calls, read_data_by_receive [Success; Success; Success; Got (lit "hi")]
    = (Ret UB, calls, []).
Proof.
  apply (readers_no_return (replicate 7 NUL) [lit "hel"; lit "lo w"] (lit "hi") 0).
  - reflexivity.
  - repeat constructor; discriminate.
  - reflexivity.
  - vm_compute. lia.
Defined.
